(* ===== verification/_CoqProject ===== *)
-Q . S2P
Prelude.v
Pytext.v
PyVal.v
Json.v
Retry.v
JobQueue.v
Pytime.v
Ddl.v
FlexClient.v
Handlers.v
ConfigRw.v
Summary.v
Ingest.v
Coverage.v
Transactions.v
Trades.v
Cron.v
Schedule.v
Diagnose.v
OpsCheck.v
HttpMetrics.v
Config.v
Notify.v
SlotCli.v
Manual.v
Metrics.v
Dashboard.v
Routes.v
RawPeek.v
Worker.v
Health.v
Progress.v
Steady.v
Outage.v
Recovery.v
System.v
Life.v
App.v
Plant.v
