(* ===== verification/Prelude.v ===== *)
(** * A verified model of the Flex Query ingest plugin

    The plugin fetches Interactive Brokers Flex statements (trades and cash transactions),
    lands them in Postgres through [bifrost_core] and reports on itself. Work arrives as rows
    of a job table, written by a scheduler, by the API or by the worker's own catch-up; one
    worker claims them, runs a handler and marks the outcome; the API serves self-checks,
    dashboards and metrics from the same tables. All paths below are under
    [src/src/bifrost_flex_query/].

    ** Parts, files and sources

    Foundations.
    - [Prelude] (this file): Python exceptions and fallible computations ([res]), the loops of
      the code ([fold_res], [min_by] for [ORDER BY ... LIMIT 1], [keep_first] for running
      minima), shared lemmas and tactics.
    - [Pytext], [PyVal], [Json], [Pytime]: the parts of Python's [str], of dynamic values and
      dicts, of [json.dumps(sort_keys=True)] and of [datetime] the sources use. A moment is a
      number of microseconds since 1970, a day a number of days; a zone database is a class.

    The queue and its worker.
    - [Retry] ([worker/retry.py]): error categories, the policy, the plan after a failure.
    - [JobQueue] ([worker/claim.py], [scheduler/enqueue.py], run-now of [api/ingest.py], the
      table of [schema/ddl.py]): every statement on the table as a function of it, with the
      partial unique index and the widths of the columns; [queue_ok] is the invariant.
    - [Handlers] ([worker/handlers.py]): dispatch, the interface [Orchestrations] it is
      proved against, the freshness row.
    - [Worker], [Health] ([worker/loop.py], [worker/health.py]): the reconnecting
      [WorkerDb.call], both halves of a round, and the system as a step relation ([sys_step])
      of one worker, any clients, crashes and lost answers, with its invariant ([sys_ok]) and
      the abstract life of a queued job or a manual run ([life_step]) it refines; what the
      health server sends.
    - [Progress], [Steady]: the loop of rounds and why it ends every job, whatever the handlers
      answer, without the catch-up and with it.
    - [Outage]: the same loop as a process ([turn], [startup]) whose every statement goes
      through the retrying call ([call], [db]) and may find no database or lose it before or
      after its commit, before each of whose tries others may change what is shared
      ([o_meanwhile]), which may be killed between any two calls, and after which another
      starts ([live], [lives]); [proc] is its monad: what was done stays done when it raises.
      [Life]: which jobs it marks done. [Recovery]: what becomes of it once Postgres stays up.
    - [System]: the loop with [dispatch] and both fetches plugged in, from the worker's tables
      and the fetches' world to the next ([full_round], [full_rounds]).
    - [Cron], [Schedule], [SlotCli] ([scheduler/cronutil.py], [scheduler/daily.py],
      [worker/catchup.py]): cron plans and their fires, slots and their jobs, the catch-up,
      the schedule file and the slot command.

    The fetches.
    - [FlexClient] ([client/flex_client.py]): request parameters, polling, the parsers of
      trade and cash rows.
    - [Ingest], [Transactions], [Trades] ([orchestration/]): the two runs as computations on
      the world (requests made, tables, messages). [Reports], [CoreWriters] and [RunContext]
      are their interfaces; [FlexClient] implements the first ([flex_reports]) and the runs
      implement [Orchestrations] ([flex_orchestrations]).
    - [ConfigRw], [Summary] ([orchestration/config_rw.py], [api/config_summary.py]): tokens,
      query rows and range days, read, written and summarised.
    - [Notify] ([orchestration/notify.py]): where a run's message goes; [run_context] is what
      the runs see of it, and [Ingest.publish] sends as it does ([publish_is_published]).
    - [Ddl] ([schema/ddl.py]): the schema as a set of tables and columns, the freshness and
      heartbeat rows.

    The API.
    - [Config] ([config.py], [api/deps.py]): configuration file and environment, write guards.
    - [Coverage], [Diagnose], [OpsCheck] ([ops/], [api/ops.py]): coverage gaps, the verdicts,
      the reads behind the self-check.
    - [HttpMetrics], [Metrics] ([api/http_metrics.py], [api/metrics.py]): request histograms
      on IEEE doubles, the exposition text.
    - [Dashboard], [Routes], [Manual] ([api/freshness_kpis.py], [api/ingest_dashboard.py],
      [api/ingest.py], [api/coverage.py], [api/manual_ops.py]).
    - [RawPeek] ([api/raw_peek.py]): the newest rows of a table as JSON; what the database
      answers to the statement's text is an argument, what SQL promises of the answer to any
      SELECT it can read ([parse_select], [answers_selects]) a hypothesis.
    - [App] ([api/app.py], [api/deps.py], [api/health.py]): every route behind its guard, its
      connection and the metrics middleware ([handle], [serve]), as a step of what the
      service keeps ([site]); [web] is the monad of a route, with an [HTTPException], a
      validation error or an escaping exception as its ways to stop.
    - [Plant]: the worker's life, the API and the slot command over one database, as a history
      of events ([happen], [history]): a turn of the worker, with what the others do at each
      stage of it ([amid]), or one of the others alone ([befall]).

    ** What is proved

    - The queue. Reachable tables keep at most one active job per identity and ids below the
      sequence; a claim takes the first runnable job; a reclaim, a cooldown, an enqueue do
      what they say ([queue_dedupe_invariant], [claim_next_spec], [reclaim_stale_running_spec],
      [throttle_cooldown_holds], [insert_job_spec]).
    - The worker. No job is started more often than its budget under any interleaving
      ([attempt_budget]); every step refines the job's published life ([lifecycle_refinement]);
      the executable loop refines the steps ([rounds_refine_system]) and so does the process,
      through any outages, kills and restarts and in any orderly company ([lives_refine]); the
      end of a round on every verdict ([finish_round_spec]); a database call ends ([db_call_spec]).
    - The whole. Over any history of the service, the others acting between the worker's
      turns, between the statements of one and between the tries of a statement, a queued job
      that shows as done ran its fetch to the end ([plant_done_landed], for one turn of the
      loop [done_job_landed]), and any history is a run of the step relation
      ([plant_refines_system]). Every job ends:
      whatever IB, the writers and the connections do and whatever a crash left running
      ([whole_run], by [every_job_ends]), with the catch-up on once IB stops throttling
      ([steady_run], by [jobs_end_steady]), and after outages of any length, with others still at
      work who leave the jobs alone ([whole_life], by [outages_recovered]), which may cost
      the process one more death.
    - The fetches. A run the handler accepts got every chunk or query and wrote all of it
      ([accepted_run_complete], [accepted_trades_complete], behind [done_job_landed]); windows
      are tiled by accepted requests ([chunks_of_spec], [transactions_window_spec]); an unready
      statement is never taken for a report ([get_statement_spec]), an error has a text
      ([flex_errors_named]); fallbacks, messages, give-up and refusal
      ([fetch_trades_fallback_spec], [runs_told_once], [no_credentials_give_up],
      [long_outage_never_recovers]).
    - Errors. The category of a joined error text is the worst of its parts
      ([classify_join_summarize]); dispatch on every outcome ([dispatch_spec]).
    - The plan. Cron text denotes its plan and fires are exactly the matching minutes
      ([parse_cron_text], [iter_cron_fires_spec], [previous_fire_spec]); missed slots are found
      and enqueued once per fire ([missed_slots_spec], [catchup_not_repeated]); the slot command exits
      with zero only when its job is active ([exit_zero_means_enqueued]).
    - Agreement between parts. The self-check, the queue board and the catch-up see the same
      missed plans ([missed_plan_is_caught_up], [off_plan_is_missed]); a verdict says what the
      queue will do ([verdict_matches_queue]); a quiet check means what an operator takes it
      to mean ([quiet_check_means]); the configuration summary shows what the fetches use and
      no more of a token than four characters ([summary_matches_fetches],
      [summary_hides_tokens]); freshness tells the truth ([freshness_truthful]) and the
      overview reads it right ([freshness_kpis_spec]).
    - The edges. Every request behind its guard and its connection ([request_guarded], with
      [write_guards_spec]), routes, manual runs ([enqueue_route_spec],
      [enqueue_retry_safe], [list_jobs_spec], [manual_run_trail]); the health answer
      ([health_response_spec]); configuration read after
      write, the environment's precedence ([write_flex_config_spec], [environment_wins]);
      the raw peek ([raw_peek_spec]); coverage, histograms and metrics text ([read_coverage_spec], [hist_render_spec],
      [metrics_text_lines], [collect_metrics_spec], [labels_roundtrip]).

    ** Bounds and fuel

    [FlexClient.get_statement] polls 24 times as the source does. [Transactions.split_loop]
    carries as fuel one more than the number of days of the window, which its chunks never reach;
    [Cron.fires_loop] carries the number of whole minutes of its window ([rounds]); both are
    shown to be enough by the theorems on them, which state the exact lists. [db_loop] and
    [connect_loop] are structural on the source's own lists of delays and attempts.
    [every_job_ends], [jobs_end_steady] and [outages_recovered] need no fuel: they find the number
    of turns, by induction on the tries left; the catch-up adds jobs, so with it on each job
    is counted for itself. Database integers keep their width ([fits_smallint], [fits_int4]); dates outside years 1 to 9999 raise. Ages and differences of
    moments are kept in microseconds where the code divides by a million: the whole parts it
    prints agree for moments less than 285 years apart. [HttpMetrics] uses the Standard
    Library's 53-bit floats; a float read from text elsewhere is the decimal it denotes.

    ** Interfaces

    What is not under [src/] is a class or an argument: IB's HTTP and the XML parser
    ([FlexWeb], [XmlParser]), the writers and Redis helpers of [bifrost_core] ([CoreWriters],
    [MessageCenter]), SHA-256, [repr], the printed form of a float, zone data and zone names, the
    database's collation, the process's environment and files ([Process]), and every clock:
    the API's and the database's times are separate arguments. Failing reads, the message
    center's URL and its stream are arguments too ([RunContext]), and so are other failures of
    the database ([run_db], [TrailFaults], a [res] or an [option exn] in place of a value).

    ** Not modelled

    Sleeping, logging, threads and sockets; how the framework parses paths, parameters and
    bodies; transactions below the granularity of a statement, except for what the locks of a
    claim hide ([tk_locked]); message ids and their times; digits outside ASCII in a text. The
    worker's own statements may commit and lose the answer ([fault]); the outcome of a job,
    the trail of a manual run and a configuration write, on connections of their own, fail
    without a trace. In [Worker] a heartbeat is always written; [Outage] lets it fail. In
    [Plant] a request is one event, which the worker's statements may surround but not
    interrupt, and a dispatch meets the others before and after it only; [sys_step] has every
    statement of a client between any two of the worker's, and a manual run's row and its end
    as two. Once the outages are over [whole_life] lets the others read, write the
    configuration and restart, but not touch the jobs: endless inserts of a higher priority
    would starve a job for good.

    ** Open

    [whole_life] with clients that insert a bounded number of jobs after the outages;
    the parsing of a request's parameters. *)
From stdpp Require Export base tactics option list gmap strings numbers sorting pretty relations.
From Stdlib Require Export ZArith Lia.
#[global] Open Scope Z_scope.

(** ** Python exceptions and fallible computations *)

(** The exception classes the sources raise or catch. [OtherError] stands for
    every class that only a bare [except Exception] would catch. *)
Inductive exn_class :=
| ValueError | TypeError | AttributeError | OverflowError | RuntimeError
| OperationalError | InterfaceError | DatabaseError | URLError | OtherError.

#[export] Instance exn_class_eq_dec : EqDecision exn_class.
Proof. solve_decision. Defined.

(** An exception value: its class and [str(exc)]. *)
Record exn := Exn { exn_cls : exn_class; exn_str : string }.

#[export] Instance exn_eq_dec : EqDecision exn.
Proof. solve_decision. Defined.

(** A Python computation either returns or raises. *)
Inductive res (A : Type) :=
| Ok (a : A)
| Raise (e : exn).
Arguments Ok {_} _.
Arguments Raise {_} _.

#[export] Instance res_eq_dec {A} `{EqDecision A} : EqDecision (res A).
Proof. solve_decision. Defined.

#[export] Instance res_ret : MRet res := λ A a, Ok a.
#[export] Instance res_bind : MBind res := λ A B f m,
  match m with Ok a => f a | Raise e => Raise e end.
#[export] Instance res_fmap : FMap res := λ A B f m,
  match m with Ok a => Ok (f a) | Raise e => Raise e end.

Definition is_ok {A} (m : res A) : bool :=
  match m with Ok _ => true | Raise _ => false end.

(** [try: m; except classes: handler]. *)
Definition try_except {A} (classes : list exn_class) (m : res A) (handler : exn → res A) : res A :=
  match m with
  | Ok a => Ok a
  | Raise e => if decide (exn_cls e ∈ classes) then handler e else Raise e
  end.

Section res_lemmas.
Context {A B : Type}.

Lemma res_bind_ok (m : res A) (f : A → res B) b :
  m ≫= f = Ok b ↔ ∃ a, m = Ok a ∧ f a = Ok b.
Proof. destruct m; simpl; naive_solver. Qed.

Lemma res_bind_raise (m : res A) (f : A → res B) e :
  m ≫= f = Raise e ↔ m = Raise e ∨ ∃ a, m = Ok a ∧ f a = Raise e.
Proof. destruct m; simpl; naive_solver. Qed.

Lemma res_fmap_ok (m : res A) (f : A → B) b :
  f <$> m = Ok b ↔ ∃ a, m = Ok a ∧ f a = b.
Proof. destruct m; simpl; naive_solver. Qed.
End res_lemmas.

(** Fold a fallible function over a list, left to right, stopping at the first
    exception: the meaning of a [for] loop whose body may raise. *)
Fixpoint fold_res {A S} (f : S → A → res S) (s : S) (l : list A) : res S :=
  match l with
  | [] => Ok s
  | a :: l' => match f s a with Ok s' => fold_res f s' l' | Raise e => Raise e end
  end.

Lemma fold_res_app {A S} (f : S → A → res S) s l1 l2 :
  fold_res f s (l1 ++ l2) = fold_res f s l1 ≫= λ s', fold_res f s' l2.
Proof. revert s. induction l1 as [|a l1 IH]; intros s; simpl; [done|]. by destruct (f s a). Qed.

(** The loop [for a in l: acc = step(acc, f(a))] with a fallible [f]. *)
Lemma fold_res_step {A B S} (f : A → res B) (step : S → B → S) (l : list A) (acc r : S) :
  fold_res (λ s a, step s <$> f a) acc l = Ok r ↔
  ∃ bs, Forall2 (λ a b, f a = Ok b) l bs ∧ r = fold_left step bs acc.
Proof.
  revert acc. induction l as [|a l IH]; intros acc; cbn [fold_res].
  - split; [intros [= <-]; by exists []|]. by intros (bs & ->%Forall2_nil_inv_l & ->).
  - destruct (f a) as [b|e] eqn:E; cbn [fmap res_fmap].
    + rewrite IH. split.
      * intros (bs & Hbs & ->). exists (b :: bs). split; [by constructor|done].
      * intros (bs & Hbs & ->). apply Forall2_cons_inv_l in Hbs as (b' & bs' & Hb & Hbs & ->).
        exists bs'. split; [done|]. rewrite E in Hb. by injection Hb as <-.
    + split; [done|]. intros (bs & Hbs & ->). apply Forall2_cons_inv_l in Hbs as (? & ? & ? & _). congruence.
Qed.

(** The loop [for a in l: out.append(f(a))]: the images, in order. *)
Lemma fold_res_collect {A B} (f : A → res B) (l : list A) (acc r : list B) :
  fold_res (λ out a, (λ b, out ++ [b]) <$> f a) acc l = Ok r ↔
  ∃ bs, Forall2 (λ a b, f a = Ok b) l bs ∧ r = acc ++ bs.
Proof.
  rewrite (fold_res_step f (λ out b, out ++ [b])).
  assert (∀ bs acc : list B, fold_left (λ out b, out ++ [b]) bs acc = acc ++ bs) as E.
  { induction bs as [|b bs IH]; intros acc'; cbn; [by rewrite app_nil_r|]. by rewrite IH, <-app_assoc. }
  by setoid_rewrite E.
Qed.

(** ** Selecting a minimum *)

(** [min_by lt l] is the element of [l] that [ORDER BY ... LIMIT 1] returns when
    [lt] is the ordering of the statement. *)
Fixpoint min_by {A} (lt : A → A → bool) (l : list A) : option A :=
  match l with
  | [] => None
  | a :: l' =>
      match min_by lt l' with
      | None => Some a
      | Some b => if lt b a then Some b else Some a
      end
  end.

Section min_by.
Context {A : Type} (lt : A → A → bool).

Lemma min_by_elem l a : min_by lt l = Some a → a ∈ l.
Proof.
  revert a. induction l as [|x l IH]; simpl; intros a Ha; [done|].
  destruct (min_by lt l) as [b|] eqn:Hb; [|set_solver].
  destruct (lt b x); simplify_eq; set_solver.
Qed.

Lemma min_by_None l : min_by lt l = None ↔ l = [].
Proof.
  destruct l as [|x l]; [done|]; simpl.
  split; [|done]. destruct (min_by lt l) as [b|]; [destruct (lt b x)|]; done.
Qed.

(** Nothing in the list comes before the selected element. *)
Lemma min_by_least l a :
  (∀ x y z, lt x y = true → lt y z = true → lt x z = true) →
  (∀ x y, x ∈ l → y ∈ l → lt x y = false → lt y x = true ∨ x = y) →
  (∀ x, lt x x = false) →
  min_by lt l = Some a → ∀ x, x ∈ l → lt x a = false.
Proof.
  intros Htrans Htot Hirr. revert a.
  induction l as [|x l IH]; simpl; intros a Ha y Hy; [set_solver|].
  assert (∀ a, min_by lt l = Some a → ∀ x, x ∈ l → lt x a = false) as IH'.
  { apply IH. intros; apply Htot; set_solver. }
  destruct (min_by lt l) as [b|] eqn:Hb.
  - assert (b ∈ l) by (by apply min_by_elem).
    destruct (lt b x) eqn:Hbx; simplify_eq.
    + apply elem_of_cons in Hy as [->|Hy]; [|by apply IH'].
      destruct (lt x a) eqn:?; [|done].
      rewrite <-(Hirr a). symmetry. by eapply Htrans.
    + apply elem_of_cons in Hy as [->|Hy]; [done|].
      destruct (lt y a) eqn:Hya; [|done]. exfalso.
      destruct (Htot b a) as [?|<-]; [set_solver..|done| |].
      * specialize (IH' b eq_refl y Hy).
        assert (lt y b = true) by (by eapply Htrans). congruence.
      * specialize (IH' b eq_refl y Hy). congruence.
  - apply min_by_None in Hb. simplify_eq. set_solver.
Qed.
End min_by.

(** When the order is by a key, the selected element has the least key; which element
    of equal key it is does not matter. *)
Lemma min_by_key {A} (lt : A → A → bool) (key : A → Z) l a :
  (∀ x y, lt x y = true ↔ key x < key y) → min_by lt l = Some a → ∀ x, x ∈ l → key a ≤ key x.
Proof.
  intros Hlt. revert a. induction l as [|y l IH]; simpl; intros a Ha x Hx; [done|].
  destruct (min_by lt l) as [b|] eqn:Hb.
  - specialize (IH b eq_refl). pose proof (Hlt b y). destruct (lt b y); simplify_eq.
    + apply elem_of_cons in Hx as [->|Hx]; [|by apply IH]. assert (key a < key y) by tauto. lia.
    + apply elem_of_cons in Hx as [->|Hx]; [done|]. specialize (IH x Hx).
      destruct (decide (key b < key a)); [|lia]. assert (false = true) by tauto. done.
  - apply min_by_None in Hb as ->. simplify_eq. by apply list_elem_of_singleton in Hx as ->.
Qed.

Lemma min_by_max_key {A} (key : A → Z) l a :
  min_by (λ x y, key y <? key x) l = Some a → ∀ x, x ∈ l → key x ≤ key a.
Proof.
  intros Ha x Hx.
  assert (- key a ≤ - key x); [|lia]. apply (min_by_key (λ x y, key y <? key x) (λ x, - key x) l); [|done..].
  intros. rewrite Z.ltb_lt. lia.
Qed.

(** [if x is not None and (acc is None or x < acc): acc = x]. *)
Definition keep_first {A} (lt : A → A → bool) (acc x : option A) : option A :=
  match x, acc with
  | None, _ => acc
  | Some _, None => x
  | Some a, Some b => if lt a b then x else acc
  end.

(** The loop over it keeps an element of least key, or nothing when there is none. *)
Lemma keep_first_fold {A} (lt : A → A → bool) (key : A → Z) (l : list (option A)) acc :
  (∀ x y, lt x y = true ↔ key x < key y) →
  match fold_left (keep_first lt) l acc with
  | None => acc = None ∧ ∀ x, x ∈ l → x = None
  | Some a => (acc = Some a ∨ Some a ∈ l) ∧ ∀ b, acc = Some b ∨ Some b ∈ l → key a ≤ key b
  end.
Proof.
  intros Hlt. revert acc. induction l as [|x l IH]; intros acc; cbn [fold_left].
  - destruct acc as [a|]; [|split; [done|set_solver]]. split; [by left|]. intros b [[= <-]|?]; [done|set_solver].
  - specialize (IH (keep_first lt acc x)).
    assert (∀ b, keep_first lt acc x = Some b → (acc = Some b ∨ x = Some b)
              ∧ ∀ c, acc = Some c ∨ x = Some c → key b ≤ key c) as Hkeep.
    { intros b. unfold keep_first. destruct x as [x|], acc as [c|]; [pose proof (Hlt x c) as Hxc; destruct (lt x c)|..];
        intros [= <-]; (split; [auto|intros d [[= <-]|[= <-]]]); lia. }
    assert (keep_first lt acc x = None → acc = None ∧ x = None) as Hnone.
    { unfold keep_first. destruct x as [x|], acc as [c|]; [destruct (lt x c)|..]; done. }
    destruct (fold_left _ l _) as [a|].
    + destruct IH as [Hin Hle]. assert (∀ b, acc = Some b ∨ x = Some b → key a ≤ key b) as Hboth.
      { intros b Hb. destruct (keep_first lt acc x) as [c|] eqn:E.
        - destruct (Hkeep c eq_refl) as [_ Hc]. specialize (Hc b Hb). specialize (Hle c (or_introl eq_refl)). lia.
        - destruct (Hnone eq_refl) as [-> ->]. by destruct Hb. }
      split.
      * destruct Hin as [E|Hin]; [|set_solver]. destruct (Hkeep a E) as [[?|Hx] _]; [by left|right; rewrite Hx; set_solver].
      * intros b [Hb|[Hb|Hb]%elem_of_cons]; auto.
    + destruct IH as [E Hl]. destruct (Hnone E) as [-> ->]. split; [done|]. intros y [->|Hy]%elem_of_cons; auto.
Qed.

(** ** Lists of pairs *)

(** When no first component repeats, it determines the second. *)
Lemma NoDup_fst_functional {K A} (l : list (K * A)) k a b :
  NoDup l.*1 → (k, a) ∈ l → (k, b) ∈ l → a = b.
Proof.
  induction l as [|[k' c] l IH]; simpl; intros Hnd Ha Hb; [set_solver|].
  apply NoDup_cons in Hnd as [Hnot Hnd].
  apply elem_of_cons in Ha as [?|Ha], Hb as [?|Hb]; simplify_eq; try done.
  - destruct Hnot. by apply (list_elem_of_fmap_2 fst l (k', b)).
  - destruct Hnot. by apply (list_elem_of_fmap_2 fst l (k', a)).
  - by apply IH.
Qed.

(** ** Reachability *)

(** What every step preserves holds of every reachable state. *)
Lemma rtc_invariant {A} (R : relation A) (P : A → Prop) x y :
  (∀ a b, R a b → P a → P b) → P x → rtc R x y → P y.
Proof. intros Hstep Hx Hr. induction Hr; eauto. Qed.

(** ** Shared automation *)

Create HintDb flex.
#[export] Hint Resolve min_by_elem : flex.

(** Split boolean conjunctions, disjunctions and comparisons in the hypotheses
    into propositions [lia] and [naive_solver] can use. *)
Ltac bool_hyps :=
  repeat match goal with
  | H : (_ && _)%bool = true |- _ => apply andb_true_iff in H; destruct H
  | H : (_ || _)%bool = false |- _ => apply orb_false_iff in H; destruct H
  | H : negb _ = true |- _ => apply negb_true_iff in H
  | H : negb _ = false |- _ => apply negb_false_iff in H
  | H : (_ <? _) = true |- _ => apply Z.ltb_lt in H
  | H : (_ <? _) = false |- _ => apply Z.ltb_ge in H
  | H : (_ <=? _) = true |- _ => apply Z.leb_le in H
  | H : (_ <=? _) = false |- _ => apply Z.leb_gt in H
  | H : (_ =? _) = true |- _ => apply Z.eqb_eq in H
  | H : (_ =? _) = false |- _ => apply Z.eqb_neq in H
  | H : bool_decide _ = true |- _ => apply bool_decide_eq_true in H
  | H : bool_decide _ = false |- _ => apply bool_decide_eq_false in H
  end.

(** Invert the [Ok]/[Raise] equations of a monadic computation. *)
Ltac inv_res :=
  repeat match goal with
  | H : mbind _ _ = Ok _ |- _ => apply res_bind_ok in H as (? & ? & ?)
  | H : fmap _ _ = Ok _ |- _ => apply res_fmap_ok in H as (? & ? & ?)
  | H : Ok _ = Ok _ |- _ => simplify_eq
  | H : Raise _ = Ok _ |- _ => discriminate H
  | H : Ok _ = Raise _ |- _ => discriminate H
  end.

(** Break the innermost [match] of the goal and close what becomes trivial. *)
Ltac break :=
  repeat (case_match; simplify_eq/=; try done).
