(* ===== verification/Pytext.v ===== *)
(** * Python text

    The [str] operations the sources use, on strings represented by their UTF-8
    bytes. [len] and slices count code points; character classes ([strip],
    [lower], [upper], [isdigit], the regular expressions) are those of ASCII. *)
From S2P Require Import Prelude.
From Stdlib Require Import Ascii.

Notation char_code c := (Z.of_N (N_of_ascii c)).

(** ** Character classes *)

(** [str.isspace] on ASCII: \t \n \v \f \r, 0x1c-0x1f and the space. *)
Definition is_space (c : ascii) : bool :=
  let n := char_code c in
  ((9 <=? n) && (n <=? 13)) || ((28 <=? n) && (n <=? 32)).

Definition is_digit (c : ascii) : bool :=
  let n := char_code c in (48 <=? n) && (n <=? 57).

Definition digit_val (c : ascii) : Z := char_code c - 48.

Definition lower_char (c : ascii) : ascii :=
  let n := char_code c in
  if (65 <=? n) && (n <=? 90) then ascii_of_N (Z.to_N (n + 32)) else c.

Definition upper_char (c : ascii) : ascii :=
  let n := char_code c in
  if (97 <=? n) && (n <=? 122) then ascii_of_N (Z.to_N (n - 32)) else c.

Definition is_lower (c : ascii) : bool :=
  let n := char_code c in (97 <=? n) && (n <=? 122).

(** ** Whole-string operations *)

Fixpoint str_map (f : ascii → ascii) (s : string) : string :=
  match s with EmptyString => "" | String c s' => String (f c) (str_map f s') end.

Definition lower (s : string) : string := str_map lower_char s.
Definition upper (s : string) : string := str_map upper_char s.

Fixpoint str_forallb (p : ascii → bool) (s : string) : bool :=
  match s with EmptyString => true | String c s' => p c && str_forallb p s' end.

(** [str.isdigit]: at least one character, all of them digits. *)
Definition isdigit (s : string) : bool :=
  match s with EmptyString => false | _ => str_forallb is_digit s end.

Fixpoint lstrip (s : string) : string :=
  match s with
  | EmptyString => ""
  | String c s' => if is_space c then lstrip s' else s
  end.

Fixpoint rstrip (s : string) : string :=
  match s with
  | EmptyString => ""
  | String c s' =>
      match rstrip s' with
      | EmptyString => if is_space c then "" else String c ""
      | r => String c r
      end
  end.

Definition strip (s : string) : string := rstrip (lstrip s).

(** [s.startswith(p)]. *)
Fixpoint startswith (p s : string) : bool :=
  match p, s with
  | EmptyString, _ => true
  | String a p', String b s' => if decide (a = b) then startswith p' s' else false
  | String _ _, EmptyString => false
  end.

(** [needle in s]. *)
Fixpoint str_in (needle s : string) : bool :=
  startswith needle s ||
  match s with EmptyString => false | String _ s' => str_in needle s' end.

(** [s.replace(c, r)] for a one-character [c]. *)
Fixpoint replace_char (c : ascii) (r s : string) : string :=
  match s with
  | EmptyString => ""
  | String a s' => (if decide (a = c) then r else String a "") +:+ replace_char c r s'
  end.

(** [sep.join(parts)]. *)
Fixpoint join (sep : string) (parts : list string) : string :=
  match parts with
  | [] => ""
  | [p] => p
  | p :: rest => p +:+ sep +:+ join sep rest
  end.

(** [s.split(c)] for a one-character separator: never empty. *)
Fixpoint split_on (c : ascii) (s : string) : list string :=
  match s with
  | EmptyString => [""]
  | String a s' =>
      if decide (a = c) then "" :: split_on c s'
      else match split_on c s' with
           | [] => [String a ""]
           | w :: ws => String a w :: ws
           end
  end.

(** [s.split()]: runs of whitespace separate, no empty word. *)
Fixpoint split_ws_go (acc : string) (s : string) : list string :=
  match s with
  | EmptyString => match acc with EmptyString => [] | _ => [acc] end
  | String a s' =>
      if is_space a
      then match acc with EmptyString => split_ws_go "" s' | _ => acc :: split_ws_go "" s' end
      else split_ws_go (acc +:+ String a "") s'
  end.
Definition split_ws (s : string) : list string := split_ws_go "" s.

(** ** Code points *)

(** A byte that does not continue a UTF-8 sequence starts a code point. *)
Definition is_lead (c : ascii) : bool :=
  let n := char_code c in negb ((128 <=? n) && (n <=? 191)).

(** [len(s)]. *)
Fixpoint ulen (s : string) : Z :=
  match s with
  | EmptyString => 0
  | String c s' => (if is_lead c then 1 else 0) + ulen s'
  end.

(** The characters of a text: bytes that continue a code point stay with its lead. *)
Fixpoint uchars (s : string) : list string :=
  match s with
  | EmptyString => []
  | String c s' =>
      match uchars s' with
      | String d h :: t => if is_lead d then String c "" :: String d h :: t else String c (String d h) :: t
      | _ => [String c ""]
      end
  end.

(** [s[:n]] for [0 <= n]. *)
Fixpoint utake (n : Z) (s : string) : string :=
  match s with
  | EmptyString => ""
  | String c s' =>
      if is_lead c
      then if n <=? 0 then "" else String c (utake (n - 1) s')
      else String c (utake n s')
  end.

(** [s[n:]] for [0 <= n]. *)
Fixpoint udrop (n : Z) (s : string) : string :=
  match s with
  | EmptyString => ""
  | String c s' =>
      if is_lead c
      then if n <=? 0 then s else udrop (n - 1) s'
      else if n <? 0 then s else udrop n s'
  end.

(** ** Integers *)

(** The digits of [int(s)]: single underscores may separate digits. *)
Fixpoint int_digits (acc : Z) (after_digit : bool) (s : string) : option Z :=
  match s with
  | EmptyString => if after_digit then Some acc else None
  | String c s' =>
      if is_digit c then int_digits (acc * 10 + digit_val c) true s'
      else if decide (c = "_"%char) then (if after_digit then int_digits acc false s' else None)
      else None
  end.

(** [int(s)] in base ten; [None] is the [ValueError]. *)
Definition int_of_str (s : string) : option Z :=
  match strip s with
  | String "-" s' => Z.opp <$> int_digits 0 false s'
  | String "+" s' => int_digits 0 false s'
  | s' => int_digits 0 false s'
  end.

(** The ["%0kd"] fields of date formats. *)
Definition digit_char (n : Z) : ascii := ascii_of_N (Z.to_N (48 + n mod 10)).
Definition pad2 (n : Z) : string := String (digit_char (n / 10)) (String (digit_char n) "").
Definition pad4 (n : Z) : string := pad2 (n / 100) +:+ pad2 n.

(** [str(n)]. *)
Definition str_of_Z (n : Z) : string := pretty n.

(** ** Lemmas *)

Lemma append_nil_r s : s +:+ "" = s.
Proof. induction s as [|c s IH]; [done|]. change (String c (s +:+ "") = String c s). by rewrite IH. Qed.

Lemma append_assoc (a b c : string) : (a +:+ b) +:+ c = a +:+ (b +:+ c).
Proof. induction a as [|x a IH]; [done|]. change (String x ((a +:+ b) +:+ c) = String x (a +:+ (b +:+ c))). by rewrite IH. Qed.

Lemma append_cons c (a b : string) : String c a +:+ b = String c (a +:+ b).
Proof. done. Qed.

Lemma startswith_app p s : startswith p (p +:+ s) = true.
Proof. induction p as [|c p IH]; [done|]. rewrite append_cons; simpl. by rewrite decide_True. Qed.

Lemma startswith_spec p s : startswith p s = true ↔ ∃ r, s = p +:+ r.
Proof.
  split; [|intros [r ->]; apply startswith_app].
  revert s. induction p as [|c p IH]; intros [|d s]; simpl; intros H; try done; eauto.
  case_decide; [|done]. subst. destruct (IH _ H) as [r ->]. by exists r.
Qed.

(** [needle in s] is what it should be: an occurrence between two pieces. *)
Lemma str_in_spec needle s : str_in needle s = true ↔ ∃ a b, s = a +:+ needle +:+ b.
Proof.
  split.
  - induction s as [|c s IH]; simpl; intros H%orb_true_iff.
    + destruct H as [[r Hr]%startswith_spec|]; [|done]. exists "", r. done.
    + destruct H as [[r ->]%startswith_spec|H]; [by exists "", r|].
      destruct (IH H) as (a & b & ->). by exists (String c a), b.
  - intros (a & b & ->). induction a as [|c a IH].
    + change ("" +:+ needle +:+ b) with (needle +:+ b).
      assert (startswith needle (needle +:+ b) = true) as Hs by apply startswith_app.
      destruct (needle +:+ b); simpl; by rewrite Hs.
    + rewrite append_cons; simpl. by rewrite IH, orb_true_r.
Qed.

(** [c] does not occur in [s]. *)
Definition char_free (c : ascii) (s : string) : bool := str_forallb (λ d, bool_decide (d ≠ c)) s.

(** A needle without the character [c] cannot straddle it. *)
Lemma startswith_app_free c p a b :
  char_free c p = true → startswith p (a +:+ String c b) = startswith p a.
Proof.
  unfold char_free.
  revert p. induction a as [|d a IH]; intros [|e p]; intros Hf; try done; simpl in Hf; bool_hyps.
  - change ("" +:+ String c b) with (String c b). simpl. by rewrite decide_False.
  - rewrite append_cons; simpl. case_decide; [|done]. by apply IH.
Qed.

Lemma str_in_app_free c needle a b :
  needle ≠ "" → char_free c needle = true →
  str_in needle (a +:+ String c b) = str_in needle a || str_in needle b.
Proof.
  intros Hne Hf. assert (startswith needle "" = false) as H0 by (by destruct needle).
  induction a as [|d a IH].
  - change ("" +:+ String c b) with (String c b). simpl. rewrite H0; simpl.
    pose proof (startswith_app_free c needle "" b Hf) as Hs. simpl in Hs.
    change ("" +:+ String c b) with (String c b) in Hs. by rewrite Hs, H0.
  - rewrite append_cons; simpl. rewrite IH.
    change (String d (a +:+ String c b)) with (String d a +:+ String c b).
    rewrite startswith_app_free by done. by rewrite orb_assoc.
Qed.

(** The needle begins with something other than [c]. *)
Definition not_leading (c : ascii) (s : string) : bool :=
  match s with EmptyString => false | String d _ => bool_decide (d ≠ c) end.

Lemma str_in_cons_not_leading c needle s :
  not_leading c needle = true → str_in needle (String c s) = str_in needle s.
Proof. destruct needle as [|d n]; simpl; intros H; [done|]. bool_hyps. by rewrite decide_False. Qed.

(** A needle with no semicolon that does not start with a blank occurs in a
    ["; "]-joined text exactly when it occurs in one of the parts. *)
Lemma str_in_join needle parts :
  not_leading " " needle = true → char_free ";" needle = true →
  str_in needle (join "; " parts) = existsb (str_in needle) parts.
Proof.
  intros Hl Hf. assert (needle ≠ "") by (by intros ->).
  induction parts as [|p [|q parts] IH].
  - by destruct needle.
  - simpl. by rewrite orb_false_r.
  - change (join "; " (p :: q :: parts)) with (p +:+ String ";" (String " " (join "; " (q :: parts)))).
    rewrite str_in_app_free, str_in_cons_not_leading by done. by rewrite IH.
Qed.

Lemma rstrip_lstrip_space s : rstrip s = "" → lstrip s = "".
Proof.
  induction s as [|c s IH]; [done|]; simpl. destruct (rstrip s); [|done].
  destruct (is_space c); [intros; by apply IH|done].
Qed.

Lemma lstrip_head s : match lstrip s with EmptyString => True | String c _ => is_space c = false end.
Proof. induction s as [|c s IH]; [done|]; simpl. destruct (is_space c) eqn:E; [done|]; by simpl. Qed.

Lemma rstrip_idem s : rstrip (rstrip s) = rstrip s.
Proof.
  induction s as [|c s IH]; [done|]; simpl.
  destruct (rstrip s) as [|d r] eqn:E.
  - destruct (is_space c) eqn:Ec; [done|]; simpl. by rewrite Ec.
  - remember (String d r) as dr. simpl. rewrite IH. by subst.
Qed.

Lemma lstrip_id s :
  match s with EmptyString => True | String c _ => is_space c = false end → lstrip s = s.
Proof. destruct s as [|c s]; [done|]; simpl. by intros ->. Qed.

Lemma rstrip_head s :
  match s with EmptyString => True | String c _ => is_space c = false end →
  match rstrip s with EmptyString => True | String c _ => is_space c = false end.
Proof.
  destruct s as [|c s]; [done|]; simpl. intros E. destruct (rstrip s); [by rewrite E|done].
Qed.

Lemma strip_idem s : strip (strip s) = strip s.
Proof.
  unfold strip. rewrite (lstrip_id (rstrip (lstrip s))).
  - apply rstrip_idem.
  - apply rstrip_head, lstrip_head.
Qed.

(** An upper-cased text holds no lower-case letter, so no lower-case needle. *)
Lemma upper_char_not_lower c : is_lower (upper_char c) = false.
Proof. by destruct c as [[] [] [] [] [] [] [] []]. Qed.

Lemma str_in_upper_lower needle s :
  match needle with EmptyString => False | String c _ => is_lower c = true end →
  str_in needle (upper s) = false.
Proof.
  destruct needle as [|c n]; [done|]. intros Hc. unfold upper.
  induction s as [|d s IH]; [done|]; simpl in *. rewrite IH, orb_false_r.
  rewrite decide_False; [done|]. intros ->. by rewrite upper_char_not_lower in Hc.
Qed.

Lemma ulen_nonneg s : 0 ≤ ulen s.
Proof. induction s as [|c s IH]; simpl; [lia|]. destruct (is_lead c); lia. Qed.

(** [len(s[:n]) <= n]. *)
Lemma ulen_utake n s : 0 ≤ n → ulen (utake n s) ≤ n.
Proof.
  revert n. induction s as [|c s IH]; intros n Hn; simpl; [lia|].
  destruct (is_lead c) eqn:Hc.
  - destruct (n <=? 0) eqn:E; [simpl; lia|]. bool_hyps. simpl. rewrite Hc.
    specialize (IH (n - 1)). lia.
  - simpl. rewrite Hc. specialize (IH n Hn). lia.
Qed.

(** [s[:n]] is all of [s] when [len(s) <= n]. *)
Lemma utake_all n s : ulen s ≤ n → utake n s = s.
Proof.
  revert n. induction s as [|c s IH]; intros n Hn; simpl in *; [done|].
  destruct (is_lead c).
  - pose proof (ulen_nonneg s). destruct (n <=? 0) eqn:E; bool_hyps; [lia|]. by rewrite IH by lia.
  - by rewrite IH by lia.
Qed.

Lemma ulen_append a b : ulen (a +:+ b) = ulen a + ulen b.
Proof.
  induction a as [|c a IH]; [done|]. rewrite append_cons. simpl. rewrite IH. lia.
Qed.

#[export] Hint Resolve ulen_nonneg strip_idem : flex.
#[export] Hint Rewrite append_nil_r append_assoc ulen_append : flex.

(** ** Splitting what was joined *)

(** No white space in the text. *)
Definition space_free (s : string) : bool := str_forallb (λ c, negb (is_space c)) s.

Lemma str_forallb_app p a b : str_forallb p (a +:+ b) = str_forallb p a && str_forallb p b.
Proof.
  induction a as [|c a IH]; [done|]. rewrite append_cons. simpl. by rewrite IH, andb_assoc.
Qed.

Lemma str_forallb_mono (p q : ascii → bool) s :
  (∀ c, p c = true → q c = true) → str_forallb p s = true → str_forallb q s = true.
Proof. intros Hpq. induction s as [|c s IH]; [done|]. simpl. rewrite !andb_true_iff. naive_solver. Qed.

Lemma strip_space_free s : space_free s = true → strip s = s.
Proof.
  unfold strip, space_free. intros Hs. rewrite lstrip_id by (destruct s; simpl in *; bool_hyps; done).
  induction s as [|c s IH]; [done|]. simpl in *. bool_hyps. rewrite IH by done.
  destruct s; [by match goal with H : is_space c = _ |- _ => rewrite H end|done].
Qed.

Lemma split_on_word c w s :
  char_free c w = true → split_on c (w +:+ String c s) = w :: split_on c s.
Proof.
  unfold char_free. induction w as [|d w IH]; intros Hw.
  - change ("" +:+ ?x) with x. cbn [split_on]. by rewrite decide_True.
  - simpl in Hw. bool_hyps. rewrite append_cons. cbn [split_on]. rewrite decide_False by done. by rewrite IH.
Qed.

Lemma split_on_last c w : char_free c w = true → split_on c w = [w].
Proof.
  unfold char_free. induction w as [|d w IH]; intros Hw; [done|].
  simpl in Hw. bool_hyps. cbn [split_on]. rewrite decide_False by done. by rewrite IH.
Qed.

Lemma split_on_join c parts :
  parts ≠ [] → forallb (char_free c) parts = true → split_on c (join (String c "") parts) = parts.
Proof.
  intros Hne. induction parts as [|p [|q parts] IH]; [done| |]; intros Hf.
  - simpl in Hf. bool_hyps. by apply split_on_last.
  - cbn [forallb] in Hf. apply andb_true_iff in Hf as [Hp Hf].
    change (join (String c "") (p :: q :: parts)) with (p +:+ String c (join (String c "") (q :: parts))).
    by rewrite split_on_word, IH.
Qed.

Lemma split_ws_go_word acc w s :
  space_free w = true → split_ws_go acc (w +:+ s) = split_ws_go (acc +:+ w) s.
Proof.
  unfold space_free. revert acc. induction w as [|c w IH]; intros acc Hw.
  - by rewrite append_nil_r.
  - simpl in Hw. bool_hyps. rewrite append_cons. cbn [split_ws_go].
    match goal with H : is_space c = false |- _ => rewrite H end.
    rewrite IH by done. by rewrite append_assoc, append_cons.
Qed.

Lemma split_ws_join words :
  forallb (λ w, space_free w && negb (bool_decide (w = ""))) words = true → split_ws (join " " words) = words.
Proof.
  assert (∀ w, w ≠ "" → split_ws_go w "" = [w]) as Hlast by (by intros [|c w] Hw).
  assert (∀ w s, w ≠ "" → split_ws_go w (String " " s) = w :: split_ws s) as Hmid by (by intros [|c w] s Hw).
  unfold split_ws at 1. induction words as [|w [|v words] IH]; [done| |]; cbn [forallb]; intros Hf;
    apply andb_true_iff in Hf as [Hw Hf]; revert Hf; bool_hyps; intros Hf.
  - change (join " " [w]) with w. rewrite <-(append_nil_r w) at 1. rewrite split_ws_go_word by done.
    change ("" +:+ w) with w. by apply Hlast.
  - change (join " " (w :: v :: words)) with (w +:+ String " " (join " " (v :: words))).
    rewrite split_ws_go_word by done. change ("" +:+ w) with w. rewrite Hmid by done. f_equal. by apply IH.
Qed.

(** ** Reading a printed integer *)

Lemma pretty_N_char_digit x :
  (x < 10)%N → is_digit (pretty_N_char x) = true ∧ digit_val (pretty_N_char x) = Z.of_N x.
Proof.
  intros Hx. assert (x = 0 ∨ x = 1 ∨ x = 2 ∨ x = 3 ∨ x = 4 ∨ x = 5 ∨ x = 6 ∨ x = 7 ∨ x = 8 ∨ x = 9)%N as Hc by lia.
  destruct_or!; subst; done.
Qed.

(** The digits printed in front of [s] read as [x], after anything read before. *)
Lemma int_digits_pretty x s :
  (0 < x)%N → ∃ k, ∀ acc b, int_digits acc b (pretty_N_go x s) = int_digits (acc * k + Z.of_N x) true s.
Proof.
  revert s. induction (N.lt_wf_0 x) as [x _ IH]; intros s Hx.
  rewrite pretty_N_go_step by done.
  destruct (pretty_N_char_digit (x mod 10)) as [Hd Hv]; [by apply N.mod_lt|].
  pose proof (N.div_mod x 10 ltac:(done)) as Hdm.
  destruct (decide (x / 10 = 0)%N) as [H0|H0].
  - rewrite H0, pretty_N_go_0. exists 10. intros acc b. cbn [int_digits]. rewrite Hd, Hv. f_equal. lia.
  - destruct (IH (x / 10)%N (N.div_lt x 10 Hx eq_refl) (String (pretty_N_char (x mod 10)) s)) as [k Hk]; [by apply N.neq_0_lt_0|].
    exists (10 * k). intros acc b. rewrite Hk. cbn [int_digits]. rewrite Hd, Hv. f_equal. lia.
Qed.

Lemma pretty_N_digits x s :
  str_forallb is_digit s = true → str_forallb is_digit (pretty_N_go x s) = true.
Proof.
  revert s. induction (N.lt_wf_0 x) as [x _ IH]; intros s Hs.
  destruct (decide (x = 0)%N) as [->|Hx]; [by rewrite pretty_N_go_0|].
  rewrite pretty_N_go_step by lia. apply IH; [by apply N.div_lt; lia|]. simpl. rewrite Hs, andb_true_r.
  by apply pretty_N_char_digit, N.mod_lt.
Qed.

Lemma digit_not_space c : is_digit c = true → is_space c = false.
Proof. destruct c as [[] [] [] [] [] [] [] []]; by vm_compute. Qed.

(** A natural number's text: digits only, and [int] reads it back. *)
Lemma str_of_nonneg n : 0 ≤ n →
  str_forallb is_digit (str_of_Z n) = true ∧ str_of_Z n ≠ "" ∧ int_digits 0 false (str_of_Z n) = Some n.
Proof.
  intros Hn. unfold str_of_Z, pretty, pretty_Z. destruct n as [|p|p]; [done| |lia].
  change (pretty p) with (pretty_N_go (N.pos p) "").
  destruct (int_digits_pretty (N.pos p) "") as [k Hk]; [done|]. split_and!.
  - by apply pretty_N_digits.
  - intros E. specialize (Hk 0 false). rewrite E in Hk. done.
  - rewrite Hk. cbn. done.
Qed.

Lemma digits_free c s : is_digit c = false → str_forallb is_digit s = true → char_free c s = true.
Proof.
  intros Hc. apply str_forallb_mono. intros d Hd. apply bool_decide_eq_true. intros ->. congruence.
Qed.

Lemma digits_space_free s : str_forallb is_digit s = true → space_free s = true.
Proof. apply str_forallb_mono. intros c Hc. by rewrite digit_not_space. Qed.

Lemma int_of_str_nonneg n : 0 ≤ n → int_of_str (str_of_Z n) = Some n.
Proof.
  intros Hn. destruct (str_of_nonneg n Hn) as (Hd & Hne & Hi).
  unfold int_of_str. rewrite strip_space_free by (by apply digits_space_free).
  destruct (str_of_Z n) as [|c r]; [done|]. simpl in Hd. bool_hyps.
  destruct c as [[] [] [] [] [] [] [] []]; done.
Qed.

(** Surrounding white space does not change the words. *)
Lemma split_ws_strip s : split_ws (strip s) = split_ws s.
Proof.
  assert (∀ s acc, split_ws_go acc (rstrip s) = split_ws_go acc s) as Hr.
  { clear s. intros s. induction s as [|c s IH]; intros acc; [done|]. cbn [rstrip].
    destruct (rstrip s) eqn:E.
    - destruct (is_space c) eqn:Hc; cbn [split_ws_go]; rewrite Hc, <-?IH; [|done].
      by destruct acc.
    - remember (String a s0) as r. cbn [split_ws_go]. by rewrite !IH. }
  unfold strip, split_ws. rewrite Hr. induction s as [|c s IH]; [done|].
  cbn [lstrip split_ws_go]. destruct (is_space c) eqn:Hc; [done|]. cbn [split_ws_go]. by rewrite Hc.
Qed.
