(* ===== verification/PyVal.v ===== *)
(** * Python values

    The dynamically typed values that cross the program's boundaries: YAML
    configuration, JSON request bodies, job payloads and run summaries. A dict is
    its list of items in insertion order. *)
From S2P Require Import Prelude Pytext.
From Stdlib Require Import Ascii.

(** A float as the number its text denotes: [FDec m e] is [m * 10^e]; binary
    rounding is not modelled. *)
Inductive pyfloat :=
| FNan
| FInf (neg : bool)
| FDec (m e : Z).

#[export] Instance pyfloat_eq_dec : EqDecision pyfloat.
Proof. solve_decision. Defined.

Unset Elimination Schemes.
Inductive pyval :=
| PNone
| PBool (b : bool)
| PInt (n : Z)
| PFloat (f : pyfloat)
| PStr (s : string)
| PList (l : list pyval)
| PDict (d : list (string * pyval)).
Set Elimination Schemes.

(** [repr(v)], and with it [str(v)] of a float or a container: kept abstract. *)
Class PyRepr := py_repr : pyval → string.

Notation pydict := (list (string * pyval)).

(** ** Reading values *)

Definition is_none (v : pyval) : bool := match v with PNone => true | _ => false end.

Definition truthy (v : pyval) : bool :=
  match v with
  | PNone => false
  | PBool b => b
  | PInt n => negb (n =? 0)
  | PFloat (FDec m _) => negb (m =? 0)
  | PFloat _ => true
  | PStr s => bool_decide (s ≠ "")
  | PList l => match l with [] => false | _ => true end
  | PDict d => match d with [] => false | _ => true end
  end.

(** [a or b]. *)
Definition py_or (a b : pyval) : pyval := if truthy a then a else b.

Fixpoint dict_lookup (k : string) (d : pydict) : option pyval :=
  match d with
  | [] => None
  | (k', v) :: d' => if decide (k' = k) then Some v else dict_lookup k d'
  end.

(** [d.get(k)]. *)
Definition dict_get (k : string) (d : pydict) : pyval := default PNone (dict_lookup k d).

(** [k in d]. *)
Definition dict_has (k : string) (d : pydict) : bool := bool_decide (is_Some (dict_lookup k d)).

(** [d[k] = v]: an existing key keeps its place. *)
Fixpoint dict_set (k : string) (v : pyval) (d : pydict) : pydict :=
  match d with
  | [] => [(k, v)]
  | (k', v') :: d' => if decide (k' = k) then (k', v) :: d' else (k', v') :: dict_set k v d'
  end.

(** [d.setdefault(k, v)]. *)
Definition dict_setdefault (k : string) (v : pyval) (d : pydict) : pydict :=
  if dict_has k d then d else dict_set k v d.

(** [{**a, **b}]. *)
Definition dict_merge (a b : pydict) : pydict :=
  foldl (λ acc '(k, v), dict_set k v acc) a b.

(** [dict(v or {})] of a JSON or YAML value. *)
Definition dict_or_empty (v : pyval) : res pydict :=
  if truthy v
  then match v with
       | PDict d => Ok d
       | PStr _ => Raise (Exn ValueError "dictionary update sequence element #0 has length 1; 2 is required")
       | _ => Raise (Exn TypeError "object is not a mapping")
       end
  else Ok [].

(** [str(v)]. *)
Definition py_str `{PyRepr} (v : pyval) : string :=
  match v with
  | PNone => "None"
  | PBool true => "True"
  | PBool false => "False"
  | PInt n => str_of_Z n
  | PStr s => s
  | _ => py_repr v
  end.

(** [str(v).strip() == ""]: only a text can print as blank. *)
Definition prints_blank (v : pyval) : bool :=
  match v with PStr s => bool_decide (strip s = "") | _ => false end.

(** [raw not in (None, "")]. *)
Definition given (raw : pyval) : bool :=
  match raw with PNone => false | PStr s => bool_decide (s ≠ "") | _ => true end.

(** [int(f)]: truncation toward zero. *)
Definition float_trunc (f : pyfloat) : res Z :=
  match f with
  | FNan => Raise (Exn ValueError "cannot convert float NaN to integer")
  | FInf _ => Raise (Exn OverflowError "cannot convert float infinity to integer")
  | FDec m e => Ok (if 0 <=? e then m * 10 ^ e else Z.quot m (10 ^ (- e)))
  end.

(** [int(v)]. *)
Definition py_int (v : pyval) : res Z :=
  match v with
  | PBool b => Ok (if b then 1 else 0)
  | PInt n => Ok n
  | PFloat f => float_trunc f
  | PStr s =>
      match int_of_str s with
      | Some n => Ok n
      | None => Raise (Exn ValueError ("invalid literal for int() with base 10: " +:+ s))
      end
  | _ => Raise (Exn TypeError "int() argument must be a string, a bytes-like object or a real number")
  end.

(** [v.strip()]: only a text has the method. *)
Definition method_strip (v : pyval) : res string :=
  match v with
  | PStr s => Ok (strip s)
  | _ => Raise (Exn AttributeError "object has no attribute 'strip'")
  end.

(** ** Floats from text *)

(** Digits with single underscores between them: the mantissa so far, the number
    of digits read, and the rest of the text. *)
Fixpoint float_digits (acc count : Z) (after_digit : bool) (s : string) : option (Z * Z * string) :=
  match s with
  | String c s' =>
      if is_digit c then float_digits (acc * 10 + digit_val c) (count + 1) true s'
      else if bool_decide (c = "_"%char) && after_digit
      then match s' with
           | String d _ => if is_digit d then float_digits acc count false s' else None
           | EmptyString => None
           end
      else Some (acc, count, s)
  | EmptyString => Some (acc, count, s)
  end.

(** The exponent part: [e] or [E], a sign, digits up to the end. *)
Definition float_exponent (s : string) : option Z :=
  match s with
  | EmptyString => Some 0
  | String c s' =>
      if bool_decide (lower_char c = "e"%char)
      then match s' with
           | String "-" r => Z.opp <$> int_digits 0 false r
           | String "+" r => int_digits 0 false r
           | r => int_digits 0 false r
           end
      else None
  end.

(** An unsigned decimal literal. *)
Definition float_magnitude (s : string) : option pyfloat :=
  match float_digits 0 0 false s with
  | None => None
  | Some (whole, nw, rest) =>
      match rest with
      | String "." rest' =>
          match float_digits whole 0 false rest' with
          | None => None
          | Some (m, nf, rest'') =>
              if nw + nf =? 0 then None
              else (λ x, FDec m (x - nf)) <$> float_exponent rest''
          end
      | _ => if nw =? 0 then None else (λ x, FDec whole x) <$> float_exponent rest
      end
  end.

Definition float_negate (f : pyfloat) : pyfloat :=
  match f with FNan => FNan | FInf b => FInf (negb b) | FDec m e => FDec (- m) e end.

(** [float(s)]; [None] is the [ValueError]. *)
Definition float_of_str (s : string) : option pyfloat :=
  let unsigned r :=
    let w := lower r in
    if bool_decide (w = "inf" ∨ w = "infinity") then Some (FInf false)
    else if bool_decide (w = "nan") then Some FNan
    else float_magnitude r in
  match strip s with
  | String "-" r => float_negate <$> unsigned r
  | String "+" r => unsigned r
  | r => unsigned r
  end.

(** [float(v)]. *)
Definition py_float (v : pyval) : res pyfloat :=
  match v with
  | PBool b => Ok (FDec (if b then 1 else 0) 0)
  | PInt n => Ok (FDec n 0)
  | PFloat f => Ok f
  | PStr s =>
      match float_of_str s with
      | Some f => Ok f
      | None => Raise (Exn ValueError ("could not convert string to float: " +:+ s))
      end
  | _ => Raise (Exn TypeError "float() argument must be a string or a real number")
  end.

(** [f == 0] and [f >= 0] (false on NaN). *)
Definition float_is_zero (f : pyfloat) : bool :=
  match f with FDec m _ => m =? 0 | _ => false end.
Definition float_ge_zero (f : pyfloat) : bool :=
  match f with FDec m _ => 0 <=? m | FInf neg => negb neg | FNan => false end.

(** ** Lemmas on dicts *)

Lemma dict_lookup_set k k' v d :
  dict_lookup k (dict_set k' v d) = if decide (k' = k) then Some v else dict_lookup k d.
Proof.
  induction d as [|[k1 v1] d IH]; simpl; [done|].
  repeat (case_decide; simplify_eq/=; try done); by rewrite IH, ?decide_False by done.
Qed.

Lemma dict_has_lookup k d : dict_has k d = true ↔ is_Some (dict_lookup k d).
Proof. unfold dict_has. apply bool_decide_eq_true. Qed.

Lemma dict_lookup_setdefault k k' v d :
  dict_lookup k (dict_setdefault k' v d)
  = if decide (k' = k) then Some (default v (dict_lookup k d)) else dict_lookup k d.
Proof.
  unfold dict_setdefault, dict_has. case_bool_decide as Hs.
  - case_decide; [subst|done]. by destruct Hs as [w ->].
  - rewrite dict_lookup_set. case_decide; [subst|done].
    destruct (dict_lookup k d); [by destruct Hs|done].
Qed.

Lemma dict_keys_set k v d :
  (dict_set k v d).*1 = if dict_has k d then d.*1 else d.*1 ++ [k].
Proof.
  unfold dict_has. induction d as [|[k1 v1] d IH]; cbn; [done|].
  destruct (decide (k1 = k)); cbn; [done|]. rewrite IH. by case_bool_decide.
Qed.

#[export] Hint Rewrite dict_lookup_set dict_lookup_setdefault : flex.
