(* ===== verification/Json.v ===== *)
(** * JSON text of Python values

    [json.dumps] in the two forms the sources use: the stored payload and the
    canonical text ([sort_keys=True, separators=(",", ":")]) that is hashed into
    [payload_hash] ([scheduler/enqueue.py]). *)
From S2P Require Import Prelude Pytext PyVal.
From Stdlib Require Import Ascii.

(** [hashlib.sha256(data).hexdigest()]. *)
Class Sha256 := sha256_hex : string → string.

Definition dquote : ascii := ascii_of_N 34.
Definition backslash : ascii := ascii_of_N 92.

Definition hex_digit (n : Z) : ascii :=
  let d := n mod 16 in ascii_of_N (Z.to_N (if d <? 10 then 48 + d else 87 + d)).

(** The escape [\uXXXX] of a 16-bit unit. *)
Definition u16 (n : Z) : string :=
  String backslash (String "u" (String (hex_digit (n / 4096)) (String (hex_digit (n / 256))
    (String (hex_digit (n / 16)) (String (hex_digit n) ""))))).

(** A code point in ASCII JSON: a surrogate pair above the basic plane. *)
Definition u_escape (n : Z) : string :=
  if n <? 65536 then u16 n
  else u16 (55296 + (n - 65536) / 1024) +:+ u16 (56320 + (n - 65536) mod 1024).

Definition escape_ascii (c : ascii) : string :=
  let n := char_code c in
  let short l := String backslash (String l "") in
  if n =? 34 then String backslash (String dquote "")
  else if n =? 92 then String backslash (String backslash "")
  else if n =? 10 then short "n"%char
  else if n =? 13 then short "r"%char
  else if n =? 9 then short "t"%char
  else if n =? 12 then short "f"%char
  else if n =? 8 then short "b"%char
  else if n <? 32 then u16 n
  else String c "".

Fixpoint json_escape (s : string) : string :=
  match s with
  | EmptyString => ""
  | String c s' =>
      let n := char_code c in
      if n <? 128 then escape_ascii c +:+ json_escape s'
      else match s' with
           | EmptyString => ""
           | String c1 s1 =>
               let n1 := char_code c1 - 128 in
               if n <? 224 then u_escape ((n - 192) * 64 + n1) +:+ json_escape s1
               else match s1 with
                    | EmptyString => ""
                    | String c2 s2 =>
                        let n2 := char_code c2 - 128 in
                        if n <? 240
                        then u_escape ((n - 224) * 4096 + n1 * 64 + n2) +:+ json_escape s2
                        else match s2 with
                             | EmptyString => ""
                             | String c3 s3 =>
                                 u_escape ((n - 240) * 262144 + n1 * 4096 + n2 * 64 + (char_code c3 - 128))
                                 +:+ json_escape s3
                             end
                    end
           end
  end.

Definition json_string (s : string) : string := String dquote (json_escape s +:+ String dquote "").

(** The order [sort_keys] sorts the items by. *)
Definition key_le (a b : string * string) : Prop := String.le a.1 b.1.

#[export] Instance key_le_dec : RelDecision key_le.
Proof. intros a b. apply String.le_dec. Defined.
#[export] Instance key_le_total : Total key_le.
Proof. intros [a ?] [b ?]. apply (String.le_total a b). Qed.
#[export] Instance key_le_trans : Transitive key_le.
Proof. intros [a ?] [b ?] [c ?]. unfold key_le; simpl. apply (transitivity (R := String.le)). Qed.

Section dumps.
Context `{PyRepr}.

(** [json.dumps(v, sort_keys=True, separators=(",", ":"))]. *)
Fixpoint json_canonical (v : pyval) : string :=
  match v with
  | PNone => "null"
  | PBool true => "true"
  | PBool false => "false"
  | PInt n => str_of_Z n
  | PFloat _ => py_repr v
  | PStr s => json_string s
  | PList l => "[" +:+ join "," (List.map json_canonical l) +:+ "]"
  | PDict d =>
      let items := List.map (λ '(k, v), (k, json_canonical v)) d in
      "{" +:+ join "," (List.map (λ '(k, t), json_string k +:+ ":" +:+ t) (merge_sort key_le items)) +:+ "}"
  end.

(** [payload_hash(payload)]: the first sixteen hexadecimal digits. *)
Definition payload_hash `{Sha256} (payload : pydict) : string :=
  utake 16 (sha256_hex (json_canonical (PDict payload))).

(** Sorting forgets the order of the items when no key is repeated. *)
Lemma merge_sort_perm (l1 l2 : list (string * string)) :
  NoDup l1.*1 → l1 ≡ₚ l2 → merge_sort key_le l1 = merge_sort key_le l2.
Proof.
  intros Hnd Hp. apply (StronglySorted_unique_strong key_le).
  - intros [k1 t1] [k2 t2] Hin1 Hin2 Hle1 Hle2. unfold key_le in *; simpl in *.
    assert (k1 = k2) as -> by (by apply (anti_symm String.le)).
    rewrite merge_sort_Permutation in Hin1. rewrite merge_sort_Permutation, <-Hp in Hin2.
    f_equal. by eapply NoDup_fst_functional.
  - by apply StronglySorted_merge_sort; apply _.
  - by apply StronglySorted_merge_sort; apply _.
  - by rewrite !merge_sort_Permutation.
Qed.

Lemma json_canonical_perm (d1 d2 : pydict) :
  NoDup d1.*1 → d1 ≡ₚ d2 → json_canonical (PDict d1) = json_canonical (PDict d2).
Proof.
  intros Hnd Hp. cbn [json_canonical]. do 4 f_equal. apply merge_sort_perm.
  - change (NoDup (List.map fst (List.map (λ '(k, v), (k, json_canonical v)) d1))).
    rewrite map_map, (map_ext _ fst) by (by intros []). done.
  - by apply Permutation_map.
Qed.

(** The identity of a job does not depend on the order its payload was built in. *)
Lemma payload_hash_perm `{Sha256} (d1 d2 : pydict) :
  NoDup d1.*1 → d1 ≡ₚ d2 → payload_hash d1 = payload_hash d2.
Proof. intros. unfold payload_hash. by rewrite (json_canonical_perm d1 d2). Qed.
End dumps.
