(* ===== verification/Retry.v ===== *)
(** * Retry policy of the ingest jobs ([worker/retry.py])

    From an error text to a category, and from a category to a plan: retry after
    a delay, cool the whole queue down, or give up. *)
From S2P Require Import Prelude Pytext PyVal.
From Stdlib Require Import Ascii.

(** ** Categories *)

Inductive ErrorCategory := NOT_READY | THROTTLED | CONFIG | TRANSIENT | UNKNOWN.

#[export] Instance ErrorCategory_eq_dec : EqDecision ErrorCategory.
Proof. solve_decision. Defined.

(** [ErrorCategory.value]: the text stored in the [error_category] column. *)
Definition category_value (c : ErrorCategory) : string :=
  match c with
  | NOT_READY => "not_ready"
  | THROTTLED => "throttled"
  | CONFIG => "config"
  | TRANSIENT => "transient"
  | UNKNOWN => "unknown"
  end.

Definition NOT_READY_CODES : list Z := [1003; 1004; 1005; 1006; 1007; 1008; 1009; 1019; 1021].
Definition THROTTLED_CODES : list Z := [1018].
Definition CONFIG_CODES : list Z := [1010; 1011; 1012; 1013; 1014; 1015; 1016; 1017; 1020].

Definition CONFIG_MARKERS : list string :=
  ["No Flex credentials"; "Token has expired"; "Token is invalid"; "Query is invalid";
   "unknown job kind"].

Definition TRANSIENT_MARKERS : list string :=
  ["timed out"; "Connection refused"; "Connection reset"; "connection to server";
   "could not connect"; "Name or service not known"; "Temporary failure in name resolution";
   "URLError"; "HTTP Error 5"; "OperationalError"; "InterfaceError"; "did not return report"].

(** ** The codes quoted in a message *)

(** One character of the pattern. *)
Definition expect (p : ascii → bool) (s : string) : option (ascii * string) :=
  match s with
  | String c s' => if p c then Some (c, s') else None
  | EmptyString => None
  end.

(** [_CODE_RE], the pattern [\[(\d{4})\]], at the start of [s]. *)
Definition code_at (s : string) : option Z :=
  '(_, s) ← expect (λ c, bool_decide (c = "["%char)) s;
  '(a, s) ← expect is_digit s;
  '(b, s) ← expect is_digit s;
  '(c, s) ← expect is_digit s;
  '(d, s) ← expect is_digit s;
  '(_, s) ← expect (λ c, bool_decide (c = "]"%char)) s;
  Some (1000 * digit_val a + 100 * digit_val b + 10 * digit_val c + digit_val d).

(** [findall] of the pattern: two matches cannot overlap, since a match starts with
    the only opening bracket it holds, so every position is tried. *)
Fixpoint flex_error_codes (message : string) : list Z :=
  match message with
  | EmptyString => []
  | String _ rest =>
      match code_at message with Some n => [n] | None => [] end ++ flex_error_codes rest
  end.

(** [codes & CODES] is not empty. *)
Definition meets (codes CODES : list Z) : bool := existsb (λ n, bool_decide (n ∈ CODES)) codes.

Definition is_throttled (msg : string) : bool := meets (flex_error_codes msg) THROTTLED_CODES.
Definition is_config (msg : string) : bool :=
  meets (flex_error_codes msg) CONFIG_CODES || existsb (λ m, str_in m msg) CONFIG_MARKERS.
Definition is_not_ready (msg : string) : bool := meets (flex_error_codes msg) NOT_READY_CODES.
Definition is_transient (msg : string) : bool := existsb (λ m, str_in m msg) TRANSIENT_MARKERS.

(** Throttle dominates: a 1018 anywhere means the next request will fail too. *)
Definition classify_flex_error (msg : string) : ErrorCategory :=
  if is_throttled msg then THROTTLED
  else if is_config msg then CONFIG
  else if is_not_ready msg then NOT_READY
  else if is_transient msg then TRANSIENT
  else UNKNOWN.

(** The category of a job made of several per-account errors: the worst one wins. *)
Definition summarize_categories (messages : list string) : ErrorCategory :=
  let order := [THROTTLED; CONFIG; NOT_READY; TRANSIENT; UNKNOWN] in
  let seen := classify_flex_error <$> messages in
  default UNKNOWN (find (λ cat, bool_decide (cat ∈ seen)) order).

(** ** Policy and plan *)

Record RetryPolicy := mkRetryPolicy {
  not_ready_delay_sec : Z;
  throttled_delay_sec : Z;
  transient_delay_sec : Z;
  unknown_delay_sec : Z
}.

Definition default_policy : RetryPolicy := mkRetryPolicy 1800 1800 120 300.

(** One iteration of [from_config]'s loop: [None] leaves the default. *)
Definition policy_field (data : pydict) (field : string) : res (option Z) :=
  let val := dict_get field data in
  if is_none val || prints_blank val then Ok None
  else try_except [TypeError; ValueError] (n ← py_int val; Ok (Some (Z.max 30 n))) (λ _, Ok None).

(** [RetryPolicy.from_config]: garbage keeps the default, a delay is at least 30 s. *)
Definition from_config (raw : pydict) : res RetryPolicy :=
  nr ← policy_field raw "not_ready_delay_sec";
  th ← policy_field raw "throttled_delay_sec";
  tr ← policy_field raw "transient_delay_sec";
  un ← policy_field raw "unknown_delay_sec";
  Ok (mkRetryPolicy
        (default (not_ready_delay_sec default_policy) nr)
        (default (throttled_delay_sec default_policy) th)
        (default (transient_delay_sec default_policy) tr)
        (default (unknown_delay_sec default_policy) un)).

Inductive plan_status := PlanPending | PlanFailed.

Record RetryPlan := mkRetryPlan {
  status : plan_status;
  category : ErrorCategory;
  delay_sec : Z;
  cooldown_all_sec : Z
}.

(** [RetryPlan.retry]. *)
Definition retry (p : RetryPlan) : bool :=
  match status p with PlanPending => true | PlanFailed => false end.

(** What to do with a job whose attempt just failed with [category]. *)
Definition plan_retry (category : ErrorCategory) (attempts max_attempts : Z) (p : RetryPolicy) : RetryPlan :=
  if decide (category = CONFIG) then mkRetryPlan PlanFailed category 0 0
  else if max_attempts <=? attempts then mkRetryPlan PlanFailed category 0 0
  else match category with
       | NOT_READY => mkRetryPlan PlanPending category (not_ready_delay_sec p) 0
       | THROTTLED => mkRetryPlan PlanPending category (throttled_delay_sec p) (throttled_delay_sec p)
       | TRANSIENT => mkRetryPlan PlanPending category (transient_delay_sec p) 0
       | _ => mkRetryPlan PlanPending category (unknown_delay_sec p) 0
       end.

(** ** Lemmas: codes of a joined message *)

Section codes.
(** A step of the pattern that refuses the separator is blind to what follows it. *)
Lemma expect_app_free (p : ascii → bool) a b :
  p ";"%char = false →
  expect p (a +:+ String ";" b) = (λ '(c, r), (c, r +:+ String ";" b)) <$> expect p a.
Proof.
  intros Hp. destruct a as [|c a].
  - change ("" +:+ String ";" b) with (String ";" b). simpl. by rewrite Hp.
  - rewrite append_cons. simpl. by destruct (p c).
Qed.

Lemma code_at_app_free a b : code_at (a +:+ String ";" b) = code_at a.
Proof.
  unfold code_at.
  repeat (rewrite expect_app_free by done;
          match goal with |- context [expect ?p ?a] => destruct (expect p a) as [[??]|] end;
          simpl; [|done]).
  done.
Qed.

Lemma flex_error_codes_app_free a b :
  flex_error_codes (a +:+ String ";" b) = flex_error_codes a ++ flex_error_codes b.
Proof.
  induction a as [|c a IH].
  - done.
  - change (String c a +:+ String ";" b) with (String c (a +:+ String ";" b)).
    cbn [flex_error_codes]. rewrite IH, <-app_assoc. f_equal.
    change (String c (a +:+ String ";" b)) with (String c a +:+ String ";" b).
    by rewrite code_at_app_free.
Qed.

Lemma flex_error_codes_blank s : flex_error_codes (String " " s) = flex_error_codes s.
Proof. done. Qed.

Lemma flex_error_codes_join msgs :
  flex_error_codes (join "; " msgs) = concat (flex_error_codes <$> msgs).
Proof.
  induction msgs as [|p [|q msgs] IH]; [done|simpl; by rewrite app_nil_r|].
  change (join "; " (p :: q :: msgs)) with (p +:+ String ";" (String " " (join "; " (q :: msgs)))).
  by rewrite flex_error_codes_app_free, flex_error_codes_blank, IH.
Qed.

Lemma meets_concat ls CODES : meets (concat ls) CODES = existsb (λ l, meets l CODES) ls.
Proof.
  induction ls as [|l ls IH]; simpl; [done|]. unfold meets in *. by rewrite existsb_app, IH.
Qed.

Lemma meets_join msgs CODES :
  meets (flex_error_codes (join "; " msgs)) CODES
  = existsb (λ m, meets (flex_error_codes m) CODES) msgs.
Proof.
  rewrite flex_error_codes_join, meets_concat.
  induction msgs as [|m msgs IH]; [done|]. cbn. by rewrite <-IH.
Qed.

Lemma existsb_orb {A} (f g : A → bool) l :
  existsb (λ x, f x || g x) l = existsb f l || existsb g l.
Proof. induction l as [|x l IH]; simpl; [done|]. rewrite IH. by destruct (f x), (g x), (existsb f l). Qed.

(** A list of markers, each free of the separator, distributes over the join. *)
Definition marker_ok (m : string) : bool := not_leading " " m && char_free ";" m.

Lemma markers_join (markers : list string) msgs :
  forallb marker_ok markers = true →
  existsb (λ m, str_in m (join "; " msgs)) markers
  = existsb (λ msg, existsb (λ m, str_in m msg) markers) msgs.
Proof.
  induction markers as [|m markers IH]; simpl; intros Hok.
  - by induction msgs.
  - unfold marker_ok in Hok. bool_hyps. rewrite existsb_orb, IH, str_in_join by done. done.
Qed.
End codes.

Lemma is_throttled_join msgs : is_throttled (join "; " msgs) = existsb is_throttled msgs.
Proof. apply meets_join. Qed.
Lemma is_not_ready_join msgs : is_not_ready (join "; " msgs) = existsb is_not_ready msgs.
Proof. apply meets_join. Qed.
Lemma is_config_join msgs : is_config (join "; " msgs) = existsb is_config msgs.
Proof. unfold is_config. by rewrite existsb_orb, meets_join, markers_join. Qed.
Lemma is_transient_join msgs : is_transient (join "; " msgs) = existsb is_transient msgs.
Proof. by apply markers_join. Qed.
#[export] Hint Rewrite is_throttled_join is_not_ready_join is_config_join is_transient_join : flex.

(** Membership of a category among the messages, when the category is decided by
    one test on them. *)
Lemma seen_existsb (t : string → bool) (X : ErrorCategory) msgs :
  (∀ m, m ∈ msgs → classify_flex_error m = X ↔ t m = true) →
  bool_decide (X ∈ classify_flex_error <$> msgs) = existsb t msgs.
Proof.
  intros Ht. apply eq_true_iff_eq. rewrite bool_decide_eq_true, existsb_exists, list_elem_of_fmap.
  setoid_rewrite <-list_elem_of_In. split.
  - intros (m & -> & Hm). exists m. split; [done|]. by apply (Ht m).
  - intros (m & Hm & Htm). exists m. split; [|done]. symmetry. by apply (Ht m).
Qed.

Lemma existsb_none {A} (t : A → bool) l x : existsb t l = false → x ∈ l → t x = false.
Proof.
  intros He Hx. destruct (t x) eqn:E; [|done].
  assert (existsb t l = true) as H by (apply existsb_exists; exists x; by rewrite <-list_elem_of_In).
  congruence.
Qed.

Ltac seen_step X t :=
  rewrite (seen_existsb t X) by
    (intros m Hm; unfold classify_flex_error;
     repeat match goal with
     | H : existsb ?f _ = false |- _ => rewrite (existsb_none _ _ _ H Hm); clear H
     end; split; [by repeat case_match|by intros ->]);
  destruct (existsb t _) eqn:?; simpl; [done|].

(** ** Theorems *)

(** C19. The category of a job whose per-account errors were joined with ["; "] (what the
    worker classifies) is the worst category of the errors taken one by one:
    joining neither hides an IB code nor makes up one. *)
Theorem classify_join_summarize msgs :
  classify_flex_error (join "; " msgs) = summarize_categories msgs.
Proof.
  unfold summarize_categories. cbn [find].
  unfold classify_flex_error at 1. autorewrite with flex.
  seen_step THROTTLED is_throttled.
  seen_step CONFIG is_config.
  seen_step NOT_READY is_not_ready.
  seen_step TRANSIENT is_transient.
  by case_bool_decide.
Qed.

(** Four digits and the number they spell. *)
Definition four_digits (a b c d : ascii) : bool := is_digit a && is_digit b && is_digit c && is_digit d.
Definition digits_value (a b c d : ascii) : Z :=
  1000 * digit_val a + 100 * digit_val b + 10 * digit_val c + digit_val d.

(** A bracketed code followed by [q]. *)
Definition quoted (a b c d : ascii) (q : string) : string :=
  String "[" (String a (String b (String c (String d (String "]" q))))).

Lemma expect_Some p s c r : expect p s = Some (c, r) ↔ s = String c r ∧ p c = true.
Proof.
  destruct s as [|d s]; simpl; [by split; [|intros []]|].
  destruct (p d) eqn:E; split; intros H; simplify_eq; try done; destruct H; congruence.
Qed.

Lemma expect_cons (p : ascii → bool) c s : p c = true → expect p (String c s) = Some (c, s).
Proof. simpl. by intros ->. Qed.

Lemma code_at_spec s n :
  code_at s = Some n ↔
  ∃ a b c d r, s = quoted a b c d r
    ∧ four_digits a b c d = true ∧ n = digits_value a b c d.
Proof.
  unfold code_at, four_digits, digits_value, quoted. split.
  - intros H. repeat (apply bind_Some in H as ([??] & Hx & H); apply expect_Some in Hx as [-> ?]).
    bool_hyps. simplify_eq. do 5 eexists. split; [reflexivity|]. split; [|done].
    by repeat match goal with H : is_digit _ = true |- _ => rewrite H; clear H end.
  - intros (a & b & c & d & r & -> & H & ->). bool_hyps.
    by repeat (rewrite expect_cons by done; cbn [mbind option_bind]).
Qed.

(** An error text quotes the code [n] exactly when it holds four digits of value
    [n] between square brackets somewhere: no code is missed and none is invented. *)
Theorem flex_error_codes_spec msg n :
  n ∈ flex_error_codes msg ↔
  ∃ p a b c d q, msg = p +:+ quoted a b c d q
    ∧ four_digits a b c d = true ∧ n = digits_value a b c d.
Proof.
  induction msg as [|x msg IH].
  - cbn. split; [by intros ?%elem_of_nil|]. intros (p & ? & ? & ? & ? & ? & H & _). by destruct p.
  - cbn [flex_error_codes]. rewrite elem_of_app, IH. split.
    + intros [H|H].
      * destruct (code_at (String x msg)) as [k|] eqn:E; [|by apply elem_of_nil in H].
        apply list_elem_of_singleton in H as ->.
        apply code_at_spec in E as (a & b & c & d & r & -> & ? & ?). by exists "", a, b, c, d, r.
      * destruct H as (p & a & b & c & d & q & -> & ? & ?). by exists (String x p), a, b, c, d, q.
    + intros (p & a & b & c & d & q & Hmsg & Hd & Hn). destruct p as [|y p].
      * left. assert (code_at (String x msg) = Some n) as ->; [|set_solver].
        apply code_at_spec. rewrite Hmsg. by exists a, b, c, d, q.
      * right. injection Hmsg as -> ->. by exists p, a, b, c, d, q.
Qed.

Lemma policy_field_floor raw field o :
  policy_field raw field = Ok o → match o with None => True | Some n => 30 ≤ n end.
Proof.
  unfold policy_field. destruct (is_none _ || _); intros H; [by simplify_eq|].
  destruct (py_int (dict_get field raw)) as [n|e]; simpl in H.
  - simplify_eq. lia.
  - case_decide; by simplify_eq.
Qed.

(** The delays a policy read from configuration may hold. *)
Definition policy_wf (p : RetryPolicy) : Prop :=
  30 ≤ not_ready_delay_sec p ∧ 30 ≤ throttled_delay_sec p
  ∧ 30 ≤ transient_delay_sec p ∧ 30 ≤ unknown_delay_sec p.

Lemma from_config_wf raw p : from_config raw = Ok p → policy_wf p.
Proof.
  unfold from_config, policy_wf, default_policy. intros H. inv_res.
  repeat match goal with H : policy_field _ _ = Ok ?o |- _ => apply policy_field_floor in H; destruct o end;
  simpl; lia.
Qed.
#[export] Hint Resolve from_config_wf : flex.

(** The wait the policy assigns to a category. *)
Definition policy_delay (p : RetryPolicy) (c : ErrorCategory) : Z :=
  match c with
  | NOT_READY => not_ready_delay_sec p
  | THROTTLED => throttled_delay_sec p
  | TRANSIENT => transient_delay_sec p
  | CONFIG | UNKNOWN => unknown_delay_sec p
  end.

(** What a plan is, in one line per field. *)
Lemma plan_retry_fields c a m p :
  plan_retry c a m p =
    if bool_decide (c ≠ CONFIG) && (a <? m)
    then mkRetryPlan PlanPending c (policy_delay p c) (if decide (c = THROTTLED) then throttled_delay_sec p else 0)
    else mkRetryPlan PlanFailed c 0 0.
Proof.
  unfold plan_retry. destruct (m <=? a) eqn:E1, (a <? m) eqn:E2; bool_hyps; try lia; by destruct c.
Qed.

Lemma plan_retry_retry c a m p : retry (plan_retry c a m p) = bool_decide (c ≠ CONFIG) && (a <? m).
Proof. rewrite plan_retry_fields. by destruct (_ && _). Qed.

Lemma plan_retry_category c a m p : category (plan_retry c a m p) = c.
Proof. rewrite plan_retry_fields. by destruct (_ && _). Qed.
#[export] Hint Rewrite plan_retry_retry plan_retry_category : flex.

(** Planning under any configured policy: a job is retried exactly when its error
    is not a configuration error and attempts remain; a retry always waits at
    least 30 seconds; the rest of the queue is cooled down, for at least 30 s,
    exactly when a throttled job is retried; a final plan asks for no wait. *)
Theorem plan_retry_from_config raw p c attempts max_attempts :
  from_config raw = Ok p →
  let plan := plan_retry c attempts max_attempts p in
  (retry plan = true ↔ c ≠ CONFIG ∧ attempts < max_attempts)
  ∧ (retry plan = true → delay_sec plan = policy_delay p c ∧ 30 ≤ delay_sec plan)
  ∧ (30 ≤ cooldown_all_sec plan ↔ retry plan = true ∧ c = THROTTLED)
  ∧ (retry plan = false → delay_sec plan = 0 ∧ cooldown_all_sec plan = 0).
Proof.
  intros (H1 & H2 & H3 & H4)%from_config_wf plan. subst plan. rewrite plan_retry_fields.
  destruct (bool_decide (c ≠ CONFIG)) eqn:Hc, (attempts <? max_attempts) eqn:Ha; bool_hyps;
    simpl; split_and!; try lia; try naive_solver lia.
  - intros _. split; [done|]. destruct c; simpl; lia.
  - case_decide; split; naive_solver lia.
Qed.

Definition sample_retry_config : pydict :=
  [("not_ready_delay_sec", PStr "600"); ("throttled_delay_sec", PStr "x"); ("transient_delay_sec", PInt 5)].

Lemma plan_retry_from_config_witness :
  from_config sample_retry_config = Ok (mkRetryPolicy 600 1800 30 300)
  ∧ retry (plan_retry THROTTLED 1 8 (mkRetryPolicy 600 1800 30 300)) = true
  ∧ (30 ≤ cooldown_all_sec (plan_retry THROTTLED 1 8 (mkRetryPolicy 600 1800 30 300))).
Proof.
  split; [reflexivity|]. split; [reflexivity|].
  apply (plan_retry_from_config sample_retry_config _ THROTTLED 1 8 eq_refl). split; reflexivity.
Defined.

(** The messages IB returned, and what the tests of the repository expect of them. *)
Example classify_ib_messages :
  classify_flex_error <$>
    ["Flex request failed: [1003] Statement is not available.; fallback query-default failed: Flex request failed: [1018] Too many requests have been made from this token.";
     "Flex request failed: [1012] Token has expired.";
     "[1019] Statement generation in progress. Please try again shortly.";
     "psycopg2.OperationalError: connection to server at x failed";
     "Failed to write account_executions."]
  = [THROTTLED; CONFIG; NOT_READY; TRANSIENT; UNKNOWN].
Proof. reflexivity. Qed.
