(* ===== verification/JobQueue.v ===== *)
(** * The job queue ([scheduler/enqueue.py], [worker/claim.py])

    [ops_jobs.job_flex_ingest] as a finite map from id to row, and each SQL
    statement of the two files as a function on it. An instant is a number of
    microseconds; every statement reads [clock_timestamp()] once, as its argument
    [t]. A statement that fails leaves the table as it was. *)
From S2P Require Import Prelude Pytext PyVal Json.

(** [make_interval(secs => n)]. *)
Definition secs (n : Z) : Z := n * 1000000.

Inductive job_status := Pending | Running | Done | Failed.

#[export] Instance job_status_eq_dec : EqDecision job_status.
Proof. solve_decision. Defined.

(** The text of the [status] column. *)
Definition status_text (s : job_status) : string :=
  match s with Pending => "pending" | Running => "running" | Done => "done" | Failed => "failed" end.

(** A row. The columns every writer fills are not optional. *)
Record job := mkJob {
  j_id : Z;
  j_kind : string;
  j_payload : pydict;
  j_hash : option string;
  j_priority : Z;
  j_status : job_status;
  j_attempts : Z;
  j_max_attempts : Z;
  j_result : option pydict;
  j_category : option string;
  j_not_before : option Z;
  j_created : Z;
  j_updated : Z;
  j_started : option Z;
  j_finished : option Z
}.

(** The table and its [bigserial] sequence. *)
Record queue := mkQueue { q_rows : gmap Z job; q_next : Z }.

Definition empty_queue : queue := mkQueue ∅ 1.

(** [smallint]. *)
Definition fits_smallint (n : Z) : bool := (-32768 <=? n) && (n <=? 32767).
Definition smallint_error : exn := Exn DatabaseError "smallint out of range".
Definition unique_error : exn :=
  Exn DatabaseError "duplicate key value violates unique constraint job_flex_ingest_kind_hash_active".

Definition active (j : job) : bool :=
  match j_status j with Pending | Running => true | _ => false end.

(** The entry of a row in the partial unique index
    [(kind, payload_hash) WHERE status IN ('pending', 'running') AND payload_hash IS NOT NULL]. *)
Definition index_key (j : job) : option (string * string) :=
  if active j then (λ h, (j_kind j, h)) <$> j_hash j else None.

(** Another row than [i] already has the entry. *)
Definition index_conflict (rows : gmap Z job) (i : Z) (key : option (string * string)) : bool :=
  match key with
  | None => false
  | Some k => bool_decide (map_Exists (λ i' j', i' ≠ i ∧ index_key j' = Some k) rows)
  end.

(** [UPDATE ... WHERE id = i]: no such row is no error; a row that would enter the
    unique index twice is. *)
Definition update_row (q : queue) (i : Z) (f : job → job) : res queue :=
  match q_rows q !! i with
  | None => Ok q
  | Some j =>
      if index_conflict (q_rows q) i (index_key (f j)) then Raise unique_error
      else Ok (mkQueue (<[i := f j]> (q_rows q)) (q_next q))
  end.

(** [UPDATE ... WHERE cond RETURNING id], when the update keeps every index entry. *)
Definition update_where (q : queue) (cond : job → bool) (f : job → job) : list Z * queue :=
  ((map_to_list (filter (λ '(_, j), cond j = true) (q_rows q))).*1,
   mkQueue ((λ j, if cond j then f j else j) <$> q_rows q) (q_next q)).

(** ** [scheduler/enqueue.py] *)

Section enqueue.
Context `{PyRepr, Sha256}.

(** The row [insert_job] writes. *)
Definition new_job (t : Z) (i : Z) (kind : string) (payload : pydict) (ph : string)
    (priority max_attempts : Z) : job :=
  mkJob i kind payload (Some ph) priority Pending 0 max_attempts None None None t t None None.

(** Insert unless an identical job is already pending/running. The sequence
    advances even when nothing is inserted. *)
Definition insert_job (t : Z) (kind : string) (payload : pydict) (priority max_attempts : Z)
    (hash_payload : option pydict) (q : queue) : res (option Z * queue) :=
  let kind_s := strip kind in
  if decide (kind_s = "") then Raise (Exn ValueError "kind is required")
  else
    let ph := payload_hash (default payload hash_payload) in
    if negb (fits_smallint priority && fits_smallint max_attempts) then Raise smallint_error
    else if bool_decide (map_Exists (λ _ j, index_key j = Some (kind_s, ph)) (q_rows q))
    then Ok (None, mkQueue (q_rows q) (q_next q + 1))
    else
      let i := q_next q in
      Ok (Some i, mkQueue (<[i := new_job t i kind_s payload ph priority max_attempts]> (q_rows q)) (i + 1)).

(** A synchronous manual run, recorded as a job that is already running. *)
Definition insert_manual_job (t : Z) (kind : string) (payload : pydict) (q : queue) : res (Z * queue) :=
  let kind_s := strip kind in
  if decide (kind_s = "") then Raise (Exn ValueError "kind is required")
  else
    let i := q_next q in
    let body := dict_merge [("manual", PBool true)] payload in
    Ok (i, mkQueue (<[i := mkJob i kind_s body None 0 Running 1 1 None None None t t (Some t) None]> (q_rows q))
                   (i + 1)).
End enqueue.

Definition terminal (j : job) : bool := negb (active j).

(** [finished_at DESC NULLS LAST, id DESC]. *)
Definition newest_first (a b : job) : Prop :=
  match j_finished a, j_finished b with
  | Some x, Some y => y < x ∨ (x = y ∧ j_id b ≤ j_id a)
  | Some _, None => True
  | None, Some _ => False
  | None, None => j_id b ≤ j_id a
  end.
#[export] Instance newest_first_dec : RelDecision newest_first.
Proof. intros a b. unfold newest_first. destruct (j_finished a), (j_finished b); apply _. Defined.

Definition delete_ids (ids : list Z) (rows : gmap Z job) : gmap Z job := foldr delete rows ids.

(** [status IN ('done', 'failed') AND finished_at IS NOT NULL AND finished_at < now() - '.. days']. *)
Definition past_age (t keep_days : Z) (j : job) : bool :=
  terminal j && match j_finished j with Some f => f <? t - keep_days * secs 86400 | None => false end.

(** [trim_old_jobs]: by age, then all but the newest [keep_max] finished jobs. *)
Definition trim_old_jobs (t keep_days keep_max : Z) (q : queue) : res (Z * queue) :=
  if keep_max <? 0 then Raise (Exn DatabaseError "OFFSET must not be negative")
  else
    let rows1 := filter (λ '(_, j), past_age t keep_days j = false) (q_rows q) in
    let n1 := Z.of_nat (size (q_rows q)) - Z.of_nat (size rows1) in
    let finished := merge_sort newest_first (filter (λ j, terminal j = true) (map_to_list rows1).*2) in
    let surplus := drop (Z.to_nat keep_max) finished in
    Ok (n1 + Z.of_nat (length surplus), mkQueue (delete_ids (j_id <$> surplus) rows1) (q_next q)).

(** ** [worker/claim.py] *)

Definition DEFAULT_STALE_RUNNING_SEC : Z := 7200.
Definition DEFAULT_RECLAIM_REQUEUE_SEC : Z := 600.

(** The dict [_row_to_job] makes of a row; 0 and NULL read alike. *)
Record claimed := mkClaimed {
  c_id : Z;
  c_kind : string;
  c_payload : pydict;
  c_attempts : Z;
  c_max_attempts : Z
}.

Definition effective_max (j : job) : Z := if j_max_attempts j =? 0 then 3 else j_max_attempts j.

Definition row_to_job (j : job) : claimed :=
  mkClaimed (j_id j) (j_kind j) (j_payload j) (j_attempts j) (effective_max j).

(** The [WHERE] clause of the claim. *)
Definition claimable (t : Z) (j : job) : bool :=
  bool_decide (j_status j = Pending) &&
  match j_not_before j with None => true | Some nb => nb <=? t end.

(** [ORDER BY priority DESC, created_at ASC, id ASC]. *)
Definition claim_before (a b : job) : bool :=
  (j_priority b <? j_priority a) ||
  ((j_priority a =? j_priority b) &&
   ((j_created a <? j_created b) || ((j_created a =? j_created b) && (j_id a <? j_id b)))).

(** [SELECT ... FOR UPDATE SKIP LOCKED LIMIT 1]: [locked] holds the rows other
    transactions have locked. *)
Definition select_next (t : Z) (locked : gset Z) (q : queue) : option job :=
  min_by claim_before
    (filter (λ j, claimable t j = true ∧ j_id j ∉ locked) (map_to_list (q_rows q)).*2).

(** The row after [UPDATE ... SET status = 'running', attempts = attempts + 1, ...]. *)
Definition start_row (t : Z) (j : job) : job :=
  mkJob (j_id j) (j_kind j) (j_payload j) (j_hash j) (j_priority j) Running (j_attempts j + 1)
    (j_max_attempts j) (j_result j) (j_category j) None (j_created j) t (Some t) (j_finished j).

(** [claim_next]: the next runnable job, or [None]. The SELECT reads the clock at
    [t], the UPDATE at [t']. *)
Definition claim_next (t t' : Z) (locked : gset Z) (q : queue) : res (option claimed * queue) :=
  match select_next t locked q with
  | None => Ok (None, q)
  | Some j =>
      let c := row_to_job j in
      if negb (fits_smallint (j_attempts j + 1)) then Raise smallint_error
      else
        q' ← update_row q (c_id c) (start_row t');
        Ok (Some (mkClaimed (c_id c) (c_kind c) (c_payload c) (c_attempts c + 1) (c_max_attempts c)), q')
  end.

(** The columns the finishing statements set. *)
Definition finish_row (t : Z) (s : job_status) (not_before : option Z) (category : option string)
    (result : option pydict) (finished : option Z) (j : job) : job :=
  mkJob (j_id j) (j_kind j) (j_payload j) (j_hash j) (j_priority j) s (j_attempts j)
    (j_max_attempts j) result category not_before (j_created j) t (j_started j) finished.

Definition stale_message (sec : Z) : string :=
  "stale running reclaimed after " +:+ str_of_Z sec +:+
  "s — worker likely restarted mid-job; retried automatically while attempts remain".

(** The WHERE clause of the reclaim; [started_at] falls back on [created_at]. *)
Definition stale (t sec : Z) (j : job) : bool :=
  bool_decide (j_status j = Running) &&
  (default (j_created j) (j_started j) <? t - secs sec).

Definition reclaim_row (t sec delay : Z) (j : job) : job :=
  let again := j_attempts j <? j_max_attempts j in
  finish_row t (if again then Pending else Failed)
    (if again then Some (t + secs delay) else None)
    (Some "stale")
    (Some [("error", PStr (utake 2000 (stale_message sec))); ("category", PStr "stale")])
    (if again then None else Some t) j.

(** Requeue [running] jobs older than [stale_after_sec] (worker crash / lost claim). *)
Definition reclaim_stale_running (t stale_after_sec requeue_delay_sec : Z) (q : queue) : list Z * queue :=
  let sec := Z.max 60 stale_after_sec in
  let delay := Z.max 0 requeue_delay_sec in
  update_where q (stale t sec) (reclaim_row t sec delay).

Definition done_row (t : Z) (result : pydict) (j : job) : job :=
  finish_row t Done (j_not_before j) None (Some result) (Some t) j.

Definition mark_done (t : Z) (job_id : Z) (result : pydict) (q : queue) : res queue :=
  update_row q job_id (done_row t result).

Definition retry_row (t : Z) (error category : string) (delay_sec : Z) (j : job) : job :=
  finish_row t Pending (Some (t + secs delay_sec)) (Some category)
    (Some [("error", PStr (utake 2000 error)); ("category", PStr category); ("retry_after_sec", PInt delay_sec)])
    None j.

(** Back to [pending], claimable again after [delay_sec]. *)
Definition mark_retry (t : Z) (job_id : Z) (error category : string) (delay_sec : Z) (q : queue) : res queue :=
  update_row q job_id (retry_row t error category delay_sec).

Definition failed_row (t : Z) (error : string) (category : option string) (j : job) : job :=
  finish_row t Failed (j_not_before j) category
    (Some [("error", PStr (utake 2000 error)); ("category", from_option PStr PNone category)])
    (Some t) j.

(** Final: no attempts left, or an error retrying cannot fix. *)
Definition mark_failed (t : Z) (job_id : Z) (error : string) (category : option string) (q : queue) : res queue :=
  update_row q job_id (failed_row t error category).

Definition defer_row (t delay_sec : Z) (j : job) : job :=
  mkJob (j_id j) (j_kind j) (j_payload j) (j_hash j) (j_priority j) (j_status j) (j_attempts j)
    (j_max_attempts j) (j_result j) (j_category j)
    (Some (Z.max (default t (j_not_before j)) (t + secs delay_sec)))
    (j_created j) t (j_started j) (j_finished j).

(** Push every pending job out by [delay_sec]: the token is throttled, not one job. *)
Definition defer_pending (t delay_sec : Z) (exclude_id : option Z) (q : queue) : list Z * queue :=
  update_where q
    (λ j, bool_decide (j_status j = Pending) && bool_decide (exclude_id ≠ Some (j_id j)))
    (defer_row t delay_sec).

(** ** [POST /flex/ingest/jobs/{id}/run-now] ([api/ingest.py]) *)

(** The route's answer: an HTTP error code, or the job was made claimable. *)
Inductive run_now_answer := RunNowOk | RunNowNotFound | RunNowNotPending | RunNowThrottled.

(** The guards of [run_job_now], on the row read by id. *)
Definition run_now_check (now : Z) (force : bool) (row : option job) : run_now_answer :=
  match row with
  | None => RunNowNotFound
  | Some j =>
      if decide (j_status j ≠ Pending) then RunNowNotPending
      else if bool_decide (j_category j = Some "throttled")
              && match j_not_before j with Some nb => now <? nb | None => false end
              && negb force
      then RunNowThrottled
      else RunNowOk
  end.

Definition clear_row (t : Z) (j : job) : job :=
  mkJob (j_id j) (j_kind j) (j_payload j) (j_hash j) (j_priority j) (j_status j) (j_attempts j)
    (j_max_attempts j) (j_result j) (j_category j) None (j_created j) t (j_started j) (j_finished j).

(** [run_job_now]: the row is read, checked, then updated [WHERE id = .. AND status = 'pending']. *)
Definition run_job_now (now t : Z) (job_id : Z) (force : bool) (q : queue) : run_now_answer * queue :=
  match run_now_check now force (q_rows q !! job_id) with
  | RunNowOk =>
      (RunNowOk, (update_where q (λ j, bool_decide (j_id j = job_id) && bool_decide (j_status j = Pending))
                    (clear_row t)).2)
  | answer => (answer, q)
  end.

(** ** Well-formed tables *)

(** Rows sit at their own id, below the sequence, and the partial unique index
    holds no entry twice. *)
Record queue_ok (q : queue) : Prop := mkQueueOk {
  ok_id : ∀ i j, q_rows q !! i = Some j → j_id j = i;
  ok_seq : ∀ i j, q_rows q !! i = Some j → i < q_next q;
  ok_unique : ∀ i1 j1 i2 j2 k,
    q_rows q !! i1 = Some j1 → q_rows q !! i2 = Some j2 →
    index_key j1 = Some k → index_key j2 = Some k → i1 = i2
}.

Lemma empty_queue_ok : queue_ok empty_queue.
Proof. split; intros *; cbn; by rewrite lookup_empty. Qed.

Lemma index_conflict_false rows i key :
  index_conflict rows i key = false ↔
  ∀ k i' j', key = Some k → rows !! i' = Some j' → index_key j' = Some k → i' = i.
Proof.
  unfold index_conflict. destruct key as [k|]; [|split; [intros _ k ?? H; discriminate H|done]].
  rewrite bool_decide_eq_false. unfold map_Exists. split.
  - intros H k' i' j' [= <-] Hl Hk. destruct (decide (i' = i)); [done|]. destruct H. by exists i', j'.
  - intros H (i' & j' & Hl & Hne & Hk). eauto.
Qed.

Lemma update_row_inv q i f q' :
  update_row q i f = Ok q' →
  q' = q ∧ q_rows q !! i = None
  ∨ ∃ j, q_rows q !! i = Some j ∧ index_conflict (q_rows q) i (index_key (f j)) = false
         ∧ q' = mkQueue (<[i := f j]> (q_rows q)) (q_next q).
Proof.
  unfold update_row. destruct (q_rows q !! i) as [j|] eqn:Hj; [|intros; simplify_eq; by left].
  destruct (index_conflict _ _ _) eqn:Hc; [done|]. intros. simplify_eq. right. by exists j.
Qed.

Lemma insert_row_ok rows next i j :
  queue_ok (mkQueue rows next) → j_id j = i → i < next →
  index_conflict rows i (index_key j) = false →
  queue_ok (mkQueue (<[i := j]> rows) next).
Proof.
  intros [Hid Hseq Huniq] Hj Hi Hc. rewrite index_conflict_false in Hc. cbn in *.
  split; cbn; intros *; rewrite ?lookup_insert_Some.
  - intros [[-> ->]|[? H]]; [done|]. by eapply Hid.
  - intros [[-> ->]|[? H]]; [done|]. by eapply Hseq.
  - intros [[-> ->]|[? H1]] [[-> ->]|[? H2]] K1 K2; eauto; symmetry; eauto.
Qed.

Lemma update_row_ok q i f q' :
  queue_ok q → (∀ j, j_id (f j) = j_id j) → update_row q i f = Ok q' → queue_ok q'.
Proof.
  intros Hok Hf [[-> _]|(j & Hj & Hc & ->)]%update_row_inv; [done|].
  destruct Hok as [Hid Hseq Hu] eqn:E. apply insert_row_ok; [by destruct q|..|done].
  - rewrite Hf. by eapply Hid.
  - by eapply Hseq.
Qed.

(** A bulk update that moves no index entry keeps the table well-formed. *)
Lemma update_where_ok q cond f :
  queue_ok q → (∀ j, j_id (f j) = j_id j) →
  (∀ j, cond j = true → index_key (f j) = None ∨ index_key (f j) = index_key j) →
  queue_ok (update_where q cond f).2.
Proof.
  intros [Hid Hseq Hu] Hf Hk.
  assert (∀ i j', ((λ j, if cond j then f j else j) <$> q_rows q) !! i = Some j' →
    ∃ j, q_rows q !! i = Some j ∧ j_id j' = j_id j ∧ (index_key j' = None ∨ index_key j' = index_key j)) as Hrow.
  { intros i j'. rewrite lookup_fmap, fmap_Some. intros (j & Hj & ->). exists j.
    destruct (cond j) eqn:Hc; auto. }
  split; cbn.
  - intros i j' (j & Hj & -> & _)%Hrow. eauto.
  - intros i j' (j & Hj & _)%Hrow. eauto.
  - intros i1 j1' i2 j2' k (j1 & H1 & _ & K1)%Hrow (j2 & H2 & _ & K2)%Hrow E1 E2.
    apply (Hu i1 j1 i2 j2 k H1 H2); destruct K1, K2; congruence.
Qed.

(** Removing rows keeps the table well-formed. *)
Lemma subset_ok rows rows' next :
  rows' ⊆ rows → queue_ok (mkQueue rows next) → queue_ok (mkQueue rows' next).
Proof.
  intros Hsub [Hid Hseq Hu]. cbn in *.
  split; cbn; intros *; intros; repeat match goal with
  | H : rows' !! _ = Some _ |- _ => apply (lookup_weaken _ rows) in H; [|exact Hsub] end; eauto.
Qed.

Lemma delete_ids_subset ids rows : delete_ids ids rows ⊆ rows.
Proof. induction ids as [|i ids IH]; simpl; [done|]. etrans; [apply delete_subseteq|done]. Qed.

#[export] Hint Resolve empty_queue_ok : flex.

(** ** Every operation keeps the table well-formed *)

Section preserve.
Context `{PyRepr, Sha256}.

(** An insert finds an entry of the unique index, or adds the row. *)
Lemma insert_job_inv t kind payload priority maxa hp q r q' :
  insert_job t kind payload priority maxa hp q = Ok (r, q') →
  let ph := payload_hash (default payload hp) in
  let duplicate := ∃ i j, q_rows q !! i = Some j ∧ index_key j = Some (strip kind, ph) in
  r = None ∧ duplicate ∧ q' = mkQueue (q_rows q) (q_next q + 1)
  ∨ r = Some (q_next q) ∧ ¬ duplicate
    ∧ q' = mkQueue (<[q_next q := new_job t (q_next q) (strip kind) payload ph priority maxa]> (q_rows q))
                   (q_next q + 1).
Proof.
  unfold insert_job. cbn zeta. case_decide; [done|]. case_match; [done|].
  case_bool_decide as Hd; intros; simplify_eq; [left|right]; done.
Qed.

Lemma insert_job_fits t kind payload priority maxa hp q r :
  insert_job t kind payload priority maxa hp q = Ok r →
  fits_smallint priority = true ∧ fits_smallint maxa = true.
Proof.
  unfold insert_job. cbn zeta. case_decide; [done|].
  destruct (fits_smallint priority), (fits_smallint maxa); done.
Qed.

Lemma insert_job_dup t kind payload priority maxa hp q i j :
  strip kind ≠ "" → fits_smallint priority = true → fits_smallint maxa = true →
  q_rows q !! i = Some j → index_key j = Some (strip kind, payload_hash (default payload hp)) →
  insert_job t kind payload priority maxa hp q = Ok (None, mkQueue (q_rows q) (q_next q + 1)).
Proof.
  intros Hk Hp Hm Hj Hi. unfold insert_job. rewrite decide_False, Hp, Hm by done. cbn.
  rewrite bool_decide_eq_true_2; [done|]. by exists i, j.
Qed.

Lemma insert_job_ok t kind payload priority maxa hp q r q' :
  queue_ok q → insert_job t kind payload priority maxa hp q = Ok (r, q') → queue_ok q'.
Proof.
  intros Hok [(_ & _ & ->)|(_ & Hd & ->)]%insert_job_inv; destruct q as [rows next], Hok as [Hid Hseq Hu]; cbn in *.
  - split; cbn; try done. intros ?? ?%Hseq. lia.
  - apply insert_row_ok; [split; cbn; [done| |done]|done|lia|].
    + intros ?? ?%Hseq. lia.
    + apply index_conflict_false. cbn. intros k i' j' [= <-] Hl Hk. destruct Hd. by exists i', j'.
Qed.

Lemma insert_manual_job_ok t kind payload q i q' :
  queue_ok q → insert_manual_job t kind payload q = Ok (i, q') → queue_ok q'.
Proof.
  intros Hok. unfold insert_manual_job. case_decide; [done|]. intros; simplify_eq.
  destruct q as [rows next]. destruct Hok as [Hid Hseq Hu]. cbn in *.
  apply insert_row_ok; [split; cbn; [done| |done]|done|lia|done].
  intros ?? ?%Hseq. lia.
Qed.
End preserve.

Lemma claim_next_inv t t' locked q r q' :
  claim_next t t' locked q = Ok (r, q') →
  r = None ∧ q' = q ∧ select_next t locked q = None
  ∨ ∃ j, select_next t locked q = Some j
      ∧ r = Some (mkClaimed (j_id j) (j_kind j) (j_payload j) (j_attempts j + 1) (effective_max j))
      ∧ fits_smallint (j_attempts j + 1) = true
      ∧ update_row q (j_id j) (start_row t') = Ok q'.
Proof.
  unfold claim_next. destruct (select_next t locked q) as [j|] eqn:Hs; [|intros; simplify_eq; by left].
  destruct (fits_smallint _) eqn:Hf; [|done]. cbn. intros H. inv_res. right. by exists j.
Qed.

Lemma claim_next_ok t t' locked q r q' :
  queue_ok q → claim_next t t' locked q = Ok (r, q') → queue_ok q'.
Proof. intros Hok [(_ & -> & _)|(j & _ & _ & _ & Hu)]%claim_next_inv; [done|].
  by eapply update_row_ok; [exact Hok| |exact Hu].
Qed.

Lemma reclaim_ok t stale_s delay q : queue_ok q → queue_ok (reclaim_stale_running t stale_s delay q).2.
Proof.
  intros. apply update_where_ok; [done..|]. intros j. unfold stale, index_key, active. cbn.
  intros Hc. bool_hyps. rewrite H0. destruct (_ <? _); auto.
Qed.

Lemma defer_ok t delay ex q : queue_ok q → queue_ok (defer_pending t delay ex q).2.
Proof. intros. apply update_where_ok; [done..|]. intros j _. by right. Qed.

Lemma run_job_now_ok now t i force q : queue_ok q → queue_ok (run_job_now now t i force q).2.
Proof.
  intros. unfold run_job_now. destruct (run_now_check _ _ _); [|done..].
  apply update_where_ok; [done..|]. intros j _. by right.
Qed.

Lemma trim_ok t days keep q n q' : queue_ok q → trim_old_jobs t days keep q = Ok (n, q') → queue_ok q'.
Proof.
  unfold trim_old_jobs. case_match; [done|]. intros. simplify_eq.
  destruct q as [rows next]. eapply subset_ok; [|done].
  etrans; [apply delete_ids_subset|apply map_filter_subseteq].
Qed.

#[export] Hint Resolve insert_job_ok insert_manual_job_ok claim_next_ok reclaim_ok defer_ok
  run_job_now_ok trim_ok : flex.

(** One statement of any client of the queue, in any order and by any number of
    processes: the API, the scheduler's CLI, workers, an operator. *)
Inductive queue_step `{PyRepr, Sha256} : queue → queue → Prop :=
| step_insert t kind payload priority maxa hp q r q' :
    insert_job t kind payload priority maxa hp q = Ok (r, q') → queue_step q q'
| step_manual t kind payload q i q' :
    insert_manual_job t kind payload q = Ok (i, q') → queue_step q q'
| step_claim t t' locked q r q' :
    claim_next t t' locked q = Ok (r, q') → queue_step q q'
| step_reclaim t stale_s delay q : queue_step q (reclaim_stale_running t stale_s delay q).2
| step_done t i result q q' : mark_done t i result q = Ok q' → queue_step q q'
| step_retry t i error category delay q q' :
    mark_retry t i error category delay q = Ok q' → queue_step q q'
| step_failed t i error category q q' : mark_failed t i error category q = Ok q' → queue_step q q'
| step_defer t delay ex q : queue_step q (defer_pending t delay ex q).2
| step_run_now now t i force q : queue_step q (run_job_now now t i force q).2
| step_trim t days keep q n q' : trim_old_jobs t days keep q = Ok (n, q') → queue_step q q'.

Lemma queue_step_ok `{PyRepr, Sha256} q q' : queue_step q q' → queue_ok q → queue_ok q'.
Proof.
  destruct 1 as [| | | |t i result q q' Hu|t i e c d q q' Hu|t i e c q q' Hu| | |]; intros Hok;
    try solve [eauto 3 with flex]; by eapply update_row_ok; [exact Hok| |exact Hu].
Qed.

(** ** Theorems *)

(** C8. Whatever the order in which the API, the scheduler and the workers touch the
    queue, two jobs of the same kind and identity are never active (pending or
    running) at once, rows stay at their id, and ids are never handed out twice. *)
Theorem queue_dedupe_invariant `{PyRepr, Sha256} q :
  rtc queue_step empty_queue q →
  (∀ i1 j1 i2 j2, q_rows q !! i1 = Some j1 → q_rows q !! i2 = Some j2 → i1 ≠ i2 →
     active j1 = true → active j2 = true → j_kind j1 = j_kind j2 →
     is_Some (j_hash j1) → j_hash j1 ≠ j_hash j2)
  ∧ (∀ i j, q_rows q !! i = Some j → j_id j = i ∧ i < q_next q).
Proof.
  intros Hreach.
  assert (queue_ok q) as [Hid Hseq Hu] by (eapply rtc_invariant; eauto using queue_step_ok with flex).
  split; [|by eauto].
  intros i1 j1 i2 j2 H1 H2 Hne A1 A2 Hk [h Hh] Heq. apply Hne.
  eapply (Hu i1 j1 i2 j2 (j_kind j1, h) H1 H2); unfold index_key; rewrite ?A1, ?A2, <-?Heq, Hh; cbn; congruence.
Qed.

(** Concrete stand-ins for the abstract parameters, for examples. *)
Definition sample_repr : PyRepr := λ _, "".
Definition sample_sha : Sha256 := λ s, s.

Definition day_payload (day : string) : pydict := [("as_of", PStr day); ("fallback", PBool false)].

(** The table after an enqueue of [kind] for [day] at [t]. *)
Definition sample_insert (t : Z) (kind : string) (prio : Z) (day : string) (q : queue) : queue :=
  match @insert_job sample_repr sample_sha t kind (day_payload day) prio 8 (Some [("as_of", PStr day)]) q with
  | Ok (_, q') => q'
  | Raise _ => q
  end.

Definition two_jobs : queue :=
  sample_insert 2 "flex-transactions" 4 "2026-09-08" (sample_insert 1 "flex-trades" 5 "2026-09-08" empty_queue).

Lemma two_jobs_reachable : rtc (@queue_step sample_repr sample_sha) empty_queue two_jobs.
Proof.
  eapply rtc_l; [|eapply rtc_once].
  - by eapply (step_insert 1 "flex-trades" (day_payload "2026-09-08") 5 8 (Some [("as_of", PStr "2026-09-08")])).
  - by eapply (step_insert 2 "flex-transactions" (day_payload "2026-09-08") 4 8 (Some [("as_of", PStr "2026-09-08")])).
Qed.

Lemma two_jobs_ok : queue_ok two_jobs.
Proof.
  eapply rtc_invariant; [exact (@queue_step_ok sample_repr sample_sha)|apply empty_queue_ok|].
  apply two_jobs_reachable.
Qed.

Lemma queue_dedupe_invariant_witness :
  size (q_rows two_jobs) = 2%nat
  ∧ ∀ i j, q_rows two_jobs !! i = Some j → j_id j = i ∧ i < q_next two_jobs.
Proof.
  split; [vm_compute; reflexivity|].
  apply (@queue_dedupe_invariant sample_repr sample_sha two_jobs two_jobs_reachable).
Defined.

Lemma claim_before_irrefl a : claim_before a a = false.
Proof. unfold claim_before. by rewrite !Z.ltb_irrefl, !andb_false_r. Qed.

Lemma claim_before_spec a b :
  claim_before a b = true ↔
  j_priority b < j_priority a ∨ j_priority a = j_priority b ∧
    (j_created a < j_created b ∨ j_created a = j_created b ∧ j_id a < j_id b).
Proof. unfold claim_before. rewrite !orb_true_iff, !andb_true_iff, !orb_true_iff, !andb_true_iff. lia. Qed.

Lemma claim_before_trans a b c : claim_before a b = true → claim_before b c = true → claim_before a c = true.
Proof. rewrite !claim_before_spec. lia. Qed.

Lemma claim_before_total a b :
  claim_before a b = false → claim_before b a = true ∨ j_id a = j_id b.
Proof.
  rewrite <-not_true_iff_false, !claim_before_spec. lia.
Qed.

Lemma elem_of_rows (q : queue) j : queue_ok q → j ∈ (map_to_list (q_rows q)).*2 ↔ q_rows q !! j_id j = Some j.
Proof.
  intros Hok. rewrite list_elem_of_fmap. split.
  - intros ([i j'] & -> & Hin%elem_of_map_to_list). cbn. by rewrite (ok_id _ Hok _ _ Hin).
  - intros H. exists (j_id j, j). split; [done|]. by apply elem_of_map_to_list.
Qed.

Lemma select_next_spec t locked q j :
  queue_ok q → select_next t locked q = Some j →
  q_rows q !! j_id j = Some j ∧ claimable t j = true ∧ j_id j ∉ locked ∧
  ∀ j', q_rows q !! j_id j' = Some j' → claimable t j' = true → j_id j' ∉ locked →
    j_id j' ≠ j_id j → claim_before j j' = true.
Proof.
  intros Hok Hs. pose proof (min_by_elem _ _ _ Hs) as Hin.
  apply list_elem_of_filter in Hin as [[Hc Hl] Hin]. rewrite elem_of_rows in Hin by done.
  split_and!; try done. intros j' Hj' Hc' Hl' Hne.
  assert (claim_before j' j = false) as Hf.
  { eapply (min_by_least claim_before); [apply claim_before_trans| |apply claim_before_irrefl|exact Hs|].
    - intros a b Ha Hb Hab. apply list_elem_of_filter in Ha as [_ Ha], Hb as [_ Hb].
      rewrite elem_of_rows in Ha, Hb by done.
      destruct (claim_before_total _ _ Hab) as [?|E]; [by left|right].
      rewrite E in Ha. congruence.
    - apply list_elem_of_filter. by rewrite elem_of_rows. }
  destruct (claim_before_total _ _ Hf) as [?|E]; [done|by destruct Hne].
Qed.

Lemma select_next_None t locked q :
  queue_ok q → select_next t locked q = None ↔
  ∀ i j, q_rows q !! i = Some j → i ∉ locked → claimable t j = false.
Proof.
  intros Hok. unfold select_next. rewrite min_by_None. split.
  - intros Hnil i j Hj Hl. destruct (claimable t j) eqn:Hc; [|done].
    assert (j ∈ filter (λ j, claimable t j = true ∧ j_id j ∉ locked) (map_to_list (q_rows q)).*2) as H.
    { apply list_elem_of_filter. rewrite elem_of_rows, (ok_id _ Hok _ _ Hj) by done. done. }
    rewrite Hnil in H. set_solver.
  - intros Hall. apply elem_of_nil_inv. intros j [[Hc Hl] Hin]%list_elem_of_filter.
    rewrite elem_of_rows in Hin by done. rewrite (Hall _ _ Hin Hl) in Hc. done.
Qed.

(** C10. A claim takes the claimable, unlocked row that comes first by (priority
    descending, creation, id), hands its attempt number out, and changes nothing
    else; it answers nothing exactly when no unlocked row is claimable. *)
Theorem claim_next_spec t t' locked q r q' :
  queue_ok q → claim_next t t' locked q = Ok (r, q') →
  match r with
  | None => q' = q ∧ ∀ i j, q_rows q !! i = Some j → i ∉ locked → claimable t j = false
  | Some c => ∃ j,
      q_rows q !! c_id c = Some j ∧ claimable t j = true ∧ c_id c ∉ locked
      ∧ c = mkClaimed (j_id j) (j_kind j) (j_payload j) (j_attempts j + 1) (effective_max j)
      ∧ q' = mkQueue (<[c_id c := start_row t' j]> (q_rows q)) (q_next q)
      ∧ ∀ i j', q_rows q !! i = Some j' → claimable t j' = true → i ∉ locked → i ≠ c_id c →
          claim_before j j' = true
  end.
Proof.
  intros Hok [(-> & -> & Hn)|(j & Hs & -> & _ & Hu)]%claim_next_inv.
  - split; [done|]. by apply select_next_None.
  - apply (select_next_spec _ _ _ _ Hok) in Hs as (Hj & Hc & Hl & Hmin). exists j. cbn.
    apply update_row_inv in Hu as [[_ Hu]|(j2 & Hj2 & _ & ->)]; [congruence|].
    rewrite Hj in Hj2. simplify_eq. split_and!; try done.
    intros i j' Hj' Hc' Hl' Hne. apply Hmin; rewrite ?(ok_id _ Hok _ _ Hj'); done.
Qed.

(** The table an operation leaves, for examples. *)
Definition queue_after {A} (q : queue) (m : res (A * queue)) : queue :=
  match m with Ok (_, q') => q' | Raise _ => q end.

Lemma claim_next_spec_witness :
  ∃ j, q_rows two_jobs !! 1 = Some j ∧ claimable 10 j = true
    ∧ ∀ i j', q_rows two_jobs !! i = Some j' → claimable 10 j' = true → i ∉ (∅ : gset Z) → i ≠ 1 →
        claim_before j j' = true.
Proof.
  assert (claim_next 10 11 ∅ two_jobs
          = Ok (Some (mkClaimed 1 "flex-trades" (day_payload "2026-09-08") 1 8),
                queue_after two_jobs (claim_next 10 11 ∅ two_jobs))) as E by (vm_compute; reflexivity).
  destruct (claim_next_spec _ _ _ _ _ _ two_jobs_ok E) as (j & H1 & H2 & _ & _ & _ & H3).
  exists j. split_and!; [exact H1|exact H2|exact H3].
Defined.

(** An enqueue that returns has either found an active job with the same kind and
    identity, and then leaves every row as it was, or there was none, and exactly
    one new row is added: pending, never attempted, claimable at once. *)
Theorem insert_job_spec `{PyRepr, Sha256} t kind payload priority maxa hp q r q' :
  queue_ok q → insert_job t kind payload priority maxa hp q = Ok (r, q') →
  let ph := payload_hash (default payload hp) in
  let duplicate := ∃ i j, q_rows q !! i = Some j ∧ active j = true
                          ∧ j_kind j = strip kind ∧ j_hash j = Some ph in
  match r with
  | None => duplicate ∧ q_rows q' = q_rows q
  | Some i => ¬ duplicate ∧ q_rows q !! i = None ∧ i = q_next q ∧ q_next q' = i + 1
      ∧ ∃ j, q_rows q' = <[i := j]> (q_rows q) ∧ j_status j = Pending ∧ j_attempts j = 0
             ∧ j_payload j = payload ∧ j_max_attempts j = maxa ∧ ∀ t', claimable t' j = true
  end.
Proof.
  intros Hok Hins ph duplicate.
  assert ((∃ i j, q_rows q !! i = Some j ∧ index_key j = Some (strip kind, ph)) ↔ duplicate) as Hdup.
  { unfold duplicate, index_key. split; intros (i & j & Hj & H1); exists i, j; split; try done.
    - destruct (active j), (j_hash j); simplify_eq/=; done.
    - destruct H1 as (-> & -> & ->). done. }
  apply insert_job_inv in Hins as [(-> & Hd & ->)|(-> & Hd & ->)]; fold ph in Hd; rewrite <-Hdup.
  - done.
  - split_and!; try done.
    + destruct (q_rows q !! q_next q) as [j|] eqn:Hj; [|done]. apply (ok_seq _ Hok) in Hj. lia.
    + eexists. split; [done|]. by split_and!.
Qed.

Lemma insert_job_spec_witness :
  (∃ i j, q_rows two_jobs !! i = Some j ∧ active j = true ∧ j_kind j = strip " flex-trades"
     ∧ j_hash j = Some (@payload_hash sample_repr sample_sha [("as_of", PStr "2026-09-08")]))
  ∧ q_rows two_jobs = q_rows two_jobs.
Proof.
  apply (@insert_job_spec sample_repr sample_sha 9 " flex-trades" [] 5 8
           (Some [("as_of", PStr "2026-09-08")]) two_jobs None (mkQueue (q_rows two_jobs) 4) two_jobs_ok).
  vm_compute. reflexivity.
Defined.

(** ** Bulk updates *)

Lemma update_where_lookup q cond f i :
  q_rows (update_where q cond f).2 !! i = (λ j, if cond j then f j else j) <$> q_rows q !! i.
Proof. apply lookup_fmap. Qed.

Lemma update_where_ids q cond f i :
  i ∈ (update_where q cond f).1 ↔ ∃ j, q_rows q !! i = Some j ∧ cond j = true.
Proof.
  cbn. rewrite list_elem_of_fmap. split.
  - intros ([i' j] & -> & Hin%elem_of_map_to_list). apply map_lookup_filter_Some in Hin as [??]. eauto.
  - intros (j & Hj & Hc). exists (i, j). split; [done|]. apply elem_of_map_to_list, map_lookup_filter_Some. done.
Qed.

(** When a running job started, as the reclaim reads it. *)
Definition running_since (j : job) : Z := default (j_created j) (j_started j).

(** C26. The reclaim touches exactly the running jobs whose start is more than
    [max(60, stale_after_sec)] seconds old. Each of them goes back to pending, not
    to be claimed before the requeue delay, while attempts remain, and is failed
    otherwise; its attempt count is kept; every other row is left alone. *)
Theorem reclaim_stale_running_spec t stale_s delay q ids q' :
  reclaim_stale_running t stale_s delay q = (ids, q') →
  (∀ i, i ∈ ids ↔ ∃ j, q_rows q !! i = Some j ∧ j_status j = Running
                      ∧ running_since j < t - secs (Z.max 60 stale_s))
  ∧ ∀ i, match q_rows q !! i, q_rows q' !! i with
         | Some j, Some j' =>
             if decide (i ∈ ids)
             then j_attempts j' = j_attempts j ∧ j_category j' = Some "stale"
                  ∧ (if j_attempts j <? j_max_attempts j
                     then j_status j' = Pending ∧ j_not_before j' = Some (t + secs (Z.max 0 delay))
                     else j_status j' = Failed ∧ j_finished j' = Some t)
             else j' = j
         | None, None => True
         | _, _ => False
         end.
Proof.
  intros H. assert (ids = (reclaim_stale_running t stale_s delay q).1
                    ∧ q' = (reclaim_stale_running t stale_s delay q).2) as [-> ->] by (by rewrite H).
  clear H. unfold reclaim_stale_running.
  assert (∀ j, stale t (Z.max 60 stale_s) j = true ↔
            j_status j = Running ∧ running_since j < t - secs (Z.max 60 stale_s)) as Hst.
  { intros j. unfold stale, running_since. rewrite andb_true_iff, bool_decide_eq_true, Z.ltb_lt. done. }
  split; [intros i; rewrite update_where_ids; by setoid_rewrite Hst|].
  intros i. rewrite update_where_lookup. destruct (q_rows q !! i) as [j|] eqn:Hj; cbn [fmap option_fmap option_map]; [|done].
  destruct (stale t (Z.max 60 stale_s) j) eqn:Hs.
  - rewrite decide_True by (apply update_where_ids; eauto). cbn. by destruct (_ <? _).
  - rewrite decide_False; [done|]. rewrite update_where_ids. intros (j' & Hj' & Hs'). simplify_eq. congruence.
Qed.

(** A job claimed at 10 whose worker died. *)
Definition crashed_queue : queue := queue_after two_jobs (claim_next 10 11 ∅ two_jobs).

Lemma reclaim_stale_running_spec_witness :
  (reclaim_stale_running (secs 8000) 7200 600 crashed_queue).1 = [1]
  ∧ ∀ i, i ∈ [1] ↔ ∃ j, q_rows crashed_queue !! i = Some j ∧ j_status j = Running
                      ∧ running_since j < secs 8000 - secs (Z.max 60 7200).
Proof.
  split; [vm_compute; reflexivity|].
  assert (reclaim_stale_running (secs 8000) 7200 600 crashed_queue
          = ([1], (reclaim_stale_running (secs 8000) 7200 600 crashed_queue).2)) as E
    by (vm_compute; reflexivity).
  exact (proj1 (reclaim_stale_running_spec _ _ _ _ _ _ E)).
Defined.

(** A pending job that the deferral reaches cannot be claimed before its end, and
    is never moved earlier. *)
Lemma defer_row_later t d j t0 :
  t0 < t + secs d → claimable t0 (defer_row t d j) = false.
Proof.
  intros Ht. unfold claimable. cbn. apply andb_false_iff. right. apply Z.leb_gt. lia.
Qed.

Lemma retry_row_later t e c d j t0 : t0 < t + secs d → claimable t0 (retry_row t e c d j) = false.
Proof. intros Ht. unfold claimable. cbn. apply Z.leb_gt. lia. Qed.

(** C12. The cooldown holds: after a throttled attempt of job [jid] was put back
    ([mark_retry] at [t1]) and the queue deferred ([defer_pending] at [t2]), no
    worker's claim finds a job before [t1 + delay], whatever rows are locked, and no
    pending job became claimable earlier than it was. *)
Theorem throttle_cooldown_holds q q1 t1 t2 jid error delay t0 locked :
  queue_ok q → t1 ≤ t2 →
  mark_retry t1 jid error "throttled" delay q = Ok q1 →
  let q2 := (defer_pending t2 delay (Some jid) q1).2 in
  (t0 < t1 + secs delay → select_next t0 locked q2 = None)
  ∧ ∀ i j j2, i ≠ jid → q_rows q !! i = Some j → q_rows q2 !! i = Some j2 →
      claimable t0 j2 = true → claimable t0 j = true.
Proof.
  intros Hok Ht Hretry q2. pose proof Hretry as Hinv. apply update_row_inv in Hinv.
  assert (queue_ok q1) as Hok1 by (by eapply update_row_ok; [exact Hok| |exact Hretry]).
  assert (queue_ok q2) as Hok2 by (by apply defer_ok).
  split.
  - intros Ht0. apply select_next_None; [done|]. intros i j2 Hj2 _.
    unfold q2, defer_pending in Hj2. rewrite update_where_lookup in Hj2.
    apply fmap_Some in Hj2 as (j1 & Hj1 & ->).
    destruct (decide (j_status j1 = Pending)) as [Hp|Hp].
    + destruct (decide (j_id j1 = jid)) as [E|E].
      * rewrite bool_decide_eq_true_2, bool_decide_eq_false_2 by naive_solver. cbn.
        assert (i = jid) as -> by (by rewrite <-(ok_id _ Hok1 _ _ Hj1)).
        destruct Hinv as [[-> Hn]|(j & Hj & _ & ->)]; [congruence|]. cbn in Hj1.
        rewrite lookup_insert_eq in Hj1. simplify_eq. by apply retry_row_later.
      * rewrite !bool_decide_eq_true_2 by naive_solver. cbn. apply defer_row_later. lia.
    + rewrite bool_decide_eq_false_2 by done. cbn. unfold claimable. by rewrite bool_decide_eq_false_2.
  - intros i j j2 Hne Hj Hj2 Hc.
    unfold q2, defer_pending in Hj2. rewrite update_where_lookup in Hj2.
    apply fmap_Some in Hj2 as (j1 & Hj1 & ->).
    assert (j1 = j) as ->.
    { destruct Hinv as [[-> _]|(j0 & _ & _ & ->)]; [congruence|]. cbn in Hj1.
      rewrite lookup_insert_ne in Hj1; congruence. }
    destruct (_ && _); [|done]. unfold claimable in *. cbn in Hc. bool_hyps.
    rewrite H. cbn. destruct (j_not_before j); [|done]. cbn in *. apply Z.leb_le. lia.
Qed.

(** [two_jobs] with the trades job claimed, then thrown back by a 1018. *)
Definition throttled_queue : queue :=
  match mark_retry (secs 20) 1 "[1018] Too many requests" "throttled" 1800 crashed_queue with
  | Ok q => q
  | Raise _ => crashed_queue
  end.
Definition cooled_queue : queue := (defer_pending (secs 21) 1800 (Some 1) throttled_queue).2.

Lemma crashed_queue_ok : queue_ok crashed_queue.
Proof.
  assert (claim_next 10 11 ∅ two_jobs
          = Ok (Some (mkClaimed 1 "flex-trades" (day_payload "2026-09-08") 1 8), crashed_queue)) as E
    by (vm_compute; reflexivity).
  exact (claim_next_ok _ _ _ _ _ _ two_jobs_ok E).
Qed.

Lemma throttle_cooldown_holds_witness :
  secs 1000 < secs 20 + secs 1800 ∧ select_next (secs 1000) ∅ cooled_queue = None.
Proof.
  assert (mark_retry (secs 20) 1 "[1018] Too many requests" "throttled" 1800 crashed_queue
          = Ok throttled_queue) as E by (vm_compute; reflexivity).
  split; [done|].
  exact (proj1 (throttle_cooldown_holds _ _ (secs 20) (secs 21) _ _ _ (secs 1000) ∅ crashed_queue_ok ltac:(done) E) ltac:(done)).
Defined.

(** Run-now without force is refused exactly when there is no such job, when it is
    not pending, or when the job itself was thrown back by a throttle whose wait is
    not over; otherwise the job becomes claimable at once. A refusal changes
    nothing, and no other row is ever touched. *)
Theorem run_job_now_spec now t i q :
  queue_ok q →
  let '(answer, q') := run_job_now now t i false q in
  (answer = RunNowNotFound ↔ q_rows q !! i = None)
  ∧ (answer = RunNowNotPending ↔ ∃ j, q_rows q !! i = Some j ∧ j_status j ≠ Pending)
  ∧ (answer = RunNowThrottled ↔ ∃ j nb, q_rows q !! i = Some j ∧ j_status j = Pending
       ∧ j_category j = Some "throttled" ∧ j_not_before j = Some nb ∧ now < nb)
  ∧ (answer ≠ RunNowOk → q' = q)
  ∧ (answer = RunNowOk → ∃ j', q_rows q' !! i = Some j' ∧ ∀ t0, claimable t0 j' = true)
  ∧ (∀ i', i' ≠ i → q_rows q' !! i' = q_rows q !! i').
Proof.
  intros Hok. unfold run_job_now, run_now_check.
  destruct (q_rows q !! i) as [j|] eqn:Hj; [|split_and!; naive_solver].
  case_decide as Hst; [split_and!; naive_solver|].
  destruct (bool_decide (j_category j = Some "throttled")
     && match j_not_before j with Some nb => now <? nb | None => false end && negb false) eqn:Hc.
  - rewrite andb_true_r in Hc. bool_hyps. destruct (j_not_before j) as [nb|] eqn:Hnb; [|done]. bool_hyps.
    split_and!; naive_solver.
  - split_and!; try naive_solver.
    + split; [done|]. intros (j' & nb & ? & _ & Hcat & Hnb & Hlt). simplify_eq.
      rewrite Hcat, Hnb, bool_decide_eq_true_2 in Hc by done. apply Z.ltb_lt in Hlt. by rewrite Hlt in Hc.
    + intros _. rewrite update_where_lookup, Hj. cbn. rewrite (ok_id _ Hok _ _ Hj), Hst.
      rewrite !bool_decide_eq_true_2 by done. cbn. eexists. split; [done|].
      intros t0. unfold claimable. cbn. by rewrite Hst.
    + intros i' Hne. rewrite update_where_lookup. destruct (q_rows q !! i') as [j'|] eqn:Hj'; [|done]. cbn.
      by rewrite (ok_id _ Hok _ _ Hj'), bool_decide_eq_false_2.
Qed.

Lemma run_job_now_spec_witness :
  let '(answer, q') := run_job_now (secs 30) (secs 30) 1 false cooled_queue in
  answer = RunNowThrottled ↔ ∃ j nb, q_rows cooled_queue !! 1 = Some j ∧ j_status j = Pending
       ∧ j_category j = Some "throttled" ∧ j_not_before j = Some nb ∧ secs 30 < nb.
Proof.
  assert (queue_ok cooled_queue) as Hok.
  { apply defer_ok.
    assert (mark_retry (secs 20) 1 "[1018] Too many requests" "throttled" 1800 crashed_queue
            = Ok throttled_queue) as E by (vm_compute; reflexivity).
    exact (update_row_ok _ _ (retry_row _ _ _ _) _ crashed_queue_ok (λ _, eq_refl) E). }
  pose proof (run_job_now_spec (secs 30) (secs 30) 1 cooled_queue Hok) as H.
  destruct (run_job_now (secs 30) (secs 30) 1 false cooled_queue). apply H.
Defined.

(** The refusal looks only at the job's own category: a pending job that is
    cooling down because {e another} job was throttled is run at once, without
    force, while the token's cooldown is still on. *)
Theorem run_now_ignores_queue_cooldown q q1 t1 t2 jid error delay i j now t :
  queue_ok q → mark_retry t1 jid error "throttled" delay q = Ok q1 →
  q_rows q !! i = Some j → i ≠ jid → j_status j = Pending → j_category j ≠ Some "throttled" →
  now < t2 + secs delay →
  let q2 := (defer_pending t2 delay (Some jid) q1).2 in
  let '(answer, q3) := run_job_now now t i false q2 in
  (∃ j2, q_rows q2 !! i = Some j2 ∧ claimable now j2 = false)
  ∧ answer = RunNowOk
  ∧ ∃ j3, q_rows q3 !! i = Some j3 ∧ claimable now j3 = true.
Proof.
  intros Hok Hretry Hj Hne Hst Hcat Hnow q2.
  assert (q_rows q1 !! i = Some j) as Hj1.
  { apply update_row_inv in Hretry as [[-> _]|(j0 & _ & _ & ->)]; [done|]. cbn. by rewrite lookup_insert_ne. }
  assert (j_id j = i) as Hid by (by eapply ok_id).
  assert (q_rows q2 !! i = Some (defer_row t2 delay j)) as Hj2.
  { unfold q2, defer_pending. rewrite update_where_lookup, Hj1. cbn.
    rewrite !bool_decide_eq_true_2 by naive_solver. done. }
  clearbody q2. unfold run_job_now. rewrite Hj2. unfold run_now_check. cbn. rewrite decide_False by (intros []; done).
  rewrite (bool_decide_eq_false_2 (j_category j = _)) by done. cbn. split_and!; [|done|].
  - exists (defer_row t2 delay j). split; [done|]. by apply defer_row_later.
  - rewrite lookup_fmap, Hj2. cbn. rewrite Hid, Hst, !bool_decide_eq_true_2 by done. cbn.
    eexists. split; [done|]. unfold claimable. cbn. by rewrite Hst.
Qed.

Lemma run_now_ignores_queue_cooldown_witness :
  ∃ j2, q_rows cooled_queue !! 2 = Some j2 ∧ claimable (secs 30) j2 = false.
Proof.
  assert (mark_retry (secs 20) 1 "[1018] Too many requests" "throttled" 1800 crashed_queue
          = Ok throttled_queue) as E by (vm_compute; reflexivity).
  destruct (q_rows crashed_queue !! 2) as [j|] eqn:Hj; [|vm_compute in Hj; discriminate Hj].
  assert (j_status j = Pending ∧ j_category j ≠ Some "throttled") as [Hst Hc].
  { vm_compute in Hj. injection Hj as <-. split; [reflexivity|discriminate]. }
  pose proof (run_now_ignores_queue_cooldown _ _ _ (secs 21) _ _ _ 2 j (secs 30) (secs 30)
                crashed_queue_ok E Hj ltac:(done) Hst Hc ltac:(done)) as H.
  cbv zeta in H. fold cooled_queue in H.
  destruct (run_job_now (secs 30) (secs 30) 2 false cooled_queue). exact (proj1 H).
Defined.

(** ** The trimming of finished jobs *)

Lemma delete_ids_lookup ids rows i :
  delete_ids ids rows !! i = if bool_decide (i ∈ ids) then None else rows !! i.
Proof.
  induction ids as [|i' ids IH]; [done|]. unfold delete_ids in *. cbn [foldr].
  destruct (decide (i = i')) as [->|Hne].
  - rewrite lookup_delete_eq. by rewrite bool_decide_eq_true_2 by set_solver.
  - rewrite lookup_delete_ne, IH by done.
    by rewrite (bool_decide_ext (i ∈ i' :: ids) (i ∈ ids)) by set_solver.
Qed.

(** [finished_at DESC, id DESC] is total, and transitive. *)
#[export] Instance newest_first_total : Total newest_first.
Proof.
  intros a b. unfold newest_first. destruct (j_finished a), (j_finished b); lia || auto.
Qed.
#[export] Instance newest_first_trans : Transitive newest_first.
Proof.
  intros a b c. unfold newest_first. destruct (j_finished a), (j_finished b), (j_finished c); lia || auto.
Qed.

(** A prefix of a sorted list comes before the rest. *)
Lemma StronglySorted_take_drop {A} (R : relation A) n l x y :
  StronglySorted R l → x ∈ take n l → y ∈ drop n l → R x y.
Proof.
  intros Hs. revert n. induction Hs as [|a l Hs IH Hall]; intros n Hx Hy.
  - rewrite take_nil in Hx. set_solver.
  - destruct n as [|n]; [set_solver|]. cbn in *. rewrite Forall_forall in Hall.
    apply elem_of_cons in Hx as [->|Hx]; [|by eapply IH].
    apply Hall. rewrite <-(take_drop n l). set_solver.
Qed.

Lemma rows_NoDup q : queue_ok q → NoDup (map_to_list (q_rows q)).*2.
Proof.
  intros Hok. apply (NoDup_fmap_1 j_id). replace (j_id <$> _) with (map_to_list (q_rows q)).*1.
  - apply NoDup_fst_map_to_list.
  - rewrite <-list_fmap_compose. apply list_fmap_ext. intros ? [i j] Hl. cbn. symmetry.
    apply list_elem_of_lookup_2, elem_of_map_to_list in Hl. by eapply ok_id.
Qed.

(** The finished rows, newest first, cut at [keep]. *)
Definition finished_rows (rows : gmap Z job) : list job :=
  merge_sort newest_first (filter (λ j, terminal j = true) (map_to_list rows).*2).

Lemma finished_rows_elem rows next j :
  queue_ok (mkQueue rows next) → j ∈ finished_rows rows ↔ rows !! j_id j = Some j ∧ terminal j = true.
Proof.
  intros Hok. unfold finished_rows. rewrite merge_sort_Permutation, list_elem_of_filter.
  rewrite (elem_of_rows _ _ Hok). naive_solver.
Qed.

(** What a row of the trimmed table is, and what removed a row. *)
Lemma trim_rows_spec rows next keep :
  queue_ok (mkQueue rows next) →
  let rows' := delete_ids (j_id <$> drop keep (finished_rows rows)) rows in
  (∀ i j, rows' !! i = Some j → terminal j = true → j ∈ take keep (finished_rows rows))
  ∧ (∀ i j, rows !! i = Some j → rows' !! i = None → j ∈ drop keep (finished_rows rows)).
Proof.
  intros Hok rows'. split; intros i j; unfold rows'; rewrite delete_ids_lookup;
    case_bool_decide as Hin; try done; try congruence.
  - intros Hj Ht. assert (j ∈ finished_rows rows) as Hf.
    { rewrite finished_rows_elem by done. by rewrite (ok_id _ Hok i j Hj). }
    rewrite <-(take_drop keep (finished_rows rows)) in Hf. apply elem_of_app in Hf as [?|Hf]; [done|].
    destruct Hin. rewrite <-(ok_id _ Hok i j Hj). by apply list_elem_of_fmap_2.
  - intros Hj _. apply list_elem_of_fmap in Hin as (j2 & -> & Hd).
    assert (j2 ∈ finished_rows rows) as Hf by (rewrite <-(take_drop keep (finished_rows rows)); set_solver).
    rewrite finished_rows_elem in Hf by done. destruct Hf. naive_solver.
Qed.

(** Row by row: kept as it is, or finished and gone. *)
Lemma trim_row t days keep q n q' i :
  queue_ok q → trim_old_jobs t days keep q = Ok (n, q') →
  q_rows q' !! i = q_rows q !! i
  ∨ ∃ j, q_rows q !! i = Some j ∧ terminal j = true ∧ q_rows q' !! i = None.
Proof.
  intros Hok Htrim. unfold trim_old_jobs in Htrim. destruct (keep <? 0); [done|]. injection Htrim as _ <-.
  fold (finished_rows (filter (λ '(_, j), past_age t days j = false) (q_rows q))).
  set (rows1 := filter _ (q_rows q)). cbn [q_rows]. rewrite delete_ids_lookup.
  assert (queue_ok (mkQueue rows1 (q_next q))) as Hok1.
  { destruct q. eapply subset_ok; [apply map_filter_subseteq|exact Hok]. }
  case_bool_decide as Hin.
  - right. apply list_elem_of_fmap in Hin as (j & -> & Hd). exists j.
    assert (j ∈ finished_rows rows1) as Hf by (rewrite <-(take_drop (Z.to_nat keep) (finished_rows rows1)); set_solver).
    rewrite (finished_rows_elem _ _ _ Hok1) in Hf. destruct Hf as [Hj Ht].
    apply map_lookup_filter_Some in Hj as [Hj _]. done.
  - unfold rows1. destruct (q_rows q !! i) as [j|] eqn:Hj.
    + destruct (past_age t days j) eqn:Hp.
      * right. exists j. pose proof Hp as Ht. unfold past_age in Ht. apply andb_true_iff in Ht as [Ht _]. split_and!; [done..|].
        apply map_lookup_filter_None. right. intros j' Hj'. rewrite Hj in Hj'. injection Hj' as <-. congruence.
      * left. apply map_lookup_filter_Some. done.
    + left. apply map_lookup_filter_None. by left.
Qed.

(** A trim removes only finished jobs. Those it keeps are at most [keep_max],
    none of them is past the age limit, and every job the count limit removed is
    older than every finished job that is kept. *)
Theorem trim_old_jobs_spec t days keep q n q' :
  queue_ok q → trim_old_jobs t days keep q = Ok (n, q') →
  let too_old j := ∃ f, j_finished j = Some f ∧ f < t - days * secs 86400 in
  let kept i j := q_rows q' !! i = Some j in
  (∀ i j, kept i j → q_rows q !! i = Some j ∧ (terminal j = true → ¬ too_old j))
  ∧ (∀ i j, q_rows q !! i = Some j → active j = true → kept i j)
  ∧ Z.of_nat (length (filter (λ j, terminal j = true) (map_to_list (q_rows q')).*2)) ≤ keep
  ∧ (∀ i j i' j', kept i j → terminal j = true →
       q_rows q !! i' = Some j' → q_rows q' !! i' = None → ¬ too_old j' → newest_first j j').
Proof.
  intros Hok Htrim too_old kept. pose proof (trim_ok _ _ _ _ _ _ Hok Htrim) as Hok'.
  unfold trim_old_jobs in Htrim. destruct (keep <? 0) eqn:Hk; [done|]. bool_hyps.
  set (rows1 := filter _ (q_rows q)) in Htrim.
  assert (∀ j, past_age t days j = true ↔ terminal j = true ∧ too_old j) as Hold.
  { intros j. unfold past_age, too_old. rewrite andb_true_iff.
    destruct (j_finished j) as [f|]; [rewrite Z.ltb_lt; naive_solver|naive_solver]. }
  assert (∀ i j, rows1 !! i = Some j ↔ q_rows q !! i = Some j ∧ past_age t days j = false) as Hrows1.
  { intros i j. unfold rows1. by rewrite map_lookup_filter_Some. }
  assert (queue_ok (mkQueue rows1 (q_next q))) as Hok1.
  { destruct q. eapply subset_ok; [apply map_filter_subseteq|exact Hok]. }
  fold (finished_rows rows1) in Htrim. clearbody rows1. injection Htrim as _ Hq'.
  destruct (trim_rows_spec _ _ (Z.to_nat keep) Hok1) as [Htake Hdrop].
  unfold kept. destruct q' as [rows' next']. cbn in *. injection Hq' as <- <-.
  set (rows' := delete_ids _ _) in *.
  assert (∀ i j, rows' !! i = Some j → rows1 !! i = Some j) as Hsub.
  { intros i j Hj. eapply lookup_weaken; [exact Hj|apply delete_ids_subset]. }
  split_and!.
  - intros i j [Hj Ho]%Hsub%Hrows1. split; [done|]. intros Ht Hold'.
    apply not_true_iff_false in Ho. by apply Ho, Hold.
  - intros i j Hj Ha. destruct (rows' !! i) as [j'|] eqn:Hj'; [f_equal; apply Hsub, Hrows1 in Hj' as [? _]; congruence|].
    assert (rows1 !! i = Some j) as Hj1.
    { apply Hrows1. split; [done|]. apply not_true_iff_false. rewrite Hold. unfold terminal. rewrite Ha. by intros []. }
    specialize (Hdrop _ _ Hj1 Hj').
    assert (j ∈ finished_rows rows1) as Hf by (rewrite <-(take_drop (Z.to_nat keep) (finished_rows rows1)); set_solver).
    rewrite (finished_rows_elem _ _ _ Hok1) in Hf. unfold terminal in Hf. rewrite Ha in Hf. by destruct Hf.
  - transitivity (Z.of_nat (length (take (Z.to_nat keep) (finished_rows rows1)))); [|rewrite length_take; lia].
    apply inj_le, submseteq_length, NoDup_submseteq; [by apply NoDup_filter, (rows_NoDup _ Hok')|].
    intros j [Ht Hj]%list_elem_of_filter. rewrite (elem_of_rows _ _ Hok') in Hj. by eapply Htake.
  - intros i j i' j' Hj Ht Hj' Hn Hno. eapply StronglySorted_take_drop; [|by eapply Htake|eapply (Hdrop i'); [|done]].
    + apply (StronglySorted_merge_sort _).
    + apply Hrows1. split; [done|]. apply not_true_iff_false. rewrite Hold. by intros [].
Qed.

(** Three finished jobs, one of them old, and a pending one. *)
Definition done_at (f : Z) (i : Z) (day : string) (q : queue) : queue :=
  match mark_done f i [] (sample_insert 1 "flex-trades" 5 day q) with Ok q' => q' | Raise _ => q end.
Definition finished_queue : queue :=
  sample_insert 9 "flex-trades" 5 "d4"
    (done_at (secs 900100) 3 "d3" (done_at (secs 900200) 2 "d2" (done_at (secs 10) 1 "d1" empty_queue))).

Lemma finished_queue_ok : queue_ok finished_queue.
Proof.
  assert (∀ t kind prio day q, queue_ok q → queue_ok (sample_insert t kind prio day q)) as Hins.
  { intros. unfold sample_insert. destruct (insert_job _ _ _ _ _ _ _) as [[r q']|] eqn:E; [|done].
    eapply insert_job_ok; [exact H|exact E]. }
  assert (∀ f i day q, queue_ok q → queue_ok (done_at f i day q)) as Hdone.
  { intros. unfold done_at. destruct (mark_done _ _ _ _) as [q'|] eqn:E; [|done].
    eapply (update_row_ok _ _ (done_row _ _)); [|done|exact E]. auto. }
  unfold finished_queue. auto using empty_queue_ok.
Qed.

Lemma trim_old_jobs_spec_witness :
  ∃ q', trim_old_jobs (secs 900300) 10 1 finished_queue = Ok (2, q')
    ∧ Z.of_nat (length (filter (λ j, terminal j = true) (map_to_list (q_rows q')).*2)) ≤ 1.
Proof.
  assert (∃ q', trim_old_jobs (secs 900300) 10 1 finished_queue = Ok (2, q')) as [q' E]
    by (vm_compute; eauto).
  exists q'. split; [exact E|].
  exact (proj1 (proj2 (proj2 (trim_old_jobs_spec _ _ _ _ _ _ finished_queue_ok E)))).
Defined.
