(* ===== verification/Pytime.v ===== *)
(** * Dates, instants and zones of Python's [datetime]

    What the sources use of it. A [date] is its number of days since 1970-01-01; a
    naive [datetime] and an aware one in UTC are numbers of microseconds since
    1970-01-01T00:00:00. The zone database is a parameter: a zone answers the UTC
    offset of an instant ([astimezone]) and of a wall-clock reading
    ([replace(tzinfo=..)], with [fold=0]). *)
From Stdlib Require Import Ascii.
From S2P Require Import Prelude Pytext.

(** ** The proleptic Gregorian calendar *)

Record ymd := mkYmd { y_year : Z; y_month : Z; y_day : Z }.

#[export] Instance ymd_eq_dec : EqDecision ymd.
Proof. solve_decision. Defined.

Definition is_leap (y : Z) : bool := (y mod 4 =? 0) && (negb (y mod 100 =? 0) || (y mod 400 =? 0)).

Definition days_in_month (y m : Z) : Z :=
  if m =? 2 then (if is_leap y then 29 else 28)
  else if (m =? 4) || (m =? 6) || (m =? 9) || (m =? 11) then 30 else 31.

(** What [date(y, m, d)] accepts. *)
Definition valid_ymd (x : ymd) : bool :=
  (1 <=? y_year x) && (y_year x <=? 9999) && (1 <=? y_month x) && (y_month x <=? 12)
  && (1 <=? y_day x) && (y_day x <=? days_in_month (y_year x) (y_month x)).

(** Days from 1 March of year 0 within a 400-year era, years starting in March. *)
Definition day_of_era (yoe mp d : Z) : Z := yoe * 365 + yoe / 4 - yoe / 100 + (153 * mp + 2) / 5 + d - 1.

Definition days_of_ymd (x : ymd) : Z :=
  let y := if y_month x <=? 2 then y_year x - 1 else y_year x in
  let mp := (y_month x + 9) mod 12 in
  y / 400 * 146097 + day_of_era (y mod 400) mp (y_day x) - 719468.

(** The year, March-based month and day of a day of the era. *)
Definition era_fields (doe : Z) : Z * Z * Z :=
  let yoe := (doe - doe / 1460 + doe / 36524 - doe / 146096) / 365 in
  let doy := doe - (365 * yoe + yoe / 4 - yoe / 100) in
  let mp := (5 * doy + 2) / 153 in
  (yoe, mp, doy - (153 * mp + 2) / 5 + 1).

Definition ymd_of_days (n : Z) : ymd :=
  let z := n + 719468 in
  let '(yoe, mp, d) := era_fields (z mod 146097) in
  let m := if mp <? 10 then mp + 3 else mp - 9 in
  mkYmd (yoe + z / 146097 * 400 + (if m <=? 2 then 1 else 0)) m d.

(** [date.min] and [date.max]. *)
Definition MIN_DATE : Z := days_of_ymd (mkYmd 1 1 1).
Definition MAX_DATE : Z := days_of_ymd (mkYmd 9999 12 31).
Definition date_ok (d : Z) : bool := (MIN_DATE <=? d) && (d <=? MAX_DATE).

(** [d + timedelta(days=n)]. *)
Definition date_add (d n : Z) : res Z :=
  if date_ok (d + n) then Ok (d + n) else Raise (Exn OverflowError "date value out of range").

(** [date.weekday()], Monday 0. 1970-01-01 was a Thursday. *)
Definition weekday (d : Z) : Z := (d + 3) mod 7.

(** [strftime("%Y%m%d")] and [isoformat()], for years from 1000 on. *)
Definition strftime_ymd (d : Z) : string :=
  let x := ymd_of_days d in pad4 (y_year x) +:+ pad2 (y_month x) +:+ pad2 (y_day x).
Definition isoformat (d : Z) : string :=
  let x := ymd_of_days d in pad4 (y_year x) +:+ "-" +:+ pad2 (y_month x) +:+ "-" +:+ pad2 (y_day x).

(** ** [strptime] *)

(** A directive, or a literal character. *)
Inductive fmt := FY | Fm | Fd | FH | FM | FS | FLit (c : ascii).

(** A two-digit number in range, if the text starts with one. *)
Definition two_digits (lo hi : Z) (s : string) : list (Z * string) :=
  match s with
  | String a (String b r) =>
      if is_digit a && is_digit b then
        let n := digit_val a * 10 + digit_val b in
        if (lo <=? n) && (n <=? hi) then [(n, r)] else []
      else []
  | _ => []
  end.

Definition one_digit (lo : Z) (s : string) : list (Z * string) :=
  match s with
  | String a r => if is_digit a && (lo <=? digit_val a) then [(digit_val a, r)] else []
  | _ => []
  end.

Definition four_digits (s : string) : list (Z * string) :=
  match s with
  | String a (String b (String c (String d r))) =>
      if is_digit a && is_digit b && is_digit c && is_digit d
      then [(((digit_val a * 10 + digit_val b) * 10 + digit_val c) * 10 + digit_val d, r)]
      else []
  | _ => []
  end.

(** The readings of a directive at the front of the text, in the order the regular
    expression of the directive tries them. *)
Definition readings (f : fmt) (s : string) : list (Z * string) :=
  match f with
  | FY => four_digits s
  | Fm => two_digits 1 12 s ++ one_digit 1 s
  | Fd => two_digits 1 31 s ++ one_digit 1 s
          ++ match s with String " " r => one_digit 1 r | _ => [] end
  | FH => two_digits 0 23 s ++ one_digit 0 s
  | FM => two_digits 0 59 s ++ one_digit 0 s
  | FS => two_digits 0 61 s ++ one_digit 0 s
  | FLit c => match s with String a r => if decide (a = c) then [(0, r)] else [] | _ => [] end
  end.

(** Backtracking match of a whole format: every way to read the text, best first. *)
Fixpoint match_fmt (fs : list fmt) (s : string) : list (list (fmt * Z) * string) :=
  match fs with
  | [] => [([], s)]
  | f :: fs' => '(v, r) ← readings f s; '(vs, r') ← match_fmt fs' r; mret ((f, v) :: vs, r')
  end.

#[export] Instance fmt_eq_dec : EqDecision fmt.
Proof. solve_decision. Defined.

Fixpoint field (f : fmt) (dflt : Z) (vs : list (fmt * Z)) : Z :=
  match vs with
  | [] => dflt
  | (g, v) :: vs' => if decide (f = g) then v else field f dflt vs'
  end.

Definition day_usec : Z := 86400 * 1000000.

(** The instant of a wall-clock reading. *)
Definition wall_of (x : ymd) (h mi s : Z) : Z := days_of_ymd x * day_usec + ((h * 60 + mi) * 60 + s) * 1000000.

Definition strptime_error : exn := Exn ValueError "time data does not match format".

(** [datetime.strptime(s, fmt)]: the first match must consume the whole text and name a
    real moment. *)
Definition strptime (fs : list fmt) (s : string) : res Z :=
  match match_fmt fs s with
  | (vs, "") :: _ =>
      let x := mkYmd (field FY 1900 vs) (field Fm 1 vs) (field Fd 1 vs) in
      if valid_ymd x && (field FS 0 vs <=? 59) then Ok (wall_of x (field FH 0 vs) (field FM 0 vs) (field FS 0 vs))
      else Raise strptime_error
  | _ => Raise strptime_error
  end.

(** [.date()] of a naive datetime. *)
Definition date_of (w : Z) : Z := w / day_usec.

(** [%Y%m%d], [%Y-%m-%d] and the timed formats of the client. *)
Definition F_YMD : list fmt := [FY; Fm; Fd].
Definition F_ISO : list fmt := [FY; FLit "-"; Fm; FLit "-"; Fd].
Definition F_YMD_HMS : list fmt := [FY; Fm; Fd; FLit ";"; FH; FM; FS].
Definition F_ISO_T : list fmt := F_ISO ++ [FLit "T"; FH; FLit ":"; FM; FLit ":"; FS].
Definition F_ISO_SP : list fmt := F_ISO ++ [FLit " "; FH; FLit ":"; FM; FLit ":"; FS].

(** ** Instants and zones *)

(** The zone database: [ZoneInfo(name)] may not exist; offsets are in microseconds. *)
Class ZoneDb := {
  zone_exists : string → bool;
  utc_offset : string → Z → Z;
  wall_offset : string → Z → Z
}.

(** [ZoneInfo(tz) if tz else timezone.utc]. *)
Definition get_zone `{ZoneDb} (tz : option string) : res (option string) :=
  match tz with
  | None => Ok None
  | Some name => if zone_exists name then Ok (Some name) else Raise (Exn OtherError ("No time zone found with key " +:+ name))
  end.

(** The wall clock of an instant in a zone ([None] is UTC). *)
Definition to_wall `{ZoneDb} (zone : option string) (t : Z) : Z :=
  match zone with None => t | Some name => t + utc_offset name t end.

(** The instant a wall-clock reading names. *)
Definition of_wall `{ZoneDb} (zone : option string) (w : Z) : Z :=
  match zone with None => w | Some name => w - wall_offset name w end.

Definition wall_hour (w : Z) : Z := w mod day_usec / 3600000000.
Definition wall_minute (w : Z) : Z := w mod 3600000000 / 60000000.
Definition wall_second (w : Z) : Z := w mod 60000000 / 1000000.

(** [strftime("%Y-%m-%dT%H:%M:%SZ")] of a UTC instant. *)
Definition iso_instant (t : Z) : string :=
  isoformat (date_of t) +:+ "T" +:+ pad2 (wall_hour t) +:+ ":" +:+ pad2 (wall_minute t) +:+ ":"
  +:+ pad2 (wall_second t) +:+ "Z".

(** US Eastern time as it has been since 2007, for examples: UTC-4 from the second
    Sunday of March, 02:00, to the first Sunday of November, 02:00, else UTC-5. *)
Definition sunday_on_or_after (d : Z) : Z := d + (6 - weekday d) mod 7.
Definition eastern_dst (y : Z) : Z * Z :=
  (sunday_on_or_after (days_of_ymd (mkYmd y 3 8)) * day_usec + 7 * 3600000000,
   sunday_on_or_after (days_of_ymd (mkYmd y 11 1)) * day_usec + 6 * 3600000000).
Definition eastern_offset (t : Z) : Z :=
  let '(a, b) := eastern_dst (y_year (ymd_of_days (date_of t))) in
  if (a <=? t) && (t <? b) then -4 * 3600000000 else -5 * 3600000000.
Definition sample_zones : ZoneDb := {|
  zone_exists name := bool_decide (name = "America/New_York");
  utc_offset _ t := eastern_offset t;
  wall_offset _ w :=
    (* the offset in force just before the reading, as fold=0 takes it *)
    if eastern_offset (w + 4 * 3600000000) =? -4 * 3600000000 then -4 * 3600000000 else -5 * 3600000000
|}.

(** ** The calendar's round trips

    The 400 years of an era and the 366 days of a year are checked by computation;
    the rest is arithmetic. *)

(** [p] on [n] numbers from [m] on. *)
Fixpoint forall_from (p : Z → bool) (m : Z) (n : nat) : bool :=
  match n with O => true | S n' => p m && forall_from p (m + 1) n' end.

Lemma forall_from_spec p m n :
  forall_from p m (Z.to_nat n) = true → ∀ i, m ≤ i < m + n → p i = true.
Proof.
  intros H i Hi. assert (m ≤ i < m + Z.of_nat (Z.to_nat n)) as Hi' by lia. clear Hi. revert m H Hi'.
  induction (Z.to_nat n) as [|k IH]; intros m H Hi; [lia|]. cbn [forall_from] in H. bool_hyps.
  destruct (decide (i = m)) as [->|]; [done|]. apply (IH (m + 1)); [done|lia].
Qed.

Definition month_of_mp (mp : Z) : Z := if mp <? 10 then mp + 3 else mp - 9.
Definition civil_year (yoe mp : Z) : Z := yoe + (if month_of_mp mp <=? 2 then 1 else 0).
Definition year_of_era (doe : Z) : Z := (doe - doe / 1460 + doe / 36524 - doe / 146096) / 365.
Definition year_start (yoe : Z) : Z := 365 * yoe + yoe / 4 - yoe / 100.
Definition year_end (yoe : Z) : Z := year_start yoe + if is_leap (yoe + 1) then 366 else 365.

Definition year_check (yoe : Z) : bool :=
  (year_of_era (year_start yoe) =? yoe) && (year_of_era (year_end yoe - 1) =? yoe)
  && (year_end yoe =? (if yoe =? 399 then 146097 else year_start (yoe + 1))).

Lemma years_checked yoe : 0 ≤ yoe < 400 → year_check yoe = true.
Proof. intros. apply (forall_from_spec year_check 0 400); [vm_compute; reflexivity|lia]. Qed.

(** A day of a March-based year, in a leap year (2000) and in another one (2001). *)
Definition doy_mp (doy : Z) : Z := (5 * doy + 2) / 153.
Definition doy_day (doy : Z) : Z := doy - (153 * doy_mp doy + 2) / 5 + 1.
Definition doy_check (doy : Z) : bool :=
  let mp := doy_mp doy in let d := doy_day doy in
  (0 <=? mp) && (mp <? 12) && (1 <=? d) && (d <=? days_in_month 2000 (month_of_mp mp))
  && ((doy =? 365) || (d <=? days_in_month 2001 (month_of_mp mp))).

Lemma doys_checked doy : 0 ≤ doy < 366 → doy_check doy = true.
Proof. intros. apply (forall_from_spec doy_check 0 366); [vm_compute; reflexivity|lia]. Qed.

(** And back, for a month and a day. *)
Definition mp_check (mp : Z) : bool :=
  forall_from (λ d,
    let doy := (153 * mp + 2) / 5 + d - 1 in
    negb (d <=? days_in_month 2000 (month_of_mp mp))
    || ((0 <=? doy) && (doy <? 366) && (doy_mp doy =? mp)
        && ((doy <? 365) || negb (d <=? days_in_month 2001 (month_of_mp mp))))) 1 (Z.to_nat 31).

Lemma mps_checked mp : 0 ≤ mp < 12 → mp_check mp = true.
Proof. intros. apply (forall_from_spec mp_check 0 12); [vm_compute; reflexivity|lia]. Qed.

Lemma is_leap_era y k : is_leap (y + k * 400) = is_leap y.
Proof.
  unfold is_leap. rewrite Z_mod_plus_full.
  replace (y + k * 400) with (y + (k * 100) * 4) at 1 by lia. rewrite Z_mod_plus_full.
  replace (y + k * 400) with (y + (k * 4) * 100) at 1 by lia. by rewrite Z_mod_plus_full.
Qed.

Lemma days_in_month_era y k m : days_in_month (y + k * 400) m = days_in_month y m.
Proof. unfold days_in_month. by rewrite is_leap_era. Qed.

Lemma days_in_month_leap y m : days_in_month y m = days_in_month (if is_leap y then 2000 else 2001) m.
Proof. unfold days_in_month. by destruct (is_leap y). Qed.

Lemma days_in_month_bounds y m : days_in_month 2001 m ≤ days_in_month y m ≤ days_in_month 2000 m ≤ 31.
Proof.
  unfold days_in_month. change (is_leap 2001) with false. change (is_leap 2000) with true.
  destruct (m =? 2); [destruct (is_leap y); lia|]. case_match; lia.
Qed.

(** The year of a day is its year in the era: the formula is monotone. *)
Lemma year_of_era_mono n k : 0 ≤ n → 0 ≤ k → year_of_era n ≤ year_of_era (n + k).
Proof.
  intros Hn Hk. unfold year_of_era. apply Z.div_le_mono; [lia|].
  pattern k. apply natlike_ind; [by rewrite Z.add_0_r| |done]. clear k Hk.
  intros k Hk IH. etrans; [exact IH|]. clear IH. replace (n + Z.succ k) with (n + k + 1) by lia.
  assert (0 ≤ n + k) as Hm by lia. revert Hm. generalize (n + k). clear. intros m Hm.
  replace 146096 with (36524 * 4) by done. rewrite <-!Z.div_div by lia.
  Z.to_euclidean_division_equations; lia.
Qed.

Lemma year_of_era_between yoe doe :
  0 ≤ yoe < 400 → year_start yoe ≤ doe < year_end yoe → year_of_era doe = yoe.
Proof.
  intros Hy Hd. pose proof (years_checked _ Hy) as Hc. unfold year_check in Hc. bool_hyps.
  assert (0 ≤ year_start yoe) by (unfold year_start; Z.to_euclidean_division_equations; lia).
  pose proof (year_of_era_mono (year_start yoe) (doe - year_start yoe)) as M1.
  pose proof (year_of_era_mono doe (year_end yoe - 1 - doe)) as M2.
  rewrite (Z.add_comm (year_start yoe)), Z.sub_add in M1.
  rewrite (Z.add_comm doe), Z.sub_add in M2. lia.
Qed.

Lemma year_exists doe :
  0 ≤ doe < 146097 → ∃ yoe, 0 ≤ yoe < 400 ∧ year_start yoe ≤ doe < year_end yoe.
Proof.
  intros Hd. cut (∀ k, 0 ≤ k → k < 400 → doe < year_end k →
    ∃ yoe, 0 ≤ yoe < 400 ∧ year_start yoe ≤ doe < year_end yoe).
  { intros H. apply (H 399); [lia..|]. change (year_end 399) with 146097. lia. }
  intros k Hk. pattern k. apply natlike_ind; [| |done]; clear k Hk.
  - intros _ Hend. exists 0. split; [lia|]. split; [|done]. change (year_start 0) with 0. lia.
  - intros k Hk IH Hlt Hend. destruct (decide (doe < year_start (Z.succ k))) as [Hs|Hs].
    + apply IH; [lia|]. pose proof (years_checked k ltac:(lia)) as Hc. unfold year_check in Hc. bool_hyps.
      destruct (k =? 399) eqn:E; bool_hyps; [lia|]. unfold Z.succ in *. lia.
    + exists (Z.succ k). lia.
Qed.

Lemma feb_year yoe mp : 0 ≤ mp < 12 → month_of_mp mp = 2 → civil_year yoe mp = yoe + 1.
Proof. unfold civil_year. by intros _ ->. Qed.

Lemma era_fields_ok doe :
  0 ≤ doe < 146097 →
  let '(yoe, mp, d) := era_fields doe in
  0 ≤ yoe < 400 ∧ 0 ≤ mp < 12 ∧ 1 ≤ d ≤ days_in_month (civil_year yoe mp) (month_of_mp mp)
  ∧ day_of_era yoe mp d = doe.
Proof.
  intros H. destruct (year_exists doe H) as (yoe & Hy & Hd).
  unfold era_fields. fold (year_of_era doe). rewrite (year_of_era_between yoe) by done.
  fold (year_start yoe). set (doy := doe - year_start yoe). fold (doy_mp doy). fold (doy_day doy).
  assert (0 ≤ doy < 366) as Hdoy by (unfold doy, year_end in *; destruct (is_leap _); lia).
  pose proof (doys_checked doy Hdoy) as Hc. unfold doy_check in Hc. cbv zeta in Hc. bool_hyps.
  split_and!; try done; try lia.
  - rewrite days_in_month_leap. destruct (decide (doy = 365)) as [E|E].
    + assert (is_leap (yoe + 1) = true) as Hl.
      { unfold year_end in Hd. destruct (is_leap _); [done|lia]. }
      assert (month_of_mp (doy_mp doy) = 2) as Em by (by rewrite E).
      rewrite feb_year, Hl by done. done.
    + match goal with H : (_ || _)%bool = true |- _ => apply orb_true_iff in H as [?|?]; bool_hyps end; [lia|].
      pose proof (days_in_month_bounds 2001 (month_of_mp (doy_mp doy))). destruct (is_leap _); lia.
  - unfold day_of_era, doy_day, doy, year_start. lia.
Qed.

Lemma day_of_era_fields yoe mp d :
  0 ≤ yoe < 400 → 0 ≤ mp < 12 → 1 ≤ d ≤ days_in_month (civil_year yoe mp) (month_of_mp mp) →
  0 ≤ day_of_era yoe mp d < 146097 ∧ era_fields (day_of_era yoe mp d) = (yoe, mp, d).
Proof.
  intros Hy Hmp Hd. pose proof (days_in_month_bounds (civil_year yoe mp) (month_of_mp mp)) as Hb.
  pose proof (forall_from_spec _ _ _ (mps_checked mp Hmp) d ltac:(lia)) as Hc. cbn beta zeta in Hc.
  set (doy := (153 * mp + 2) / 5 + d - 1) in *.
  apply orb_true_iff in Hc as [Hc|Hc]; bool_hyps; [lia|].
  assert (year_start yoe ≤ year_start yoe + doy < year_end yoe) as Hin.
  { unfold year_end. split; [lia|].
    match goal with H : (_ || _)%bool = true |- _ => apply orb_true_iff in H as [?|?]; bool_hyps end;
      [destruct (is_leap _); lia|].
    rewrite days_in_month_leap in Hd. destruct (is_leap (civil_year yoe mp)) eqn:Hl; [|lia].
    assert (month_of_mp mp = 2) as Em.
    { unfold days_in_month in *. case_match; bool_hyps; [done|lia]. }
    rewrite feb_year in Hl by done. rewrite Hl. lia. }
  replace (day_of_era yoe mp d) with (year_start yoe + doy) by (unfold day_of_era, year_start, doy; lia).
  split.
  - assert (0 ≤ year_start yoe) by (unfold year_start; Z.to_euclidean_division_equations; lia).
    split; [lia|]. assert (year_end yoe ≤ 146097); [|lia].
    unfold year_end, year_start. destruct (is_leap (yoe + 1)) eqn:?; Z.to_euclidean_division_equations; try lia.
  - unfold era_fields. fold (year_of_era (year_start yoe + doy)). rewrite (year_of_era_between yoe) by done.
    fold (year_start yoe). replace (year_start yoe + doy - year_start yoe) with doy by lia.
    fold (doy_mp doy). replace (doy_mp doy) with mp by lia. unfold doy. repeat f_equal. lia.
Qed.

Lemma month_of_mp_range mp : 0 ≤ mp < 12 → 1 ≤ month_of_mp mp ≤ 12.
Proof. unfold month_of_mp. case_match; bool_hyps; lia. Qed.

Lemma days_of_era_fields era yoe mp d :
  0 ≤ yoe < 400 → 0 ≤ mp < 12 →
  days_of_ymd (mkYmd (civil_year yoe mp + era * 400) (month_of_mp mp) d)
  = era * 146097 + day_of_era yoe mp d - 719468.
Proof.
  intros Hy Hm. unfold days_of_ymd, civil_year. cbn.
  replace ((month_of_mp mp + 9) mod 12) with mp
    by (unfold month_of_mp; case_match; bool_hyps; Z.to_euclidean_division_equations; lia).
  set (b := month_of_mp mp <=? 2).
  replace (if b then _ else _) with (yoe + era * 400) by (destruct b; lia).
  rewrite Z.div_add, Z.mod_add by lia.
  by rewrite Z.div_small, Z.mod_small by lia.
Qed.

Lemma ymd_of_days_era n :
  ymd_of_days n = let '(yoe, mp, d) := era_fields ((n + 719468) mod 146097) in
                  mkYmd (civil_year yoe mp + (n + 719468) / 146097 * 400) (month_of_mp mp) d.
Proof.
  unfold ymd_of_days. destruct (era_fields _) as [[yoe mp] d].
  unfold civil_year, month_of_mp. f_equal. lia.
Qed.

Lemma days_ymd_days n : days_of_ymd (ymd_of_days n) = n.
Proof.
  rewrite ymd_of_days_era. pose proof (era_fields_ok ((n + 719468) mod 146097)) as H.
  destruct (era_fields _) as [[yoe mp] d]. destruct H as (Hy & Hm & _ & Hd); [apply Z.mod_pos_bound; lia|].
  rewrite days_of_era_fields, Hd by done. pose proof (Z.div_mod (n + 719468) 146097). lia.
Qed.

(** Each day's fields are those of a day of its month. *)
Lemma ymd_of_days_range n :
  1 ≤ y_month (ymd_of_days n) ≤ 12
  ∧ 1 ≤ y_day (ymd_of_days n) ≤ days_in_month (y_year (ymd_of_days n)) (y_month (ymd_of_days n)).
Proof.
  rewrite ymd_of_days_era. pose proof (era_fields_ok ((n + 719468) mod 146097)) as H.
  destruct (era_fields _) as [[yoe mp] d]. destruct H as (Hy & Hm & Hd & _); [apply Z.mod_pos_bound; lia|].
  cbn. rewrite days_in_month_era. split; [by apply month_of_mp_range|done].
Qed.

(** Every valid date is [civil_year], [month_of_mp] of its era fields. *)
Lemma ymd_fields y m : 1 ≤ m ≤ 12 →
  ∃ era yoe mp, 0 ≤ yoe < 400 ∧ 0 ≤ mp < 12 ∧ m = month_of_mp mp ∧ y = civil_year yoe mp + era * 400.
Proof.
  intros Hm. set (mp := (m + 9) mod 12). set (y' := if m <=? 2 then y - 1 else y).
  exists (y' / 400), (y' mod 400), mp.
  assert (month_of_mp mp = m) as Em.
  { unfold month_of_mp, mp. case_match; bool_hyps; Z.to_euclidean_division_equations; lia. }
  split_and!; try (by apply Z.mod_pos_bound; lia); [done|].
  unfold civil_year. rewrite Em. pose proof (Z.div_mod y' 400). unfold y' in *. destruct (m <=? 2); lia.
Qed.

Lemma ymd_days_ymd x :
  1 ≤ y_month x ≤ 12 → 1 ≤ y_day x ≤ days_in_month (y_year x) (y_month x) →
  ymd_of_days (days_of_ymd x) = x.
Proof.
  destruct x as [y m d]. cbn [y_year y_month y_day]. intros Hm Hd. destruct (ymd_fields y m Hm) as (era & yoe & mp & Hy & Hmp & -> & ->).
  rewrite days_in_month_era in Hd. destruct (day_of_era_fields yoe mp d Hy Hmp Hd) as [Hr Ef].
  rewrite days_of_era_fields, ymd_of_days_era by done.
  replace (era * 146097 + day_of_era yoe mp d - 719468 + 719468) with (day_of_era yoe mp d + era * 146097) by lia.
  rewrite Z.div_add, Z.mod_add by lia. rewrite Z.div_small, Z.mod_small by lia. by rewrite Ef.
Qed.

(** ** Printing and parsing *)

Lemma digit_char_spec n : is_digit (digit_char n) = true ∧ digit_val (digit_char n) = n mod 10.
Proof.
  unfold digit_char. pose proof (Z.mod_pos_bound n 10 ltac:(lia)) as Hn. revert Hn. generalize (n mod 10).
  intros k Hk. assert (k = 0 ∨ k = 1 ∨ k = 2 ∨ k = 3 ∨ k = 4 ∨ k = 5 ∨ k = 6 ∨ k = 7 ∨ k = 8 ∨ k = 9) as Hc by lia.
  destruct_or!; subst; done.
Qed.

Lemma two_digits_pad2 lo hi n r : lo ≤ n ≤ hi → 0 ≤ n < 100 → two_digits lo hi (pad2 n +:+ r) = [(n, r)].
Proof.
  intros Hb Hn. unfold pad2. rewrite !append_cons. cbn [two_digits].
  destruct (digit_char_spec (n / 10)) as [-> ->], (digit_char_spec n) as [-> ->]. cbn [andb].
  replace (n / 10 mod 10 * 10 + n mod 10) with n by (Z.to_euclidean_division_equations; lia).
  by rewrite (proj2 (Z.leb_le lo n)), (proj2 (Z.leb_le n hi)) by lia.
Qed.

Lemma four_digits_pad4 n r : 0 ≤ n < 10000 → four_digits (pad4 n +:+ r) = [(n, r)].
Proof.
  intros Hn. unfold pad4, pad2. rewrite !append_cons, append_assoc. cbn [four_digits String.append].
  change ("" +:+ ?x) with x. rewrite !append_cons. cbn [four_digits].
  destruct (digit_char_spec (n / 100 / 10)) as [-> ->], (digit_char_spec (n / 100)) as [-> ->],
    (digit_char_spec (n / 10)) as [-> ->], (digit_char_spec n) as [-> ->]. cbn [andb].
  repeat f_equal. Z.to_euclidean_division_equations; lia.
Qed.

(** A directive's value, printed at full width. *)
Definition render1 (fv : fmt * Z) : string :=
  match fv.1 with FY => pad4 fv.2 | FLit c => String c "" | _ => pad2 fv.2 end.
Fixpoint render (vs : list (fmt * Z)) : string :=
  match vs with [] => "" | fv :: vs' => render1 fv +:+ render vs' end.

(** The values the directive can print and read back. *)
Definition in_range (fv : fmt * Z) : bool :=
  let between lo hi := (lo <=? fv.2) && (fv.2 <=? hi) in
  match fv.1 with
  | FY => between 0 9999 | Fm => between 1 12 | Fd => between 1 31
  | FH => between 0 23 | FM => between 0 59 | FS => between 0 61 | FLit _ => fv.2 =? 0
  end.

Lemma readings_render fv r :
  in_range fv = true → ∃ more, readings fv.1 (render1 fv +:+ r) = (fv.2, r) :: more.
Proof.
  destruct fv as [f v]. unfold in_range, render1. destruct f; cbn [fst snd]; intros Hr; bool_hyps; cbn [readings];
    rewrite ?two_digits_pad2, ?four_digits_pad4 by lia; cbn; eauto.
  subst. rewrite append_cons. rewrite decide_True by done. eauto.
Qed.

(** The best match of a printed format reads back the values. *)
Lemma match_render vs r :
  forallb in_range vs = true → ∃ more, match_fmt vs.*1 (render vs +:+ r) = (vs, r) :: more.
Proof.
  revert r. induction vs as [|[f v] vs IH]; intros r; [by eexists|].
  cbn [forallb render fmap list_fmap fst]. intros Hr. bool_hyps. rewrite append_assoc.
  destruct (readings_render (f, v) (render vs +:+ r)) as [m1 R]; [done|].
  destruct (IH r) as [m2 M]; [done|]. cbn [match_fmt]. cbn [fst snd] in R. rewrite R. cbn. rewrite M. cbn. eauto.
Qed.

(** A date in range has a year in range. *)
Lemma days_of_ymd_bounds y m d :
  1 ≤ m ≤ 12 → 1 ≤ d ≤ days_in_month y m →
  (y ≤ 0 → days_of_ymd (mkYmd y m d) < MIN_DATE) ∧ (9999 < y → MAX_DATE < days_of_ymd (mkYmd y m d)).
Proof.
  intros Hm Hd. pose proof (days_in_month_bounds y m) as Hb.
  change MIN_DATE with (-719162). change MAX_DATE with 2932896.
  unfold days_of_ymd, day_of_era. cbn [y_year y_month y_day].
  set (y' := if m <=? 2 then y - 1 else y).
  replace (y' / 400 * 146097 + (y' mod 400 * 365 + y' mod 400 / 4 - y' mod 400 / 100 + _ + d - 1) - 719468)
    with (365 * y' + y' / 4 - y' / 100 + y' / 400 + (153 * ((m + 9) mod 12) + 2) / 5 + d - 719469)
    by (Z.to_euclidean_division_equations; lia).
  assert (m ≤ 2 ∧ y' = y - 1 ∧ (m + 9) mod 12 = m + 9 ∨ 3 ≤ m ∧ y' = y ∧ (m + 9) mod 12 = m - 3) as Hc.
  { unfold y'. destruct (m <=? 2) eqn:E; bool_hyps; [left|right]; split_and!; try lia;
      Z.to_euclidean_division_equations; lia. }
  assert (days_in_month y m ≤ 29 ∨ m ≠ 2) as Hfeb.
  { destruct (decide (m = 2)) as [->|]; [left|by right]. unfold days_in_month. cbn. destruct (is_leap y); lia. }
  clearbody y'. destruct Hc as [(Hc & -> & ->)|(Hc & -> & ->)]; split; intros; Z.to_euclidean_division_equations; lia.
Qed.

(** The fields of a day in Python's range are accepted by [date]. *)
Lemma ymd_of_days_valid d : date_ok d = true → valid_ymd (ymd_of_days d) = true.
Proof.
  intros Hd. unfold date_ok in Hd. bool_hyps. pose proof (ymd_of_days_range d) as [Hm Hday].
  pose proof (days_ymd_days d) as E. destruct (ymd_of_days d) as [y m day]. cbn in Hm, Hday.
  pose proof (days_of_ymd_bounds y m day Hm Hday) as [Hlo Hhi].
  unfold valid_ymd. cbn. rewrite !andb_true_iff, !Z.leb_le. lia.
Qed.

Lemma valid_ymd_ok x : valid_ymd x = true →
  1 ≤ y_year x ≤ 9999 ∧ 1 ≤ y_month x ≤ 12 ∧ 1 ≤ y_day x ≤ 31.
Proof.
  unfold valid_ymd. rewrite !andb_true_iff, !Z.leb_le. pose proof (days_in_month_bounds (y_year x) (y_month x)). lia.
Qed.

(** Reading a printed moment back, whatever the format. *)
Lemma strptime_render fs s vs w :
  vs.*1 = fs → render vs = s → forallb in_range vs = true →
  let x := mkYmd (field FY 1900 vs) (field Fm 1 vs) (field Fd 1 vs) in
  valid_ymd x = true → field FS 0 vs ≤ 59 → w = wall_of x (field FH 0 vs) (field FM 0 vs) (field FS 0 vs) →
  strptime fs s = Ok w.
Proof.
  intros <- <- Hr x Hx Hs ->. destruct (match_render vs "" Hr) as [more Hm].
  rewrite append_nil_r in Hm. unfold strptime. rewrite Hm. fold x. rewrite Hx.
  by rewrite (proj2 (Z.leb_le _ _) Hs).
Qed.

Lemma wall_of_days d h mi s :
  wall_of (ymd_of_days d) h mi s = d * day_usec + ((h * 60 + mi) * 60 + s) * 1000000.
Proof. unfold wall_of. by rewrite days_ymd_days. Qed.

Lemma ymd_eta x : mkYmd (y_year x) (y_month x) (y_day x) = x.
Proof. by destruct x. Qed.

(** Close the side conditions of [strptime_render] for a format whose fields are [d]'s. *)
Ltac solve_strptime d Hd :=
  pose proof (ymd_of_days_valid d Hd) as Hv; pose proof (valid_ymd_ok _ Hv) as (?&?&?);
  cbn -[day_usec wall_of ymd_of_days pad4 pad2 valid_ymd Z.leb Z.eqb];
  repeat first [rewrite decide_True by done | rewrite decide_False by done];
  rewrite ?append_nil_r, ?append_cons, ?ymd_eta, ?wall_of_days, ?andb_true_iff, ?Z.leb_le;
  try done; try lia.

(** Reading back what [%Y%m%d] and [isoformat] wrote. *)
Lemma strptime_strftime_ymd d : date_ok d = true → strptime F_YMD (strftime_ymd d) = Ok (d * day_usec).
Proof.
  intros Hd.
  apply (strptime_render _ _ (let x := ymd_of_days d in [(FY, y_year x); (Fm, y_month x); (Fd, y_day x)]));
    solve_strptime d Hd.
Qed.

Lemma strptime_isoformat d : date_ok d = true → strptime F_ISO (isoformat d) = Ok (d * day_usec).
Proof.
  intros Hd.
  apply (strptime_render _ _ (let x := ymd_of_days d in
           [(FY, y_year x); (FLit "-", 0); (Fm, y_month x); (FLit "-", 0); (Fd, y_day x)]));
    solve_strptime d Hd.
Qed.

(** IB's timed form. *)
Lemma strptime_timed d h mi s :
  date_ok d = true → 0 ≤ h ≤ 23 → 0 ≤ mi ≤ 59 → 0 ≤ s ≤ 59 →
  strptime F_YMD_HMS (strftime_ymd d +:+ ";" +:+ pad2 h +:+ pad2 mi +:+ pad2 s)
  = Ok (d * day_usec + ((h * 60 + mi) * 60 + s) * 1000000).
Proof.
  intros Hd Hh Hmi Hs.
  apply (strptime_render _ _ (let x := ymd_of_days d in
           [(FY, y_year x); (Fm, y_month x); (Fd, y_day x); (FLit ";", 0); (FH, h); (FM, mi); (FS, s)]));
    solve_strptime d Hd.
Qed.

Lemma date_of_day d : date_of (d * day_usec) = d.
Proof. unfold date_of. by rewrite Z.div_mul. Qed.

(** ** Texts that do not match *)

(** A reading leaves a suffix: characters that were absent stay absent. *)
Lemma readings_free c f s v r : (v, r) ∈ readings f s → char_free c s = true → char_free c r = true.
Proof.
  unfold char_free.
  assert (∀ lo hi s v r, (v, r) ∈ two_digits lo hi s → ∃ a b, s = String a (String b r)) as Htwo.
  { clear. intros lo hi [|a [|b s]] v r; cbn; try set_solver. destruct (_ && _); [|set_solver].
    destruct (_ && _); [|set_solver]. intros [= -> ->]%list_elem_of_singleton. eauto. }
  assert (∀ lo s v r, (v, r) ∈ one_digit lo s → ∃ a, s = String a r) as Hone.
  { clear. intros lo [|a s] v r; cbn; [set_solver|]. destruct (_ && _); [|set_solver].
    intros [= -> ->]%list_elem_of_singleton. eauto. }
  assert (∀ s v r, (v, r) ∈ four_digits s → ∃ a b c d, s = String a (String b (String c (String d r)))) as Hfour.
  { clear. intros [|a [|b [|c [|d s]]]] v r; cbn; try set_solver. destruct (_ && _); [|set_solver].
    intros [= -> ->]%list_elem_of_singleton. eauto. }
  assert (∀ a s, str_forallb (λ d, bool_decide (d ≠ c)) (String a s) = true →
            str_forallb (λ d, bool_decide (d ≠ c)) s = true) as Htail.
  { intros a s0. cbn. by intros [_ ?]%andb_true_iff. }
  destruct f; cbn [readings]; rewrite ?elem_of_app; intros Hin Hs;
    repeat match goal with H : _ ∨ _ |- _ => destruct H as [Hin|Hin] end.
  all: try (apply Htwo in Hin as (a & b & ->); by do 2 eapply Htail).
  all: try (apply Hone in Hin as (a & ->); by eapply Htail).
  - apply Hfour in Hin as (a & b & c' & d & ->). by do 4 eapply Htail.
  - destruct s as [|a s]; [by apply not_elem_of_nil in Hin|].
    destruct a as [[] [] [] [] [] [] [] []]; try (by apply not_elem_of_nil in Hin).
    apply Hone in Hin as (b & ->). by do 2 eapply Htail.
  - destruct s as [|a s]; [set_solver|]. case_decide; [|set_solver].
    apply list_elem_of_singleton in Hin. simplify_eq. by eapply Htail.
Qed.

(** A format whose literal the text lacks does not match. *)
Lemma match_fmt_free c fs s : FLit c ∈ fs → char_free c s = true → match_fmt fs s = [].
Proof.
  revert s. induction fs as [|f fs IH]; intros s Hin Hs; [set_solver|]. cbn.
  assert (∀ vr, vr ∈ readings f s → match_fmt fs vr.2 = [] ∨ f = FLit c) as Hall.
  { intros [v r] Hr. apply elem_of_cons in Hin as [<-|Hin]; [by right|]. left. apply IH; [done|]. by eapply readings_free. }
  destruct (decide (f = FLit c)) as [->|Hne].
  - cbn. destruct s as [|a s]; [done|]. unfold char_free in Hs. cbn in Hs. bool_hyps. by rewrite decide_False.
  - induction (readings f s) as [|[v r] l IHl]; [done|]. cbn.
    destruct (Hall (v, r)) as [E|]; [set_solver| |done]. cbn in E. rewrite E. cbn. apply IHl. set_solver.
Qed.

Lemma strptime_free c fs s : FLit c ∈ fs → char_free c s = true → strptime fs s = Raise strptime_error.
Proof. intros Hin Hs. unfold strptime. by rewrite (match_fmt_free c). Qed.

(** A four-digit year followed by something that is no digit is no [%Y%m%d]. *)
Lemma strptime_ymd_dash y s : 0 ≤ y < 10000 → strptime F_YMD (pad4 y +:+ String "-" s) = Raise strptime_error.
Proof.
  intros Hy. unfold strptime, F_YMD. cbn [match_fmt readings]. rewrite four_digits_pad4 by done.
  destruct s; done.
Qed.

(** Printed dates are plain digits and dashes: one byte a character, no blank. *)
Definition plain (s : string) : bool := str_forallb (λ c, is_lead c && negb (is_space c)) s.

Lemma digit_plain c : is_digit c = true → is_lead c && negb (is_space c) = true.
Proof. destruct c as [[] [] [] [] [] [] [] []]; by vm_compute. Qed.

Lemma plain_app a b : plain (a +:+ b) = plain a && plain b.
Proof. apply str_forallb_app. Qed.

Lemma digits_plain s : str_forallb is_digit s = true → plain s = true.
Proof. apply str_forallb_mono, digit_plain. Qed.

Lemma pad2_digits n : str_forallb is_digit (pad2 n) = true.
Proof. unfold pad2. cbn. by rewrite (proj1 (digit_char_spec (n / 10))), (proj1 (digit_char_spec n)). Qed.

Lemma pad4_digits n : str_forallb is_digit (pad4 n) = true.
Proof. unfold pad4. by rewrite str_forallb_app, !pad2_digits. Qed.

Lemma plain_space_free s : plain s = true → space_free s = true.
Proof. apply str_forallb_mono. by intros c [_ ?]%andb_true_iff. Qed.

Lemma plain_ulen s : plain s = true → ulen s = Z.of_nat (String.length s).
Proof.
  unfold plain. induction s as [|c s IH]; [done|]. cbn [str_forallb ulen String.length]. intros Hp. bool_hyps.
  match goal with H : is_lead c = true |- _ => rewrite H end. rewrite IH by done. lia.
Qed.

Lemma utake_plain n a b :
  plain a = true → Z.of_nat (String.length a) = n → match b with String c _ => is_lead c = true | "" => True end →
  utake n (a +:+ b) = a.
Proof.
  unfold plain. revert n. induction a as [|c a IH]; intros n Hp Hn Hb.
  - change ("" +:+ b) with b. cbn in Hn. subst. destruct b as [|c b]; [done|]. cbn [utake]. by rewrite Hb.
  - rewrite append_cons. cbn [utake String.length str_forallb] in *. bool_hyps.
    match goal with H : is_lead c = true |- _ => rewrite H end.
    rewrite (proj2 (Z.leb_gt n 0)) by lia. f_equal. apply IH; [done|lia|done].
Qed.
