(* ===== verification/Ddl.v ===== *)
(** * Schema, settings, freshness and heartbeat ([schema/ddl.py])

    The tables of [ops_jobs] other than the queue: what [ensure_flex_ops_schema] makes
    of an older database, the settings row, one freshness row per kind and the
    worker's heartbeat row. A statement's [clock_timestamp()] reads are taken as one
    instant [t]. *)
From S2P Require Import Prelude Pytext PyVal.

(** ** The schema *)

(** A table is its set of columns. *)
Notation schema := (gmap string (gset string)).

Definition JOB_TABLE : string := "job_flex_ingest".
Definition FRESHNESS_TABLE : string := "flex_ingest_freshness".
Definition HEARTBEAT_TABLE : string := "flex_worker_heartbeat".
Definition SETTINGS_TABLE : string := "flex_settings".

Inductive ddl :=
| CreateTable (table : string) (cols : list string)
| AddColumn (table col : string)
| CommentOn (table : string).

(** [CREATE TABLE IF NOT EXISTS], [ALTER TABLE .. ADD COLUMN IF NOT EXISTS] and the
    guarded [COMMENT]: the last two need the table. *)
Definition run_ddl (s : schema) (stmt : ddl) : res schema :=
  match stmt with
  | CreateTable tb cols =>
      Ok (match s !! tb with Some _ => s | None => <[tb := list_to_set cols]> s end)
  | AddColumn tb col =>
      match s !! tb with
      | Some cols => Ok (<[tb := {[ col ]} ∪ cols]> s)
      | None => Raise (Exn DatabaseError ("relation does not exist: " +:+ tb))
      end
  | CommentOn tb =>
      match s !! tb with
      | Some _ => Ok s
      | None => Raise (Exn DatabaseError ("relation does not exist: " +:+ tb))
      end
  end.

Definition CREATE : list ddl :=
  [CreateTable JOB_TABLE
     ["id"; "kind"; "payload"; "payload_hash"; "priority"; "status"; "attempts"; "max_attempts"; "result";
      "error_category"; "not_before"; "created_at"; "updated_at"; "started_at"; "finished_at"];
   CreateTable FRESHNESS_TABLE
     ["dimension"; "latest_ts"; "row_count"; "updated_at"; "last_ok"; "last_error"; "processed_rows"; "new_rows";
      "last_job_id"; "last_finished_at"]].

Definition MIGRATIONS : list ddl :=
  [AddColumn JOB_TABLE "not_before"; AddColumn JOB_TABLE "error_category";
   AddColumn FRESHNESS_TABLE "last_ok"; AddColumn FRESHNESS_TABLE "last_error";
   AddColumn FRESHNESS_TABLE "processed_rows"; AddColumn FRESHNESS_TABLE "new_rows";
   AddColumn FRESHNESS_TABLE "last_job_id"; AddColumn FRESHNESS_TABLE "last_finished_at";
   CreateTable HEARTBEAT_TABLE
     ["worker"; "pod"; "version"; "seen_at"; "started_at"; "jobs_done"; "jobs_failed"; "jobs_retried"; "catchups";
      "db_reconnects"; "stale_reclaimed"; "last_error"; "last_error_category"];
   CreateTable SETTINGS_TABLE ["id"; "flex_default_range_days"; "flex_init_range_days"; "updated_at"];
   CommentOn SETTINGS_TABLE].

(** The count of the two tables in [information_schema]. *)
Definition present (s : schema) : Z :=
  Z.of_nat (length (filter (λ tb, is_Some (s !! tb)) [JOB_TABLE; FRESHNESS_TABLE])).

(** [ensure_flex_ops_schema]: the schema and the process's [_migrated] flag. The
    statements are one transaction; the flag is set inside it. *)
Definition ensure_flex_ops_schema (migrate : bool) (s : schema) (migrated : bool) : res (schema * bool) :=
  s1 ← (if present s <? 2 then fold_res run_ddl s CREATE else Ok s);
  if migrate && negb migrated
  then s2 ← fold_res run_ddl s1 MIGRATIONS; Ok (s2, true)
  else Ok (s1, migrated).

(** ** The settings row *)

(** [read_flex_settings]: the row with id 1, its two columns possibly NULL. *)
Definition read_flex_settings (row : option (option Z * option Z)) : option (Z * Z) :=
  match row with
  | Some (Some default_days, Some init_days) => Some (Z.max 1 default_days, Z.max 1 init_days)
  | _ => None
  end.

(** ** Freshness *)

Record freshness := mkFreshness {
  f_latest_ts : option Z;
  f_row_count : option Z;
  f_updated_at : Z;
  f_last_ok : bool;
  f_last_error : option string;
  f_processed_rows : option Z;
  f_new_rows : option Z;
  f_last_job_id : option Z;
  f_last_finished_at : Z
}.

(** [x or None] of a text. *)
Definition or_none (s : string) : option string := if decide (s = "") then None else Some s.

(** One attempt's outcome, as [record_freshness] is told it. *)
Record attempt := mkAttempt {
  a_time : Z;
  a_ok : bool;
  a_processed : Z;
  a_new_rows : option Z;
  a_error : option string;
  a_job_id : option Z
}.

Definition record_freshness (dimension : string) (a : attempt) (tb : gmap string freshness) : gmap string freshness :=
  let t := a_time a in
  if a_ok a then
    <[dimension := mkFreshness (Some t) (Some (a_processed a)) t true None (Some (a_processed a)) (a_new_rows a)
                     (a_job_id a) t]> tb
  else
    let err := or_none (utake 2000 (default "" (a_error a))) in
    <[dimension :=
        match tb !! dimension with
        | None => mkFreshness None None t false err None None (a_job_id a) t
        | Some f => mkFreshness (f_latest_ts f) (f_row_count f) t false err (f_processed_rows f) (f_new_rows f)
                      (a_job_id a) t
        end]> tb.

Definition update_freshness (t : Z) (dimension : string) (row_count : Z) (tb : gmap string freshness) :=
  record_freshness dimension (mkAttempt t true row_count None None None) tb.

(** ** The worker's heartbeat *)

(** The worker's counters ([state] in [worker/loop.py]). *)
Record counters := mkCounters {
  n_done : Z;
  n_failed : Z;
  n_retried : Z;
  n_catchups : Z;
  n_reclaimed : Z;
  n_reconnects : Z;
  last_kind : option string;
  last_claim_at : string;
  last_error : string;
  last_error_category : string
}.

Record heartbeat := mkHeartbeat {
  hb_pod : string;
  hb_version : string;
  hb_seen_at : Z;
  hb_started_at : Z;
  hb_done : Z;
  hb_failed : Z;
  hb_retried : Z;
  hb_catchups : Z;
  hb_reconnects : Z;
  hb_reclaimed : Z;
  hb_last_error : option string;
  hb_last_error_category : option string
}.

Definition WORKER_KEY : string := "flex-query-worker".

Definition record_heartbeat (t : Z) (c : counters) (pod version : string) (started_at : Z)
    (tb : gmap string heartbeat) : gmap string heartbeat :=
  <[WORKER_KEY := mkHeartbeat pod version t started_at (n_done c) (n_failed c) (n_retried c) (n_catchups c)
       (n_reconnects c) (n_reclaimed c) (or_none (utake 500 (last_error c)))
       (or_none (last_error_category c))]> tb.

(** ** Lemmas on migrations *)

(** [s2] has every table and column of [s1]. *)
Definition schema_le (s1 s2 : schema) : Prop :=
  ∀ tb cols, s1 !! tb = Some cols → ∃ cols', s2 !! tb = Some cols' ∧ cols ⊆ cols'.

#[export] Instance schema_le_preorder : PreOrder schema_le.
Proof.
  split.
  - intros s tb cols H. by exists cols.
  - intros s1 s2 s3 H12 H23 tb cols H. destruct (H12 _ _ H) as (c2 & H2 & ?), (H23 _ _ H2) as (c3 & H3 & ?).
    exists c3. split; [done|set_solver].
Qed.

(** What a statement asks for is there. *)
Definition satisfied (s : schema) (stmt : ddl) : Prop :=
  match stmt with
  | CreateTable tb _ | CommentOn tb => is_Some (s !! tb)
  | AddColumn tb col => ∃ cols, s !! tb = Some cols ∧ col ∈ cols
  end.

Lemma satisfied_le s1 s2 stmt : schema_le s1 s2 → satisfied s1 stmt → satisfied s2 stmt.
Proof.
  intros Hle. destruct stmt as [tb cols|tb col|tb]; cbn.
  - intros [c H]. destruct (Hle _ _ H) as (c' & ? & _). eauto.
  - intros (c & H & Hin). destruct (Hle _ _ H) as (c' & ? & ?). exists c'. split; [done|set_solver].
  - intros [c H]. destruct (Hle _ _ H) as (c' & ? & _). eauto.
Qed.

Lemma run_ddl_spec s stmt s' : run_ddl s stmt = Ok s' → schema_le s s' ∧ satisfied s' stmt.
Proof.
  destruct stmt as [tb cols|tb col|tb]; cbn; (destruct (s !! tb) as [c|] eqn:E; [|try done]); intros; simplify_eq.
  - split; [done|eauto].
  - split; [|rewrite lookup_insert_eq; eauto]. intros tb' c' H. exists c'.
    rewrite lookup_insert_ne by congruence. done.
  - split; [|exists ({[col]} ∪ c); rewrite lookup_insert_eq; split; [done|set_solver]].
    intros tb' c' H. destruct (decide (tb = tb')) as [<-|Hne].
    + simplify_eq. exists ({[col]} ∪ c). rewrite lookup_insert_eq. split; [done|set_solver].
    + exists c'. by rewrite lookup_insert_ne.
  - split; [done|eauto].
Qed.

(** A statement whose demand is met changes nothing. *)
Lemma run_ddl_satisfied s stmt : satisfied s stmt → run_ddl s stmt = Ok s.
Proof.
  destruct stmt as [tb cols|tb col|tb]; cbn.
  - by intros [c ->].
  - intros (c & H & Hin). rewrite H. f_equal. apply map_eq. intros tb'.
    destruct (decide (tb = tb')) as [<-|Hne]; [|by rewrite lookup_insert_ne].
    rewrite lookup_insert_eq, H. f_equal. set_solver.
  - by intros [c ->].
Qed.

Lemma fold_ddl_spec stmts s s' :
  fold_res run_ddl s stmts = Ok s' → schema_le s s' ∧ Forall (satisfied s') stmts.
Proof.
  revert s. induction stmts as [|st stmts IH]; intros s; cbn; [by intros [= <-]|].
  destruct (run_ddl s st) as [s1|] eqn:E; [|done]. intros Hf. apply run_ddl_spec in E as [Hle Hs].
  destruct (IH _ Hf) as [Hle' Hall]. split; [by etrans|]. constructor; [|done]. by eapply satisfied_le.
Qed.

Lemma fold_ddl_satisfied stmts s : Forall (satisfied s) stmts → fold_res run_ddl s stmts = Ok s.
Proof. induction 1 as [|st stmts Hs Hall IH]; [done|]. cbn. by rewrite run_ddl_satisfied. Qed.

(** Every table a statement needs is known, or created by an earlier one. *)
Fixpoint deps_ok (known : list string) (stmts : list ddl) : bool :=
  match stmts with
  | [] => true
  | CreateTable tb _ :: rest => deps_ok (tb :: known) rest
  | (AddColumn tb _ | CommentOn tb) :: rest => bool_decide (tb ∈ known) && deps_ok known rest
  end.

Lemma fold_ddl_ok known stmts s :
  (∀ tb, tb ∈ known → is_Some (s !! tb)) → deps_ok known stmts = true → is_ok (fold_res run_ddl s stmts) = true.
Proof.
  revert known s. induction stmts as [|st stmts IH]; intros known s Hk Hd; [done|]. cbn [fold_res].
  destruct (run_ddl s st) as [s1|] eqn:E.
  - pose proof (run_ddl_spec _ _ _ E) as [Hle Hsat].
    assert (∀ tb, tb ∈ known → is_Some (s1 !! tb)) as Hk1.
    { intros tb Htb. destruct (Hk tb Htb) as [c Hc]. destruct (Hle _ _ Hc) as (c' & ? & _). eauto. }
    destruct st as [tb cols|tb col|tb]; cbn in Hd, Hsat; bool_hyps; [eapply IH; [|done]|by eapply IH..].
    intros tb' [->|Htb']%elem_of_cons; [done|by apply Hk1].
  - exfalso. destruct st as [tb cols|tb col|tb]; cbn in *; [done| |]; bool_hyps;
      destruct (Hk tb) as [c Hc]; try done; by rewrite Hc in E.
Qed.

(** ** Theorems *)

(** The migration works on any older database and loses nothing: it succeeds
    whatever tables and columns exist, keeps all of them, leaves the queue, the
    freshness, the heartbeat and the settings tables with every column the newer
    code added, and running it again in a fresh process changes nothing. *)
Theorem ensure_schema_spec s :
  ∃ s', ensure_flex_ops_schema true s false = Ok (s', true)
    ∧ schema_le s s'
    ∧ Forall (satisfied s') MIGRATIONS
    ∧ (∀ tb, tb ∈ [JOB_TABLE; FRESHNESS_TABLE; HEARTBEAT_TABLE; SETTINGS_TABLE] → is_Some (s' !! tb))
    ∧ ensure_flex_ops_schema true s' false = Ok (s', true).
Proof.
  unfold ensure_flex_ops_schema at 1.
  assert (∃ s1, (if present s <? 2 then fold_res run_ddl s CREATE else Ok s) = Ok s1 ∧ schema_le s s1
            ∧ ∀ tb, tb ∈ [JOB_TABLE; FRESHNESS_TABLE] → is_Some (s1 !! tb)) as (s1 & -> & Hle1 & Hcore).
  { destruct (present s <? 2) eqn:Hp.
    - pose proof (fold_ddl_ok [] CREATE s ltac:(set_solver) eq_refl) as Hok.
      destruct (fold_res run_ddl s CREATE) as [s1|] eqn:E; [|done]. exists s1.
      apply fold_ddl_spec in E as [Hle Hall]. split_and!; [done..|].
      unfold CREATE in Hall. rewrite !Forall_cons in Hall. destruct Hall as (H1 & H2 & _). set_solver.
    - exists s. split_and!; [done..|]. intros tb Htb. bool_hyps. unfold present in Hp.
      rewrite !filter_cons, filter_nil in Hp. repeat case_decide; cbn in Hp; try lia. set_solver. }
  cbn [mbind res_bind andb negb].
  pose proof (fold_ddl_ok [JOB_TABLE; FRESHNESS_TABLE] MIGRATIONS s1 Hcore eq_refl) as Hok.
  destruct (fold_res run_ddl s1 MIGRATIONS) as [s2|] eqn:E; [|done]. cbn [mbind res_bind].
  apply fold_ddl_spec in E as [Hle2 Hall]. exists s2.
  assert (∀ tb, tb ∈ [JOB_TABLE; FRESHNESS_TABLE] → is_Some (s2 !! tb)) as Hcore2.
  { intros tb Htb. destruct (Hcore tb Htb) as [c Hc]. destruct (Hle2 _ _ Hc) as (c' & ? & _). eauto. }
  split_and!; [done|by etrans|done| |].
  - intros tb Htb. rewrite !elem_of_cons in Htb. pose proof Hall as Hall'. unfold MIGRATIONS in Hall'.
    rewrite !Forall_cons in Hall'. destruct Hall' as (_ & _ & _ & _ & _ & _ & _ & _ & Hh & Hs & _).
    destruct Htb as [->|[->|[->|[->|?]]]]; [by apply Hcore2; set_solver..|done|done|set_solver].
  - unfold ensure_flex_ops_schema.
    assert (present s2 = 2) as Hp.
    { unfold present. rewrite !filter_cons, filter_nil, !decide_True by (by apply Hcore2; set_solver). done. }
    rewrite Hp. change (2 <? 2) with false. cbn [mbind res_bind andb negb].
    by rewrite (fold_ddl_satisfied _ _ Hall).
Qed.

(** A log of attempts, oldest first, written to the table. *)
Definition record_all (log : list (string * attempt)) (tb : gmap string freshness) : gmap string freshness :=
  foldl (λ tb '(d, a), record_freshness d a tb) tb log.

(** The attempts at one kind. *)
Definition attempts_at (d : string) (log : list (string * attempt)) : list attempt :=
  (filter (λ e, e.1 = d) log).*2.

Lemma attempts_at_app d log1 log2 : attempts_at d (log1 ++ log2) = attempts_at d log1 ++ attempts_at d log2.
Proof. unfold attempts_at. by rewrite filter_app, fmap_app. Qed.

(** C38. "Last successful sync" is truthful: whatever mixture of successes and failures
    of whatever kinds was recorded, a kind's row shows the time and the row counts
    of its last success, and the outcome, the error, the job and the time of its
    last attempt; a kind never attempted has no row. *)
Theorem freshness_truthful log d :
  let mine := attempts_at d log in
  let good := filter (λ a, a_ok a = true) mine in
  match last mine with
  | None => record_all log ∅ !! d = None
  | Some a => ∃ f, record_all log ∅ !! d = Some f
      ∧ f_latest_ts f = a_time <$> last good
      ∧ f_row_count f = a_processed <$> last good
      ∧ f_processed_rows f = a_processed <$> last good
      ∧ f_new_rows f = last good ≫= a_new_rows
      ∧ f_last_ok f = a_ok a
      ∧ f_last_error f = (if a_ok a then None else or_none (utake 2000 (default "" (a_error a))))
      ∧ f_last_job_id f = a_job_id a ∧ f_last_finished_at f = a_time a
  end.
Proof.
  cbn zeta. induction log as [|[d' a] log IH] using rev_ind; [done|].
  unfold record_all in *. rewrite foldl_app. cbn [foldl].
  rewrite attempts_at_app. set (tb := foldl _ ∅ log) in *.
  assert (attempts_at d [(d', a)] = if decide (d' = d) then [a] else []) as ->.
  { unfold attempts_at. rewrite filter_cons, filter_nil. cbn. by destruct (decide (d' = d)). }
  destruct (decide (d' = d)) as [->|Hne].
  - rewrite last_snoc, filter_app, filter_cons, filter_nil. unfold record_freshness. destruct (a_ok a) eqn:Hok.
    + rewrite decide_True, last_snoc by done. eexists. rewrite lookup_insert_eq. split; [done|].
      cbn. rewrite ?Hok. by split_and!.
    + rewrite decide_False, app_nil_r by done. eexists. rewrite lookup_insert_eq. split; [done|].
      destruct (last (attempts_at d log)) as [a0|] eqn:Hl.
      * destruct IH as (f & -> & H1 & H2 & H3 & H4 & _). cbn. by rewrite ?Hok.
      * apply last_None in Hl. rewrite IH, Hl. cbn. by rewrite ?Hok.
  - rewrite app_nil_r. unfold record_freshness. by destruct (a_ok a); rewrite lookup_insert_ne.
Qed.
