(* ===== verification/FlexClient.v ===== *)
(** * The Flex Web Service client ([client/flex_client.py])

    IB's two HTTP calls and the XML of its answers. The network is the interface
    [FlexWeb]; the XML text is turned into a tree by the interface [XmlParser] (expat,
    behind [ElementTree.fromstring]), whose tree this file reads. *)
From Stdlib Require Import Ascii.
From S2P Require Import Prelude Pytext PyVal Retry Pytime.

(** ** Elements *)

Unset Elimination Schemes.
Inductive xml := Elem (tag : string) (attrib : list (string * string)) (text : string) (children : list xml).
Set Elimination Schemes.

Definition xml_tag (e : xml) : string := match e with Elem t _ _ _ => t end.
Definition xml_attrib (e : xml) : list (string * string) := match e with Elem _ a _ _ => a end.
Definition xml_text (e : xml) : string := match e with Elem _ _ t _ => t end.
Definition xml_children (e : xml) : list xml := match e with Elem _ _ _ c => c end.

(** [root.iter()]: the element and all below it, in document order. *)
Fixpoint iter (e : xml) : list xml := match e with Elem _ _ _ c => e :: concat (List.map iter c) end.

(** [elem.find(tag)] and [elem.get(name)]. *)
Definition find_child (e : xml) (tag : string) : option xml := find (λ c, bool_decide (xml_tag c = tag)) (xml_children e).
Fixpoint assoc (k : string) (l : list (string * string)) : option string :=
  match l with [] => None | (k', v) :: l' => if decide (k' = k) then Some v else assoc k l' end.
Definition attr (e : xml) (name : string) : string := default "" (assoc name (xml_attrib e)).

(** [ET.fromstring]: a tree, or the message of the [ParseError]. *)
Class XmlParser := parse_xml : string → xml + string.

(** The network: what [SendRequest] answers to its parameters, and what [GetStatement]
    answers to its own at each poll. [URLError] stands for itself and [HTTPError]. *)
Class FlexWeb := {
  send_request : list (string * string) → res string;
  get_statement_answer : list (string * string) → nat → res string
}.

(** ** Helpers *)

(** [a or b] of texts. *)
Definition or_s (a b : string) : string := if decide (a = "") then b else a.

(** [_text(elem, tag, default)]. *)
Definition text_of (e : xml) (tag dflt : string) : string :=
  match find_child e tag with
  | Some c => if decide (xml_text c = "") then dflt else strip (xml_text c)
  | None => dflt
  end.

(** [tag.split("}", 1)[1]]: what follows the first closing brace. *)
Fixpoint after_brace (s : string) : option string :=
  match s with
  | EmptyString => None
  | String c r => if decide (c = "}"%char) then Some r else after_brace r
  end.
Definition local_name (tag : string) : string := default tag (after_brace tag).

(** [_normalize_type]: the canonical type of a cash row. *)
Definition normalize_type (flex_type code : string) (amount : pyfloat) : string :=
  let t := lower (strip flex_type) in
  let c := upper (strip code) in
  if str_in "deposits/withdrawals" t || str_in "deposits and withdrawals" t
  then if float_ge_zero amount then "deposit" else "withdrawal"
  else if str_in "deposit" t || str_in "dep" c || bool_decide (c = "DEP") then "deposit"
  else if str_in "withdraw" t || str_in "withdrawal" t || str_in "wth" c || bool_decide (c = "WTH") then "withdrawal"
  else if str_in "transfer" t || str_in "tra" c || str_in "internal" t then "transfer"
  else if str_in "dividend" t || str_in "div" c || str_in "dvd" c then "dividend"
  else "other".

(** ** Dates *)

Definition FLEX_DATETIME_FORMATS : list (list fmt * Z * bool) :=
  [(F_YMD_HMS, 15, false); (F_ISO_T, 19, false); (F_ISO_SP, 19, false); (F_YMD, 8, true); (F_ISO, 10, true)].

(** [re.search(r"(\d{8})", s)]. *)
Fixpoint eight_digits (s : string) : option string :=
  let w := utake 8 s in
  if (String.length w =? 8)%nat && str_forallb is_digit w then Some w
  else match s with EmptyString => None | String _ r => eight_digits r end.

Section dates.
Context `{ZoneDb} (FLEX_LOCAL_TZ : string).

(** [_local_to_utc]. *)
Definition local_to_utc (w : Z) : Z := of_wall (Some FLEX_LOCAL_TZ) w.

Fixpoint try_formats (fs : list (list fmt * Z * bool)) (s : string) : option (Z * bool) :=
  match fs with
  | [] => None
  | (f, n, date_only) :: fs' =>
      if ulen s <? n then try_formats fs' s
      else match strptime f (utake n s) with
           | Ok w => Some (local_to_utc w, date_only)
           | Raise _ => try_formats fs' s
           end
  end.

(** [parse_flex_datetime]: the instant, and whether only a date was given. *)
Definition parse_flex_datetime (raw : string) : option Z * bool :=
  let s := strip raw in
  if decide (s = "") then (None, false)
  else match try_formats FLEX_DATETIME_FORMATS s with
       | Some (t, date_only) => (Some t, date_only)
       | None =>
           match eight_digits s with
           | Some d => match strptime F_YMD d with Ok w => (Some (local_to_utc w), true) | Raise _ => (None, false) end
           | None => (None, false)
           end
       end.
End dates.

(** [_parse_yyyymmdd_to_date]. *)
Definition parse_yyyymmdd_to_date (s : string) : option Z :=
  let s := strip s in
  if decide (s = "") then None
  else match strptime F_YMD (utake 8 s) with Ok w => Some (date_of w) | Raise _ => None end.

(** The date of a cash row, read as UTC: the timed form is cut to its date on purpose. *)
Definition CASH_FORMATS : list (list fmt * Z) :=
  [(F_YMD_HMS, 8); (F_YMD, 8); (F_ISO_T, 19); (F_ISO_SP, 19); (F_ISO, 10)].
Fixpoint try_cash_formats (fs : list (list fmt * Z)) (s : string) : option Z :=
  match fs with
  | [] => None
  | (f, n) :: fs' => match strptime f (utake n s) with Ok w => Some w | Raise _ => try_cash_formats fs' s end
  end.
Definition cash_date (date_time_str : string) : option Z :=
  let s := strip date_time_str in
  match try_cash_formats CASH_FORMATS s with
  | Some w => Some w
  | None =>
      match eight_digits s with
      | Some d => match strptime F_YMD d with Ok w => Some w | Raise _ => None end
      | None => None
      end
  end.

(** ** Requests *)

Definition MAX_GET_STATEMENT_POLLS : nat := 24.
Definition MAX_FLEX_DAYS : Z := 366.
Definition span_message : string :=
  "Date range cannot exceed 366 days (IB Flex limit). Use from_date and to_date within 366 days, or omit both to use the query default period (e.g. Last 365 Calendar Days).".

(** A parameter that counts: not [None] and not empty. *)
Definition given_text (s : option string) : bool := match s with Some t => bool_decide (t ≠ "") | None => false end.

(** The parameters [request_report] sends, or why it refuses to. *)
Definition request_params (token query_id : string) (from_date to_date : option string) (period : option Z)
    : res (list (string * string)) :=
  let base := [("t", token); ("q", query_id); ("v", "3")] in
  match period with
  | Some p => Ok (base ++ [("p", str_of_Z p)])
  | None =>
      if given_text from_date && given_text to_date then
        let f := utake 8 (strip (default "" from_date)) in
        let t := utake 8 (strip (default "" to_date)) in
        _ ← try_except [ValueError]
          (fd ← strptime F_YMD f;
           td ← strptime F_YMD t;
           if MAX_FLEX_DAYS <? (td - fd) / day_usec then Raise (Exn ValueError span_message) else Ok ())
          (λ e, if str_in "cannot exceed" (exn_str e) then Raise e
                else Raise (Exn ValueError ("from_date and to_date must be yyyyMMdd format: " +:+ exn_str e)));
        Ok (base ++ [("fd", f); ("td", t)])
      else if given_text from_date || given_text to_date then
        Raise (Exn ValueError "When overriding dates, both from_date and to_date are required (yyyyMMdd).")
      else Ok base
  end.

Section client.
Context `{XmlParser, FlexWeb}.

(** [ET.fromstring(body)] where nothing catches the [ParseError]. *)
Definition from_string (body : string) : res xml :=
  match parse_xml body with inl e => Ok e | inr msg => Raise (Exn OtherError msg) end.

(** [request_report]: the reference code. *)
Definition request_report (token query_id : string) (from_date to_date : option string) (period : option Z)
    : res string :=
  params ← request_params token query_id from_date to_date period;
  body ← try_except [URLError] (send_request params)
           (λ e, Raise (Exn ValueError ("Flex SendRequest failed: " +:+ exn_str e)));
  root ← from_string body;
  if decide (lower (strip (text_of root "Status" "")) = "fail") then
    Raise (Exn ValueError ("Flex request failed: [" +:+ text_of root "ErrorCode" "" +:+ "] "
                           +:+ text_of root "ErrorMessage" "Unknown error"))
  else
    let ref := strip (text_of root "ReferenceCode" "") in
    if decide (ref = "") then Raise (Exn ValueError "Flex SendRequest returned no ReferenceCode") else Ok ref.

(** [_statement_not_ready]: [None] for a generated report, otherwise why it is not one. *)
Definition statement_not_ready (body : string) : option string :=
  match parse_xml body with
  | inr msg => Some ("response is not XML (" +:+ msg +:+ ")")
  | inl root =>
      let tag := local_name (xml_tag root) in
      if decide (tag = "FlexStatementResponse") then
        let status := or_s (text_of root "Status" "") "no Status" in
        let code := text_of root "ErrorCode" "" in
        let msg := or_s (text_of root "ErrorMessage" "") "Report not ready" in
        Some (if decide (code = "") then status +:+ ": " +:+ msg
              else status +:+ " [" +:+ code +:+ "] " +:+ msg)
      else if negb (bool_decide (tag = "FlexQueryResponse")) then Some ("unexpected <" +:+ tag +:+ "> response")
      else if existsb (λ node, bool_decide (local_name (xml_tag node) = "FlexStatement")) (iter root) then None
      else Some "FlexQueryResponse without a FlexStatement"
  end.

(** The polling loop: [left] polls remain, the next one is [attempt]. *)
Fixpoint poll (params : list (string * string)) (left attempt : nat) (last_err : string) : res string :=
  match left with
  | O => Raise (Exn ValueError ("Flex GetStatement did not return report after 24 attempts. Last: " +:+ last_err))
  | S left' =>
      match get_statement_answer params attempt with
      | Raise e =>
          if decide (exn_cls e = URLError) then poll params left' (S attempt) (exn_str e) else Raise e
      | Ok body =>
          match statement_not_ready body with
          | None => Ok body
          | Some why => poll params left' (S attempt) why
          end
      end
  end.

Definition get_statement (token reference_code : string) : res string :=
  poll [("t", token); ("q", reference_code); ("v", "3")] MAX_GET_STATEMENT_POLLS 0 "None".
End client.

(** ** Rows *)

(** A value of a parsed row. [CTime] is an instant in microseconds; the code keeps
    its seconds as a float. [CAttrs] is a dict of leftover attributes. *)
Inductive cell :=
| CNone
| CStr (s : string)
| CInt (n : Z)
| CFloat (f : pyfloat)
| CDate (d : Z)
| CTime (us : Z)
| CAttrs (l : list (string * string)).

Notation row := (list (string * cell)).

Fixpoint cell_of (k : string) (r : row) : cell :=
  match r with [] => CNone | (k', v) :: r' => if decide (k' = k) then v else cell_of k r' end.

(** [x or None]; a key that is only set when the text is not empty. *)
Definition str_or_none (s : string) : cell := if decide (s = "") then CNone else CStr s.
Definition when_given (k s : string) (v : cell) : row := if decide (s = "") then [] else [(k, v)].
Definition option_cell {A} (c : A → cell) (o : option A) : cell := match o with Some a => c a | None => CNone end.

(** Thousands separators are dropped before [float]. *)
Definition float_text (s : string) : option pyfloat := float_of_str (replace_char ","%char "" s).

(** The account a report is about: that of the first statement that names one. *)
Definition statement_account (node : xml) : string :=
  strip (or_s (attr node "accountId") (or_s (attr node "accountID")
          (or_s (text_of node "accountId" "") (text_of node "AccountId" "")))).
Definition report_account_id (root : xml) : string :=
  let named := filter (λ a, a ≠ "")
    (statement_account <$> filter (λ node, local_name (xml_tag node) = "FlexStatement") (iter root)) in
  match named with
  | a :: _ => a
  | [] => strip (or_s (attr root "accountId") (attr root "accountID"))
  end.

(** A field as a child element, in either spelling, or as an attribute. *)
Definition field_of (e : xml) (name Name attribute : string) : string :=
  or_s (text_of e name "") (or_s (text_of e Name "") (attr e attribute)).

(** One round of the loop of [parse_cash_transactions_xml]. *)
Definition cash_row (report_account : string) (e : xml) : option row :=
  let account_id := or_s (text_of e "accountId" "") (or_s (text_of e "AccountId" "")
                      (or_s (attr e "accountId") (or_s (attr e "accountID") report_account))) in
  let date_time_str := or_s (text_of e "dateTime" "") (or_s (text_of e "DateTime" "") (or_s (text_of e "settleDate" "")
                         (or_s (attr e "dateTime") (attr e "settleDate")))) in
  let amount_str := or_s (text_of e "amount" "") (or_s (text_of e "Amount" "") (or_s (attr e "amount") "0")) in
  let flex_type := field_of e "type" "Type" "type" in
  let code := field_of e "code" "Code" "code" in
  let currency := field_of e "currency" "Currency" "currency" in
  let description := field_of e "description" "Description" "description" in
  let transaction_id := or_s (text_of e "transactionID" "") (or_s (text_of e "TransactionID" "")
                          (strip (or_s (attr e "transactionID") (attr e "TransactionID")))) in
  let asset_category := field_of e "assetCategory" "AssetCategory" "assetCategory" in
  let sub_category := field_of e "subCategory" "SubCategory" "subCategory" in
  let symbol := field_of e "symbol" "Symbol" "symbol" in
  let conid := field_of e "conid" "Conid" "conid" in
  let security_id := field_of e "securityID" "SecurityID" "securityID" in
  let security_id_type := field_of e "securityIDType" "SecurityIDType" "securityIDType" in
  let listing_exchange := field_of e "listingExchange" "ListingExchange" "listingExchange" in
  let report_date := field_of e "reportDate" "ReportDate" "reportDate" in
  let available := field_of e "availableForTradingDate" "AvailableForTradingDate" "availableForTradingDate" in
  let fx_rate := field_of e "fxRateToBase" "FxRateToBase" "fxRateToBase" in
  let amount := default (FDec 0 0) (float_text amount_str) in
  if bool_decide (account_id = "") && float_is_zero amount then None
  else
    match cash_date date_time_str with
    | None => None
    | Some ts =>
        Some
          ([("account_id", CStr (strip account_id)); ("ts", CTime ts); ("amount", CFloat amount);
            ("type", CStr (normalize_type flex_type code amount));
            ("currency", str_or_none currency); ("description", str_or_none description)]
           ++ when_given "flex_transaction_id" transaction_id (CStr transaction_id)
           ++ when_given "flex_type" flex_type (CStr flex_type)
           ++ when_given "flex_code" code (CStr code)
           ++ when_given "asset_category" asset_category (CStr asset_category)
           ++ when_given "asset_subcategory" sub_category (CStr sub_category)
           ++ when_given "symbol" symbol (CStr symbol)
           ++ when_given "conid" conid (option_cell CInt (int_of_str conid))
           ++ when_given "security_id" security_id (CStr security_id)
           ++ when_given "security_id_type" security_id_type (CStr security_id_type)
           ++ when_given "listing_exchange" listing_exchange (CStr listing_exchange)
           ++ when_given "report_date" report_date (CStr report_date)
           ++ when_given "available_for_trading_date" available (CStr available)
           ++ when_given "fx_rate_to_base" fx_rate (option_cell CFloat (float_of_str fx_rate))
           ++ match xml_attrib e with [] => [] | extra => [("raw_extra", CAttrs extra)] end)
    end.

(** ** Trades *)

(** The attributes a trade row names; the others go to [raw_extra]. *)
Definition known_keys : list string :=
  ["accountId"; "acctAlias"; "model"; "currency"; "fxRateToBase"; "assetCategory"; "subCategory"; "symbol";
   "description"; "conid"; "securityID"; "securityIDType"; "cusip"; "isin"; "figi"; "listingExchange";
   "underlyingConid"; "underlyingSymbol"; "underlyingSecurityID"; "underlyingListingExchange"; "issuer";
   "issuerCountryCode"; "tradeID"; "multiplier"; "relatedTradeID"; "strike"; "reportDate"; "expiry"; "dateTime";
   "putCall"; "tradeDate"; "principalAdjustFactor"; "settleDateTarget"; "transactionType"; "exchange"; "quantity";
   "tradePrice"; "tradeMoney"; "proceeds"; "taxes"; "ibCommission"; "ibCommissionCurrency"; "netCash";
   "closePrice"; "openCloseIndicator"; "notes"; "cost"; "fifoPnlRealized"; "mtmPnl"].

Section trades.
Context `{PyRepr, ZoneDb} (FLEX_LOCAL_TZ : string).

(** [symbol|sec_type|expiry|strike|right], when the first two are there. *)
Definition contract_key (symbol sec_type expiry : string) (strike : option pyfloat) (option_right : string) : cell :=
  let sym := strip symbol in
  let sec := strip sec_type in
  if bool_decide (sym = "") || bool_decide (sec = "") then CNone
  else CStr (join "|" [sym; sec; strip expiry; from_option (λ f, py_repr (PFloat f)) "" strike; strip option_right]).

(** The instant of a trade: [dateTime], or else [tradeDate]. *)
Definition trade_time (attrs : list (string * string)) : option Z :=
  match (parse_flex_datetime FLEX_LOCAL_TZ (default "" (assoc "dateTime" attrs))).1 with
  | Some t => Some t
  | None => (parse_flex_datetime FLEX_LOCAL_TZ (default "" (assoc "tradeDate" attrs))).1
  end.

(** One round of the loop of [parse_trades_xml], on the stripped attributes. *)
Definition trade_row (report_account : string) (attrs : list (string * string)) : option row :=
  let get k := default "" (assoc k attrs) in
  let get_or k d := default d (assoc k attrs) in
  let number s := if decide (s = "") then CNone else option_cell CFloat (float_text s) in
  let digits k := if isdigit (get k) then option_cell CInt (int_of_str (get k)) else CNone in
  let text k := str_or_none (get k) in
  let date k := option_cell CDate (parse_yyyymmdd_to_date (get k)) in
  let account_id := or_s (get "accountId") report_account in
  let time := trade_time attrs in
  if negb (bool_decide (is_Some time)) && bool_decide (account_id = "") then None
  else
    let sec_type := get "assetCategory" in
    let strike := float_of_str (get "strike") in
    let order_id := or_s (get "ibOrderID") (get "orderID") in
    let commission_currency := get "ibCommissionCurrency" in
    let currency := or_s (get "currency") commission_currency in
    let extra := filter (λ kv, kv.1 ∉ known_keys) attrs in
    Some
      ([("account_id", CStr account_id); ("time", option_cell CTime time); ("symbol", text "symbol");
        ("sec_type", str_or_none sec_type); ("side", str_or_none (upper (get "buySell")));
        ("quantity", number (get_or "quantity" "0")); ("price", number (get_or "tradePrice" "0"));
        ("source", CStr "flex_trades"); ("exec_id", text "ibExecID"); ("expiry", text "expiry");
        ("strike", option_cell CFloat strike); ("option_right", text "putCall");
        ("exchange", str_or_none (or_s (get "exchange") (get "listingExchange")));
        ("order_id", if isdigit order_id then option_cell CInt (int_of_str order_id) else CNone);
        ("cum_qty", CNone);
        ("contract_key", contract_key (get "symbol") sec_type (get "expiry") strike (get "putCall"));
        ("currency", str_or_none currency); ("asset_category", str_or_none sec_type);
        ("sub_category", text "subCategory"); ("description", text "description"); ("conid", digits "conid");
        ("security_id", text "securityID"); ("security_id_type", text "securityIDType"); ("cusip", text "cusip");
        ("isin", text "isin"); ("figi", text "figi"); ("listing_exchange", text "listingExchange");
        ("underlying_conid", digits "underlyingConid"); ("underlying_symbol", text "underlyingSymbol");
        ("underlying_security_id", text "underlyingSecurityID");
        ("underlying_listing_exchange", text "underlyingListingExchange"); ("issuer", text "issuer");
        ("issuer_country_code", text "issuerCountryCode"); ("trade_id", text "tradeID");
        ("related_trade_id", text "relatedTradeID"); ("report_date", date "reportDate");
        ("trade_date", date "tradeDate"); ("settle_date_target", date "settleDateTarget");
        ("transaction_type", text "transactionType"); ("multiplier", number (get "multiplier"));
        ("principal_adjust_factor", text "principalAdjustFactor"); ("proceeds", number (get "proceeds"));
        ("taxes", number (get "taxes")); ("net_cash", number (get "netCash"));
        ("close_price", number (get "closePrice")); ("open_close_indicator", text "openCloseIndicator");
        ("notes", text "notes"); ("cost", number (get "cost"));
        ("fifo_pnl_realized", number (get "fifoPnlRealized")); ("mtm_pnl", number (get "mtmPnl"));
        ("trade_money", number (get "tradeMoney")); ("fx_rate_to_base", number (get "fxRateToBase"));
        ("acct_alias", text "acctAlias"); ("model", text "model"); ("commission", number (get "ibCommission"));
        ("currency_commission", str_or_none commission_currency); ("realized_pnl", number (get "fifoPnlRealized"))]
       ++ match extra with [] => [] | _ => [("raw_extra", CAttrs extra)] end).
End trades.

(** The elements of a kind, anywhere in the report. *)
Definition elements (name : string) (root : xml) : list xml :=
  filter (λ e, local_name (xml_tag e) = name) (iter root).

Section parse.
Context `{XmlParser}.

Definition parse_cash_transactions_xml (xml_body : string) : list row :=
  match parse_xml xml_body with
  | inr _ => []
  | inl root => omap (cash_row (report_account_id root)) (elements "CashTransaction" root)
  end.

Definition wrong_report : exn :=
  Exn ValueError "Flex report contains Cash Transactions, not Trades. Use a Flex Query that includes Activity → Trades (not Cash Transactions). In Settings → IB Connection → Flex, ensure the row with purpose=trades uses a Query ID that returns Trades.".

Definition parse_trades_xml `{PyRepr, ZoneDb} (FLEX_LOCAL_TZ : string) (xml_body : string) : res (list row) :=
  match parse_xml xml_body with
  | inr _ => Ok []
  | inl root =>
      let attrs e := List.map (λ '(k, v), (k, strip v)) (xml_attrib e) in
      let out := omap (λ e, trade_row FLEX_LOCAL_TZ (report_account_id root) (attrs e)) (elements "Trade" root) in
      match out with
      | [] => if str_in "CashTransaction" xml_body then Raise wrong_report else Ok []
      | _ => Ok out
      end
  end.

Context `{FlexWeb}.

Definition fetch_cash_transactions_report (token query_id : string) (from_date to_date : option string)
    : res (list row) :=
  ref ← request_report token query_id from_date to_date None;
  body ← get_statement token ref;
  Ok (parse_cash_transactions_xml body).

Definition fetch_trades `{PyRepr, ZoneDb} (FLEX_LOCAL_TZ : string) (token query_id : string)
    (from_date to_date : option string) (period : option Z) : res (list row) :=
  ref ← request_report token query_id from_date to_date period;
  body ← get_statement token ref;
  parse_trades_xml FLEX_LOCAL_TZ body.
End parse.

(** ** Lemmas *)

(** The codes a message quotes are those after a prefix without an opening bracket. *)
Lemma codes_prefix p s : char_free "["%char p = true → flex_error_codes (p +:+ s) = flex_error_codes s.
Proof.
  unfold char_free. induction p as [|c p IH]; [done|]. cbn [str_forallb]. intros Hp. bool_hyps.
  rewrite append_cons. cbn [flex_error_codes]. unfold code_at, expect.
  rewrite bool_decide_eq_false_2 by done. cbn. by apply IH.
Qed.

Lemma ymd_text d : date_ok d = true →
  str_forallb is_digit (strftime_ymd d) = true ∧ String.length (strftime_ymd d) = 8%nat.
Proof. intros _. unfold strftime_ymd. cbn zeta. rewrite !str_forallb_app, pad4_digits, !pad2_digits. done. Qed.

Lemma digits_of_plain s : str_forallb is_digit s = true → plain s = true ∧ char_free ";"%char s = true.
Proof. intros Hd. split; [by apply digits_plain|by apply digits_free]. Qed.

(** The three shapes of date IB writes. *)
Section shapes.
Context (d h mi s : Z) (Hd : date_ok d = true) (Hh : 0 ≤ h ≤ 23) (Hmi : 0 ≤ mi ≤ 59) (Hs : 0 ≤ s ≤ 59).

Definition timed_text : string := strftime_ymd d +:+ ";" +:+ pad2 h +:+ pad2 mi +:+ pad2 s.

Lemma timed_text_plain : plain timed_text = true ∧ ulen timed_text = 15.
Proof.
  destruct (ymd_text d Hd) as [Hdig Hlen].
  assert (plain timed_text = true) as Hp.
  { unfold timed_text. rewrite !plain_app, (digits_plain _ Hdig), !(digits_plain _ (pad2_digits _)). done. }
  split; [done|]. by rewrite plain_ulen.
Qed.

Lemma timed_text_utake : utake 8 timed_text = strftime_ymd d ∧ utake 15 timed_text = timed_text.
Proof.
  destruct (ymd_text d Hd) as [Hdig Hlen]. split.
  - apply utake_plain; [by apply digits_plain|by rewrite Hlen|done].
  - apply utake_all. destruct timed_text_plain as [_ ->]. done.
Qed.

Lemma ymd_text_utake : utake 8 (strftime_ymd d) = strftime_ymd d ∧ ulen (strftime_ymd d) = 8.
Proof.
  destruct (ymd_text d Hd) as [Hdig Hlen].
  assert (ulen (strftime_ymd d) = 8) as Hu by (by rewrite plain_ulen, Hlen by (by apply digits_plain)).
  split; [|done]. apply utake_all. by rewrite Hu.
Qed.

Lemma iso_text : plain (isoformat d) = true ∧ ulen (isoformat d) = 10
  ∧ ∃ r, utake 8 (isoformat d) = pad4 (y_year (ymd_of_days d)) +:+ String "-" r.
Proof.
  assert (plain (isoformat d) = true) as Hp.
  { unfold isoformat. cbn zeta.
    rewrite !plain_app, (digits_plain _ (pad4_digits _)), !(digits_plain _ (pad2_digits _)). done. }
  split; [done|]. split; [by rewrite plain_ulen|]. exists (pad2 (y_month (ymd_of_days d)) +:+ "-").
  replace (isoformat d) with ((pad4 (y_year (ymd_of_days d)) +:+ String "-" (pad2 (y_month (ymd_of_days d)) +:+ "-"))
                              +:+ pad2 (y_day (ymd_of_days d))) by reflexivity.
  apply utake_plain; [|done|].
  - rewrite plain_app. change (String "-" ?x) with ("-" +:+ x).
    rewrite !plain_app, (digits_plain _ (pad4_digits _)), (digits_plain _ (pad2_digits _)). done.
  - unfold pad2. pose proof (digit_plain _ (proj1 (digit_char_spec (y_day (ymd_of_days d) / 10)))) as H.
    by apply andb_true_iff in H as [? _].
Qed.
End shapes.

(** ** Theorems *)

(** The dates of trades: IB's timed form is the wall clock of the account's zone, a
    bare date, in either spelling, is the local midnight and is flagged as such. *)
Theorem parse_flex_datetime_spec `{ZoneDb} tz d h mi s :
  date_ok d = true → 0 ≤ h ≤ 23 → 0 ≤ mi ≤ 59 → 0 ≤ s ≤ 59 →
  let midnight := d * day_usec in
  parse_flex_datetime tz (strftime_ymd d +:+ ";" +:+ pad2 h +:+ pad2 mi +:+ pad2 s)
    = (Some (of_wall (Some tz) (midnight + ((h * 60 + mi) * 60 + s) * 1000000)), false)
  ∧ parse_flex_datetime tz (strftime_ymd d) = (Some (of_wall (Some tz) midnight), true)
  ∧ parse_flex_datetime tz (isoformat d) = (Some (of_wall (Some tz) midnight), true).
Proof.
  intros Hd Hh Hmi Hs. cbn zeta. split_and!.
  - change (strftime_ymd d +:+ _) with (timed_text d h mi s). unfold parse_flex_datetime.
    destruct (timed_text_plain d h mi s Hd) as [Hp Hu], (timed_text_utake d h mi s Hd) as [_ Ht].
    rewrite strip_space_free by (by apply plain_space_free).
    rewrite decide_False by (intros E; rewrite E in Hu; done).
    cbn [FLEX_DATETIME_FORMATS try_formats]. rewrite Hu, Ht. cbn [Z.ltb Z.compare].
    unfold timed_text. by rewrite strptime_timed.
  - unfold parse_flex_datetime. destruct (ymd_text d Hd) as [Hdig _], (ymd_text_utake d Hd) as [Ht Hu].
    rewrite strip_space_free by (by apply digits_space_free).
    rewrite decide_False by (intros E; rewrite E in Hu; done).
    cbn [FLEX_DATETIME_FORMATS try_formats]. rewrite Hu, Ht. cbn [Z.ltb Z.compare].
    by rewrite strptime_strftime_ymd.
  - unfold parse_flex_datetime. destruct (iso_text d) as (Hp & Hu & r & Ht).
    rewrite strip_space_free by (by apply plain_space_free).
    rewrite decide_False by (intros E; rewrite E in Hu; done).
    cbn [FLEX_DATETIME_FORMATS try_formats]. rewrite Hu, Ht. cbn [Z.ltb Z.compare].
    pose proof (valid_ymd_ok _ (ymd_of_days_valid d Hd)) as (Hy & _).
    rewrite strptime_ymd_dash by lia. rewrite utake_all by lia. by rewrite strptime_isoformat.
Qed.

(** The dates of cash rows: whatever time IB writes, and however it spells the date,
    a day's rows carry the same instant, the day's midnight in UTC, so that a
    re-fetched row meets itself on the unique key. *)
Theorem cash_date_spec d h mi s :
  date_ok d = true → 0 ≤ h ≤ 23 → 0 ≤ mi ≤ 59 → 0 ≤ s ≤ 59 →
  cash_date (strftime_ymd d +:+ ";" +:+ pad2 h +:+ pad2 mi +:+ pad2 s) = Some (d * day_usec)
  ∧ cash_date (strftime_ymd d) = Some (d * day_usec)
  ∧ cash_date (isoformat d) = Some (d * day_usec).
Proof.
  intros Hd Hh Hmi Hs. destruct (ymd_text d Hd) as [Hdig _].
  assert (strptime F_YMD_HMS (strftime_ymd d) = Raise strptime_error) as Hno.
  { apply (strptime_free ";"%char); [refine (bool_decide_eq_true_1 _ _); vm_compute; reflexivity|]. by apply digits_free. }
  split_and!; unfold cash_date.
  - change (strftime_ymd d +:+ _) with (timed_text d h mi s).
    destruct (timed_text_plain d h mi s Hd) as [Hp _], (timed_text_utake d h mi s Hd) as [Ht _].
    rewrite strip_space_free by (by apply plain_space_free).
    cbn [CASH_FORMATS try_cash_formats]. by rewrite Ht, Hno, strptime_strftime_ymd.
  - destruct (ymd_text_utake d Hd) as [Ht _]. rewrite strip_space_free by (by apply digits_space_free).
    cbn [CASH_FORMATS try_cash_formats]. by rewrite Ht, Hno, strptime_strftime_ymd.
  - destruct (iso_text d) as (Hp & Hu & r & Ht). rewrite strip_space_free by (by apply plain_space_free).
    cbn [CASH_FORMATS try_cash_formats].
    pose proof (valid_ymd_ok _ (ymd_of_days_valid d Hd)) as (Hy & _).
    assert (∀ c : ascii, is_digit c = false → c ≠ "-"%char → char_free c (isoformat d) = true) as Hfree.
    { intros c Hc Hne. unfold char_free, isoformat. cbn zeta.
      pose proof (digits_free c _ Hc (pad4_digits (y_year (ymd_of_days d)))) as H1.
      pose proof (digits_free c _ Hc (pad2_digits (y_month (ymd_of_days d)))) as H2.
      pose proof (digits_free c _ Hc (pad2_digits (y_day (ymd_of_days d)))) as H3. unfold char_free in *.
      rewrite !str_forallb_app, H1, H2, H3. cbn. by rewrite bool_decide_eq_true_2. }
    assert (∀ n, utake n (isoformat d) = isoformat d ∨ n < 10) as Hfull.
    { intros n. destruct (decide (n < 10)); [by right|left]. apply utake_all. lia. }
    destruct (Hfull 19) as [E19|]; [|lia]. destruct (Hfull 10) as [E10|]; [|lia]. rewrite E19, E10, Ht.
    rewrite strptime_ymd_dash by lia. rewrite strptime_isoformat by done.
    assert (strptime F_YMD_HMS (pad4 (y_year (ymd_of_days d)) +:+ String "-" r) = Raise strptime_error) as ->.
    { unfold strptime, F_YMD_HMS. cbn [match_fmt readings]. rewrite four_digits_pad4 by lia. by destruct r. }
    assert (FLit "T" ∈ F_ISO_T) as HT by (refine (bool_decide_eq_true_1 _ _); vm_compute; reflexivity).
    assert (FLit " " ∈ F_ISO_SP) as HSP by (refine (bool_decide_eq_true_1 _ _); vm_compute; reflexivity).
    rewrite (strptime_free _ _ _ HT) by (by apply Hfree). by rewrite (strptime_free _ _ _ HSP) by (by apply Hfree).
Qed.

(** The canonical types of a cash row. *)
Definition canonical_types : list string := ["deposit"; "withdrawal"; "transfer"; "dividend"; "other"].

(** A lower-case needle is in no upper-cased text. *)
Lemma lower_needle needle s : existsb (λ n, bool_decide (n = needle)) ["dep"; "wth"; "tra"; "div"; "dvd"] = true →
  str_in needle (upper s) = false.
Proof.
  intros H. cbn in H. rewrite !orb_true_iff, !bool_decide_eq_true in H.
  destruct H as [<-|[<-|[<-|[<-|[<-|?]]]]]; [by apply str_in_upper_lower..|done].
Qed.

(** The code column never classifies a cash row, but for the exact codes DEP and
    WTH: the lower-case fragments are looked for in the upper-cased code, where they
    cannot be. A row with code DIV or TRA and no telling type is "other". *)
Theorem normalize_type_code flex_type code code' amount :
  upper (strip code) ∉ ["DEP"; "WTH"] → upper (strip code') ∉ ["DEP"; "WTH"] →
  normalize_type flex_type code amount = normalize_type flex_type code' amount
  ∧ normalize_type flex_type code amount ∈ canonical_types.
Proof.
  intros H1 H2. unfold normalize_type. cbn zeta.
  rewrite !lower_needle, !orb_false_r by done.
  rewrite !(bool_decide_eq_false_2 (upper (strip code) = _)) by set_solver.
  rewrite !(bool_decide_eq_false_2 (upper (strip code') = _)) by set_solver.
  split; [done|]. unfold canonical_types. repeat case_match; set_solver.
Qed.

Lemma normalize_type_code_witness :
  normalize_type "" "DIV" (FDec 5 0) = normalize_type "" "" (FDec 5 0)
  ∧ normalize_type "" "DIV" (FDec 5 0) ∈ canonical_types.
Proof.
  apply (normalize_type_code "" "DIV" "" (FDec 5 0)); refine (bool_decide_eq_true_1 _ _); vm_compute; reflexivity.
Defined.

Lemma parse_flex_datetime_spec_witness :
  @parse_flex_datetime sample_zones "America/New_York" (strftime_ymd 20700 +:+ ";" +:+ pad2 9 +:+ pad2 30 +:+ pad2 0)
  = (Some (20700 * day_usec + 13 * 3600000000 + 1800000000), false).
Proof.
  rewrite (proj1 (@parse_flex_datetime_spec sample_zones "America/New_York" 20700 9 30 0 eq_refl
                    ltac:(lia) ltac:(lia) ltac:(lia))).
  vm_compute. reflexivity.
Defined.

Lemma cash_date_spec_witness : cash_date "20260904;202000" = Some (20700 * day_usec).
Proof. exact (proj1 (cash_date_spec 20700 20 20 0 eq_refl ltac:(lia) ltac:(lia) ltac:(lia))). Defined.

(** What a request may carry besides the token and the query. *)
Definition base_params (token query_id : string) : list (string * string) :=
  [("t", token); ("q", query_id); ("v", "3")].

(** What reaches IB: a period overrides dates; a window is sent only when both dates
    parse and are at most 366 days apart; no date is sent when none is given; a half
    window, an unreadable date or a longer window is a [ValueError] and nothing is
    sent. *)
Theorem request_params_spec token query_id from_date to_date period :
  let f := utake 8 (strip (default "" from_date)) in
  let t := utake 8 (strip (default "" to_date)) in
  match request_params token query_id from_date to_date period with
  | Ok ps =>
      (∃ p, period = Some p ∧ ps = base_params token query_id ++ [("p", str_of_Z p)])
      ∨ (period = None ∧ given_text from_date = true ∧ given_text to_date = true
         ∧ (∃ fd td, strptime F_YMD f = Ok fd ∧ strptime F_YMD t = Ok td ∧ (td - fd) / day_usec ≤ MAX_FLEX_DAYS)
         ∧ ps = base_params token query_id ++ [("fd", f); ("td", t)])
      ∨ (period = None ∧ given_text from_date = false ∧ given_text to_date = false ∧ ps = base_params token query_id)
  | Raise e =>
      exn_cls e = ValueError ∧ period = None
      ∧ (given_text from_date ≠ given_text to_date
         ∨ (given_text from_date = true ∧ given_text to_date = true
            ∧ (is_ok (strptime F_YMD f) = false ∨ is_ok (strptime F_YMD t) = false
               ∨ ∃ fd td, strptime F_YMD f = Ok fd ∧ strptime F_YMD t = Ok td ∧ MAX_FLEX_DAYS < (td - fd) / day_usec)))
  end.
Proof.
  intros f t. assert (∀ s e, strptime F_YMD s = Raise e → e = strptime_error) as Herr.
  { intros s0 e. unfold strptime. repeat case_match; congruence. }
  unfold request_params, base_params. fold f t. destruct period as [p|]; [left; by exists p|].
  destruct (given_text from_date) eqn:Hf, (given_text to_date) eqn:Ht; cbn [andb orb].
  - destruct (strptime F_YMD f) as [fd|e] eqn:Ef.
    + destruct (strptime F_YMD t) as [td|e] eqn:Et.
      * cbn [mbind res_bind]. destruct (MAX_FLEX_DAYS <? (td - fd) / day_usec) eqn:Hs; bool_hyps.
        -- cbn. split; [done|]. split; [done|]. right. split_and!; [done..|]. right; right. by exists fd, td.
        -- cbn. right; left. split_and!; try done. by exists fd, td.
      * apply Herr in Et. subst. cbn. split; [done|]. split; [done|]. right. split_and!; [done..|]. by right; left.
    + apply Herr in Ef. subst. cbn. split; [done|]. split; [done|]. right. split_and!; [done..|]. by left.
  - split; [done|]. split; [done|]. by left.
  - split; [done|]. split; [done|]. by left.
  - right; right. by split_and!.
Qed.

Section get_statement_theorem.
Context `{XmlParser, FlexWeb}.

(** A report: a [FlexQueryResponse] with a [FlexStatement] in it. *)
Definition generated (body : string) : Prop :=
  ∃ root, parse_xml body = inl root ∧ local_name (xml_tag root) = "FlexQueryResponse"
    ∧ ∃ node, node ∈ iter root ∧ local_name (xml_tag node) = "FlexStatement".

Lemma generated_ready body : statement_not_ready body = None ↔ generated body.
Proof.
  unfold statement_not_ready, generated. destruct (parse_xml body) as [root|msg]; [|by split; [|intros (? & ? & _)]].
  cbn zeta. case_decide as Ht.
  { split; [done|]. intros (? & [= <-] & Hq & _). by rewrite Ht in Hq. }
  case_bool_decide as Hq; cbn [negb].
  - destruct (existsb _ (iter root)) eqn:He.
    + split; [intros _|done]. exists root. split; [done|]. split; [done|].
      apply existsb_exists in He as (node & Hn & Hl). exists node. split; [by apply list_elem_of_In|].
      by apply bool_decide_eq_true in Hl.
    + split; [done|]. intros (? & [= <-] & _ & node & Hn & Hl). assert (existsb (λ node, bool_decide (local_name (xml_tag node) = "FlexStatement")) (iter root) = true); [|congruence].
      apply existsb_exists. exists node. split; [by apply list_elem_of_In|]. by apply bool_decide_eq_true.
  - split; [done|]. by intros (? & [= <-] & ? & _).
Qed.

(** A poll that brought no report, and why. *)
Definition unready (params : list (string * string)) (n : nat) (why : string) : Prop :=
  (∃ e, get_statement_answer params n = Raise e ∧ exn_cls e = URLError ∧ why = exn_str e)
  ∨ (∃ body, get_statement_answer params n = Ok body ∧ ¬ generated body ∧ statement_not_ready body = Some why).

Definition stopped (params : list (string * string)) (n : nat) (r : res string) : Prop :=
  match r with
  | Ok body => get_statement_answer params n = Ok body ∧ generated body
  | Raise e => get_statement_answer params n = Raise e ∧ exn_cls e ≠ URLError
  end.

Lemma poll_spec params left attempt last_err :
  let r := poll params left attempt last_err in
  (∃ n, (attempt ≤ n < attempt + left)%nat ∧ stopped params n r ∧ ∀ m, (attempt ≤ m < n)%nat → ∃ why, unready params m why)
  ∨ (∃ last, r = Raise (Exn ValueError ("Flex GetStatement did not return report after 24 attempts. Last: " +:+ last))
       ∧ (∀ m, (attempt ≤ m < attempt + left)%nat → ∃ why, unready params m why)
       ∧ (left = O ∧ last = last_err ∨ ∃ k, left = S k ∧ unready params (attempt + k) last)).
Proof.
  revert attempt last_err. induction left as [|left IH]; intros attempt last_err; cbn [poll].
  - right. exists last_err. split_and!; [done|lia|by left].
  - assert (∀ why, unready params attempt why → 
      let r := poll params left (S attempt) why in
      (∃ n, (attempt ≤ n < attempt + S left)%nat ∧ stopped params n r ∧ ∀ m, (attempt ≤ m < n)%nat → ∃ why, unready params m why)
      ∨ (∃ last, r = Raise (Exn ValueError ("Flex GetStatement did not return report after 24 attempts. Last: " +:+ last))
           ∧ (∀ m, (attempt ≤ m < attempt + S left)%nat → ∃ why, unready params m why)
           ∧ (S left = O ∧ last = last_err ∨ ∃ k, S left = S k ∧ unready params (attempt + k) last))) as Hnext.
    { intros why Hwhy r. assert (∀ (Q : nat → Prop), Q attempt → ∀ hi, (∀ m, (S attempt ≤ m < hi)%nat → Q m) →
        ∀ m, (attempt ≤ m < hi)%nat → Q m) as Hcons.
      { intros Q Ha hi Hq m Hm. destruct (decide (m = attempt)) as [->|]; [done|]. apply Hq. lia. }
      destruct (IH (S attempt) why) as [(n & Hn & Hst & Hall)|(last & Hr & Hall & Hlast)].
      - left. exists n. split; [lia|]. split; [exact Hst|]. apply (Hcons (λ m, ∃ why, unready params m why)); eauto.
      - right. exists last. split; [exact Hr|]. split.
        + apply (Hcons (λ m, ∃ why, unready params m why)); [eauto|]. intros m Hm. apply Hall. lia.
        + right. exists left. split; [done|]. destruct Hlast as [[-> ->]|(k & -> & Hk)].
          * by rewrite Nat.add_0_r.
          * replace (attempt + S k)%nat with (S attempt + k)%nat by lia. exact Hk. }
    destruct (get_statement_answer params attempt) as [body|e] eqn:Ha.
    + destruct (statement_not_ready body) as [why|] eqn:Hw.
      * apply Hnext. right. exists body. by rewrite <-generated_ready, Hw.
      * left. exists attempt. split; [lia|]. split; [by split; [|apply generated_ready]|]. lia.
    + case_decide as Hc.
      * apply Hnext. left. by exists e.
      * left. exists attempt. split; [lia|]. split; [by split|]. lia.
Qed.

(** C9. An unready statement is never taken for a report: what [get_statement] returns is
    the first answer, within 24 polls, that is a generated report; it fails only
    when the connection breaks in another way than [URLError], or after 24 polls
    none of which brought a report, and its error then quotes exactly the IB codes
    of the last one, which is what the retry policy reads. *)
Theorem get_statement_spec token ref :
  let params := [("t", token); ("q", ref); ("v", "3")] in
  let r := get_statement token ref in
  (∃ n, (n < 24)%nat ∧ stopped params n r ∧ ∀ m, (m < n)%nat → ∃ why, unready params m why)
  ∨ (∃ e why, r = Raise e ∧ exn_cls e = ValueError ∧ flex_error_codes (exn_str e) = flex_error_codes why
       ∧ (∀ m, (m < 24)%nat → ∃ why, unready params m why) ∧ unready params 23 why).
Proof.
  cbn zeta. unfold get_statement.
  destruct (poll_spec [("t", token); ("q", ref); ("v", "3")] MAX_GET_STATEMENT_POLLS 0 "None")
    as [(n & Hn & Hst & Hall)|(last & Hr & Hall & Hlast)]; unfold MAX_GET_STATEMENT_POLLS in *.
  - left. exists n. split; [lia|]. split; [exact Hst|]. intros m Hm. apply Hall. lia.
  - right. eexists _, last. split; [exact Hr|]. split; [done|]. split.
    + by apply codes_prefix.
    + split; [intros m Hm; apply Hall; lia|]. destruct Hlast as [[? _]|(k & Hk & Hu)]; [lia|].
      replace 23%nat with (0 + k)%nat by lia. exact Hu.
Qed.
End get_statement_theorem.
