(* ===== verification/Handlers.v ===== *)
(** * Running one job ([worker/handlers.py])

    Dispatch to the orchestration of a kind, check its summary, record the outcome.
    The two orchestrations are reached through the interface [Orchestrations]. *)
From Stdlib Require Import Ascii.
From S2P Require Import Prelude Pytext PyVal Ddl.

(** What [HANDLERS] promises: the fetch of each kind, given the job's payload, returns
    a run summary or raises. *)
Class Orchestrations := {
  fetch_flex_trades : pydict → res pydict;
  fetch_cash_transactions : pydict → res pydict
}.

(** [v is False]. *)
Definition is_false (v : pyval) : bool := match v with PBool false => true | _ => false end.

(** The items a [for] loop sees. *)
Definition iter_values (v : pyval) : res (list pyval) :=
  match v with
  | PList l => Ok l
  | PDict d => Ok (PStr <$> d.*1)
  | PStr s => Ok (PStr <$> uchars s)
  | _ => Raise (Exn TypeError "object is not iterable")
  end.

Section handlers.
Context `{PyRepr}.

(** [_require_ok]: a summary that says it failed, or names any error, is an exception. *)
Definition require_ok (data : pydict) (label : string) : res pydict :=
  if is_false (dict_get "ok" data) then
    Raise (Exn RuntimeError (py_str (py_or (dict_get "error" data) (PStr (label +:+ " failed")))))
  else
    raw ← iter_values (py_or (dict_get "errors" data) (PList []));
    let errors := filter (λ s, strip s ≠ "") (py_str <$> raw) in
    match errors with
    | _ :: _ => Raise (Exn RuntimeError (label +:+ " partial: " +:+ join "; " errors))
    | [] =>
        inserted ← py_int (py_or (dict_get "count" data) (py_or (dict_get "inserted" data) (PInt 0)));
        Ok [("inserted", PInt inserted); ("ok", PBool true); ("result", PDict data)]
    end.

Context `{Orchestrations}.

Definition handle_flex_trades (payload : pydict) : res pydict :=
  result ← fetch_flex_trades payload; require_ok result "flex-trades".

Definition handle_flex_transactions (payload : pydict) : res pydict :=
  result ← fetch_cash_transactions payload; require_ok result "flex-transactions".

(** [HANDLERS.get(kind)]. *)
Definition handler (kind : string) : option (pydict → res pydict) :=
  if decide (kind = "flex-trades") then Some handle_flex_trades
  else if decide (kind = "flex-transactions") then Some handle_flex_transactions
  else None.

(** The tables whose new rows are counted. *)
Definition NEW_ROWS_SOURCE : list string := ["flex-trades"; "flex-transactions"].

(** [_count_new_rows]: [counted] is the number the query finds, [None] if it fails. *)
Definition count_new_rows (kind : string) (since counted : option Z) : option Z :=
  if bool_decide (kind ∈ NEW_ROWS_SOURCE) then match since with None => None | Some _ => counted end else None.

(** What the job's own connection answers: the clock before the run ([_db_now]), the
    count of rows since, the clock when the outcome is written; and what opening it
    ([_connect]) and writing the outcome raise, if they do. *)
Record run_db := mkRunDb {
  rd_since : option Z; rd_counted : option Z; rd_time : Z; rd_connect : option exn; rd_record : option exn }.

(** A call that raises what it is told to, or goes on. *)
Definition unless {A} (failure : option exn) (r : res A) : res A :=
  match failure with Some e => Raise e | None => r end.

(** [dispatch]: raises on failure; on success the freshness row is updated. An outcome
    that could not be written counts as not written. *)
Definition dispatch (db : run_db) (kind : string) (payload : pydict) (job_id : option Z)
    (tb : gmap string freshness) : res (pydict * gmap string freshness) :=
  let kind_s := strip kind in
  match handler kind_s with
  | None => Raise (Exn ValueError ("unknown job kind: " +:+ py_repr (PStr kind)))
  | Some fn =>
      unless (rd_connect db) (
      out ← fn payload;
      let new_rows := count_new_rows kind_s (rd_since db) (rd_counted db) in
      let out := dict_set "new_rows" (from_option PInt PNone new_rows) out in
      processed ← py_int (py_or (dict_get "inserted" out) (PInt 0));
      unless (rd_record db) (
      Ok (out, record_freshness kind_s (mkAttempt (rd_time db) true processed new_rows None job_id) tb)))
  end.

(** [record_ingest_outcome]. *)
Definition record_ingest_outcome (t : Z) (kind : string) (ok : bool) (error : option string) (job_id : option Z)
    (tb : gmap string freshness) : gmap string freshness :=
  record_freshness (strip kind) (mkAttempt t ok 0 None error job_id) tb.
End handlers.

(** ** Theorems *)

Section theorems.
Context `{PyRepr}.

(** A summary is accepted, and then its count is [n]. *)
Definition summary_ok (data : pydict) (n : Z) : Prop :=
  is_false (dict_get "ok" data) = false
  ∧ (∃ raw, iter_values (py_or (dict_get "errors" data) (PList [])) = Ok raw
            ∧ Forall (λ e, strip (py_str e) = "") raw)
  ∧ py_int (py_or (dict_get "count" data) (py_or (dict_get "inserted" data) (PInt 0))) = Ok n.

Lemma blank_errors raw :
  filter (λ s, strip s ≠ "") (py_str <$> raw) = [] ↔ Forall (λ e, strip (py_str e) = "") raw.
Proof.
  induction raw as [|e raw IH]; [done|]. rewrite fmap_cons, filter_cons, Forall_cons, <-IH.
  case_decide; [split; [done|tauto]|]. split; [|tauto]. intros ->. split; [by auto using dec_stable|done].
Qed.

Lemma require_ok_Ok data label out :
  require_ok data label = Ok out ↔
  ∃ n, summary_ok data n ∧ out = [("inserted", PInt n); ("ok", PBool true); ("result", PDict data)].
Proof.
  unfold require_ok, summary_ok. split.
  - destruct (is_false _); [done|]. intros (raw & Hraw & Hout)%res_bind_ok.
    destruct (filter _ (py_str <$> raw)) as [|e es] eqn:He; [|done]. apply blank_errors in He.
    inv_res. eexists. split_and!; eauto.
  - intros (n & (-> & (raw & -> & Hblank) & Hn) & ->). cbn [mbind res_bind].
    apply blank_errors in Hblank. rewrite Hblank, Hn. done.
Qed.

Context `{Orchestrations}.

(** The summary the orchestration of a kind returns. *)
Definition fetches (kind : string) (payload : pydict) (summary : res pydict) : Prop :=
  kind = "flex-trades" ∧ summary = fetch_flex_trades payload
  ∨ kind = "flex-transactions" ∧ summary = fetch_cash_transactions payload.

Lemma handler_ok kind payload out :
  (∃ fn, handler kind = Some fn ∧ fn payload = Ok out) ↔
  ∃ summary n, fetches kind payload (Ok summary) ∧ summary_ok summary n
    ∧ out = [("inserted", PInt n); ("ok", PBool true); ("result", PDict summary)].
Proof.
  unfold handler, fetches, handle_flex_trades, handle_flex_transactions. split.
  - intros (fn & Hfn & Hout).
    repeat case_decide; simplify_eq; apply res_bind_ok in Hout as (summary & Hs & (n & Hn & ->)%require_ok_Ok);
      exists summary, n; split_and!; auto.
  - intros (summary & n & [[-> Hs]|[-> Hs]] & Hn & ->); cbn; eexists; (split; [done|]); cbn; rewrite <-Hs; cbn;
      apply require_ok_Ok; eauto.
Qed.

Lemma unless_Ok {A} failure (r : res A) a : unless failure r = Ok a ↔ failure = None ∧ r = Ok a.
Proof. destruct failure; cbn; naive_solver. Qed.

Lemma py_int_count n : py_int (py_or (PInt n) (PInt 0)) = Ok n.
Proof. unfold py_or. cbn [truthy]. destruct (n =? 0) eqn:E; bool_hyps; by subst. Qed.

(** What a dispatch that returns has got. *)
Lemma dispatch_accepts db kind payload job_id tb out tb' :
  let new_rows := count_new_rows (strip kind) (rd_since db) (rd_counted db) in
  dispatch db kind payload job_id tb = Ok (out, tb') →
  rd_connect db = None ∧ rd_record db = None
  ∧ ∃ summary n, fetches (strip kind) payload (Ok summary) ∧ summary_ok summary n
    ∧ out = [("inserted", PInt n); ("ok", PBool true); ("result", PDict summary);
             ("new_rows", from_option PInt PNone new_rows)]
    ∧ tb' = record_freshness (strip kind) (mkAttempt (rd_time db) true n new_rows None job_id) tb.
Proof.
  cbn zeta. unfold dispatch. cbn zeta.
  destruct (handler (strip kind)) as [fn|] eqn:Hfn; [|done].
  intros (Hconn & (o & Ho & Hrest)%res_bind_ok)%unless_Ok. split; [done|].
  destruct (proj1 (handler_ok (strip kind) payload o)) as (summary & n & Hs & Hn & ->); [by exists fn|].
  apply res_bind_ok in Hrest as (p & Hp & Hout). change (dict_get "inserted" _) with (PInt n) in Hp.
  rewrite py_int_count in Hp. apply unless_Ok in Hout as (Hrec & Hout). split; [done|]. simplify_eq.
  exists summary, p. by split_and!.
Qed.

Lemma fetches_known kind payload :
  match handler kind with
  | None => ∀ r, ¬ fetches kind payload r
  | Some fn => ∃ label r, fetches kind payload r ∧ fn payload = (result ← r; require_ok result label)
  end.
Proof.
  unfold handler, fetches, handle_flex_trades, handle_flex_transactions.
  repeat case_decide; [by eexists _, _; split; [left|]|by eexists _, _; split; [right|]|naive_solver].
Qed.

(** C25. A job is only done when its fetch is: [dispatch] returns exactly when the kind
    is known, the job's own connection opens, its fetch returned, the summary neither
    says [ok: false] nor names a non-blank error, its count is a number and the outcome
    could be written; the result then carries the count and the number of new rows, and
    the kind's last success moves to now. In every other case it raises: that the kind
    is unknown, what the connection, the fetch or the write of the outcome raised, or the
    refusal of the summary. *)
Theorem dispatch_spec db kind payload job_id tb :
  let new_rows := count_new_rows (strip kind) (rd_since db) (rd_counted db) in
  (∀ out tb', dispatch db kind payload job_id tb = Ok (out, tb') ↔
     rd_connect db = None ∧ rd_record db = None
     ∧ ∃ summary n, fetches (strip kind) payload (Ok summary) ∧ summary_ok summary n
       ∧ out = [("inserted", PInt n); ("ok", PBool true); ("result", PDict summary);
                ("new_rows", from_option PInt PNone new_rows)]
       ∧ tb' = record_freshness (strip kind) (mkAttempt (rd_time db) true n new_rows None job_id) tb)
  ∧ (∀ e, dispatch db kind payload job_id tb = Raise e →
       (∀ r, ¬ fetches (strip kind) payload r) ∧ e = Exn ValueError ("unknown job kind: " +:+ py_repr (PStr kind))
       ∨ rd_connect db = Some e
       ∨ rd_connect db = None ∧ fetches (strip kind) payload (Raise e)
       ∨ rd_connect db = None ∧ (∃ summary label, fetches (strip kind) payload (Ok summary)
           ∧ (∀ n, ¬ summary_ok summary n) ∧ require_ok summary label = Raise e)
       ∨ rd_connect db = None ∧ rd_record db = Some e
           ∧ ∃ summary n, fetches (strip kind) payload (Ok summary) ∧ summary_ok summary n).
Proof.
  cbn zeta. split.
  - intros out tb'. split; [apply dispatch_accepts|]. intros (Hconn & Hrec & summary & n & Hs & Hn & -> & ->).
    unfold dispatch. cbn zeta.
    destruct (proj2 (handler_ok (strip kind) payload [("inserted", PInt n); ("ok", PBool true); ("result", PDict summary)]))
      as (fn & -> & Hfn); [eauto|].
    rewrite Hconn. cbn [unless]. rewrite Hfn. cbn [mbind res_bind]. change (dict_get "inserted" _) with (PInt n).
    by rewrite py_int_count, Hrec.
  - intros e. unfold dispatch. cbn zeta. pose proof (fetches_known (strip kind) payload) as Hk.
    destruct (handler (strip kind)) as [fn|] eqn:Hh; [|intros [= <-]; by left].
    destruct Hk as (label & r & Hf & Hfn). destruct (rd_connect db) as [e'|]; cbn [unless]; [intros [= ->]; auto|].
    rewrite Hfn. destruct r as [summary|e']; cbn [mbind res_bind]; [|intros [= ->]; auto].
    destruct (require_ok summary label) as [o|e'] eqn:Hreq; cbn [mbind res_bind].
    + apply require_ok_Ok in Hreq as (n & Hn & ->). change (dict_get "inserted" _) with (PInt n).
      rewrite py_int_count. cbn [mbind res_bind]. destruct (rd_record db) as [e'|]; [|done]. intros [= ->]. eauto 10.
    + intros [= ->]. do 3 right. left. split; [done|]. exists summary, label. split_and!; [done| |done].
      intros n Hn. rewrite (proj2 (require_ok_Ok _ _ _) (ex_intro _ n (conj Hn eq_refl))) in Hreq. done.
Qed.
End theorems.
