(* ===== verification/ConfigRw.v ===== *)
(** * Flex configuration ([orchestration/config_rw.py], [api/config_summary.py])

    The query rows and the range days, both on Golden Source, read and written; the
    tokens, read from the environment only. A read that fails raises before it
    answers; that is the transaction's own failure and not shown here, except for the
    write, which swallows it. *)
From Stdlib Require Import Ascii.
From S2P Require Import Prelude Pytext PyVal Pytime Ddl Handlers.

(** ** Tokens *)

(** The environment. *)
Record env := mkEnv { FLEX_HOST_TOKEN : string; FLEX_SECONDARY_TOKEN : string; FLEX_TOKENS_ISSUED_AT : string }.

Definition token_source (tok : string) : string := if decide (tok = "") then "none" else "secret".

(** (host token, secondary token, host source, secondary source). *)
Definition resolve_flex_tokens (e : env) : string * string * string * string :=
  let host := strip (FLEX_HOST_TOKEN e) in
  let sec := strip (FLEX_SECONDARY_TOKEN e) in
  (host, sec, token_source host, token_source sec).

(** [flex_tokens_issued_at]: the issue date's text and the age in days. *)
Definition flex_tokens_issued_at (e : env) (now : Z) : option string * option Z :=
  let raw := strip (FLEX_TOKENS_ISSUED_AT e) in
  if decide (raw = "") then (None, None)
  else match strptime F_ISO (utake 10 raw) with
       | Raise _ => (Some raw, None)
       | Ok issued => (Some (isoformat (date_of issued)), Some (Z.max 0 ((now - issued) / day_usec)))
       end.

(** [mask_token_last4]. *)
Definition mask_token_last4 (token : string) : option string :=
  let s := strip token in
  if decide (s = "") then None else Some (udrop (Z.max 0 (ulen s - 4)) s).

(** ** Golden Source *)

(** A row of [raw_broker.settings_flex]. *)
Record qrow := mkQrow {
  qr_id : Z;
  qr_sort_order : Z;
  qr_label : option string;
  qr_purpose : option string;
  qr_host_id : option string;
  qr_secondary_id : option string
}.

(** The settings row, if there is one, and the query rows with their sequence. *)
Record golden := mkGolden { g_settings : option (Z * Z); g_rows : list qrow; g_next : Z }.

(** [ORDER BY sort_order, id]. *)
Definition row_before (a b : qrow) : Prop :=
  qr_sort_order a < qr_sort_order b ∨ (qr_sort_order a = qr_sort_order b ∧ qr_id a ≤ qr_id b).
#[export] Instance row_before_dec : RelDecision row_before.
Proof. intros a b. unfold row_before. apply _. Defined.
Definition select_rows (g : golden) : list qrow := merge_sort row_before (g_rows g).

Definition DEFAULT_RANGE_DAYS : Z := 30.
Definition DEFAULT_INIT_RANGE_DAYS : Z := 360.

(** [get_flex_range_days]. *)
Definition get_flex_range_days (g : golden) : Z * Z :=
  match read_flex_settings ((λ '(d, i), (Some d, Some i)) <$> g_settings g) with
  | None => (DEFAULT_RANGE_DAYS, DEFAULT_INIT_RANGE_DAYS)
  | Some got => got
  end.

(** A credential for one request. *)
Record entry := mkEntry {
  e_token : string; e_query_id : string; e_role : string; e_label : option string; e_purpose : option string
}.

(** [(x or "").strip()] and [(x or "").strip() or None]. *)
Definition clean (x : option string) : string := strip (default "" x).
Definition clean_or_none (x : option string) : option string := or_none (clean x).

(** [[x.strip() for x in (raw or "").split(",") if x.strip()]]. *)
Definition query_ids (raw : option string) : list string :=
  filter (λ x, x ≠ "") (strip <$> split_on ","%char (default "" raw)).

(** The inner loop of [_query_entries], for one role of one row. *)
Definition role_entries (r : qrow) (role tok : string) (raw : option string) : list entry :=
  if decide (tok = "") then []
  else (λ qid, mkEntry tok qid role (clean_or_none (qr_label r)) (clean_or_none (qr_purpose r))) <$> query_ids raw.

Definition query_entries (rows : list qrow) (host_tok sec_tok : string) : list entry :=
  concat ((λ r, role_entries r "host" host_tok (qr_host_id r)
                ++ role_entries r "secondary" sec_tok (qr_secondary_id r)) <$> rows).

(** [get_flex_config(conn, purpose)]: the credentials for a purpose. *)
Definition get_flex_config_purpose (e : env) (g : golden) (purpose : string) : list entry :=
  let '(host_tok, sec_tok, _, _) := resolve_flex_tokens e in
  query_entries (filter (λ r, qr_purpose r = Some purpose) (select_rows g)) host_tok sec_tok.

(** The rows of [get_flex_config(conn)]. *)
Record config_row := mkConfigRow {
  cr_host_id : string; cr_secondary_id : option string; cr_label : option string; cr_purpose : option string
}.
Definition get_flex_config (e : env) (g : golden) : option string * option string * list config_row :=
  let '(host_tok, sec_tok, _, _) := resolve_flex_tokens e in
  (or_none host_tok, or_none sec_tok,
   (λ r, mkConfigRow (clean (qr_host_id r)) (clean_or_none (qr_secondary_id r)) (clean_or_none (qr_label r))
           (clean_or_none (qr_purpose r))) <$> select_rows g).

(** ** Writing *)

(** An account row of a write; every key may be missing. *)
Record account := mkAccount {
  ac_host_id : option string; ac_secondary_id : option string; ac_label : option string; ac_purpose : option string
}.

(** [x or d] of an optional text. *)
Definition or_text (x : option string) (d : string) : string :=
  match x with Some s => if decide (s = "") then d else s | None => d end.

(** The row inserted for the [i]-th account. *)
Definition insert_row (id i : Z) (a : account) : qrow :=
  let purpose := strip (or_text (ac_purpose a) "cash_transactions") in
  mkQrow id i (clean_or_none (ac_label a))
    (Some (if decide (purpose = "") then "cash_transactions" else purpose))
    (Some (clean (ac_host_id a))) (clean_or_none (ac_secondary_id a)).

Fixpoint insert_rows (id i : Z) (accounts : list account) : list qrow :=
  match accounts with [] => [] | a :: rest => insert_row id i a :: insert_rows (id + 1) (i + 1) rest end.

(** [integer]. *)
Definition fits_int4 (n : Z) : bool := (-2147483648 <=? n) && (n <=? 2147483647).

(** The upsert of the settings row: [insert_vals] if there is none, else [COALESCE]. *)
Definition upsert_settings (insert_vals : Z * Z) (days_val init_val : option Z) (g : golden) : res golden :=
  let new := match g_settings g with
             | None => insert_vals
             | Some (d, i) => (default d days_val, default i init_val)
             end in
  if fits_int4 (fst insert_vals) && fits_int4 (snd insert_vals)
  then Ok (mkGolden (Some new) (g_rows g) (g_next g))
  else Raise (Exn DatabaseError "integer out of range").

(** The statements of the write's one transaction. *)
Definition write_body (days_val init_val : option Z) (valid : option (list account)) (g : golden) : res golden :=
  let range_requested := is_Some days_val ∨ is_Some init_val in
  g1 ← (if decide range_requested then
          let current := get_flex_range_days g in
          upsert_settings (default (fst current) days_val, default (snd current) init_val) days_val init_val g
        else Ok g);
  Ok (match valid with
      | None => g1
      | Some l => mkGolden (g_settings g1) (insert_rows (g_next g1) 0 l) (g_next g1 + Z.of_nat (length l))
      end).

(** [write_flex_config]: [ready] is [postgres_ready]; [session] is how opening the
    connection, ensuring the schema and committing go, apart from the statements.
    Whether the write landed, and the database left behind. *)
Definition write_flex_config (ready : bool) (session : res unit) (accounts : option (list account))
    (default_days init_days : option Z) (g : golden) : bool * golden :=
  if negb ready then (false, g)
  else
    let valid := (λ l : list account, filter (λ a, clean (ac_host_id a) ≠ "") l) <$> accounts in
    match valid with
    | Some [] => (false, g)
    | _ =>
        let days_val := Z.max 1 <$> default_days in
        let init_val := Z.max 1 <$> init_days in
        match days_val, init_val, valid with
        | None, None, None => (true, g)
        | _, _, _ =>
            match session, write_body days_val init_val valid g with
            | Ok _, Ok g' => (true, g')
            | _, _ => (false, g)
            end
        end
    end.

(** ** [POST /flex/config/write] *)

Inductive write_answer := WriteOk (accounts : option (list account)) (default_days init_days : option Z)
| WriteTokens | WriteEmpty | WriteNoAccounts | WriteFailed.

Section endpoint.
Context `{PyRepr}.

(** [value is None or value == ""]; what is no number is dropped. *)
Definition optional_days (value : pyval) : res (option Z) :=
  if given value
  then try_except [TypeError; ValueError] (n ← py_int value; Ok (Some (Z.max 1 n))) (λ _, Ok None)
  else Ok None.

(** [str(x or d).strip()]. *)
Definition text_or (x : pyval) (d : string) : string := strip (py_str (py_or x (PStr d))).

Definition normalize_account (a : pyval) : option account :=
  match a with
  | PDict d =>
      let qh := text_or (dict_get "query_host_id" d) "" in
      if decide (qh = "") then None
      else
        let purpose := text_or (dict_get "purpose" d) "cash_transactions" in
        Some (mkAccount (Some qh) (or_none (text_or (dict_get "query_secondary_id" d) ""))
                (or_none (text_or (dict_get "query_label" d) ""))
                (Some (if decide (purpose = "") then "cash_transactions" else purpose)))
  | _ => None
  end.

Definition normalize_flex_accounts (raw : pyval) : res (list account) :=
  (λ l : list pyval, omap normalize_account l) <$> iter_values (py_or raw (PList [])).

Definition TOKEN_FIELDS : list string := ["host_token"; "secondary_token"].
Definition WRITE_FIELDS : list string := ["accounts"; "flex_default_range_days"; "flex_init_range_days"].

(** What the endpoint passes on; [None] when [accounts] holds no usable row. *)
Definition prepare_write (payload : pydict) : res (option (option (list account) * option Z * option Z)) :=
  accounts ← (if dict_has "accounts" payload
              then Some <$> normalize_flex_accounts (dict_get "accounts" payload) else Ok None);
  match accounts with
  | Some [] => Ok None
  | _ =>
      dd ← optional_days (dict_get "flex_default_range_days" payload);
      di ← optional_days (dict_get "flex_init_range_days" payload);
      Ok (Some (accounts, dd, di))
  end.

Definition write_flex_config_endpoint (ready : bool) (session : res unit) (payload : pydict) (g : golden)
    : res write_answer * golden :=
  if existsb (λ k, dict_has k payload) TOKEN_FIELDS then (Ok WriteTokens, g)
  else if negb (existsb (λ k, dict_has k payload) WRITE_FIELDS) then (Ok WriteEmpty, g)
  else
    match prepare_write payload with
    | Raise e => (Raise e, g)
    | Ok None => (Ok WriteNoAccounts, g)
    | Ok (Some (accounts, dd, di)) =>
        let '(ok, g') := write_flex_config ready session accounts dd di g in
        (Ok (if ok then WriteOk accounts dd di else WriteFailed), g')
    end.
End endpoint.

(** ** Lemmas *)

(** Rows inserted in order are read back in that order. *)
Lemma insert_rows_elem id i l r : r ∈ insert_rows id i l → i ≤ qr_sort_order r ∧ qr_id r - qr_sort_order r = id - i.
Proof.
  revert id i. induction l as [|a l IH]; intros id i; cbn; [set_solver|].
  intros [->|Hr]%elem_of_cons; [cbn; lia|]. apply IH in Hr. lia.
Qed.

Lemma insert_rows_sorted id i l : StronglySorted row_before (insert_rows id i l).
Proof.
  revert id i. induction l as [|a l IH]; intros id i; cbn; constructor; [apply IH|].
  apply Forall_forall. intros r Hr%insert_rows_elem. left. cbn. lia.
Qed.

Lemma insert_rows_functional id i l r1 r2 :
  r1 ∈ insert_rows id i l → r2 ∈ insert_rows id i l → qr_sort_order r1 = qr_sort_order r2 → r1 = r2.
Proof.
  revert id i. induction l as [|a l IH]; intros id i; cbn; [set_solver|].
  intros [->|H1]%elem_of_cons [->|H2]%elem_of_cons E; cbn in *; [done| | |by eapply IH].
  - apply insert_rows_elem in H2. lia.
  - apply insert_rows_elem in H1. lia.
Qed.

#[export] Instance row_before_total : Total row_before.
Proof. intros a b. unfold row_before. lia. Qed.
#[export] Instance row_before_trans : Transitive row_before.
Proof. intros a b c. unfold row_before. lia. Qed.

Lemma select_inserted s id l n : select_rows (mkGolden s (insert_rows id 0 l) n) = insert_rows id 0 l.
Proof.
  unfold select_rows. cbn. apply (StronglySorted_unique_strong row_before).
  - intros r1 r2 H1 H2 L1 L2. rewrite merge_sort_Permutation in H1.
    eapply insert_rows_functional; [exact H1|exact H2|]. unfold row_before in *. lia.
  - by apply StronglySorted_merge_sort; apply _.
  - apply insert_rows_sorted.
  - by rewrite merge_sort_Permutation.
Qed.

(** What a stored account reads back as. *)
Definition stored (a : account) : config_row :=
  let purpose := strip (or_text (ac_purpose a) "cash_transactions") in
  mkConfigRow (clean (ac_host_id a)) (clean_or_none (ac_secondary_id a)) (clean_or_none (ac_label a))
    (Some (if decide (purpose = "") then "cash_transactions" else purpose)).

Lemma clean_idem x : clean (Some (clean x)) = clean x.
Proof. unfold clean. cbn. apply strip_idem. Qed.

Lemma or_none_clean x : clean_or_none (clean_or_none x) = clean_or_none x.
Proof.
  unfold clean_or_none. unfold or_none at 2 3. destruct (decide (clean x = "")) as [E|E]; [done|].
  change (or_none (clean (Some (clean x))) = Some (clean x)). rewrite clean_idem.
  unfold or_none. by rewrite decide_False.
Qed.

Lemma insert_row_reads id i a :
  let r := insert_row id i a in
  mkConfigRow (clean (qr_host_id r)) (clean_or_none (qr_secondary_id r)) (clean_or_none (qr_label r))
    (clean_or_none (qr_purpose r)) = stored a.
Proof.
  cbn zeta. unfold insert_row, stored. cbn [qr_host_id qr_secondary_id qr_label qr_purpose].
  rewrite clean_idem, !or_none_clean. f_equal.
  unfold clean_or_none, clean, or_none. cbn [default from_option Datatypes.id]. set (p := strip (or_text _ _)).
  destruct (decide (p = "")) as [E|E]; [done|]. unfold p. rewrite strip_idem. fold p. by rewrite decide_False.
Qed.

Lemma insert_rows_reads id i l :
  (λ r, mkConfigRow (clean (qr_host_id r)) (clean_or_none (qr_secondary_id r)) (clean_or_none (qr_label r))
           (clean_or_none (qr_purpose r))) <$> insert_rows id i l = stored <$> l.
Proof.
  revert id i. induction l as [|a l IH]; intros id i; [done|]. cbn [insert_rows fmap list_fmap].
  pose proof (insert_row_reads id i a) as E. cbn zeta in E. rewrite E. f_equal. apply IH.
Qed.

(** The range days only depend on the settings row, the rows on the query rows. *)
Lemma get_range_settings g1 g2 : g_settings g1 = g_settings g2 → get_flex_range_days g1 = get_flex_range_days g2.
Proof. unfold get_flex_range_days. by intros ->. Qed.

Lemma get_range_ge_1 g : 1 ≤ fst (get_flex_range_days g) ∧ 1 ≤ snd (get_flex_range_days g).
Proof. unfold get_flex_range_days. destruct (g_settings g) as [[d i]|]; cbn; unfold DEFAULT_RANGE_DAYS, DEFAULT_INIT_RANGE_DAYS; lia. Qed.

Lemma get_config_rows e s l id n :
  (get_flex_config e (mkGolden s (insert_rows id 0 l) n)).2 = stored <$> l.
Proof. unfold get_flex_config. cbn [snd]. by rewrite select_inserted, insert_rows_reads. Qed.

Lemma upsert_settings_spec dd di g g' :
  let current := get_flex_range_days g in
  upsert_settings (default (fst current) (Z.max 1 <$> dd), default (snd current) (Z.max 1 <$> di))
    (Z.max 1 <$> dd) (Z.max 1 <$> di) g = Ok g' →
  get_flex_range_days g' = (from_option (Z.max 1) (fst current) dd, from_option (Z.max 1) (snd current) di)
  ∧ g_rows g' = g_rows g ∧ g_next g' = g_next g.
Proof.
  cbn zeta. unfold upsert_settings, get_flex_range_days.
  destruct (g_settings g) as [[d i]|]; cbn [fmap option_fmap option_map]; destruct dd, di;
    cbn [default from_option fst snd]; (destruct (_ && _); [intros [= <-]|done]);
    cbn; unfold DEFAULT_RANGE_DAYS, DEFAULT_INIT_RANGE_DAYS; (split; [f_equal; lia|done]).
Qed.

Lemma write_body_spec e dd di accounts g g' :
  write_body (Z.max 1 <$> dd) (Z.max 1 <$> di) accounts g = Ok g' →
  get_flex_range_days g' = (from_option (Z.max 1) (fst (get_flex_range_days g)) dd,
                            from_option (Z.max 1) (snd (get_flex_range_days g)) di)
  ∧ (get_flex_config e g').2
    = match accounts with None => (get_flex_config e g).2 | Some l => stored <$> l end.
Proof.
  unfold write_body. intros (g1 & H1 & H2)%res_bind_ok.
  assert (get_flex_range_days g1 = (from_option (Z.max 1) (fst (get_flex_range_days g)) dd,
                                   from_option (Z.max 1) (snd (get_flex_range_days g)) di)
          ∧ g_rows g1 = g_rows g) as [Hr Hrows].
  { revert H1. case_decide as Hd.
    - intros (? & ? & _)%upsert_settings_spec. done.
    - intros [= <-]. destruct dd; [destruct Hd; by left; eexists|]. destruct di; [destruct Hd; by right; eexists|].
      by cbn; destruct (get_flex_range_days g). }
  injection H2 as <-. destruct accounts as [l|].
  - split; [|by rewrite get_config_rows]. by rewrite <-Hr; apply get_range_settings.
  - split; [done|]. unfold get_flex_config, select_rows. by rewrite Hrows.
Qed.

(** ** Normalised accounts *)

(** An account as the endpoint's answer shows it. *)
Definition echo (a : account) : config_row :=
  mkConfigRow (default "" (ac_host_id a)) (ac_secondary_id a) (ac_label a) (ac_purpose a).

Lemma text_or_strip `{PyRepr} x d : strip (text_or x d) = text_or x d.
Proof. apply strip_idem. Qed.

Lemma or_none_text `{PyRepr} x : clean_or_none (or_none (text_or x "")) = or_none (text_or x "").
Proof.
  set (t := text_or x ""). destruct (decide (t = "")) as [->|E]; [done|].
  assert (or_none t = Some t) as -> by (unfold or_none; by rewrite decide_False).
  unfold clean_or_none, clean. cbn [default from_option Datatypes.id]. unfold t. rewrite text_or_strip.
  unfold or_none. by rewrite decide_False.
Qed.

Lemma normalize_account_spec `{PyRepr} v a :
  normalize_account v = Some a → clean (ac_host_id a) ≠ "" ∧ stored a = echo a.
Proof.
  destruct v; try done. unfold normalize_account. cbn zeta. case_decide as Hq; [done|]. intros [= <-].
  unfold stored, echo. cbn [ac_host_id ac_secondary_id ac_label ac_purpose default from_option Datatypes.id].
  rewrite !or_none_text. unfold clean. cbn [default from_option Datatypes.id]. rewrite text_or_strip.
  split; [done|]. do 2 f_equal. cbn [or_text]. pose proof (text_or_strip (dict_get "purpose" d) "cash_transactions") as Ht.
  set (t := text_or (dict_get "purpose" d) "cash_transactions") in *.
  destruct (decide (t = "")) as [E|E]; [done|]. rewrite !(decide_False (P := t = "")) by done.
  by rewrite Ht, decide_False.
Qed.

Lemma normalized_stored `{PyRepr} raw l :
  normalize_flex_accounts raw = Ok l →
  stored <$> filter (λ a, clean (ac_host_id a) ≠ "") l = echo <$> l.
Proof.
  unfold normalize_flex_accounts. intros (items & _ & <-)%res_fmap_ok.
  induction items as [|v items IH]; [done|]. cbn [omap list_omap].
  destruct (normalize_account v) as [a|] eqn:Ha; [|done].
  apply normalize_account_spec in Ha as [Hh Hs]. rewrite filter_cons_True by done.
  cbn [fmap list_fmap]. rewrite Hs. f_equal. apply IH.
Qed.

Lemma query_ids_elem qid raw :
  qid ∈ query_ids raw ↔ qid ≠ "" ∧ ∃ part, part ∈ split_on ","%char (default "" raw) ∧ qid = strip part.
Proof.
  unfold query_ids. rewrite list_elem_of_filter, list_elem_of_fmap. naive_solver.
Qed.

Lemma role_entries_elem r role tok raw c :
  c ∈ role_entries r role tok raw ↔
  tok ≠ "" ∧ ∃ qid, qid ∈ query_ids raw
    ∧ c = mkEntry tok qid role (clean_or_none (qr_label r)) (clean_or_none (qr_purpose r)).
Proof.
  unfold role_entries. case_decide as Ht; [set_solver|]. rewrite list_elem_of_fmap. naive_solver.
Qed.

Lemma optional_days_ge_1 v o : optional_days v = Ok o → from_option (Z.le 1) True o.
Proof.
  unfold optional_days. destruct (given v); [|by intros [= <-]]. unfold try_except.
  destruct (py_int v) as [n|ex]; cbn.
  - intros [= <-]. cbn. lia.
  - case_decide; [by intros [= <-]|done].
Qed.

Lemma prepare_write_some `{PyRepr} payload accounts dd di :
  prepare_write payload = Ok (Some (accounts, dd, di)) →
  (dict_has "accounts" payload = true ↔ is_Some accounts)
  ∧ optional_days (dict_get "flex_default_range_days" payload) = Ok dd
  ∧ optional_days (dict_get "flex_init_range_days" payload) = Ok di
  ∧ (λ l : list account, stored <$> filter (λ a, clean (ac_host_id a) ≠ "") l) <$> accounts
    = (λ l : list account, echo <$> l) <$> accounts.
Proof.
  unfold prepare_write. intros (acc & Hacc & Hrest)%res_bind_ok.
  assert (acc = accounts ∧ optional_days (dict_get "flex_default_range_days" payload) = Ok dd
          ∧ optional_days (dict_get "flex_init_range_days" payload) = Ok di) as (-> & Hdd & Hdi).
  { destruct acc as [[|a l]|]; [done|..];
      apply res_bind_ok in Hrest as (? & ? & Hrest); apply res_bind_ok in Hrest as (? & ? & Hrest); by simplify_eq. }
  split_and!; [|done..|]; destruct (dict_has "accounts" payload).
  - apply res_fmap_ok in Hacc as (l & _ & <-). by split.
  - injection Hacc as <-. by split; [|intros [? ?]].
  - apply res_fmap_ok in Hacc as (l & Hl & <-). cbn. f_equal. by eapply normalized_stored.
  - by injection Hacc as <-.
Qed.

(** What [write_flex_config] leaves behind, in terms of its transaction. *)
Lemma write_flex_config_cases ready session accounts dd di g :
  let valid := (λ l : list account, filter (λ a, clean (ac_host_id a) ≠ "") l) <$> accounts in
  let '(ok, g') := write_flex_config ready session accounts dd di g in
  (ok = false ∧ g' = g) ∨ (ok = true ∧ write_body (Z.max 1 <$> dd) (Z.max 1 <$> di) valid g = Ok g').
Proof.
  cbn zeta. unfold write_flex_config. destruct ready; [|by left]. cbn [negb]. cbn zeta.
  destruct accounts as [l|]; cbn [fmap option_fmap option_map].
  - destruct (filter _ l) as [|v valid]; [by left|].
    destruct dd as [d|], di as [i|]; cbn [fmap option_fmap option_map]; destruct session; try (by left);
      (destruct (write_body _ _ _ _) as [g'|]; [by right|by left]).
  - destruct dd as [d|], di as [i|]; cbn [fmap option_fmap option_map];
      try (by right); destruct session; try (by left); (destruct (write_body _ _ _ _) as [g'|]; [by right|by left]).
Qed.

(** ** Theorems *)

(** C21. Read after write: a write that does not land changes nothing at all; one that
    lands makes the range days what was asked for, at least one day, a half that was
    not asked for keeping the value in effect, and, when accounts are given, makes
    the query rows exactly the given accounts that have a host query id, in their
    order, trimmed, with [cash_transactions] for a missing purpose; without accounts
    it leaves the query rows alone. *)
Theorem write_flex_config_spec ready session accounts dd di g e :
  let '(ok, g') := write_flex_config ready session accounts dd di g in
  (ok = false → g' = g)
  ∧ (ok = true →
       get_flex_range_days g' = (from_option (Z.max 1) (fst (get_flex_range_days g)) dd,
                                 from_option (Z.max 1) (snd (get_flex_range_days g)) di)
       ∧ (get_flex_config e g').2 =
           match accounts with
           | None => (get_flex_config e g).2
           | Some l => stored <$> filter (λ a, clean (ac_host_id a) ≠ "") l
           end).
Proof.
  pose proof (write_flex_config_cases ready session accounts dd di g) as Hc.
  cbn zeta in Hc. destruct (write_flex_config _ _ _ _ _ _) as [ok g'].
  destruct Hc as [[-> ->]|[-> Hb]]; [done|]. split; [done|]. intros _.
  apply (write_body_spec e) in Hb as [Hr Hrows]. split; [done|]. by destruct accounts.
Qed.

(** C22. The config endpoint never writes a token: a body that names a token field is
    refused whatever else it holds, and every answer but success leaves Golden Source
    as it was. A success answers with the accounts that are then read back, in the
    order given, and sets each range day it carried and only those. *)
Theorem write_flex_config_endpoint_spec `{PyRepr} ready session payload g e :
  let '(answer, g') := write_flex_config_endpoint ready session payload g in
  (answer = Ok WriteTokens ↔ ∃ k, k ∈ TOKEN_FIELDS ∧ dict_has k payload = true)
  ∧ ((¬ ∃ accounts dd di, answer = Ok (WriteOk accounts dd di)) → g' = g)
  ∧ (∀ accounts dd di, answer = Ok (WriteOk accounts dd di) →
       (dict_has "accounts" payload = true ↔ is_Some accounts)
       ∧ optional_days (dict_get "flex_default_range_days" payload) = Ok dd
       ∧ optional_days (dict_get "flex_init_range_days" payload) = Ok di
       ∧ get_flex_range_days g' = (default (fst (get_flex_range_days g)) dd, default (snd (get_flex_range_days g)) di)
       ∧ (get_flex_config e g').2 =
           match accounts with None => (get_flex_config e g).2 | Some l => echo <$> l end).
Proof.
  assert (existsb (λ k, dict_has k payload) TOKEN_FIELDS = true ↔ ∃ k, k ∈ TOKEN_FIELDS ∧ dict_has k payload = true) as Htok.
  { rewrite existsb_exists. split; intros (k & Hk & ?); exists k; (split; [by apply list_elem_of_In|done]). }
  unfold write_flex_config_endpoint. revert Htok. set (T := ∃ k, k ∈ TOKEN_FIELDS ∧ _). clearbody T. intros Htok.
  destruct (existsb _ TOKEN_FIELDS); [split_and!; naive_solver|].
  destruct (existsb _ WRITE_FIELDS); cbn [negb]; [|split_and!; naive_solver].
  destruct (prepare_write payload) as [[[[accounts dd] di]|]|ex] eqn:Hp; [|split_and!; naive_solver..].
  apply prepare_write_some in Hp as (Hacc & Hdd & Hdi & Hst).
  pose proof (write_flex_config_cases ready session accounts dd di g) as Hc. cbn zeta in Hc.
  destruct (write_flex_config _ _ _ _ _ _) as [ok g'].
  destruct Hc as [[-> ->]|[-> Hb]]; [split_and!; naive_solver|].
  apply (write_body_spec e) in Hb as [Hr Hrows].
  split_and!; [naive_solver|intros Hn; destruct Hn; eauto|]. intros ? ? ? [= <- <- <-].
  split_and!; [apply Hacc..|done|done| |].
  - rewrite Hr. apply optional_days_ge_1 in Hdd, Hdi. destruct dd, di; cbn in *; f_equal; lia.
  - rewrite Hrows. destruct accounts as [l|]; [|done]. cbn in Hst |- *. by injection Hst.
Qed.

(** The credentials for a purpose are exactly those of its rows: the host token
    with every query id of the host column, the secondary token with every query id
    of the secondary column. No credential has a blank token or a blank query id. *)
Theorem get_flex_config_purpose_spec e g purpose c :
  c ∈ get_flex_config_purpose e g purpose ↔
  e_token c ≠ "" ∧ e_query_id c ≠ "" ∧
  ∃ r part, r ∈ g_rows g ∧ qr_purpose r = Some purpose
    ∧ e_query_id c = strip part
    ∧ e_label c = clean_or_none (qr_label r) ∧ e_purpose c = clean_or_none (Some purpose)
    ∧ ((e_role c = "host" ∧ e_token c = strip (FLEX_HOST_TOKEN e)
        ∧ part ∈ split_on ","%char (default "" (qr_host_id r)))
       ∨ (e_role c = "secondary" ∧ e_token c = strip (FLEX_SECONDARY_TOKEN e)
          ∧ part ∈ split_on ","%char (default "" (qr_secondary_id r)))).
Proof.
  unfold get_flex_config_purpose, resolve_flex_tokens, query_entries. cbn zeta.
  rewrite list_elem_of_In, in_concat. split.
  - intros (es & Hes & Hc). apply list_elem_of_In in Hes; apply list_elem_of_In in Hc.
    apply list_elem_of_fmap in Hes as (r & -> & Hr).
    apply list_elem_of_filter in Hr as [Hp Hr]. unfold select_rows in Hr. rewrite merge_sort_Permutation in Hr.
    apply elem_of_app in Hc as [Hc|Hc]; apply role_entries_elem in Hc as (Ht & qid & Hq & ->);
      apply query_ids_elem in Hq as (Hne & part & Hpart & ->); cbn; split_and!; try done;
      exists r, part; rewrite Hp; naive_solver.
  - destruct c as [tok qid role label pur]. cbn.
    intros (Ht & Hne & r & part & Hr & Hp & -> & -> & -> & Hrole).
    eexists. split.
    + rewrite <-list_elem_of_In. apply list_elem_of_fmap. exists r. split; [reflexivity|].
      apply list_elem_of_filter. split; [done|]. unfold select_rows. by rewrite merge_sort_Permutation.
    + rewrite <-list_elem_of_In. apply elem_of_app. rewrite !role_entries_elem, Hp.
      destruct Hrole as [(-> & -> & Hpart)|(-> & -> & Hpart)]; [left|right]; split; try done;
        eexists; (split; [|reflexivity]); apply query_ids_elem; eauto.
Qed.
