(* ===== verification/Summary.v ===== *)
(** * The configuration summary ([GET /flex/config/summary] of [api/config_summary.py])

    What a reader of the configuration is shown: which tokens there are, by their last four
    characters and their age, the range days and the query rows. *)
From S2P Require Import Prelude Pytext PyVal Pytime Ddl Handlers ConfigRw.

Record query_row := mkQueryRow {
  sq_purpose : string; sq_query_label : option string; sq_query_host_id : string; sq_query_secondary_id : option string
}.

Record summary := mkSummary {
  sm_host_token_set : bool;
  sm_host_token_last4 : option string;
  sm_secondary_token_set : bool;
  sm_secondary_token_last4 : option string;
  sm_host_source : string;
  sm_secondary_source : string;
  sm_issued_at : option string;
  sm_age_days : option Z;
  sm_source : string;
  sm_default_days : Z;
  sm_init_days : Z;
  sm_query_rows : list query_row
}.

(** An answer, or the 503 with its detail. *)
Inductive summary_answer := Summary (s : summary) | SettingsUnreadable (detail : string).

(** [_blank_to_none]. *)
Definition blank_to_none (value : option string) : option string :=
  match value with None => None | Some v => or_none (strip v) end.

Definition query_row_of (r : qrow) : query_row :=
  mkQueryRow (default "cash_transactions" (blank_to_none (qr_purpose r))) (blank_to_none (qr_label r))
    (clean (qr_host_id r)) (blank_to_none (qr_secondary_id r)).

(** [days] and [rows] are the two reads of the database: the first one failing is a 503, the
    second one leaves the rows out. *)
Definition config_summary (e : env) (now : Z) (days : res (Z * Z)) (rows : res (list qrow)) : summary_answer :=
  let '(host_tok, sec_tok, host_src, sec_src) := resolve_flex_tokens e in
  match days with
  | Raise ex => SettingsUnreadable ("flex settings unreadable: " +:+ exn_str ex)
  | Ok (default_days, init_days) =>
      let query_rows := match rows with Ok l => query_row_of <$> l | Raise _ => [] end in
      let host_last4 := mask_token_last4 host_tok in
      let sec_last4 := mask_token_last4 sec_tok in
      let source := if decide (host_src = "secret" ∨ sec_src = "secret") then "secret" else "none" in
      let '(issued_at, age_days) := flex_tokens_issued_at e now in
      Summary (mkSummary (bool_decide (is_Some host_last4)) host_last4 (bool_decide (is_Some sec_last4)) sec_last4
                 host_src sec_src issued_at age_days source default_days init_days query_rows)
  end.

(** ** What it shows and what it hides *)

(** What may be seen of a token: that there is one, and its last four characters. *)
Definition visible (token : string) : option string :=
  let s := strip token in
  if decide (s = "") then None else Some (udrop (Z.max 0 (ulen s - 4)) s).

Lemma mask_visible tok : mask_token_last4 (strip tok) = visible tok.
Proof. unfold mask_token_last4, visible. by rewrite strip_idem. Qed.

Lemma visible_source tok : token_source (strip tok) = if decide (visible tok = None) then "none" else "secret".
Proof.
  unfold visible, token_source. by destruct (decide (strip tok = "")).
Qed.

(** C35. The summary is a function of what may be seen: two environments whose tokens agree in
    presence and last four characters give the same answer, whatever else the tokens are. *)
Theorem summary_hides_tokens e1 e2 now days rows :
  visible (FLEX_HOST_TOKEN e1) = visible (FLEX_HOST_TOKEN e2) →
  visible (FLEX_SECONDARY_TOKEN e1) = visible (FLEX_SECONDARY_TOKEN e2) →
  FLEX_TOKENS_ISSUED_AT e1 = FLEX_TOKENS_ISSUED_AT e2 →
  config_summary e1 now days rows = config_summary e2 now days rows.
Proof.
  intros Hhost Hsec Hissued. unfold config_summary, resolve_flex_tokens, flex_tokens_issued_at.
  by rewrite !visible_source, !mask_visible, Hhost, Hsec, Hissued.
Qed.

(** A row as [get_flex_config] gives it to the fetches. *)
Definition shown (r : config_row) : query_row :=
  mkQueryRow (default "cash_transactions" (cr_purpose r)) (cr_label r) (cr_host_id r) (cr_secondary_id r).

Lemma blank_to_none_clean x : blank_to_none x = clean_or_none x.
Proof. by destruct x. Qed.

(** An entry comes from a row of the purpose, with the token of its role. *)
Lemma elem_of_purpose e g purpose x :
  x ∈ get_flex_config_purpose e g purpose ↔
  ∃ r, r ∈ g_rows g ∧ qr_purpose r = Some purpose ∧
    (x ∈ role_entries r "host" (strip (FLEX_HOST_TOKEN e)) (qr_host_id r)
     ∨ x ∈ role_entries r "secondary" (strip (FLEX_SECONDARY_TOKEN e)) (qr_secondary_id r)).
Proof.
  unfold get_flex_config_purpose, query_entries, resolve_flex_tokens, select_rows. cbn zeta beta iota.
  rewrite list_elem_of_In, in_concat. setoid_rewrite <-list_elem_of_In. setoid_rewrite list_elem_of_fmap. split.
  - intros (l & (r & -> & [Hp Hr]%list_elem_of_filter) & Hx%elem_of_app).
    rewrite merge_sort_Permutation in Hr. by exists r.
  - intros (r & Hr & Hp & Hx). eexists. split; [|by apply elem_of_app]. exists r. split; [done|].
    apply list_elem_of_filter. by rewrite merge_sort_Permutation.
Qed.

Lemma role_entries_role r role tok raw x : x ∈ role_entries r role tok raw → e_role x = role ∧ tok ≠ "".
Proof.
  unfold role_entries. case_decide; [by intros ?%not_elem_of_nil|]. intros (q & -> & _)%list_elem_of_fmap. done.
Qed.

Lemma last4_set tok : bool_decide (is_Some (mask_token_last4 (strip tok))) = true ↔ strip tok ≠ "".
Proof.
  rewrite bool_decide_eq_true, mask_visible. unfold visible.
  destruct (decide (strip tok = "")); [split; [by intros [? ?]|done]|]. split; [done|by eexists].
Qed.

(** The summary tells what a fetch will find: the rows it shows are those the fetches read,
    the range days are theirs, and a side it calls set is exactly a side whose token a fetch
    can use: a side shown as not set gives no credential for any purpose, and a side shown
    as set gives one for every query id of every row of the purpose. *)
Theorem summary_matches_fetches e now g s :
  config_summary e now (Ok (get_flex_range_days g)) (Ok (select_rows g)) = Summary s →
  sm_query_rows s = shown <$> (get_flex_config e g).2
  ∧ (sm_default_days s, sm_init_days s) = get_flex_range_days g
  ∧ (sm_host_token_set s = false → ∀ purpose x, x ∈ get_flex_config_purpose e g purpose → e_role x ≠ "host")
  ∧ (sm_secondary_token_set s = false → ∀ purpose x, x ∈ get_flex_config_purpose e g purpose → e_role x ≠ "secondary")
  ∧ (sm_host_token_set s = true → ∀ purpose r qid, r ∈ g_rows g → qr_purpose r = Some purpose → qid ∈ query_ids (qr_host_id r) →
       ∃ x, x ∈ get_flex_config_purpose e g purpose ∧ e_role x = "host" ∧ e_query_id x = qid)
  ∧ (sm_source s = "none" → ∀ purpose, get_flex_config_purpose e g purpose = []).
Proof.
  unfold config_summary, resolve_flex_tokens. destruct (get_flex_range_days g) as [dd di].
  destruct (flex_tokens_issued_at e now). intros [= <-]. cbn [sm_query_rows sm_default_days sm_init_days sm_host_token_set
    sm_secondary_token_set sm_source].
  set (h := strip (FLEX_HOST_TOKEN e)). set (c := strip (FLEX_SECONDARY_TOKEN e)).
  assert (∀ purpose x, x ∈ get_flex_config_purpose e g purpose →
            e_role x = "host" ∧ h ≠ "" ∨ e_role x = "secondary" ∧ c ≠ "") as Hrole.
  { intros purpose x (r & _ & _ & [Hx|Hx])%elem_of_purpose; apply role_entries_role in Hx; auto. }
  pose proof (last4_set (FLEX_HOST_TOKEN e)) as Hh. pose proof (last4_set (FLEX_SECONDARY_TOKEN e)) as Hc.
  fold h c in Hh, Hc. split_and!.
  - unfold get_flex_config, resolve_flex_tokens. cbn [snd]. rewrite <-list_fmap_compose. apply list_fmap_ext.
    intros _ r _. unfold query_row_of, shown, compose. cbn. by rewrite !blank_to_none_clean.
  - done.
  - intros Hset purpose x Hx. rewrite Hset in Hh. destruct (Hrole _ _ Hx) as [[_ Hne]|[-> _]]; [|done].
    by apply Hh in Hne.
  - intros Hset purpose x Hx. rewrite Hset in Hc. destruct (Hrole _ _ Hx) as [[-> _]|[_ Hne]]; [done|].
    by apply Hc in Hne.
  - intros Hset purpose r qid Hr Hp Hq. apply Hh in Hset.
    exists (mkEntry h qid "host" (clean_or_none (qr_label r)) (clean_or_none (qr_purpose r))).
    split; [|done]. apply elem_of_purpose. exists r. split_and!; [done..|]. left. unfold role_entries.
    rewrite decide_False by done. apply list_elem_of_fmap. by exists qid.
  - intros Hs purpose. case_decide as Hsrc; [done|]. unfold token_source in Hsrc.
    destruct (get_flex_config_purpose e g purpose) as [|x l] eqn:E; [done|].
    assert (x ∈ get_flex_config_purpose e g purpose) as Hx by (rewrite E; by left). exfalso. apply Hsrc.
    destruct (Hrole _ _ Hx) as [[_ Hne]|[_ Hne]]; [left|right]; by rewrite decide_False.
Qed.

(** ** At concrete inputs *)

Definition one_token : env := mkEnv " abcdefgh1234 " "" "2026-01-15".
Definition other_token : env := mkEnv "zzzzzz1234" " " "2026-01-15".
Definition one_row : golden := mkGolden (Some (20, 200)) [mkQrow 1 0 (Some "Main") (Some "trades") (Some "11, 12") None] 2.

Lemma summary_hides_tokens_witness :
  FLEX_HOST_TOKEN one_token ≠ FLEX_HOST_TOKEN other_token
  ∧ config_summary one_token 0 (Ok (30, 360)) (Ok []) = config_summary other_token 0 (Ok (30, 360)) (Ok []).
Proof.
  split; [discriminate|].
  exact (summary_hides_tokens one_token other_token 0 (Ok (30, 360)) (Ok []) eq_refl eq_refl eq_refl).
Defined.

Lemma summary_matches_fetches_witness :
  ∃ s, config_summary one_token 0 (Ok (get_flex_range_days one_row)) (Ok (select_rows one_row)) = Summary s
    ∧ sm_host_token_last4 s = Some "1234"
    ∧ (∃ x, x ∈ get_flex_config_purpose one_token one_row "trades" ∧ e_role x = "host" ∧ e_query_id x = "12")
    ∧ ∀ x, x ∈ get_flex_config_purpose one_token one_row "trades" → e_role x ≠ "secondary".
Proof.
  destruct (config_summary one_token 0 (Ok (get_flex_range_days one_row)) (Ok (select_rows one_row))) as [s|] eqn:E;
    [|vm_compute in E; discriminate E].
  exists s. split; [reflexivity|].
  destruct (summary_matches_fetches one_token 0 one_row s E) as (_ & _ & _ & Hsec & Hhost & _).
  vm_compute in E. injection E as <-. split; [reflexivity|]. split.
  - apply (Hhost eq_refl "trades" (mkQrow 1 0 (Some "Main") (Some "trades") (Some "11, 12") None) "12");
      [left|reflexivity|apply (bool_decide_unpack _); exact I].
  - exact (Hsec eq_refl "trades").
Defined.
