(* ===== verification/Ingest.v ===== *)
(** * What the two fetches share ([orchestration/])

    A run is a computation on the state of the world around it: the requests sent to
    IB so far, the two tables it fills and the messages the message center took. IB's
    answers, the writers of [bifrost_core], the failures of reads and the message
    center's stream are interfaces. *)
From Stdlib Require Import Ascii.
From S2P Require Import Prelude Pytext PyVal Pytime FlexClient ConfigRw.

(** ** The world *)

(** One report asked of IB: [SendRequest] and the polls of [GetStatement]. *)
Record request := mkRequest {
  rq_token : string; rq_query : string; rq_from : option string; rq_to : option string; rq_period : option Z
}.
#[export] Instance request_eq_dec : EqDecision request.
Proof. solve_decision. Defined.

(** The columns the runs read: of [raw_broker.transactions] ([t_ts] an instant) and of
    [raw_broker.executions_raw_flex]. *)
Record cash := mkCash { t_account : option string; t_ts : Z }.
Record execution := mkExecution { x_account : option string; x_trade_date : option Z; x_source : option string }.

(** A message of the message center ([notify.build_portfolio_flex_executions_fetch_event],
    without its identifiers and its time). *)
Record event := mkEvent { ev_level : string; ev_status_to : string; ev_title : string; ev_message : string; ev_reason : option string }.

(** [build_portfolio_flex_executions_fetch_event]; a level of [""] is the missing one. *)
Definition fetch_event (ok : bool) (title message : string) (reason : option string) (level : string) : event :=
  mkEvent (if decide (level = "") then (if ok then "success" else "error") else level)
    (if ok then "complete" else "failed") title message reason.

Record world := mkWorld {
  w_requests : list request;
  w_transactions : list cash;
  w_executions : list execution;
  w_messages : list event
}.

(** ** Computations *)

Definition prog (A : Type) : Type := world → res A * world.

Definition pret {A} (a : A) : prog A := λ w, (Ok a, w).
Definition praise {A} (e : exn) : prog A := λ w, (Raise e, w).
Definition lift {A} (r : res A) : prog A := λ w, (r, w).
#[export] Instance prog_ret : MRet prog := λ A a, pret a.
#[export] Instance prog_bind : MBind prog := λ A B f m w,
  match m w with (Ok a, w') => f a w' | (Raise e, w') => (Raise e, w') end.

(** [try: m; except classes as e: h e]; what [m] did stays done. *)
Definition pcatch {A} (classes : exn → bool) (m : prog A) (h : exn → prog A) : prog A := λ w,
  match m w with
  | (Raise e, w') => if classes e then h e w' else (Raise e, w')
  | r => r
  end.

Definition is_value_error (e : exn) : bool := bool_decide (exn_cls e = ValueError).

(** ** Interfaces *)

(** IB's answer to a request; it may depend on what was asked before. *)
Class Reports := {
  cash_report : list request → request → res (list row);
  trade_report : list request → request → res (list row)
}.

(** The writers of [bifrost_core]: their answer and the table they leave. *)
Class CoreWriters := {
  upsert_account_transactions : list row → list cash → res (Z * Z) * list cash;
  write_account_executions_to_db : list row → list execution → res bool * list execution
}.

(** The reads of a run, each on a connection to Golden Source that may fail. *)
Inductive site := OpenGolden | ReadConfig | ReadRange | ReadLast | ReadStats | ReadStatsAfter.

(** What the configuration and the services around a run decide: which reads fail; what
    [notify.resolve_message_center_redis_url] answers or raises; and what writing an event
    to the stream behind a URL answers, the event's id in it where it was taken. *)
Class RunContext := {
  read_fault : site → option exn;
  message_url : res (option string);
  stream_answer : string → event → res (option string)
}.

Section effects.
Context `{Reports, CoreWriters, RunContext}.

Definition fetch_cash (rq : request) : prog (list row) := λ w,
  (cash_report (w_requests w) rq,
   mkWorld (w_requests w ++ [rq]) (w_transactions w) (w_executions w) (w_messages w)).
Definition fetch_trade (rq : request) : prog (list row) := λ w,
  (trade_report (w_requests w) rq,
   mkWorld (w_requests w ++ [rq]) (w_transactions w) (w_executions w) (w_messages w)).

Definition read {A} (s : site) (f : world → A) : prog A := λ w,
  match read_fault s with Some e => (Raise e, w) | None => (Ok (f w), w) end.

Definition upsert_cash (rows : list row) : prog (Z * Z) := λ w,
  let '(r, t) := upsert_account_transactions rows (w_transactions w) in
  (r, mkWorld (w_requests w) t (w_executions w) (w_messages w)).
Definition write_executions (rows : list row) : prog bool := λ w,
  let '(r, x) := write_account_executions_to_db rows (w_executions w) in
  (r, mkWorld (w_requests w) (w_transactions w) x (w_messages w)).

(** Whether an event offered to the stream is taken; no failure of it gets out. *)
Definition taken (url : string) (ev : event) : bool :=
  match stream_answer url ev with Ok (Some _) => true | Ok None | Raise _ => false end.

(** [publish_flex_executions_system_message]: without a URL nothing is sent, and only what
    resolving it raises gets out. The messages of the world are those the stream took. *)
Definition publish (ok : bool) (title message : string) (reason : option string) (level : string) : prog bool := λ w,
  match message_url with
  | Raise ex => (Raise ex, w)
  | Ok None => (Ok false, w)
  | Ok (Some url) =>
      if decide (url = "") then (Ok false, w)
      else
        let ev := fetch_event ok title message reason level in
        if taken url ev
        then (Ok true, mkWorld (w_requests w) (w_transactions w) (w_executions w) (w_messages w ++ [ev]))
        else (Ok false, w)
  end.
End effects.

(** The flex client as the source of reports. *)
Definition flex_reports `{XmlParser, FlexWeb, PyRepr, ZoneDb} (FLEX_LOCAL_TZ : string) : Reports := {|
  cash_report := λ _ rq, fetch_cash_transactions_report (rq_token rq) (rq_query rq) (rq_from rq) (rq_to rq);
  trade_report := λ _ rq,
    FlexClient.fetch_trades FLEX_LOCAL_TZ (rq_token rq) (rq_query rq) (rq_from rq) (rq_to rq) (rq_period rq)
|}.

(** ** Reading the body of a run *)

(** [(payload.get(k) or "").strip() or None]. *)
Definition date_arg (k : string) (payload : pydict) : res (option string) :=
  s ← method_strip (py_or (dict_get k payload) (PStr "")); Ok (Ddl.or_none s).

(** [_truthy]. *)
Definition flag (value : pyval) : bool :=
  match value with
  | PStr s => bool_decide (lower (strip s) ∉ [""; "0"; "false"; "no"; "off"])
  | _ => truthy value
  end.
Definition fallback_arg (payload : pydict) : bool := flag (default (PBool true) (dict_lookup "fallback" payload)).

(** ["[1003]" in str(e) or "Statement is not available" in str(e)]. *)
Definition statement_unavailable (e : exn) : bool :=
  str_in "[1003]" (exn_str e) || str_in "Statement is not available" (exn_str e).

(** [date - timedelta(days=n)], for [n >= 0]. *)
Definition days_before (d n : Z) : res Z :=
  if 999999999 <? n
  then Raise (Exn OverflowError ("days=" +:+ str_of_Z n +:+ "; must have magnitude <= 999999999"))
  else date_add d (- n).

(** The summary of a run that raised. *)
Definition failed_summary (error : string) : pydict :=
  [("ok", PBool false); ("error", PStr error); ("count", PInt 0)].

Definition opt_str (o : option string) : pyval := from_option PStr PNone o.
Definition opt_int (o : option Z) : pyval := from_option PInt PNone o.

(** ** Lemmas *)

Section prog_lemmas.
Context {A B : Type}.

Lemma prog_bind_ok (m : prog A) (f : A → prog B) w b w' :
  (m ≫= f) w = (Ok b, w') ↔ ∃ a w1, m w = (Ok a, w1) ∧ f a w1 = (Ok b, w').
Proof. unfold mbind, prog_bind. destruct (m w) as [[a|e] w1]; naive_solver. Qed.

Lemma prog_bind_raise (m : prog A) (f : A → prog B) w e w' :
  (m ≫= f) w = (Raise e, w') ↔
  m w = (Raise e, w') ∨ ∃ a w1, m w = (Ok a, w1) ∧ f a w1 = (Raise e, w').
Proof. unfold mbind, prog_bind. destruct (m w) as [[a|e'] w1]; naive_solver. Qed.
End prog_lemmas.

Lemma read_ok `{RunContext} {A} st (f : world → A) w a w' : read st f w = (Ok a, w') → a = f w ∧ w' = w.
Proof. unfold read. destruct (read_fault st); [done|]. by intros [= <- <-]. Qed.

Lemma lift_ok {A} (r : res A) w a w' : lift r w = (Ok a, w') → r = Ok a ∧ w' = w.
Proof. by intros [= -> ->]. Qed.

(** A step whose result is known. *)
Lemma prog_bind_eq {A B} (m : prog A) (f : A → prog B) w a w1 : m w = (Ok a, w1) → (m ≫= f) w = f a w1.
Proof. unfold mbind, prog_bind. by intros ->. Qed.

Lemma read_eq `{RunContext} {A} st (f : world → A) w : read_fault st = None → read st f w = (Ok (f w), w).
Proof. unfold read. by intros ->. Qed.

(** The messages an offered event adds. *)
Definition delivered `{RunContext} (ev : event) : list event :=
  match message_url with
  | Ok (Some url) => if decide (url = "") then [] else if taken url ev then [ev] else []
  | _ => []
  end.

(** A message adds to the messages at most, and is no answer only where resolving raised. *)
Lemma publish_spec `{RunContext} ok title message reason level w :
  publish ok title message reason level w =
    (match message_url with
     | Raise ex => Raise ex
     | Ok _ => Ok (bool_decide (delivered (fetch_event ok title message reason level) ≠ []))
     end,
     mkWorld (w_requests w) (w_transactions w) (w_executions w)
       (w_messages w ++ delivered (fetch_event ok title message reason level))).
Proof.
  assert (w = mkWorld (w_requests w) (w_transactions w) (w_executions w) (w_messages w ++ [])) as E
    by (rewrite app_nil_r; by destruct w).
  unfold publish, delivered. destruct message_url as [[url|]|ex]; [|by rewrite <-E..].
  case_decide; [by rewrite <-E|]. destruct (taken _ _); [done|by rewrite <-E].
Qed.

Lemma publish_then_ok `{RunContext} {A} ok title message reason level (a : A) w b w' :
  (_ ← publish ok title message reason level; mret a) w = (Ok b, w') ↔
  is_ok message_url = true ∧ b = a
  ∧ w' = mkWorld (w_requests w) (w_transactions w) (w_executions w)
           (w_messages w ++ delivered (fetch_event ok title message reason level)).
Proof.
  unfold mbind, prog_bind. rewrite publish_spec. destruct message_url; cbn; [|naive_solver].
  unfold mret, prog_ret, pret. naive_solver.
Qed.

Lemma publish_then_raise `{RunContext} {A} ok title message reason level (a : A) w ex w' :
  (_ ← publish ok title message reason level; mret a) w = (Raise ex, w') ↔ message_url = Raise ex ∧ w' = w.
Proof.
  unfold mbind, prog_bind, publish. destruct message_url as [[url|]|ex0]; [|cbn; naive_solver..].
  case_decide; [cbn; naive_solver|]. destruct (taken _ _); cbn; naive_solver.
Qed.

(** A step that leaves the world alone. *)
Lemma bind_quiet {A B} (m : prog A) (f : A → prog B) w :
  (m w).2 = w → (m ≫= f) w = match (m w).1 with Ok a => f a w | Raise e => (Raise e, w) end.
Proof. unfold mbind, prog_bind. destruct (m w) as [[a|e] w1]; by intros [= <-]. Qed.

Lemma read_quiet `{RunContext} {A} st (f : world → A) w : (read st f w).2 = w.
Proof. unfold read. by destruct (read_fault st). Qed.

(** A property of the world that a computation keeps, whatever it answers. *)
Definition keeps (P : relation world) {A} (m : prog A) : Prop := ∀ w, P w (m w).2.

Section keeps.
Context (P : relation world) `{!Reflexive P, !Transitive P}.

Lemma keeps_lift {A} (r : res A) : keeps P (lift r).
Proof. intros w. apply reflexivity. Qed.
Lemma keeps_ret {A} (a : A) : keeps P (mret a).
Proof. intros w. apply reflexivity. Qed.
Lemma keeps_bind {A B} (m : prog A) (f : A → prog B) : keeps P m → (∀ a, keeps P (f a)) → keeps P (m ≫= f).
Proof.
  intros Hm Hf w. unfold mbind, prog_bind. specialize (Hm w). destruct (m w) as [[a|e] w1]; [|done].
  cbn in *. etrans; [done|]. apply Hf.
Qed.
Lemma keeps_catch {A} cls (m : prog A) h : keeps P m → (∀ e, keeps P (h e)) → keeps P (pcatch cls m h).
Proof.
  intros Hm Hh w. unfold pcatch. specialize (Hm w). destruct (m w) as [[a|e] w1]; [done|].
  destruct (cls e); [|done]. cbn in *. etrans; [done|]. apply Hh.
Qed.
Lemma keeps_read `{RunContext} {A} s (f : world → A) : keeps P (read s f).
Proof. intros w. unfold read. destruct (read_fault s); apply reflexivity. Qed.
End keeps.

#[export] Hint Resolve keeps_lift keeps_ret keeps_bind keeps_catch keeps_read : flex.
