(* ===== verification/Coverage.v ===== *)
(** * Cash-ledger coverage ([ops/coverage.py])

    Months in which an account traded but no cash row landed: the query over the two
    tables, the count per account the metric shows and the entry of the self-check.
    A month is the day number of its first day. *)
From stdpp Require Import sorting.
From S2P Require Import Prelude Pytext Pytime Ingest.

(** ** Months *)

(** [date_trunc('month', d)::date]. *)
Definition month_start (d : Z) : Z :=
  let x := ymd_of_days d in days_of_ymd (mkYmd (y_year x) (y_month x) 1).

(** [month.strftime("%Y-%m")]. *)
Definition month_label (m : Z) : string :=
  let x := ymd_of_days m in pad4 (y_year x) +:+ "-" +:+ pad2 (y_month x).

(** The database's order of texts ([ORDER BY e.month, e.account_id]). *)
Class Collation := {
  collate_le : relation string;
  #[global] collate_dec :: RelDecision collate_le
}.

(** Code point order, for examples. *)
Definition sample_collation : Collation := {| collate_le := String.le; collate_dec := _ |}.

(** A row of [COVERAGE_SQL]. *)
Record coverage_row := mkCoverageRow { cr_account : string; cr_month : Z; cr_executions : Z; cr_gap : bool }.
#[export] Instance coverage_row_eq_dec : EqDecision coverage_row.
Proof. solve_decision. Defined.

(** The WHERE clause of the CTE [e]: the account and month of an execution of a month
    that is over. *)
Definition closed_trade (now : Z) (x : execution) : option (string * Z) :=
  match x_account x, x_trade_date x with
  | Some a, Some d => if d <? month_start (date_of now) then Some (a, month_start d) else None
  | _, _ => None
  end.

(** [e]: the groups with their size. *)
Definition traded_months (now : Z) (xs : list execution) : list (string * Z * Z) :=
  let keys := omap (closed_trade now) xs in
  (λ k, (k, Z.of_nat (length (filter (k =.) keys)))) <$> remove_dups keys.

(** [t]: the months with a cash row. *)
Definition cash_months (txs : list cash) : list (string * Z) :=
  omap (λ c, (λ a, (a, month_start (date_of (t_ts c)))) <$> t_account c) txs.

(** [ORDER BY e.month, e.account_id]. *)
Definition coverage_order `{Collation} (a b : coverage_row) : Prop :=
  cr_month a < cr_month b ∨ (cr_month a = cr_month b ∧ collate_le (cr_account a) (cr_account b)).
#[export] Instance coverage_order_dec `{Collation} : RelDecision coverage_order.
Proof. intros a b. unfold coverage_order. apply _. Defined.

Definition coverage_rows `{Collation} (now : Z) (xs : list execution) (txs : list cash) : list coverage_row :=
  merge_sort coverage_order
    ((λ '((a, m), n), mkCoverageRow a m n (bool_decide ((a, m) ∉ cash_months txs))) <$> traded_months now xs).

(** [count( * )::int] beyond four bytes. *)
Definition int4_error : exn := Exn DatabaseError "integer out of range".

(** [COVERAGE_SQL], at [now()]; [failure] is what the database raises instead of an answer. *)
Definition run_coverage_sql `{Collation} (failure : option exn) (now : Z) (xs : list execution) (txs : list cash)
    : res (list coverage_row) :=
  match failure with
  | Some e => Raise e
  | None =>
  if decide (Forall (λ g, g.2 ≤ 2147483647) (traded_months now xs))
  then Ok (coverage_rows now xs txs) else Raise int4_error
  end.

(** ** What the API makes of the rows *)

Record gap := mkGap { g_account : string; g_month : string; g_executions : Z }.
#[export] Instance gap_eq_dec : EqDecision gap.
Proof. solve_decision. Defined.

Record coverage := mkCoverage { c_accounts : list string; c_gaps : list gap }.

(** [if acct not in accounts: accounts.append(acct)]. *)
Definition add_account (accounts : list string) (a : string) : list string :=
  if decide (a ∈ accounts) then accounts else accounts ++ [a].

(** The loop over the rows: the accounts seen, the gaps found. *)
Definition collect_row (acc : list string * list gap) (r : coverage_row) : list string * list gap :=
  (add_account acc.1 (cr_account r),
   if cr_gap r then acc.2 ++ [mkGap (cr_account r) (month_label (cr_month r)) (cr_executions r)] else acc.2).

Definition read_coverage `{Collation} (failure : option exn) (now : Z) (xs : list execution) (txs : list cash) : res coverage :=
  rows ← run_coverage_sql failure now xs txs;
  let '(accounts, gaps) := foldl collect_row ([], []) rows in
  Ok (mkCoverage (merge_sort String.le accounts) gaps).

Definition gap_months_by_account (c : coverage) : gmap string Z :=
  foldl (λ out g, <[g_account g := default 0 (out !! g_account g) + 1]> out)
    (foldl (λ out a, <[a := 0]> out) ∅ (c_accounts c)) (c_gaps c).

(** One entry of [checks]. *)
Record check := mkCheck { ck_id : string; ck_ok : bool; ck_detail : string; ck_gaps : list gap }.

(** [by_acct.setdefault(a, []).append(month)]. *)
Definition gaps_by_account (gaps : list gap) : gmap string (list string) :=
  foldl (λ out g, <[g_account g := default [] (out !! g_account g) ++ [g_month g]]> out) ∅ gaps.

(** [sorted(d.items())] of a dict with text keys. *)
Definition item_le {A} (a b : string * A) : Prop := String.le a.1 b.1.
#[export] Instance item_le_dec {A} : RelDecision (@item_le A).
Proof. intros a b. unfold item_le. apply _. Defined.
Definition sorted_items {A} (d : gmap string A) : list (string * A) := merge_sort item_le (map_to_list d).

Definition gap_part (p : string * list string) : string := p.1 +:+ ": " +:+ join ", " p.2.

Definition coverage_check (c : option coverage) (error : option string) : check :=
  let err := default "" error in
  if decide (err ≠ "") then mkCheck "coverage" false ("Cash-ledger coverage unreadable: " +:+ err) []
  else
    let cov := default (mkCoverage [] []) c in
    let gaps := c_gaps cov in
    match gaps with
    | [] =>
        mkCheck "coverage" true
          ("Cash transactions present in every closed month with executions ("
           +:+ str_of_Z (Z.of_nat (length (c_accounts cov))) +:+ " account(s)).") []
    | _ =>
        mkCheck "coverage" false
          (str_of_Z (Z.of_nat (length gaps)) +:+ " account-month(s) have executions but no cash transactions — "
           +:+ join "; " (gap_part <$> sorted_items (gaps_by_account gaps))
           +:+ ". Backfill with a flex-transactions job whose payload sets from_date/to_date.") gaps
    end.

(** ** What the query finds *)

(** [a] has an execution dated in the month [m], which is over. *)
Definition traded_in (now : Z) (xs : list execution) (a : string) (m : Z) : Prop :=
  ∃ x d, x ∈ xs ∧ x_account x = Some a ∧ x_trade_date x = Some d ∧ month_start d = m ∧ d < month_start (date_of now).

(** [a] has a cash row in the month [m]. *)
Definition cash_in (txs : list cash) (a : string) (m : Z) : Prop :=
  ∃ c, c ∈ txs ∧ t_account c = Some a ∧ month_start (date_of (t_ts c)) = m.

(** How many executions of closed months [a] has in the month [m]. *)
Definition executions_in (now : Z) (xs : list execution) (a : string) (m : Z) : Z :=
  Z.of_nat (length (filter (λ x, closed_trade now x = Some (a, m)) xs)).

Lemma closed_trade_spec now x a m :
  closed_trade now x = Some (a, m) ↔
  ∃ d, x_account x = Some a ∧ x_trade_date x = Some d ∧ month_start d = m ∧ d < month_start (date_of now).
Proof.
  unfold closed_trade. destruct (x_account x) as [a'|], (x_trade_date x) as [d|];
    [|split; [done|]; intros (? & ? & ? & ?); done..].
  destruct (d <? month_start (date_of now)) eqn:E; bool_hyps.
  - split; [intros [= -> <-]; by exists d|]. by intros (d' & [= ->] & [= ->] & -> & _).
  - split; [done|]. intros (d' & _ & [= ->] & _ & ?). lia.
Qed.

Lemma traded_keys now xs a m : (a, m) ∈ omap (closed_trade now) xs ↔ traded_in now xs a m.
Proof.
  rewrite list_elem_of_omap. unfold traded_in. split.
  - intros (x & Hx & (d & Hd)%closed_trade_spec). exists x, d. tauto.
  - intros (x & d & Hx & Hd). exists x. split; [done|]. apply closed_trade_spec. by exists d.
Qed.

Lemma cash_months_spec txs a m : (a, m) ∈ cash_months txs ↔ cash_in txs a m.
Proof.
  unfold cash_months, cash_in. rewrite list_elem_of_omap. split.
  - intros (c & Hc & Hs). exists c. destruct (t_account c); simplify_eq/=. done.
  - intros (c & Hc & Ha & <-). exists c. by rewrite Ha.
Qed.

(** Counting what a partial map yields. *)
Lemma length_filter_omap {A B} `{EqDecision B} (f : A → option B) (b : B) (l : list A) :
  length (filter (b =.) (omap f l)) = length (filter (λ x, f x = Some b) l).
Proof.
  induction l as [|x l IH]; [done|]. cbn [omap list_omap]. rewrite (filter_cons (λ x, f x = Some b)).
  destruct (f x) as [y|] eqn:E.
  - rewrite filter_cons. repeat case_decide; cbn; naive_solver congruence.
  - rewrite decide_False by done. done.
Qed.

Lemma traded_months_spec now xs :
  ∃ pairs, NoDup pairs ∧ (∀ a m, (a, m) ∈ pairs ↔ traded_in now xs a m)
    ∧ traded_months now xs = (λ k, (k, executions_in now xs k.1 k.2)) <$> pairs.
Proof.
  exists (remove_dups (omap (closed_trade now) xs)). split_and!.
  - apply NoDup_remove_dups.
  - intros a m. rewrite elem_of_remove_dups. apply traded_keys.
  - unfold traded_months. apply list_fmap_ext. intros i [a m] _. unfold executions_in. cbn.
    by rewrite length_filter_omap.
Qed.

(** ** The loop over the rows *)

Lemma add_account_elem accounts a b : b ∈ add_account accounts a ↔ b ∈ accounts ∨ b = a.
Proof.
  unfold add_account. case_decide; [naive_solver|]. by rewrite elem_of_app, list_elem_of_singleton.
Qed.

Lemma add_account_NoDup accounts a : NoDup accounts → NoDup (add_account accounts a).
Proof.
  unfold add_account. case_decide; [done|]. intros. apply NoDup_app. split_and!; [done| |apply NoDup_singleton].
  intros x Hx ->%list_elem_of_singleton. done.
Qed.

Definition row_gap (r : coverage_row) : gap := mkGap (cr_account r) (month_label (cr_month r)) (cr_executions r).

Lemma collect_rows_spec rows accounts gaps :
  NoDup accounts →
  let '(accounts', gaps') := foldl collect_row (accounts, gaps) rows in
  NoDup accounts' ∧ (∀ a, a ∈ accounts' ↔ a ∈ accounts ∨ ∃ r, r ∈ rows ∧ cr_account r = a)
  ∧ gaps' = gaps ++ (row_gap <$> filter (λ r, cr_gap r = true) rows).
Proof.
  revert accounts gaps. induction rows as [|r rows IH]; intros accounts gaps Hnd; cbn [foldl].
  - split_and!; [done| |by rewrite app_nil_r]. intros a. split; [by left|]. intros [?|(? & ?%not_elem_of_nil & _)]; done.
  - unfold collect_row at 2. cbn [fst snd].
    specialize (IH (add_account accounts (cr_account r))
      (if cr_gap r then gaps ++ [row_gap r] else gaps) (add_account_NoDup _ _ Hnd)).
    unfold row_gap at 1 in IH. destruct (foldl _ _ rows) as [accounts' gaps'].
    destruct IH as (Hnd' & Hin & ->). split_and!; [done| |].
    + intros a. rewrite Hin, add_account_elem. setoid_rewrite elem_of_cons. naive_solver.
    + rewrite filter_cons. destruct (cr_gap r) eqn:E.
      * rewrite decide_True by done. rewrite fmap_cons. by rewrite <-app_assoc.
      * rewrite decide_False by done. done.
Qed.

(** An account-month the check has to name. *)
Definition uncovered (now : Z) (xs : list execution) (txs : list cash) (a : string) (m : Z) : Prop :=
  traded_in now xs a m ∧ ¬ cash_in txs a m.

Section theorems.
Context `{Collation}.

(** The rows, in the order the database gives them. *)
Lemma coverage_rows_spec now xs txs :
  ∃ pairs, NoDup pairs ∧ (∀ a m, (a, m) ∈ pairs ↔ traded_in now xs a m)
    ∧ coverage_rows now xs txs
      ≡ₚ (λ k, mkCoverageRow k.1 k.2 (executions_in now xs k.1 k.2) (bool_decide (k ∉ cash_months txs))) <$> pairs.
Proof.
  destruct (traded_months_spec now xs) as (pairs & Hnd & Hin & Heq). exists pairs. split_and!; [done..|].
  unfold coverage_rows. rewrite merge_sort_Permutation, Heq, <-list_fmap_compose. apply reflexive_eq.
  apply list_fmap_ext. by intros i [a m] _.
Qed.

Lemma read_coverage_inv failure now xs txs c :
  read_coverage failure now xs txs = Ok c →
  ∃ pairs rows, NoDup pairs ∧ (∀ a m, (a, m) ∈ pairs ↔ traded_in now xs a m)
    ∧ rows ≡ₚ (λ k, mkCoverageRow k.1 k.2 (executions_in now xs k.1 k.2) (bool_decide (k ∉ cash_months txs))) <$> pairs
    ∧ NoDup (c_accounts c) ∧ (∀ a, a ∈ c_accounts c ↔ ∃ r, r ∈ rows ∧ cr_account r = a)
    ∧ StronglySorted String.le (c_accounts c)
    ∧ c_gaps c = row_gap <$> filter (λ r, cr_gap r = true) rows.
Proof.
  unfold read_coverage, run_coverage_sql. destruct failure; [done|]. case_decide as Hfit; [|done]. cbn [mbind res_bind].
  destruct (coverage_rows_spec now xs txs) as (pairs & Hnd & Hin & Hperm).
  pose proof (collect_rows_spec (coverage_rows now xs txs) [] [] ltac:(constructor)) as Hrows.
  destruct (foldl collect_row _ _) as [accounts gaps]. destruct Hrows as (Hnda & Hina & ->). intros [= <-].
  exists pairs, (coverage_rows now xs txs). cbn [c_accounts c_gaps]. split_and!; try done.
  - by rewrite merge_sort_Permutation.
  - intros a. rewrite merge_sort_Permutation, Hina. split; [|by right]. by intros [?%not_elem_of_nil|].
  - apply StronglySorted_merge_sort; apply _.
Qed.

(** C32. The gaps [read_coverage] returns are exactly the account-months that are over, have
    executions and have no cash row, each of them once and with its number of executions;
    the accounts are exactly those with an execution in a closed month, sorted and
    without repetition. *)
Theorem read_coverage_spec failure now xs txs c :
  read_coverage failure now xs txs = Ok c →
  (∃ pairs, NoDup pairs ∧ (∀ a m, (a, m) ∈ pairs ↔ uncovered now xs txs a m)
     ∧ c_gaps c ≡ₚ (λ k, mkGap k.1 (month_label k.2) (executions_in now xs k.1 k.2)) <$> pairs)
  ∧ (∀ a, a ∈ c_accounts c ↔ ∃ m, traded_in now xs a m)
  ∧ NoDup (c_accounts c) ∧ StronglySorted String.le (c_accounts c).
Proof.
  intros (pairs & rows & Hnd & Hin & Hperm & Hnda & Hina & Hsort & Hgaps)%read_coverage_inv.
  split_and!; [|intros a|done..].
  - exists (filter (λ k, k ∉ cash_months txs) pairs). split_and!.
    + by apply NoDup_filter.
    + intros a m. rewrite list_elem_of_filter, Hin, cash_months_spec. unfold uncovered. tauto.
    + rewrite Hgaps, Hperm. clear. apply reflexive_eq. induction pairs as [|k pairs IH]; [done|].
      rewrite fmap_cons, !filter_cons. cbn [cr_gap].
      case_bool_decide; repeat case_decide; try done. by rewrite !fmap_cons, IH.
  - rewrite Hina. setoid_rewrite Hperm. setoid_rewrite list_elem_of_fmap. split.
    + intros (r & ([a' m] & -> & Hk%Hin) & <-). by exists m.
    + intros (m & Hm%Hin). eexists. split; [by exists (a, m)|done].
Qed.

Lemma coverage_check_gaps c : ck_ok (coverage_check (Some c) None) = true ↔ c_gaps c = [].
Proof. unfold coverage_check. cbn. by destruct (c_gaps c). Qed.

Lemma covered_iff failure now xs txs c :
  read_coverage failure now xs txs = Ok c →
  ck_ok (coverage_check (Some c) None) = true ↔ ∀ a m, traded_in now xs a m → cash_in txs a m.
Proof.
  intros (pairs & rows & Hnd & Hin & Hperm & _ & _ & _ & Hgaps)%read_coverage_inv.
  rewrite coverage_check_gaps, Hgaps. split.
  + intros Hnil%fmap_nil_inv a m Hm%Hin. apply cash_months_spec.
    destruct (decide ((a, m) ∈ cash_months txs)) as [|Hno]; [done|].
    assert (mkCoverageRow a m (executions_in now xs a m) (bool_decide ((a, m) ∉ cash_months txs))
              ∈ filter (λ r, cr_gap r = true) rows) as Hr; [|rewrite Hnil in Hr; by apply not_elem_of_nil in Hr].
    apply list_elem_of_filter. cbn. split; [by apply bool_decide_eq_true|].
    rewrite Hperm. apply list_elem_of_fmap. by exists (a, m).
  + intros Hall. destruct (filter _ rows) as [|r l] eqn:E; [done|]. exfalso.
    assert (r ∈ filter (λ r, cr_gap r = true) rows) as [Hr Hin']%list_elem_of_filter by (rewrite E; by left).
    rewrite Hperm in Hin'. apply list_elem_of_fmap in Hin' as ([a m] & -> & Hk%Hin%Hall%cash_months_spec).
    cbn in Hr. by case_bool_decide.
Qed.

(** The self-check's coverage entry passes exactly when every account with an execution
    in a month that is over also has a cash row in that month; when it fails it carries
    the gaps. *)
Theorem coverage_check_spec failure now xs txs c :
  read_coverage failure now xs txs = Ok c →
  (ck_ok (coverage_check (Some c) None) = true ↔ ∀ a m, traded_in now xs a m → cash_in txs a m)
  ∧ ck_gaps (coverage_check (Some c) None) = c_gaps c.
Proof.
  intros Hread. split; [by eapply covered_iff|]. unfold coverage_check. cbn. by destruct (c_gaps c).
Qed.
End theorems.

(** ** The count per account *)

Lemma zero_accounts_lookup accounts (out : gmap string Z) a :
  foldl (λ out a, <[a := 0]> out) out accounts !! a = if decide (a ∈ accounts) then Some 0 else out !! a.
Proof.
  revert out. induction accounts as [|b accounts IH]; intros out; cbn [foldl]; [done|]. rewrite IH.
  pose proof (elem_of_cons accounts a b). destruct (decide (a ∈ accounts)) as [Hin|Hno].
  - by rewrite decide_True by tauto.
  - destruct (decide (a = b)) as [->|Hne]; [by rewrite decide_True, lookup_insert_eq by tauto|].
    by rewrite decide_False, lookup_insert_ne by (tauto || congruence).
Qed.

(** What a loop over the gaps leaves at an account. *)
Definition account_gaps (a : string) (gaps : list gap) : list gap := filter (λ g, g_account g = a) gaps.

Lemma count_gaps_lookup gaps (out : gmap string Z) a :
  foldl (λ out g, <[g_account g := default 0 (out !! g_account g) + 1]> out) out gaps !! a
  = match account_gaps a gaps with
    | [] => out !! a
    | gs => Some (default 0 (out !! a) + Z.of_nat (length gs))
    end.
Proof.
  revert out. induction gaps as [|g gaps IH]; intros out; cbn [foldl]; [done|]. rewrite IH. unfold account_gaps.
  rewrite (filter_cons _ g). destruct (decide (g_account g = a)) as [<-|Hne].
  - rewrite lookup_insert_eq. destruct (filter _ gaps); cbn; f_equal; lia.
  - by rewrite lookup_insert_ne.
Qed.

(** The metric has a value for exactly the accounts the coverage names, and the value is
    the number of the account's gaps (zero for an account that is covered). *)
Theorem gap_months_by_account_spec c a :
  gap_months_by_account c !! a
  = if decide (a ∈ c_accounts c ∨ account_gaps a (c_gaps c) ≠ [])
    then Some (Z.of_nat (length (account_gaps a (c_gaps c)))) else None.
Proof.
  unfold gap_months_by_account. rewrite count_gaps_lookup, zero_accounts_lookup, lookup_empty.
  destruct (account_gaps a (c_gaps c)); repeat case_decide; naive_solver.
Qed.

(** ** A ledger with one uncovered month *)

(** 4 September 2026: executions in July and August, cash rows in August only. *)
Definition september : Z := 20700 * day_usec.
Definition july_trades : list execution :=
  [mkExecution (Some "U1") (Some 20650) None; mkExecution (Some "U1") (Some 20651) None;
   mkExecution (Some "U1") (Some 20680) None; mkExecution None (Some 20650) None; mkExecution (Some "U2") (Some 20700) None].
Definition august_cash : list cash := [mkCash (Some "U1") (20681 * day_usec)].
Definition july_gap : coverage := mkCoverage ["U1"] [mkGap "U1" "2026-07" 2].

Lemma july_coverage : @read_coverage sample_collation None september july_trades august_cash = Ok july_gap.
Proof. vm_compute. reflexivity. Qed.

Lemma read_coverage_spec_witness :
  (∃ pairs, NoDup pairs ∧ (∀ a m, (a, m) ∈ pairs ↔ uncovered september july_trades august_cash a m)
     ∧ [mkGap "U1" "2026-07" 2]
       ≡ₚ (λ k, mkGap k.1 (month_label k.2) (executions_in september july_trades k.1 k.2)) <$> pairs)
  ∧ ∀ a, a ∈ ["U1"] ↔ ∃ m, traded_in september july_trades a m.
Proof.
  destruct (@read_coverage_spec sample_collation None september july_trades august_cash july_gap july_coverage)
    as (H1 & H2 & _). split; [exact H1|exact H2].
Defined.

Lemma coverage_check_spec_witness :
  ¬ (∀ a m, traded_in september july_trades a m → cash_in august_cash a m).
Proof.
  destruct (@coverage_check_spec sample_collation None september july_trades august_cash july_gap july_coverage)
    as [[_ H] _].
  intros Hall. specialize (H Hall). discriminate H.
Defined.
