(* ===== verification/Transactions.v ===== *)
(** * Cash transactions ([orchestration/transactions.py])

    The window a run asks for, its split into requests IB accepts, the loop over
    credentials and chunks, and the summary the handler judges. *)
From Stdlib Require Import Ascii.
From S2P Require Import Prelude Pytext PyVal Pytime Ddl FlexClient Handlers ConfigRw Ingest Retry.

Definition CHUNK_MAX_SPAN_DAYS : Z := MAX_FLEX_DAYS - 2.

(** ** The last stored days *)

(** [max(t.ts) ... GROUP BY t.account_id]. *)
Definition last_ts (rows : list cash) : gmap string Z :=
  foldr (λ r m, match t_account r with
                | Some a => <[a := from_option (Z.max (t_ts r)) (t_ts r) (m !! a)]> m
                | None => m
                end) ∅ rows.

(** The [WHERE] clause: accounts with Flex executions, or all of them when there are none. *)
Definition counted (executions : list execution) (r : cash) : Prop :=
  executions = [] ∨ (is_Some (t_account r) ∧ t_account r ∈ x_account <$> executions).
#[export] Instance counted_dec xs r : Decision (counted xs r).
Proof. unfold counted. destruct xs as [|x xs]; apply _. Defined.

Section window.
Context `{ZoneDb} (session_tz : option string).

(** [_as_date] of what psycopg2 returns: a time in the zone of the session. *)
Definition as_date (ts : Z) : Z := date_of (to_wall session_tz ts).

Definition read_last_transaction_dates (w : world) : gmap string Z :=
  filter (λ kv, kv.1 ≠ "") (as_date <$> last_ts (filter (counted (w_executions w)) (w_transactions w))).
End window.

(** ** The window *)

(** [min(last_dates.values())]; [None] when there is none. *)
Definition min_date (last_dates : gmap string Z) : option Z :=
  match (map_to_list last_dates).*2 with [] => None | d :: ds => Some (foldr Z.min d ds) end.

(** (from, to, mode, days). *)
Definition transactions_window (last_dates : gmap string Z) (default_days init_days today : Z)
    : res (Z * Z * string * Z) :=
  yesterday ← days_before today 1;
  match min_date last_dates with
  | None =>
      start ← days_before yesterday (Z.max 1 init_days);
      Ok (start, yesterday, "init", yesterday - start)
  | Some catch_up =>
      recent ← days_before yesterday (Z.max 1 default_days);
      let start := Z.min catch_up recent in
      Ok (start, yesterday, "incremental", yesterday - start)
  end.

(** The loop of [split_window]; [fuel] bounds its rounds. *)
Fixpoint split_loop (fuel : nat) (cur stop max_span_days : Z) : res (list (Z * Z)) :=
  match fuel with
  | O => Ok []
  | S fuel' =>
      if cur <=? stop then
        reach ← date_add cur max_span_days;
        let chunk_end := Z.min stop reach in
        next ← date_add chunk_end 1;
        (cons (cur, chunk_end)) <$> split_loop fuel' next stop max_span_days
      else Ok []
  end.

Definition split_window (start stop max_span_days : Z) : res (list (Z * Z)) :=
  if stop <? start then Ok [(start, stop)]
  else split_loop (Z.to_nat (stop - start + 2)) start stop max_span_days.

(** [_parse_yyyymmdd]. *)
Definition parse_yyyymmdd (s : string) : option Z :=
  match strptime F_YMD (utake 8 (strip s)) with Ok w => Some (date_of w) | Raise _ => None end.

(** The requests of one credential: the window in chunks, or as it was given. *)
Definition chunks_of (from_date to_date : option string) : res (list (option string * option string)) :=
  match from_date, to_date with
  | Some f, Some t =>
      match parse_yyyymmdd f, parse_yyyymmdd t with
      | Some fd, Some td =>
          (λ l : list (Z * Z), (λ '(a, b), (Some (strftime_ymd a), Some (strftime_ymd b))) <$> l) <$> split_window fd td CHUNK_MAX_SPAN_DAYS
      | _, _ => Ok [(from_date, to_date)]
      end
  | _, _ => Ok [(from_date, to_date)]
  end.

(** ** The run *)

Definition no_cash_credentials : string :=
  "No Flex credentials for cash_transactions: set FLEX_HOST_TOKEN / FLEX_SECONDARY_TOKEN (K8s Secret bifrost-flex-tokens) and purpose=cash_transactions query_id rows (Settings → IB Connection → Flex Query IDs, or Ops Console Flex Plugin).".

(** The credentials that count: [(token, query id)]. *)
Definition usable (flex_list : list entry) : list (string * string) :=
  filter (λ tq, tq.1 ≠ "" ∧ tq.2 ≠ "") ((λ a, (strip (e_token a), strip (e_query_id a))) <$> flex_list).

Notation work_item := (string * string * (option string * option string))%type.

(** Every chunk for every credential. *)
Definition work_list (entries : list (string * string)) (chunks : list (option string * option string)) : list work_item :=
  tq ← entries; (λ c, (tq.1, tq.2, c)) <$> chunks.

Section run.
Context `{Reports, CoreWriters, RunContext, ZoneDb}.
Context (session_tz : option string) (ready : bool) (e : env) (g : golden) (today : Z).

(** [_fetch_chunk]: the rows added to the sink, or the error text. *)
Definition fetch_chunk (token query_id : string) (from_date to_date : option string) (allow_fallback : bool)
    : prog (list row + string) :=
  pcatch is_value_error (rows ← fetch_cash (mkRequest token query_id from_date to_date None); mret (inl rows))
    (λ ex,
      if allow_fallback && given_text from_date && given_text to_date && statement_unavailable ex
      then pcatch is_value_error (rows ← fetch_cash (mkRequest token query_id None None None); mret (inl rows))
             (λ e2, mret (inr (exn_str ex +:+ "; fallback query-default failed: " +:+ exn_str e2)))
      else mret (inr (exn_str ex))).

(** The two nested loops: all requests of a run, in order. *)
Definition show_date (d : option string) : string := default "None" d.
Fixpoint fetch_all (single allow_fallback : bool)
    (work : list work_item) : prog (list row * list string) :=
  match work with
  | [] => mret ([], [])
  | (token, query_id, (c_from, c_to)) :: rest =>
      got ← fetch_chunk token query_id c_from c_to (allow_fallback && single);
      '(rows, errors) ← fetch_all single allow_fallback rest;
      mret match got with
           | inl new => (new ++ rows, errors)
           | inr err =>
               (rows, (if decide (err = "") then []
                       else [if single then err else show_date c_from +:+ ".." +:+ show_date c_to +:+ ": " +:+ err])
                      ++ errors)
           end
  end.

(** [_scheduled_window]. *)
Definition scheduled_window : prog (Z * Z * string * Z) :=
  '(default_days, init_days) ← read ReadRange (λ _, get_flex_range_days g);
  last_dates ← read ReadLast (read_last_transaction_dates session_tz);
  lift (transactions_window last_dates default_days init_days today).

Definition plural (n : Z) (before after : string) : string := before +:+ str_of_Z n +:+ after.

(** What the run reports once every request is made. *)
Definition report (entries : list (string * string)) (from_date to_date : option string) (extra : pydict) (n_chunks : Z)
    (all_rows : list row) (errors : list string) : prog pydict :=
  let window := [("by_account", PInt (Z.of_nat (length entries))); ("range_from", opt_str from_date);
                 ("range_to", opt_str to_date)] in
  match all_rows, errors with
  | [], _ :: _ => mret (failed_summary (join "; " errors))
  | [], [] =>
      mret ([("ok", PBool true); ("count", PInt 0); ("message", PStr "No cash transactions in report.");
             ("errors", PList (PStr <$> errors))] ++ window ++ extra)
  | _, _ =>
      '(written, skipped) ← upsert_cash all_rows;
      if written =? 0 then
        let detail := plural (Z.of_nat (length all_rows)) "Parsed " " cash transaction(s) but wrote 0" +:+
                      (if skipped =? 0 then "" else plural skipped " (" " skipped)") in
        mret ([("ok", PBool false); ("error", PStr (detail +:+ ".")); ("count", PInt 0); ("skipped", PInt skipped)]
              ++ window ++ extra)
      else
        let msg := plural written "Upserted " " transaction(s) from "
                   +:+ plural (Z.of_nat (length entries)) "" " Flex account(s)."
                   +:+ (if skipped =? 0 then "" else plural skipped " Skipped " " row(s).")
                   +:+ (if 1 <? n_chunks
                        then " Window " +:+ show_date from_date +:+ ".." +:+ show_date to_date
                             +:+ plural n_chunks " in " " requests per account."
                        else "")
                   +:+ (match errors with [] => "" | _ => " Partial errors: " +:+ join "; " errors end) in
        mret ([("ok", PBool true); ("count", PInt written); ("skipped", PInt skipped); ("message", PStr msg);
               ("errors", PList (PStr <$> errors))] ++ window ++ extra)
  end.

Definition run_body (body : pydict) : prog pydict :=
  if negb ready then mret (failed_summary "Postgres config required to write account_transactions.")
  else
    _ ← read OpenGolden (λ _, ());
    flex_list ← read ReadConfig (λ _, get_flex_config_purpose e g "cash_transactions");
    match usable flex_list with
    | [] => mret (failed_summary no_cash_credentials)
    | entries =>
        from0 ← lift (date_arg "from_date" body);
        to0 ← lift (date_arg "to_date" body);
        let allow_fallback := fallback_arg body in
        '(from_date, to_date, range_mode, range_days) ←
          match from0, to0 with
          | None, None =>
              '(start, stop, mode, days) ← scheduled_window;
              mret (Some (strftime_ymd start), Some (strftime_ymd stop), mode, Some days)
          | _, _ => mret (from0, to0, "manual", None)
          end;
        chunks ← lift (chunks_of from_date to_date);
        let n_chunks := Z.of_nat (length chunks) in
        '(all_rows, errors) ← fetch_all (n_chunks =? 1) allow_fallback (work_list entries chunks);
        report entries from_date to_date
          [("range_mode", PStr range_mode); ("range_days", opt_int range_days); ("range_chunks", PInt n_chunks)]
          n_chunks all_rows errors
    end.

(** [fetch_cash_transactions_from_flex]. *)
Definition fetch_cash_transactions_from_flex (body : pydict) : prog pydict :=
  pcatch (λ _, true) (run_body body) (λ ex, mret (failed_summary (exn_str ex))).
End run.

(** ** The split *)

(** The chunks follow each other from [start] to [stop], none longer than [span]. *)
Fixpoint tiles (span start stop : Z) (l : list (Z * Z)) : Prop :=
  match l with
  | [] => stop < start
  | (a, b) :: rest => a = start ∧ a ≤ b ≤ stop ∧ b - a ≤ span ∧ (rest ≠ [] → b - a = span) ∧ tiles span (b + 1) stop rest
  end.

Lemma date_add_ok d n : MIN_DATE ≤ d + n ≤ MAX_DATE → date_add d n = Ok (d + n).
Proof. intros Hd. unfold date_add, date_ok. by rewrite (proj2 (andb_true_iff _ _)) by lia. Qed.

Lemma split_loop_tiles fuel cur stop span :
  0 ≤ span → MIN_DATE ≤ cur → stop + span + 1 ≤ MAX_DATE → Z.of_nat fuel > stop - cur + 1 → 
  ∃ l, split_loop fuel cur stop span = Ok l ∧ tiles span cur stop l.
Proof.
  intros Hs. revert cur. induction fuel as [|fuel IH]; intros cur Hc Hm Hf; cbn [split_loop].
  - exists []. split; [done|]. cbn. lia.
  - destruct (cur <=? stop) eqn:Hle; bool_hyps; [|by exists []].
    rewrite date_add_ok by lia. cbn [mbind res_bind]. rewrite date_add_ok by lia. cbn [mbind res_bind].
    destruct (IH (Z.min stop (cur + span) + 1)) as (l & Hl & Ht); [lia..|].
    exists ((cur, Z.min stop (cur + span)) :: l). rewrite Hl. split; [done|]. cbn. split_and!; try lia; [|done].
    intros Hne. destruct (decide (stop ≤ cur + span)) as [Hcase|]; [|lia].
    destruct l as [|[a b] l]; [done|]. cbn in Ht. lia.
Qed.

Lemma tiles_cover span start stop l : tiles span start stop l →
  ∀ d, start ≤ d ≤ stop ↔ ∃ c, c ∈ l ∧ c.1 ≤ d ≤ c.2.
Proof.
  revert start. induction l as [|[a b] l IH]; cbn; intros start Ht d.
  - split; [lia|]. intros (c & Hc & _). set_solver.
  - destruct Ht as (-> & Hab & _ & _ & Ht). split.
    + intros Hd. destruct (decide (d ≤ b)).
      * exists (start, b). split; [set_solver|cbn; lia].
      * specialize (IH _ Ht). destruct (proj1 (IH d)) as (c & Hc & Hdc); [lia|]. exists c. split; [set_solver|done].
    + intros (c & [->|Hc]%elem_of_cons & Hdc); cbn in *; [lia|].
      pose proof (proj2 (IH _ Ht d)) as Hd. ospecialize (Hd _); [by exists c|]. lia.
Qed.

Lemma tiles_elem span start stop l c : tiles span start stop l → c ∈ l →
  start ≤ c.1 ≤ c.2 ∧ c.2 ≤ stop ∧ c.2 - c.1 ≤ span.
Proof.
  revert start. induction l as [|[a b] l IH]; cbn; intros start Ht; [set_solver|].
  destruct Ht as (-> & ? & ? & _ & Ht). intros [->|Hc]%elem_of_cons; [cbn; lia|].
  apply IH in Ht; [lia|done].
Qed.

Lemma tiles_next span start stop l i c c' : tiles span start stop l →
  l !! i = Some c → l !! S i = Some c' → c'.1 = c.2 + 1.
Proof.
  revert start i. induction l as [|[a b] l IH]; cbn; intros start i Ht; [done|].
  destruct Ht as (-> & _ & _ & _ & Ht). destruct i as [|i]; cbn.
  - intros [= <-] Hc. destruct l as [|[a' b'] l]; [done|]. cbn in *. naive_solver.
  - by eapply IH.
Qed.

Lemma tiles_length span start stop l : 0 ≤ span → start ≤ stop → tiles span start stop l →
  Z.of_nat (length l) = (stop - start) / (span + 1) + 1.
Proof.
  intros Hs. revert start. induction l as [|[a b] l IH]; cbn [tiles length]; intros start Hle Ht; [lia|].
  destruct Ht as (-> & Hb & Hspan & Hfull & Ht). destruct l as [|c l].
  - cbn in Ht. rewrite Z.div_small by lia. done.
  - rewrite Nat2Z.inj_succ, (IH (b + 1)); [|by destruct c; cbn in Ht; lia|done].
    specialize (Hfull ltac:(done)).
    replace (stop - start) with (stop - (b + 1) + 1 * (span + 1)) by lia. rewrite Z.div_add by lia. lia.
Qed.

Lemma split_window_tiles start stop span :
  0 ≤ span → MIN_DATE ≤ start ≤ stop → stop + span + 1 ≤ MAX_DATE →
  ∃ l, split_window start stop span = Ok l ∧ tiles span start stop l.
Proof.
  intros Hs Hle Hm. unfold split_window. replace (stop <? start) with false by lia.
  apply split_loop_tiles; lia.
Qed.

(** ** The window and the last stored days *)

Lemma last_ts_spec rows a :
  match last_ts rows !! a with
  | Some t => (∃ r, r ∈ rows ∧ t_account r = Some a ∧ t_ts r = t)
              ∧ ∀ r, r ∈ rows → t_account r = Some a → t_ts r ≤ t
  | None => ∀ r, r ∈ rows → t_account r ≠ Some a
  end.
Proof.
  induction rows as [|r rows IH]; cbn [last_ts foldr].
  - rewrite lookup_empty. set_solver.
  - fold (last_ts rows). destruct (t_account r) as [b|] eqn:Hb.
    + destruct (decide (b = a)) as [->|Hne].
      * rewrite lookup_insert_eq. destruct (last_ts rows !! a) as [t|]; cbn [from_option].
        -- destruct IH as [(r' & Hr' & Ha & <-) Hmax]. split.
           ++ destruct (Z.max_spec (t_ts r) (t_ts r')) as [[_ ->]|[_ ->]]; [exists r'|exists r]; set_solver.
           ++ intros r0 [->|H0]%elem_of_cons Ha0; [lia|]. specialize (Hmax _ H0 Ha0). lia.
        -- split; [exists r; set_solver|]. intros r0 [->|H0]%elem_of_cons Ha0; [lia|]. by destruct (IH _ H0).
      * rewrite lookup_insert_ne by done. destruct (last_ts rows !! a) as [t|].
        -- destruct IH as [(r' & Hr' & ?) Hmax]. split; [exists r'; set_solver|].
           intros r0 [->|H0]%elem_of_cons Ha0; [congruence|by apply Hmax].
        -- intros r0 [->|H0]%elem_of_cons; [congruence|by apply IH].
    + destruct (last_ts rows !! a) as [t|].
      * destruct IH as [(r' & Hr' & ?) Hmax]. split; [exists r'; set_solver|].
        intros r0 [->|H0]%elem_of_cons Ha0; [congruence|by apply Hmax].
      * intros r0 [->|H0]%elem_of_cons; [congruence|by apply IH].
Qed.

Lemma foldr_min_spec d ds :
  foldr Z.min d ds ∈ d :: ds ∧ ∀ x, x ∈ d :: ds → foldr Z.min d ds ≤ x.
Proof.
  induction ds as [|y ds [IH1 IH2]]; cbn [foldr].
  - split; [set_solver|]. intros x Hx. apply list_elem_of_singleton in Hx. lia.
  - split.
    + destruct (Z.min_spec y (foldr Z.min d ds)) as [[_ ->]|[_ ->]]; set_solver.
    + intros x Hx. rewrite !elem_of_cons in Hx. destruct Hx as [->|[->|Hx]]; [|lia|].
      * pose proof (IH2 d ltac:(set_solver)). lia.
      * pose proof (IH2 x ltac:(set_solver)). lia.
Qed.

Lemma min_date_spec (m : gmap string Z) :
  match min_date m with
  | None => m = ∅
  | Some d => (∃ a, m !! a = Some d) ∧ ∀ a d', m !! a = Some d' → d ≤ d'
  end.
Proof.
  unfold min_date. destruct ((map_to_list m).*2) as [|d ds] eqn:E.
  - apply fmap_nil_inv in E. by apply map_to_list_empty_iff.
  - destruct (foldr_min_spec d ds) as [Hin Hle]. rewrite <-E in Hin, Hle. split.
    + apply list_elem_of_fmap in Hin as ([a d'] & -> & Ha). exists a. by apply elem_of_map_to_list.
    + intros a d' Ha%elem_of_map_to_list. apply Hle. apply list_elem_of_fmap. by exists (a, d').
Qed.

(** The last row of an account, among the rows that count. *)
Definition last_row (w : world) (a : string) (r : cash) : Prop :=
  let rows := filter (counted (w_executions w)) (w_transactions w) in
  a ≠ "" ∧ r ∈ rows ∧ t_account r = Some a ∧ ∀ r', r' ∈ rows → t_account r' = Some a → t_ts r' ≤ t_ts r.

Lemma read_last_spec `{ZoneDb} tz w a d :
  read_last_transaction_dates tz w !! a = Some d ↔ ∃ r, last_row w a r ∧ d = as_date tz (t_ts r).
Proof.
  unfold read_last_transaction_dates, last_row. cbn zeta. set (rows := filter (counted _) _).
  pose proof (last_ts_spec rows a) as Hl. rewrite map_lookup_filter_Some, lookup_fmap, fmap_Some. cbn [fst]. split.
  - intros [(t & Ht & ->) Hne]. rewrite Ht in Hl. destruct Hl as [(r & Hr & Ha & <-) Hmax]. by exists r.
  - intros (r & (Hne & Hr & Ha & Hmax) & ->). split; [|done]. destruct (last_ts rows !! a) as [t|] eqn:Ht.
    + exists t. split; [done|]. destruct Hl as [(r' & Hr' & Ha' & <-) Hmax']. f_equal.
      specialize (Hmax _ Hr' Ha'). specialize (Hmax' _ Hr Ha). lia.
    + by destruct (Hl r).
Qed.

Lemma days_before_Ok d n x : days_before d n = Ok x → x = d - n ∧ date_ok x = true.
Proof.
  unfold days_before, date_add. case_match; [done|]. destruct (date_ok (d + - n)) eqn:Hd; [|done].
  intros [= <-]. split; [lia|done].
Qed.

Lemma ymd_strip d : date_ok d = true → strip (strftime_ymd d) = strftime_ymd d.
Proof. intros Hd. apply strip_space_free, digits_space_free. by apply ymd_text. Qed.

Lemma parse_yyyymmdd_strftime d : date_ok d = true → parse_yyyymmdd (strftime_ymd d) = Some d.
Proof.
  intros Hd. unfold parse_yyyymmdd. rewrite ymd_strip by done. rewrite (proj1 (ymd_text_utake d Hd)).
  rewrite strptime_strftime_ymd by done. by rewrite date_of_day.
Qed.

Lemma given_ymd d : date_ok d = true → given_text (Some (strftime_ymd d)) = true.
Proof. intros Hd. apply bool_decide_eq_true. intros E. destruct (ymd_text_utake d Hd) as [_ Hu]. by rewrite E in Hu. Qed.

Lemma request_params_dates token query_id a b :
  date_ok a = true → date_ok b = true → b - a ≤ MAX_FLEX_DAYS →
  request_params token query_id (Some (strftime_ymd a)) (Some (strftime_ymd b)) None
  = Ok (base_params token query_id ++ [("fd", strftime_ymd a); ("td", strftime_ymd b)]).
Proof.
  intros Ha Hb Hab. unfold request_params. rewrite !given_ymd by done. cbn [andb default from_option Datatypes.id]. rewrite !ymd_strip by done.
  rewrite (proj1 (ymd_text_utake a Ha)), (proj1 (ymd_text_utake b Hb)), !strptime_strftime_ymd by done.
  cbn [mbind res_bind]. replace ((b * day_usec - a * day_usec) / day_usec) with (b - a).
  - replace (MAX_FLEX_DAYS <? b - a) with false by lia. done.
  - rewrite <-Z.mul_sub_distr_r, Z.div_mul; done.
Qed.

(** ** Theorems *)

(** C16. The window of a scheduled run ends yesterday and never leaves a hole: it reaches
    back to the last stored day of every account that counts, and at least the default
    days. It starts no earlier than that: at the default, or on the last stored day of
    some account; with nothing stored it is the initial window. *)
Theorem transactions_window_spec `{ZoneDb} tz w default_days init_days today start stop mode days :
  transactions_window (read_last_transaction_dates tz w) default_days init_days today = Ok (start, stop, mode, days) →
  stop = today - 1 ∧ days = stop - start ∧ 1 ≤ days
  ∧ (mode = "init" ↔ ∀ a r, ¬ last_row w a r)
  ∧ (mode = "init" → days = Z.max 1 init_days)
  ∧ (mode ≠ "init" → default_days ≤ days
       ∧ (∀ a r, last_row w a r → start ≤ as_date tz (t_ts r))
       ∧ (days = Z.max 1 default_days ∨ ∃ a r, last_row w a r ∧ start = as_date tz (t_ts r))).
Proof.
  unfold transactions_window. intros (y & [-> Hy]%days_before_Ok & Hk)%res_bind_ok.
  pose proof (min_date_spec (read_last_transaction_dates tz w)) as Hmin.
  destruct (min_date _) as [catch_up|].
  - apply res_bind_ok in Hk as (recent & [-> Hr]%days_before_Ok & Hk). simplify_eq.
    destruct Hmin as [(a & Ha) Hle]. apply read_last_spec in Ha as (r & Hr0 & ->).
    split_and!; try lia; [|done|].
    + split; [done|]. intros Hno. by destruct (Hno a r).
    + intros _. split_and!; [lia| |].
      * intros a' r' Hr'. specialize (Hle a' (as_date tz (t_ts r'))).
        rewrite read_last_spec in Hle. ospecialize (Hle _); [by exists r'|]. lia.
      * destruct (Z.min_spec (as_date tz (t_ts r)) (today - 1 - Z.max 1 default_days)) as [[_ ->]|[_ ->]];
          [right; by exists a, r|left; lia].
  - apply res_bind_ok in Hk as (recent & [-> Hr]%days_before_Ok & Hk). simplify_eq.
    split_and!; try lia; [|done]. split; [|done]. intros _ a r Hr0.
    assert (read_last_transaction_dates tz w !! a = Some (as_date tz (t_ts r))) as E by (apply read_last_spec; by exists r).
    by rewrite Hmin, lookup_empty in E.
Qed.

(** C15. A window is asked for in consecutive requests that cover every day of it exactly
    once, as few as a span of 364 days allows, each of which the client sends to IB as
    it is and none of which it refuses. *)
Theorem chunks_of_spec start stop :
  days_of_ymd (mkYmd 1000 1 1) ≤ start ≤ stop → stop + CHUNK_MAX_SPAN_DAYS + 1 ≤ MAX_DATE →
  ∃ l, chunks_of (Some (strftime_ymd start)) (Some (strftime_ymd stop))
       = Ok ((λ c, (Some (strftime_ymd c.1), Some (strftime_ymd c.2))) <$> l)
    ∧ (∀ d, start ≤ d ≤ stop ↔ ∃ c, c ∈ l ∧ c.1 ≤ d ≤ c.2)
    ∧ (∀ i c c', l !! i = Some c → l !! S i = Some c' → c'.1 = c.2 + 1)
    ∧ Z.of_nat (length l) = (stop - start) / (CHUNK_MAX_SPAN_DAYS + 1) + 1
    ∧ ∀ c token query_id, c ∈ l →
        request_params token query_id (Some (strftime_ymd c.1)) (Some (strftime_ymd c.2)) None
        = Ok (base_params token query_id ++ [("fd", strftime_ymd c.1); ("td", strftime_ymd c.2)]).
Proof.
  intros Hs Hm. assert (MIN_DATE ≤ days_of_ymd (mkYmd 1000 1 1)) as H1000 by (by vm_compute).
  assert (∀ d, start ≤ d ≤ stop → date_ok d = true) as Hok.
  { intros d Hd. unfold date_ok. unfold CHUNK_MAX_SPAN_DAYS, MAX_FLEX_DAYS in Hm. lia. }
  destruct (split_window_tiles start stop CHUNK_MAX_SPAN_DAYS) as (l & Hl & Ht); [by vm_compute|lia|lia|].
  exists l. split_and!.
  - unfold chunks_of. rewrite !parse_yyyymmdd_strftime by (apply Hok; lia). rewrite Hl. cbn. f_equal.
    apply list_fmap_ext. by intros ? [].
  - by eapply tiles_cover.
  - intros i c c'. by eapply tiles_next.
  - apply tiles_length; [by vm_compute|lia|done].
  - intros c token query_id Hc. destruct (tiles_elem _ _ _ _ _ Ht Hc) as (? & ? & Hspan).
    apply request_params_dates; [apply Hok; lia..|]. unfold CHUNK_MAX_SPAN_DAYS in Hspan. lia.
Qed.

(** ** Complete runs *)

Definition item_request (i : work_item) : request := mkRequest i.1.1 i.1.2 i.2.1 i.2.2 None.
Definition default_request (i : work_item) : request := mkRequest i.1.1 i.1.2 None None None.

Section complete.
Context `{Reports}.

(** Every item got its report: its own, or the query's default one where that is
    allowed. Between the requests before and after, in order, and with all the rows. *)
Inductive fetched (fallback : bool) : list request → list work_item → list request → list row → Prop :=
| fetched_nil log : fetched fallback log [] log []
| fetched_own log item rest log' rows rows' :
    cash_report log (item_request item) = Ok rows →
    fetched fallback (log ++ [item_request item]) rest log' rows' →
    fetched fallback log (item :: rest) log' (rows ++ rows')
| fetched_default log item rest log' ex rows rows' :
    fallback = true → cash_report log (item_request item) = Raise ex → statement_unavailable ex = true →
    cash_report (log ++ [item_request item]) (default_request item) = Ok rows →
    fetched fallback ((log ++ [item_request item]) ++ [default_request item]) rest log' rows' →
    fetched fallback log (item :: rest) log' (rows ++ rows').

(** Every failure IB or the client reports has a text. *)
Definition errors_named : Prop :=
  ∀ log rq ex, cash_report log rq = Raise ex → exn_cls ex = ValueError → strip (exn_str ex) ≠ "".
End complete.

Lemma lstrip_blank s : lstrip s = "" → str_forallb is_space s = true.
Proof. induction s as [|c s IH]; [done|]. cbn. destruct (is_space c); [done|discriminate]. Qed.
Lemma rstrip_blank s : rstrip s = "" → str_forallb is_space s = true.
Proof.
  induction s as [|c s IH]; [done|]. cbn. destruct (rstrip s); [|discriminate].
  destruct (is_space c); [intros _; by apply IH|discriminate].
Qed.
Lemma strip_blank s : strip s = "" → str_forallb is_space s = true.
Proof.
  unfold strip. intros Hr%rstrip_blank. induction s as [|c s IH]; [done|]. cbn in *.
  destruct (is_space c) eqn:Hc; [by apply IH|]. cbn in Hr. by rewrite Hc in Hr.
Qed.
(** A text with a character that is no white space is not blank. *)
Lemma strip_marked a c b : is_space c = false → strip (a +:+ String c b) ≠ "".
Proof.
  intros Hc Hs%strip_blank. rewrite str_forallb_app in Hs. cbn in Hs. rewrite Hc, andb_false_r in Hs. done.
Qed.

(** The client keeps the promise when the network does: each of its own errors begins with a
    word. *)
Definition named (e : exn) : Prop := exn_cls e = ValueError → strip (exn_str e) ≠ "".
Definition network_named `{FlexWeb} : Prop :=
  (∀ ps e, send_request ps = Raise e → named e) ∧ (∀ ps n e, get_statement_answer ps n = Raise e → named e).

Lemma named_text c s cls : is_space c = false → named (Exn cls (String c s)).
Proof. intros Hc _. by apply (strip_marked "" c s). Qed.

Lemma named_prefix c p s cls : is_space c = false → named (Exn cls (String c p +:+ s)).
Proof. rewrite append_cons. apply named_text. Qed.

Lemma named_bind {A B} (m : res A) (f : A → res B) :
  (∀ e, m = Raise e → named e) → (∀ a e, f a = Raise e → named e) → ∀ e, m ≫= f = Raise e → named e.
Proof. intros Hm Hf e. destruct m as [a|e0]; cbn; [by apply Hf|]. intros [= <-]. by apply Hm. Qed.

Lemma strptime_named fs s e : strptime fs s = Raise e → named e.
Proof. unfold strptime. intros Hr. assert (e = strptime_error) as -> by (repeat case_match; congruence). by apply named_text. Qed.

Lemma request_params_named token query_id f t p e : request_params token query_id f t p = Raise e → named e.
Proof.
  unfold request_params. destruct p; [done|].
  destruct (_ && _); [|destruct (_ || _); [|done]; intros [= <-]; by apply named_text].
  apply named_bind; [|done]. clear e. intros e. unfold try_except.
  match goal with |- (match ?m with Ok _ => _ | Raise _ => _ end) = _ → _ => destruct m as [|e0] eqn:Hm; [done|] end.
  assert (named e0) as He0.
  { revert Hm. apply named_bind; [by intros ? ?%strptime_named|]. intros fd ex. apply named_bind; [by intros ? ?%strptime_named|].
    intros td ex'. destruct (_ <? _); [|done]. intros [= <-]. by apply named_text. }
  case_decide; [|by intros [= <-]]. destruct (str_in _ _); intros [= <-]; [done|by apply named_prefix].
Qed.

Lemma poll_named `{XmlParser, FlexWeb} params left attempt last_err e :
  network_named → poll params left attempt last_err = Raise e → named e.
Proof.
  intros [_ Hnet]. revert attempt last_err. induction left as [|left IH]; intros attempt last_err; cbn [poll].
  - intros [= <-]. by apply named_prefix.
  - destruct (get_statement_answer params attempt) as [body|e0] eqn:Ha.
    + destruct (statement_not_ready body); [apply IH|done].
    + case_decide; [apply IH|]. intros [= <-]. by eapply Hnet.
Qed.

(** The client implements the promise of the interface its users rely on. *)
Lemma flex_errors_named `{XmlParser, FlexWeb, PyRepr, ZoneDb} tz : network_named → @errors_named (flex_reports tz).
Proof.
  intros Hnet log rq ex. cbn [cash_report flex_reports]. revert ex. apply named_bind.
  - intros ex. unfold request_report. revert ex.
    apply named_bind; [apply request_params_named|]. intros params. apply named_bind.
    { intros e. unfold try_except. destruct (send_request params) as [|e0] eqn:Hs; [done|].
      case_decide; intros [= <-]; [by apply named_prefix|by eapply (proj1 Hnet)]. }
    intros body. apply named_bind.
    { intros e. unfold from_string. destruct (parse_xml body); [done|]. by intros [= <-]. }
    intros root e. cbn zeta. case_decide; [intros [= <-]; by apply named_prefix|].
    case_decide; [intros [= <-]; by apply named_text|done].
  - intros ref. apply named_bind; [|done]. intros e. by apply poll_named.
Qed.

Section run_lemmas.
Context `{Reports, CoreWriters, RunContext, ZoneDb}.
Context (Hnamed : errors_named).

(** The world of a fetch: only the log grows. *)
Definition only_log (w w' : world) : Prop :=
  w_transactions w' = w_transactions w ∧ w_executions w' = w_executions w ∧ w_messages w' = w_messages w.

Lemma fetch_chunk_spec token query_id f t fallback w got w' :
  fetch_chunk token query_id f t fallback w = (Ok got, w') →
  only_log w w'
  ∧ match got with
    | inl rows =>
        ∀ rest log' rows', fetched fallback (w_requests w') rest log' rows' →
          fetched fallback (w_requests w) ((token, query_id, (f, t)) :: rest) log' (rows ++ rows')
    | inr err => strip err ≠ ""
    end.
Proof.
  unfold fetch_chunk, pcatch, fetch_cash, mbind, prog_bind, mret, prog_ret, pret.
  set (rq := mkRequest _ _ f t None).
  destruct (cash_report (w_requests w) rq) as [rows|ex] eqn:Hr.
  - intros [= <- <-]. split; [done|]. intros rest log' rows' Hf. by apply (fetched_own _ _ (token, query_id, (f, t))).
  - cbn [w_requests]. unfold is_value_error at 1. case_bool_decide as Hv; [|done].
    destruct (fallback && _ && _ && _) eqn:Hb; bool_hyps.
    + set (rq2 := mkRequest _ _ None None None).
      destruct (cash_report _ rq2) as [rows|e2] eqn:Hr2; cbn [w_requests].
      * intros [= <- <-]. split; [done|]. intros rest log' rows' Hf.
        by eapply (fetched_default _ _ (token, query_id, (f, t))).
      * unfold is_value_error. case_bool_decide; [|done]. intros [= <- <-]. split; [done|].
        by refine (strip_marked (exn_str ex) ";" _ _).
    + intros [= <- <-]. split; [done|]. by eapply Hnamed.
Qed.

Lemma fetch_all_spec single fb work w rows errors w' :
  fetch_all single fb work w = (Ok (rows, errors), w') →
  only_log w w' ∧ Forall (λ err, strip err ≠ "") errors
  ∧ (errors = [] → fetched (fb && single) (w_requests w) work (w_requests w') rows).
Proof.
  revert w rows errors w'. induction work as [|[[token query_id] [f t]] work IH]; intros w rows errors w'; cbn [fetch_all].
  - intros [= <- <- <-]. split; [done|]. split; [done|]. intros _. constructor.
  - intros (got & w1 & Hc & Hk)%prog_bind_ok.
    apply fetch_chunk_spec in Hc as [[Ht1 [Hx1 Hm1]] Hgot].
    apply prog_bind_ok in Hk as ([rows2 errors2] & w2 & Hall & Hk).
    apply IH in Hall as [[Ht2 [Hx2 Hm2]] [Herr2 Hf2]].
    assert (only_log w w2) as Hlog by (split_and!; congruence).
    destruct got as [new|err]; injection Hk as <- <- <-.
    + split; [done|]. split; [done|]. intros E. by apply Hgot, Hf2.
    + assert (err ≠ "") as Hne by (by intros ->). rewrite decide_False by done.
      split; [done|]. split; [|done]. cbn [app]. constructor; [|done].
      destruct single; [done|]. by refine (strip_marked (show_date f) "." _ _).
Qed.
End run_lemmas.

Section reports_judged.
Context `{PyRepr, CoreWriters}.

Lemma nonblank_errors (errors : list string) :
  Forall (λ err, strip err ≠ "") errors → filter (λ s, strip s ≠ "") (py_str <$> (PStr <$> errors)) = errors.
Proof.
  induction 1 as [|err errors Herr _ IH]; [done|]. cbn [fmap list_fmap py_str].
  rewrite filter_cons_True by done. f_equal. apply IH.
Qed.

(** What the handler makes of a summary, by the fields it looks at. *)
Lemma require_ok_judges s label out b count errors :
  Forall (λ err, strip err ≠ "") errors →
  dict_get "ok" s = PBool b → dict_get "errors" s = PList (PStr <$> errors) → dict_get "count" s = PInt count →
  (count = 0 → dict_get "inserted" s = PNone) →
  require_ok s label = Ok out → b = true ∧ errors = [] ∧ dict_get "inserted" out = PInt count.
Proof.
  intros Hne Hok Herr Hcount Hins. unfold require_ok. rewrite Hok, Herr, Hcount.
  destruct b; [|done]. cbn [is_false].
  replace (py_or (PList (PStr <$> errors)) (PList [])) with (PList (PStr <$> errors)) by (by destruct errors).
  cbn [iter_values mbind res_bind]. rewrite nonblank_errors by done.
  destruct errors; [|done]. unfold py_or at 1. cbn [truthy]. destruct (decide (count = 0)) as [->|Hc].
  - cbn [Z.eqb negb]. rewrite Hins by done. intros [= <-]. done.
  - rewrite (proj2 (Z.eqb_neq count 0)) by done. cbn. intros [= <-]. done.
Qed.

Lemma report_judged entries from_date to_date extra n rows errors w s w' label out :
  Forall (λ err, strip err ≠ "") errors → dict_get "inserted" extra = PNone →
  report entries from_date to_date extra n rows errors w = (Ok s, w') → require_ok s label = Ok out →
  errors = [] ∧ w_requests w' = w_requests w
  ∧ ((rows = [] ∧ w_transactions w' = w_transactions w ∧ dict_get "inserted" out = PInt 0)
     ∨ ∃ written skipped, rows ≠ [] ∧ written ≠ 0
         ∧ upsert_account_transactions rows (w_transactions w) = (Ok (written, skipped), w_transactions w')
         ∧ dict_get "inserted" out = PInt written).
Proof.
  intros Hne Hextra. unfold report. destruct rows as [|r rows].
  - destruct errors as [|err errors]; intros [= <- <-].
    + intros Ho. apply (require_ok_judges _ _ _ true 0 []) in Ho as (_ & _ & Ho); try done. split_and!; auto.
    + done.
  - set (all := r :: rows). intros ([written skipped] & w1 & Hu & Hk)%prog_bind_ok.
    unfold upsert_cash in Hu. destruct (upsert_account_transactions all (w_transactions w)) as [u t] eqn:Hup.
    injection Hu as -> <-. destruct (written =? 0) eqn:Hw; bool_hyps; injection Hk as <- <-; [done|].
    intros Ho. apply (require_ok_judges _ _ _ true written errors) in Ho as (_ & -> & Ho); try done.
    split_and!; try done. right. exists written, skipped. by split_and!.
Qed.
End reports_judged.

Lemma scheduled_window_ok `{RunContext, ZoneDb} tz g today w got w' :
  scheduled_window tz g today w = (Ok got, w') →
  w' = w ∧ transactions_window (read_last_transaction_dates tz w) (fst (get_flex_range_days g))
             (snd (get_flex_range_days g)) today = Ok got.
Proof.
  unfold scheduled_window. intros ([dd di] & w1 & [Hr ->]%read_ok & Hs)%prog_bind_ok.
  apply prog_bind_ok in Hs as (ld & w1 & [-> ->]%read_ok & [Hs ->]%lift_ok). by rewrite <-Hr.
Qed.

(** A run the handler accepts is complete. Unless a fallback to the query's default
    period was allowed and IB refused the dates, every credential got the report of
    every chunk of the window; all the rows of all of them went to the writer, which
    wrote some, or there were none; one failed request is enough to fail the job.
    A run without dates covers the scheduled window. *)
Theorem accepted_run_complete `{PyRepr, Reports, CoreWriters, RunContext, ZoneDb}
    session_tz ready e g today body w s w' out :
  errors_named →
  fetch_cash_transactions_from_flex session_tz ready e g today body w = (Ok s, w') →
  require_ok s "flex-transactions" = Ok out →
  let entries := usable (get_flex_config_purpose e g "cash_transactions") in
  ∃ from_date to_date chunks rows,
    entries ≠ [] ∧ chunks_of from_date to_date = Ok chunks
    ∧ fetched (fallback_arg body && (Z.of_nat (length chunks) =? 1))
        (w_requests w) (work_list entries chunks) (w_requests w') rows
    ∧ ((rows = [] ∧ w_transactions w' = w_transactions w ∧ dict_get "inserted" out = PInt 0)
       ∨ ∃ written skipped, rows ≠ [] ∧ written ≠ 0
           ∧ upsert_account_transactions rows (w_transactions w) = (Ok (written, skipped), w_transactions w')
           ∧ dict_get "inserted" out = PInt written)
    ∧ match date_arg "from_date" body, date_arg "to_date" body with
      | Ok None, Ok None =>
          ∃ start stop mode days,
            transactions_window (read_last_transaction_dates session_tz w) (fst (get_flex_range_days g))
              (snd (get_flex_range_days g)) today = Ok (start, stop, mode, days)
            ∧ from_date = Some (strftime_ymd start) ∧ to_date = Some (strftime_ymd stop)
      | f, t => f = Ok from_date ∧ t = Ok to_date
      end.
Proof.
  intros Hnamed Hrun Hok. cbn zeta. unfold fetch_cash_transactions_from_flex, pcatch in Hrun.
  destruct (run_body _ _ _ _ _ _ _) as [[s0|ex] w0] eqn:Hb; [|by injection Hrun as <- <-].
  injection Hrun as -> ->. unfold run_body in Hb. destruct ready; cbn [negb] in Hb; [|by injection Hb as <- <-].
  apply prog_bind_ok in Hb as ([] & w1 & [_ ->]%read_ok & Hb).
  apply prog_bind_ok in Hb as (flex_list & w1 & [-> ->]%read_ok & Hb).
  destruct (usable _) as [|tq0 entries0] eqn:Hu; [by injection Hb as <- <-|].
  set (entries := tq0 :: entries0) in *.
  apply prog_bind_ok in Hb as (from0 & w1 & [Hf ->]%lift_ok & Hb).
  apply prog_bind_ok in Hb as (to0 & w1 & [Ht ->]%lift_ok & Hb).
  apply prog_bind_ok in Hb as ([[[from_date to_date] mode] days] & w1 & Hwin & Hb).
  apply prog_bind_ok in Hb as (chunks & w2 & [Hch ->]%lift_ok & Hb).
  apply prog_bind_ok in Hb as ([rows errors] & w2 & Hall & Hb).
  apply fetch_all_spec in Hall as ((Htx & _ & _) & Hne & Hfetched); [|done].
  eapply report_judged in Hb as (-> & Hlog & Hwrite); [|done..]. rewrite Htx in Hwrite.
  exists from_date, to_date, chunks, rows. rewrite Hf, Ht, Hlog.
  destruct from0 as [f|]; [|destruct to0 as [t|]];
    [injection Hwin as <- <- <- <- <-; split_and!; auto..|].
  apply prog_bind_ok in Hwin as ([[[start stop] m] n] & w3 & [-> Hs]%scheduled_window_ok & Hwin).
  injection Hwin as <- <- <- <- <-. split_and!; auto. by exists start, stop, m, n.
Qed.

(** ** What is asked of IB *)

Section asked.
Context `{Reports, CoreWriters, RunContext, ZoneDb}.

(** Without the fallback, whatever goes wrong: a prefix of one request per item. *)
Lemma fetch_all_asks single work w :
  ∃ sent, w_requests (fetch_all single false work w).2 = w_requests w ++ sent
    ∧ sent `prefix_of` (item_request <$> work).
Proof.
  revert w. induction work as [|[[token query_id] [f t]] work IH]; intros w; cbn [fetch_all fmap list_fmap].
  { exists []. by rewrite app_nil_r. }
  set (rq := item_request (token, query_id, (f, t))).
  unfold mbind, prog_bind. assert ((fetch_chunk token query_id f t (false && single) w).2
    = mkWorld (w_requests w ++ [rq]) (w_transactions w) (w_executions w) (w_messages w)) as Hc.
  { unfold fetch_chunk, pcatch, fetch_cash, mbind, prog_bind, mret, prog_ret, pret. change (mkRequest _ _ f t None) with rq.
    destruct (cash_report (w_requests w) rq); [done|]. by destruct (is_value_error _). }
  destruct (fetch_chunk _ _ _ _ _ w) as [[got|ex] w1]; cbn in Hc; subst w1.
  - destruct (IH (mkWorld (w_requests w ++ [rq]) (w_transactions w) (w_executions w) (w_messages w))) as (sent & Hs & Hp).
    cbn [w_requests] in Hs. exists (rq :: sent). split; [|by apply prefix_cons].
    replace (w_requests w ++ rq :: sent) with ((w_requests w ++ [rq]) ++ sent) by (by rewrite <-app_assoc).
    rewrite <-Hs. by destruct (fetch_all _ _ _ _) as [[[]|] ?].
  - exists [rq]. split; [done|]. apply (prefix_app_r [rq] [rq]). done.
Qed.

Lemma report_asks entries f t extra n rows errors w :
  w_requests (report entries f t extra n rows errors w).2 = w_requests w.
Proof.
  unfold report. destruct rows; [by destruct errors|]. unfold mbind, prog_bind, upsert_cash.
  destruct (upsert_account_transactions _ _) as [[[written skipped]|] tx]; [|done]. by destruct (written =? 0).
Qed.
End asked.

Lemma scheduled_window_quiet `{RunContext, ZoneDb} tz g today w : (scheduled_window tz g today w).2 = w.
Proof.
  unfold scheduled_window. rewrite bind_quiet by apply read_quiet. destruct (read _ _ _).1 as [[dd di]|]; [|done].
  rewrite bind_quiet by apply read_quiet. by destruct (read _ _ _).1.
Qed.

(** Restraint: a run without fallback (which is how the scheduler enqueues it) sends at
    most one request per credential and chunk, in order, each dated by its chunk, and
    nothing more, whatever goes wrong on the way. *)
Theorem cash_run_asks `{Reports, CoreWriters, RunContext, ZoneDb} session_tz ready e g today body w :
  fallback_arg body = false →
  let w' := (fetch_cash_transactions_from_flex session_tz ready e g today body w).2 in
  ∃ sent, w_requests w' = w_requests w ++ sent
    ∧ (sent = [] ∨ ∃ from_date to_date chunks, chunks_of from_date to_date = Ok chunks
         ∧ sent `prefix_of`
             (item_request <$> work_list (usable (get_flex_config_purpose e g "cash_transactions")) chunks)).
Proof.
  intros Hfb. cbn zeta. unfold fetch_cash_transactions_from_flex, pcatch.
  set (entries := usable (get_flex_config_purpose e g "cash_transactions")).
  set (P := λ w' : world, ∃ sent, w_requests w' = w_requests w ++ sent
    ∧ (sent = [] ∨ ∃ from_date to_date chunks, chunks_of from_date to_date = Ok chunks
         ∧ sent `prefix_of` (item_request <$> work_list entries chunks))).
  assert (P w) as Hquiet by (exists []; rewrite app_nil_r; auto).
  change (P (pcatch (λ _, true) (run_body session_tz ready e g today body)
               (λ ex, mret (failed_summary (exn_str ex))) w).2). unfold pcatch.
  assert (P (run_body session_tz ready e g today body w).2) as HP;
    [|by destruct (run_body _ _ _ _ _ _ _) as [[s|ex] w1]].
  unfold run_body. destruct ready; [|done]. cbn [negb].
  rewrite bind_quiet by apply read_quiet. destruct (read _ _ _).1; [|done].
  rewrite bind_quiet by apply read_quiet. unfold read at 1. destruct (read_fault ReadConfig); [done|].
  cbn [fst]. fold entries. destruct entries as [|tq0 entries0]; [done|].
  rewrite bind_quiet by done. destruct (lift _ _).1 as [from0|]; [|done].
  rewrite bind_quiet by done. destruct (lift _ _).1 as [to0|]; [|done].
  rewrite bind_quiet.
  2:{ destruct from0, to0; try done. rewrite bind_quiet by apply scheduled_window_quiet.
      by destruct (scheduled_window _ _ _ _).1 as [[[[start stop] mode] days]|]. }
  destruct (_ w).1 as [[[[from_date to_date] mode] days]|]; [|done].
  rewrite bind_quiet by done. cbn [lift fst]. destruct (chunks_of from_date to_date) as [chunks|] eqn:Hch; [|done].
  rewrite Hfb. set (work := work_list (tq0 :: entries0) chunks).
  destruct (fetch_all_asks (Z.of_nat (length chunks) =? 1) work w) as (sent & Hs & Hp).
  assert (P (fetch_all (Z.of_nat (length chunks) =? 1) false work w).2) as HP.
  { exists sent. split; [done|]. right. by exists from_date, to_date, chunks. }
  unfold mbind, prog_bind. revert HP. destruct (fetch_all _ _ _ _) as [[[rows errors]|ex] w1]; [|done].
  intros (sent' & Hs' & ?). exists sent'. by rewrite report_asks.
Qed.

(** ** Concrete runs *)

Section example.
(** IB answers a dated request with one row, and knows no default period. *)
Definition sample_rows (rq : request) : list row := [[("account_id", CStr (rq_token rq)); ("from", CStr (default "" (rq_from rq)))]].
Definition sample_reports : Reports := {|
  cash_report := λ _ rq, if rq_from rq then Ok (sample_rows rq)
                         else Raise (Exn ValueError "Flex request failed: [1003] Statement is not available.");
  trade_report := λ _ rq, if rq_from rq then Ok (sample_rows rq)
                          else Raise (Exn ValueError "Flex request failed: [1003] Statement is not available.")
|}.
(** Writers that take every row. *)
Definition sample_writers : CoreWriters := {|
  upsert_account_transactions := λ rows t, (Ok (Z.of_nat (length rows), 0), t ++ ((λ _, mkCash (Some "tok") 0) <$> rows));
  write_account_executions_to_db := λ rows x, (Ok true, x ++ ((λ _, mkExecution (Some "tok") (Some 20600) (Some "flex_trades")) <$> rows))
|}.
Definition sample_faults : RunContext := {|
  read_fault := λ _, None; message_url := Ok (Some "redis://trade:6379/0"); stream_answer := λ _ _, Ok (Some "1-0") |}.
Definition sample_env : env := mkEnv "tok" "" "2026-01-01".
Definition sample_golden : golden :=
  mkGolden (Some (30, 360)) [mkQrow 1 0 None (Some "cash_transactions") (Some "111, 222") None;
                             mkQrow 2 1 None (Some "trades") (Some "333") None] 3.
Definition scheduled_body : pydict := [("fallback", PBool false)].
(** An account whose last row is 400 days old. *)
Definition sample_world : world := mkWorld [] [mkCash (Some "U1") (20200 * day_usec)] [] [].
End example.

Lemma transactions_window_spec_witness :
  ∃ start, transactions_window (@read_last_transaction_dates sample_zones None sample_world) 30 360 20601
    = Ok (start, 20600, "incremental", 400) ∧ start ≤ 20200.
Proof.
  exists 20200.
  assert (transactions_window (@read_last_transaction_dates sample_zones None sample_world) 30 360 20601
    = Ok (20200, 20600, "incremental", 400)) as E by (vm_compute; reflexivity).
  split; [exact E|].
  pose proof (@transactions_window_spec sample_zones _ _ _ _ _ _ _ _ _ E) as (? & ? & _). lia.
Defined.

Lemma chunks_of_spec_witness :
  ∃ l, chunks_of (Some (strftime_ymd 20200)) (Some (strftime_ymd 20600))
       = Ok ((λ c, (Some (strftime_ymd c.1), Some (strftime_ymd c.2))) <$> l) ∧ Z.of_nat (length l) = 2.
Proof.
  destruct (chunks_of_spec 20200 20600) as (l & Hl & _ & _ & Hn & _); [by vm_compute|by vm_compute|].
  exists l. split; [exact Hl|]. rewrite Hn. vm_compute. reflexivity.
Defined.

(** The run of that day, and what the handler makes of it. *)
Section example_run.
#[local] Existing Instances sample_reports sample_writers sample_faults sample_zones.
Definition sample_text : PyRepr := λ _, "".
Definition sample_run : res pydict * world :=
  fetch_cash_transactions_from_flex None true sample_env sample_golden 20601 scheduled_body sample_world.
Lemma sample_named : errors_named.
Proof. intros log rq ex. cbn. destruct (rq_from rq); [done|]. intros [= <-] _. by vm_compute. Qed.
End example_run.

Lemma accepted_run_complete_witness :
  length (w_requests sample_run.2) = 4%nat
  ∧ ∃ chunks rows written skipped,
      @fetched sample_reports (false && (Z.of_nat (length chunks) =? 1)) []
        (work_list [("tok", "111"); ("tok", "222")] chunks) (w_requests sample_run.2) rows
      ∧ upsert_account_transactions (CoreWriters := sample_writers) rows (w_transactions sample_world)
        = (Ok (written, skipped), w_transactions sample_run.2).
Proof.
  split; [vm_compute; reflexivity|].
  assert (∃ s out, @fetch_cash_transactions_from_flex sample_reports sample_writers sample_faults sample_zones
                 None true sample_env sample_golden 20601 scheduled_body sample_world = (Ok s, sample_run.2)
    ∧ @require_ok sample_text s "flex-transactions" = Ok out) as (s & out & Hs & Ho).
  { eexists _, _. split; [vm_compute; reflexivity|vm_compute; reflexivity]. }
  destruct (@accepted_run_complete sample_text sample_reports sample_writers sample_faults sample_zones
              None true sample_env sample_golden 20601 scheduled_body sample_world s sample_run.2 out sample_named Hs Ho)
    as (f & t & chunks & rows & _ & Hc & Hf & [(_ & Hbad & _)|(written & skipped & _ & _ & Hu & _)] & _).
  - exfalso. revert Hbad. vm_compute. discriminate.
  - exists chunks, rows, written, skipped. split; [exact Hf|exact Hu].
Defined.

Lemma cash_run_asks_witness :
  ∃ sent, w_requests sample_run.2 = [] ++ sent
    ∧ (sent = [] ∨ ∃ from_date to_date chunks, chunks_of from_date to_date = Ok chunks
         ∧ sent `prefix_of` (item_request <$> work_list (usable (get_flex_config_purpose sample_env sample_golden "cash_transactions")) chunks)).
Proof.
  exact (@cash_run_asks sample_reports sample_writers sample_faults sample_zones None true sample_env sample_golden 20601
           scheduled_body sample_world eq_refl).
Defined.
