(* ===== verification/Trades.v ===== *)
(** * Trades ([orchestration/trades.py], [orchestration/utils.py])

    The window of a trades run, the fallbacks of one query, the loop over queries, and
    the summary with the messages it publishes. *)
From Stdlib Require Import Ascii.
From S2P Require Import Prelude Pytext PyVal Pytime Ddl Retry FlexClient Handlers ConfigRw Ingest Transactions.

(** ** Spans ([utils.rows_span]) *)

Definition cell_date (c : cell) : option Z := match c with CDate d => Some d | _ => None end.

(** The calendar date of a row: of its instant in UTC, or its trade or report date. *)
Definition row_date (r : row) : option Z :=
  match cell_of "time" r with
  | CTime us => if date_ok (date_of us) then Some (date_of us) else None
  | _ => None
  end.
Definition row_day (r : row) : option Z :=
  match row_date r with
  | Some d => Some d
  | None => match cell_of "trade_date" r with CNone => cell_date (cell_of "report_date" r) | c => cell_date c end
  end.

(** [if min_d is None or d < min_d: min_d = d], and the same for the maximum. *)
Definition widen (span : option (Z * Z)) (d : Z) : option (Z * Z) :=
  Some (match span with None => (d, d) | Some (lo, hi) => (Z.min lo d, Z.max hi d) end).
Definition span_of (days : list Z) : option (Z * Z) := foldl widen None days.
Definition rows_span (rows : list row) : option string * option string :=
  match span_of (omap row_day rows) with
  | None => (None, None)
  | Some (lo, hi) => (Some (isoformat lo), Some (isoformat hi))
  end.

(** ** Statistics ([config_rw.get_flex_executions_stats]) *)

Definition flex_executions (w : world) : list execution :=
  filter (λ x, x_source x = Some "flex_trades") (w_executions w).
Definition max_date (xs : list execution) : option Z :=
  foldr (λ d acc, Some (from_option (Z.max d) d acc)) None (omap x_trade_date xs).
(** (count, accounts, min_date, max_date): the run reads the first and the last. *)
Definition get_flex_executions_stats (w : world) : Z * option Z :=
  (Z.of_nat (length (flex_executions w)), max_date (flex_executions w)).

(** ** The window *)

(** (from, to, mode, days) of a run without dates. *)
Definition trades_window (stats : Z * option Z) (default_days init_days today : Z) : res (Z * Z * string * Z) :=
  yesterday ← days_before today 1;
  match stats with
  | (count, Some last_date) =>
      if count =? 0 then start ← days_before yesterday init_days; Ok (start, yesterday, "init", init_days)
      else
        let total_days := Z.max 0 (yesterday - last_date) + default_days in
        start ← days_before yesterday total_days;
        Ok (start, yesterday, "incremental", total_days)
  | (_, None) => start ← days_before yesterday init_days; Ok (start, yesterday, "init", init_days)
  end.

Section run.
Context `{Reports, CoreWriters, RunContext}.
Context (ready : bool) (e : env) (g : golden) (today : Z).

(** ** One query *)

(** What follows when the first request brought no rows: the query's default period,
    then period 5; [primary_err] is the error met so far. *)
Definition query_default_or_period (token query_id : string) (primary_err : option exn)
    : prog (list row * bool * option string) :=
  let ask p := fetch_trade (mkRequest token query_id None None p) in
  '((by_default, primary_err2) : list row * option exn) ←
    pcatch (A := list row * option exn) is_value_error (rows ← ask None; mret (rows, primary_err))
      (λ ex, mret ([], Some (default ex primary_err)));
  match by_default with
  | _ :: _ =>
      mret (by_default, true,
            Some (match primary_err with Some _ => "query_default_after_1003" | None => "query_default_after_empty" end))
  | [] =>
      by_period ← pcatch is_value_error (ask (Some 5))
        (λ ex, match primary_err2 with
               | Some p => praise (Exn ValueError (exn_str p +:+ "; fallback query-default/period=5 also failed: " +:+ exn_str ex))
               | None => praise ex
               end);
      match by_period, primary_err2 with
      | _ :: _, _ => mret (by_period, true, Some "period5_after_empty_or_1003")
      | [], Some p => praise p
      | [], None => mret ([], false, None)
      end
  end.

(** [_fetch_trades_with_date_fallback]: the rows, whether a fallback brought them, which. *)
Definition fetch_trades_with_date_fallback (token query_id : string) (from_date to_date : option string)
    (allow_fallback : bool) : prog (list row * bool * option string) :=
  let own := fetch_trade (mkRequest token query_id from_date to_date None) in
  '((rows, primary_err) : list row * option exn) ←
    pcatch (A := list row * option exn) (λ ex, is_value_error ex && given_text from_date && given_text to_date)
      (rows ← own; mret (rows, None))
      (λ ex, if negb (statement_unavailable ex) || negb allow_fallback then praise ex else mret ([], Some ex));
  match rows with
  | _ :: _ => mret (rows, false, None)
  | [] => if negb allow_fallback then mret ([], false, None) else query_default_or_period token query_id primary_err
  end.

(** ** All queries *)

Record query := mkQuery { q_token : string; q_id : string; q_role : string; q_label : option string }.
Definition queries (flex_list : list entry) : list query :=
  omap (λ a, let tok := strip (e_token a) in
             let qid := strip (e_query_id a) in
             if bool_decide (tok ≠ "" ∧ qid ≠ "")
             then Some (mkQuery tok qid (or_s (strip (e_role a)) "unknown") (clean_or_none (e_label a)))
             else None) flex_list.

(** What the loop accumulates. *)
Record progress := mkProgress {
  p_rows : list row; p_errors : list string; p_counts : list Z;
  p_queries : list (query * list row * bool * option string)
}.
Definition query_error (i n : Z) (q : query) (ex : exn) : string :=
  "Flex query " +:+ str_of_Z (i + 1) +:+ "/" +:+ str_of_Z n +:+ " (" +:+ q_role q +:+ " " +:+ q_id q +:+ "): " +:+ exn_str ex.

Fixpoint fetch_queries (i n : Z) (from_date to_date : option string) (allow_fallback : bool) (qs : list query)
    (p : progress) : prog progress :=
  match qs with
  | [] => mret p
  | q :: rest =>
      p' ← pcatch is_value_error
             ('(rows, used, kind) ← fetch_trades_with_date_fallback (q_token q) (q_id q) from_date to_date allow_fallback;
              mret (mkProgress (p_rows p ++ rows) (p_errors p) (p_counts p ++ [Z.of_nat (length rows)])
                      (p_queries p ++ [(q, rows, used, kind)])))
             (λ ex, mret (mkProgress (p_rows p) (p_errors p ++ [query_error i n q ex]) (p_counts p ++ [-1]) (p_queries p)));
      fetch_queries (i + 1) n from_date to_date allow_fallback rest p'
  end.

Definition no_trades_credentials : string :=
  "No Flex credentials for trades: set FLEX_HOST_TOKEN / FLEX_SECONDARY_TOKEN (K8s Secret bifrost-flex-tokens) and purpose=trades query_id rows (Settings → IB Connection → Flex Query IDs, or Ops Console Flex Plugin).".
Definition pg_required : string := "PostgreSQL is required to write account_executions.".
Definition write_failed : string := "Failed to write account_executions.".
Definition no_trades_message : string := "No trades in Flex report.".

(** The span of all queries, from their spans' texts. *)
Definition widen_text (acc : option Z * option Z) (span : option string * option string) : option Z * option Z :=
  let '(lo, hi) := acc in
  let parse := λ s : string, date_of <$> strptime F_ISO s in
  match from_option parse (Raise strptime_error) span.1 with
  | Raise _ => if span.1 then (lo, hi) else
               match from_option parse (Raise strptime_error) span.2 with
               | Ok d => (lo, Some (from_option (Z.max d) d hi))
               | Raise _ => (lo, hi)
               end
  | Ok d_from =>
      let lo' := Some (from_option (Z.min d_from) d_from lo) in
      match from_option parse (Raise strptime_error) span.2 with
      | Ok d => (lo', Some (from_option (Z.max d) d hi))
      | Raise _ => (lo', hi)
      end
  end.
Definition data_span (spans : list (option string * option string)) : option string * option string :=
  let '(lo, hi) := foldl widen_text (None, None) spans in (isoformat <$> lo, isoformat <$> hi).

Definition query_summary (item : query * list row * bool * option string) : pyval :=
  let '(q, rows, used, kind) := item in
  PDict [("role", PStr (q_role q)); ("query_id", PStr (q_id q)); ("label", opt_str (q_label q));
         ("rows", PInt (Z.of_nat (length rows))); ("data_from", opt_str (rows_span rows).1);
         ("data_to", opt_str (rows_span rows).2); ("used_fallback", PBool used); ("fallback_kind", opt_str kind)].

(** The accounts of the rows: distinct, not blank. *)
Definition row_account (r : row) : string := match cell_of "account_id" r with CStr s => strip s | _ => "" end.
Definition updated_accounts (rows : list row) : Z :=
  Z.of_nat (length (remove_dups (filter (λ a, a ≠ "") (row_account <$> rows)))).

(** The hint for a host query that alone brought nothing. *)
Definition host_brought_nothing (counts : list Z) : bool :=
  match counts with
  | c :: rest => (c =? 0) && (match rest with [] => true | _ => existsb (λ n, 0 <? n) rest end)
  | [] => false
  end.

Definition imported_message (qs : list query) (p : progress) (last_date : option string) (data_from data_to : option string)
    : string :=
  "Upserted " +:+ str_of_Z (Z.of_nat (length (p_rows p))) +:+ " execution(s) from "
  +:+ str_of_Z (Z.of_nat (length qs)) +:+ " Flex account config row(s); affected "
  +:+ str_of_Z (updated_accounts (p_rows p)) +:+ " account(s)."
  +:+ match last_date with
      | Some d => if decide (d = "") then "" else " Latest Flex execution date after update: " +:+ d +:+ "."
      | None => "" end
  +:+ match data_from, data_to with Some f, Some t => " Flex data time span: " +:+ f +:+ " .. " +:+ t +:+ "." | _, _ => "" end
  +:+ (if host_brought_nothing (p_counts p)
       then " Host (Query ID " +:+ from_option q_id "" (head qs)
            +:+ ") returned 0 trades; in Settings > IB Connection > Flex ensure the purpose=trades row uses a Query that includes Activity > Trades and the date range covers your trades."
       else "")
  +:+ match p_errors p with [] => "" | errors => " Partial errors: " +:+ join "; " errors end.

(** What the run reports once every query is made. *)
Definition report_trades (qs : list query) (from_date to_date : option string) (range_mode : string) (range_days : option Z)
    (p : progress) : prog pydict :=
  let by_account := [("by_account", PInt (Z.of_nat (length qs))); ("by_account_counts", PList (PInt <$> p_counts p))] in
  let '(data_from, data_to) := data_span ((λ item, rows_span item.1.1.2) <$> p_queries p) in
  let per_query := PList (query_summary <$> p_queries p) in
  let errors := ("errors", PList (PStr <$> p_errors p)) in
  let raw_count := PInt (Z.of_nat (length (p_rows p))) in
  match p_rows p, p_errors p with
  | [], _ :: _ =>
      let err := join "; " (p_errors p) in
      _ ← publish false "Flex executions fetch failed" err (Some (utake 500 err)) "error";
      mret (failed_summary err ++ by_account)
  | [], [] =>
      _ ← publish true "Flex executions import: no rows" no_trades_message None "warning";
      mret ([("ok", PBool true); ("count", PInt 0); ("message", PStr no_trades_message); errors] ++ by_account
            ++ [("data_from", PNone); ("data_to", PNone); ("raw_count", PInt 0); ("per_query", per_query);
                ("range_mode", PStr range_mode); ("range_from", opt_str from_date); ("range_to", opt_str to_date)])
  | all_rows, _ =>
      let range := [("range_mode", PStr range_mode); ("range_days", opt_int range_days);
                    ("range_from", opt_str from_date); ("range_to", opt_str to_date)] in
      let span := [("data_from", opt_str data_from); ("data_to", opt_str data_to)] in
      written ← write_executions all_rows;
      if negb written then
        _ ← publish false "Flex executions write failed" write_failed (Some "write_account_executions_to_db") "error";
        mret (failed_summary write_failed ++ [("raw_count", raw_count)] ++ span ++ by_account
              ++ [("per_query", per_query)] ++ range)
      else
        '(_, last_after) ← read ReadStatsAfter get_flex_executions_stats;
        let last_date := isoformat <$> last_after in
        let msg := imported_message qs p last_date data_from data_to in
        _ ← publish true "Flex executions imported" msg None "success";
        mret ([("ok", PBool true); ("count", raw_count); ("raw_count", raw_count); ("message", PStr msg); errors]
              ++ by_account ++ [("per_query", per_query); ("updated_accounts", PInt (updated_accounts all_rows))]
              ++ range ++ [("last_flex_date_after", opt_str last_date)] ++ span)
  end.

Definition trades_body (body : pydict) : prog pydict :=
  _ ← read OpenGolden (λ _, ());
  flex_list ← read ReadConfig (λ _, get_flex_config_purpose e g "trades");
  match queries flex_list with
  | [] =>
      _ ← publish false "Flex executions fetch failed" no_trades_credentials (Some "no flex trades credentials") "error";
      mret (failed_summary no_trades_credentials)
  | qs =>
      from0 ← lift (date_arg "from_date" body);
      to0 ← lift (date_arg "to_date" body);
      '(from_date, to_date, range_mode, range_days) ←
        match from0, to0 with
        | None, None =>
            stats ← read ReadStats get_flex_executions_stats;
            '(default_days, init_days) ← read ReadRange (λ _, get_flex_range_days g);
            '(start, stop, mode, days) ← lift (trades_window stats default_days init_days today);
            mret (Some (strftime_ymd start), Some (strftime_ymd stop), mode, Some days)
        | _, _ => mret (from0, to0, "manual", None)
        end;
      p ← fetch_queries 0 (Z.of_nat (length qs)) from_date to_date (fallback_arg body) qs (mkProgress [] [] [] []);
      report_trades qs from_date to_date range_mode range_days p
  end.

(** [fetch_flex_trades_and_upsert_executions]. *)
Definition fetch_flex_trades_and_upsert_executions (body : pydict) : prog pydict :=
  if negb ready then
    _ ← publish false "Flex executions fetch failed" pg_required (Some "no control_via_db") "error";
    mret (failed_summary pg_required)
  else
    pcatch (λ _, true) (trades_body body)
      (λ ex,
        _ ← publish false "Flex executions fetch failed" (exn_str ex) (Some (utake 500 (exn_str ex))) "error";
        mret (failed_summary (exn_str ex))).

(** ** Uploaded reports *)

Definition missing_xml : string := "Missing xml field in request body.".
Definition no_rows_parsed : string :=
  "No Trade rows parsed from XML. Ensure this is a Flex Trades report (Activity → Trades).".

(** [upsert_executions_from_uploaded_flex_xml]; [parse] is [parse_trades_xml]. *)
Definition upload_body (parse : string → res (list row)) (raw_xml : string) : prog pydict :=
  let fail title err reason :=
    _ ← publish false title err (Some reason) "error"; mret (failed_summary err) in
  let raw_xml := strip raw_xml in
  if decide (raw_xml = "") then fail "Flex XML upload failed" missing_xml "missing xml"
  else
    rows ← lift (parse raw_xml);
    match rows with
    | [] => fail "Flex XML upload: no trades" no_rows_parsed "parse_trades_xml empty"
    | _ =>
        written ← write_executions rows;
        if negb written then fail "Flex XML write failed" write_failed "write_account_executions_to_db"
        else
          let n := Z.of_nat (length rows) in
          let msg := "Upserted " +:+ str_of_Z n +:+ " execution(s) from uploaded Flex XML for "
                     +:+ str_of_Z (updated_accounts rows) +:+ " account(s)." in
          _ ← publish true "Flex XML executions imported" msg None "success";
          mret [("ok", PBool true); ("count", PInt n); ("updated_accounts", PInt (updated_accounts rows)); ("message", PStr msg)]
    end.

Definition upsert_executions_from_uploaded_flex_xml (parse : string → res (list row)) (raw_xml : string) : prog pydict :=
  if negb ready then
    _ ← publish false "Flex XML upload failed" pg_required (Some "no control_via_db") "error";
    mret (failed_summary pg_required)
  else
    pcatch (λ _, true) (upload_body parse raw_xml)
      (λ ex,
        _ ← publish false "Flex XML upload failed" (exn_str ex) (Some (utake 500 (exn_str ex))) "error";
        mret (failed_summary (exn_str ex))).
End run.

(** ** Lemmas *)

Section fallback.
Context `{Reports}.

(** [asked], one after the other from [log], each with the answer it got. *)
Fixpoint answers (log asked : list request) : list (request * res (list row)) :=
  match asked with [] => [] | rq :: rest => (rq, trade_report log rq) :: answers (log ++ [rq]) rest end.

Definition own_request (token query_id : string) (from_date to_date : option string) : list request :=
  [mkRequest token query_id from_date to_date None; mkRequest token query_id None None None;
   mkRequest token query_id None None (Some 5)].

Lemma answers_app log a b : answers log (a ++ b) = answers log a ++ answers (log ++ a) b.
Proof.
  revert log. induction a as [|rq a IH]; intros log; cbn [answers app].
  - by rewrite app_nil_r.
  - rewrite IH, <-app_assoc. done.
Qed.

Definition no_rows (a : request * res (list row)) : Prop := ∀ rows, a.2 = Ok rows → rows = [].

(** One outcome of a fetch: the requests made, the answers being known. *)
Ltac outcome asked :=
  intros [= <- <-]; exists asked; cbn [answers removelast last w_requests app length own_request tail];
  repeat match goal with E : trade_report _ _ = _ |- _ => rewrite !E end;
  rewrite <-?app_assoc; cbn [app snd]; split_and!;
  repeat match goal with
  | |- Forall _ _ => constructor
  | |- no_rows _ => unfold no_rows; cbn; naive_solver
  | |- ∃ rq, Some (_, _) = Some (rq, _) => by eexists
  | |- Exists _ _ => apply Exists_exists; eexists (_, _); split; [|by eexists]; set_solver
  | |- _ = [] → _ => intros ?; try done; split_and?
  | |- _ ↔ _ => naive_solver
  end; eauto.

Lemma query_default_or_period_spec token query_id primary w r w' :
  query_default_or_period token query_id primary w = (r, w') →
  ∃ asked, w_requests w' = w_requests w ++ asked ∧ asked ≠ []
    ∧ asked `prefix_of` tail (own_request token query_id None None)
    ∧ Forall no_rows (removelast (answers (w_requests w) asked))
    ∧ match r with
      | Ok (rows, used, kind) =>
          (∃ rq, last (answers (w_requests w) asked) = Some (rq, Ok rows))
          ∧ (used = true ↔ rows ≠ []) ∧ (is_Some kind ↔ used = true)
          ∧ (rows = [] → primary = None ∧ Forall (λ a, a.2 = Ok []) (answers (w_requests w) asked))
      | Raise ex => is_Some primary ∨ Exists (λ a, ∃ ex', a.2 = Raise ex') (answers (w_requests w) asked)
      end.
Proof.
  unfold query_default_or_period, own_request. cbn [tail].
  set (rq2 := mkRequest _ _ None None None). set (rq3 := mkRequest _ _ None None (Some 5)).
  unfold pcatch, mbind, prog_bind, mret, prog_ret, pret, praise, fetch_trade.
  assert ([rq2] `prefix_of` [rq2; rq3]) as Hp by apply prefix_cons, prefix_nil.
  destruct (trade_report (w_requests w) rq2) as [[|row2 rows2]|ex2] eqn:E2; cbn [w_requests].
  - destruct (trade_report (w_requests w ++ [rq2]) rq3) as [[|row3 rows3]|ex3] eqn:E3; cbn [w_requests].
    + destruct primary; outcome [rq2; rq3].
    + outcome [rq2; rq3].
    + destruct (is_value_error ex3), primary; outcome [rq2; rq3].
  - outcome [rq2].
  - destruct (is_value_error ex2); [|outcome [rq2]]. cbn [w_requests].
    destruct (trade_report (w_requests w ++ [rq2]) rq3) as [[|row3 rows3]|ex3] eqn:E3; cbn [w_requests].
    + outcome [rq2; rq3].
    + outcome [rq2; rq3].
    + destruct (is_value_error ex3); outcome [rq2; rq3].
Qed.

(** C20. One query of a trades run. Without fallback it is one request and its answer.
    With it, up to three requests in a fixed order, the next one only when the last
    brought no rows; rows are always those of the last request made, and are called a
    fallback exactly when it was not the first. An empty result is never a failure in
    disguise: then every request made was answered with an empty report. *)
Theorem fetch_trades_fallback_spec token query_id from_date to_date allow_fallback w r w' :
  fetch_trades_with_date_fallback token query_id from_date to_date allow_fallback w = (r, w') →
  ∃ asked, w_requests w' = w_requests w ++ asked
    ∧ asked ≠ [] ∧ asked `prefix_of` own_request token query_id from_date to_date
    ∧ (allow_fallback = false → length asked = 1%nat)
    ∧ Forall no_rows (removelast (answers (w_requests w) asked))
    ∧ match r with
      | Ok (rows, used, kind) =>
          (∃ rq, last (answers (w_requests w) asked) = Some (rq, Ok rows))
          ∧ (used = true ↔ rows ≠ [] ∧ length asked ≠ 1%nat) ∧ (is_Some kind ↔ used = true)
          ∧ (rows = [] → Forall (λ a, a.2 = Ok []) (answers (w_requests w) asked))
      | Raise ex => Exists (λ a, ∃ ex', a.2 = Raise ex') (answers (w_requests w) asked)
      end.
Proof.
  unfold fetch_trades_with_date_fallback. set (rq1 := mkRequest _ _ from_date to_date None).
  set (rq2 := mkRequest token query_id None None None). set (rq3 := mkRequest token query_id None None (Some 5)).
  set (w1 := mkWorld (w_requests w ++ [rq1]) (w_transactions w) (w_executions w) (w_messages w)).
  assert ([rq1] `prefix_of` own_request token query_id from_date to_date) as Hp by apply prefix_cons, prefix_nil.
  match goal with |- _ → ?G =>
    assert (∀ primary, trade_report (w_requests w) rq1 = match primary with Some ex => Raise ex | None => Ok [] end →
      query_default_or_period token query_id primary w1 = (r, w') → allow_fallback = true → G) as Htail
  end.
  { intros primary E1 (asked & Hw & Hne & Hpre & Hno & Hres)%query_default_or_period_spec Hfb.
    exists (rq1 :: asked). rewrite Hfb. unfold w1 in *. cbn [w_requests answers] in *. rewrite <-app_assoc in Hw.
    set (as' := answers _ asked) in *. assert (as' ≠ []) as Has by (by destruct asked).
    destruct as' as [|a1 as']; [done|]. split_and!; [done|done|by apply prefix_cons|done| |].
    - change (removelast _) with ((rq1, trade_report (w_requests w) rq1) :: removelast (a1 :: as')). constructor; [|done].
      intros rows. cbn. rewrite E1. destruct primary; [done|by intros [= <-]].
    - destruct r as [[[rows used] kind]|ex].
      + destruct Hres as (Hl & Hused & Hkind & Hempty). split_and!; [exact Hl| |exact Hkind|].
        * rewrite Hused. split; [|tauto]. intros Hr. split; [done|]. by destruct asked.
        * intros Hr. destruct (Hempty Hr) as [-> Hall]. by constructor.
      + destruct Hres as [[ex' ->]|Hres]; [|by apply Exists_cons_tl]. apply Exists_cons_hd. by exists ex'. }
  unfold pcatch, mbind, prog_bind, mret, prog_ret, pret, praise, fetch_trade. fold w1.
  destruct (trade_report (w_requests w) rq1) as [[|row1 rows1]|ex1] eqn:E1; cbn [w_requests].
  - destruct allow_fallback; cbn [negb]; [intros Hq; by apply (Htail None)|outcome [rq1]].
  - outcome [rq1].
  - destruct (_ && _ && _); [|outcome [rq1]].
    destruct (statement_unavailable ex1), allow_fallback; cbn [negb orb]; [intros Hq; by apply (Htail (Some ex1))|outcome [rq1]..].
Qed.
End fallback.

(** ** The window *)

Lemma max_date_spec xs :
  match max_date xs with
  | Some d => (∃ x, x ∈ xs ∧ x_trade_date x = Some d) ∧ ∀ x d', x ∈ xs → x_trade_date x = Some d' → d' ≤ d
  | None => ∀ x, x ∈ xs → x_trade_date x = None
  end.
Proof.
  unfold max_date. induction xs as [|x xs IH]; cbn [omap list_omap foldr]; [set_solver|].
  destruct (x_trade_date x) as [d|] eqn:Hx; cbn [foldr].
  - set (m := foldr _ None _) in *. destruct m as [m|]; cbn [from_option].
    + destruct IH as [(y & Hy & Hm) Hmax]. split.
      * destruct (Z.max_spec d m) as [[_ ->]|[_ ->]]; [exists y|exists x]; set_solver.
      * intros z d' [->|Hz]%elem_of_cons Hd'; [simplify_eq; lia|]. specialize (Hmax _ _ Hz Hd'). lia.
    + split; [exists x; set_solver|]. intros z d' [->|Hz]%elem_of_cons Hd'; [simplify_eq; lia|]. by rewrite IH in Hd'.
  - set (m := foldr _ None _) in *. destruct m as [m|].
    + destruct IH as [(y & Hy & Hm) Hmax]. split; [exists y; set_solver|].
      intros z d' [->|Hz]%elem_of_cons Hd'; [congruence|by eapply Hmax].
    + intros z [->|Hz]%elem_of_cons; [done|by apply IH].
Qed.

(** The window of a trades run without dates ends yesterday and starts the default
    days before the newest stored execution of any account, or before yesterday if
    that is newer; with no dated execution stored it is the initial window. The days
    of an account that fell behind the newest one by more than the default are in no
    window. *)
Theorem trades_window_spec w default_days init_days today start stop mode days :
  1 ≤ default_days → 1 ≤ init_days →
  trades_window (get_flex_executions_stats w) default_days init_days today = Ok (start, stop, mode, days) →
  stop = today - 1 ∧ days = stop - start ∧ 1 ≤ days
  ∧ (mode = "init" ↔ ∀ x, x ∈ flex_executions w → x_trade_date x = None) ∧ (mode = "init" → days = init_days)
  ∧ (mode ≠ "init" →
       ∃ x newest, x ∈ flex_executions w ∧ x_trade_date x = Some newest
         ∧ (∀ y d, y ∈ flex_executions w → x_trade_date y = Some d → d ≤ newest)
         ∧ start = Z.min newest stop - default_days
         ∧ ∀ behind, behind < newest - default_days → behind < stop - default_days → behind < start).
Proof.
  intros Hd Hi. unfold get_flex_executions_stats, trades_window.
  intros (y & [-> Hy]%days_before_Ok & Hk)%res_bind_ok.
  pose proof (max_date_spec (flex_executions w)) as Hm.
  destruct (max_date _) as [newest|].
  - destruct Hm as [(x & Hx & Hn) Hmax].
    assert (Z.of_nat (length (flex_executions w)) =? 0 = false) as Hlen.
    { apply Z.eqb_neq. destruct (flex_executions w); [set_solver|cbn; lia]. }
    rewrite Hlen in Hk. apply res_bind_ok in Hk as (st & [-> _]%days_before_Ok & Hk). simplify_eq.
    split_and!; try lia; [|done|].
    + split; [done|]. intros Hno. by rewrite (Hno _ Hx) in Hn.
    + intros _. exists x, newest. split_and!; [done..|lia|lia].
  - apply res_bind_ok in Hk as (st & [-> _]%days_before_Ok & Hk). simplify_eq. split_and!; by (done || lia).
Qed.

(** ** Messages *)

Definition quiet (w w' : world) : Prop := w_messages w' = w_messages w.
#[export] Instance quiet_refl : Reflexive quiet.
Proof. done. Qed.
#[export] Instance quiet_trans : Transitive quiet.
Proof. intros w1 w2 w3. unfold quiet. congruence. Qed.

Section messages.
Context `{RunContext}.

(** A step that tells of a failure: it changes no table, and answers the summary unless the
    message center's URL cannot be resolved. *)
Definition failing (r : res pydict) : Prop :=
  match r with Ok s => dict_get "ok" s = PBool false | Raise ex => message_url = Raise ex end.

Lemma publish_failing title message reason level s w :
  dict_get "ok" s = PBool false →
  ∃ r w', (_ ← publish false title message reason level; mret s) w = (r, w') ∧ failing r
    ∧ w_requests w' = w_requests w ∧ w_transactions w' = w_transactions w ∧ w_executions w' = w_executions w
    ∧ (is_ok message_url = true → r = Ok s).
Proof.
  intros Hs. destruct ((_ ← publish _ _ _ _ _; mret s) w) as [[s'|ex] w'] eqn:E.
  - apply publish_then_ok in E as (_ & -> & ->). by eexists _, _.
  - apply publish_then_raise in E as [Hurl ->]. eexists _, _. split_and!; [done..|]. by rewrite Hurl.
Qed.

(** A run that fails inside its [try]: what its handler makes of it. *)
Lemma catch_failing (m : prog pydict) title w r w1 :
  m w = (r, w1) → failing r →
  ∃ r' w', pcatch (λ _, true) m (λ ex,
      _ ← publish false title (exn_str ex) (Some (utake 500 (exn_str ex))) "error"; mret (failed_summary (exn_str ex))) w
      = (r', w') ∧ failing r'
    ∧ w_requests w' = w_requests w1 ∧ w_transactions w' = w_transactions w1 ∧ w_executions w' = w_executions w1
    ∧ (∀ s, r = Ok s → r' = Ok s).
Proof.
  intros Hm Hf. unfold pcatch. rewrite Hm. destruct r as [s|ex].
  - eexists _, _. split; [reflexivity|]. split_and!; [exact Hf|done..].
  - edestruct (publish_failing title (exn_str ex) (Some (utake 500 (exn_str ex))) "error" (failed_summary (exn_str ex)) w1)
      as (r' & w' & -> & Hr & ? & ? & ? & _); [done|]. eexists _, _. by split_and!.
Qed.

(** A summary is told by one message, [complete] exactly when the summary says so; it is
    in the stream where there is one and it takes it. *)
Definition told_by (before after : list event) (s : pydict) : Prop :=
  ∃ ev, after = before ++ delivered ev ∧ (ev_status_to ev = "complete" ↔ dict_get "ok" s = PBool true).

(** A computation that tells its outcome when it has one, and nothing when it raises. *)
Definition tells (m : prog pydict) : Prop := ∀ w,
  match m w with
  | (Ok s, w') => is_ok message_url = true ∧ told_by (w_messages w) (w_messages w') s
  | (Raise _, w') => quiet w w'
  end.

Lemma tells_bind {A} (m : prog A) f : keeps quiet m → (∀ a, tells (f a)) → tells (m ≫= f).
Proof.
  intros Hm Hf w. unfold mbind, prog_bind. specialize (Hm w). destruct (m w) as [[a|ex] w1]; cbn in *; [|done].
  specialize (Hf a w1). unfold quiet in *. destruct (f a w1) as [[s|ex] w2]; [by rewrite <-Hm|congruence].
Qed.

Lemma tells_publish ok title message reason level s :
  (ok = true ↔ dict_get "ok" s = PBool true) → tells (_ ← publish ok title message reason level; mret s).
Proof.
  intros Hok w. destruct ((_ ← publish _ _ _ _ _; mret s) w) as [[s'|ex] w'] eqn:E.
  - apply publish_then_ok in E as (Hurl & -> & ->). split; [done|]. eexists. split; [done|]. cbn. rewrite <-Hok. by destruct ok.
  - by apply publish_then_raise in E as [_ ->].
Qed.

(** A run whose failures are told too. *)
Lemma tells_all (m : prog pydict) title w :
  tells m →
  let run := pcatch (λ _, true) m (λ ex,
    _ ← publish false title (exn_str ex) (Some (utake 500 (exn_str ex))) "error"; mret (failed_summary (exn_str ex))) in
  match message_url with
  | Raise ex => (run w).1 = Raise ex ∧ quiet w (run w).2
  | Ok _ => ∃ s, (run w).1 = Ok s ∧ told_by (w_messages w) (w_messages (run w).2) s
  end.
Proof.
  intros Hm run. subst run. unfold pcatch. specialize (Hm w). destruct (m w) as [[s|ex] w1].
  - destruct Hm as [Hurl Ht]. destruct message_url; [|done]. by exists s.
  - match goal with |- context [(?m : prog pydict) w1] => destruct (m w1) as [[s|ex'] w2] eqn:E end.
    + apply publish_then_ok in E as (Hurl & -> & ->). destruct message_url; [|done].
      eexists. split; [reflexivity|]. cbn. rewrite Hm. eexists. split; [reflexivity|]. done.
    + apply publish_then_raise in E as [-> ->]. by split.
Qed.

Lemma tells_here (m : prog pydict) w :
  tells m →
  (∀ ex, message_url = Raise ex → (m w).1 = Raise ex) → (is_ok message_url = true → is_ok (m w).1 = true) →
  match message_url with
  | Raise ex => (m w).1 = Raise ex ∧ quiet w (m w).2
  | Ok _ => ∃ s, (m w).1 = Ok s ∧ told_by (w_messages w) (w_messages (m w).2) s
  end.
Proof.
  intros Hm Hr Ho. specialize (Hm w). destruct message_url as [u|ex].
  - specialize (Ho eq_refl). destruct (m w) as [[s|ex] w1]; [|done]. destruct Hm as [_ Ht]. by exists s.
  - specialize (Hr ex eq_refl). destruct (m w) as [[s|ex'] w1]; [done|]. by split.
Qed.

Lemma publish_told ok title message reason level s w :
  (ok = true ↔ dict_get "ok" s = PBool true) →
  let m := (_ ← publish ok title message reason level; mret s) : prog pydict in
  match message_url with
  | Raise ex => (m w).1 = Raise ex ∧ quiet w (m w).2
  | Ok _ => ∃ s, (m w).1 = Ok s ∧ told_by (w_messages w) (w_messages (m w).2) s
  end.
Proof.
  intros Hok m. apply tells_here; [by apply tells_publish|..]; unfold m, mbind, prog_bind; rewrite publish_spec;
    [by intros ex ->|by destruct message_url].
Qed.
End messages.

Lemma keeps_fetch_trade `{Reports} rq : keeps quiet (fetch_trade rq).
Proof. done. Qed.
Lemma keeps_write `{CoreWriters} rows : keeps quiet (write_executions rows).
Proof. intros w. unfold write_executions. by destruct (write_account_executions_to_db _ _). Qed.
Lemma keeps_raise {A} ex : keeps quiet (praise ex : prog A).
Proof. done. Qed.

Ltac keeps_quiet :=
  repeat first
    [ progress intros | progress cbn zeta
    | apply keeps_fetch_trade | apply keeps_write | apply keeps_raise
    | apply keeps_ret; [apply _] | apply keeps_lift; [apply _] | apply keeps_read; [apply _]
    | apply keeps_catch; [apply _|..] | apply keeps_bind; [apply _|..]
    | match goal with |- keeps _ (match ?x with _ => _ end) => destruct x end ].

Lemma keeps_fallback `{Reports} token query_id f t fb : keeps quiet (fetch_trades_with_date_fallback token query_id f t fb).
Proof. unfold fetch_trades_with_date_fallback, query_default_or_period. keeps_quiet. Qed.

Lemma keeps_queries `{Reports} i n f t fb qs p : keeps quiet (fetch_queries i n f t fb qs p).
Proof.
  revert i p. induction qs as [|q qs IH]; intros i p; cbn [fetch_queries]; [keeps_quiet|].
  apply keeps_bind; [apply _| |intros p'; apply IH]. apply keeps_catch; [apply _| |keeps_quiet].
  apply keeps_bind; [apply _|apply keeps_fallback|keeps_quiet].
Qed.

Lemma tells_report `{CoreWriters, RunContext} qs f t mode days p : tells (report_trades qs f t mode days p).
Proof.
  unfold report_trades. destruct (data_span _) as [data_from data_to].
  destruct (p_rows p) as [|r rows].
  - destruct (p_errors p); apply tells_publish; by cbn.
  - apply tells_bind; [apply keeps_write|]. intros [|]; [|apply tells_publish; by cbn].
    apply tells_bind; [keeps_quiet|]. intros [c last]. cbn [negb]. apply tells_publish. by cbn.
Qed.

(** C23. Every trades run and every upload is told once: whatever the reads, the requests
    and the writes do, it ends with a summary and exactly one message is offered to the
    message center, [complete] when the summary says the run is ok and [failed] otherwise;
    the stream holds it afterwards where there is a URL and the stream takes it, and
    nothing else is added. The one exception is a configuration whose URL cannot be
    resolved: then every run raises that error, and sends nothing. *)
Theorem runs_told_once `{Reports, CoreWriters, RunContext} ready e g today body parse raw_xml w :
  Forall (λ run : prog pydict,
    match message_url with
    | Raise ex => (run w).1 = Raise ex ∧ w_messages (run w).2 = w_messages w
    | Ok _ => ∃ s, (run w).1 = Ok s ∧ told_by (w_messages w) (w_messages (run w).2) s
    end)
    [fetch_flex_trades_and_upsert_executions ready e g today body;
     upsert_executions_from_uploaded_flex_xml ready parse raw_xml].
Proof.
  repeat constructor.
  - unfold fetch_flex_trades_and_upsert_executions. destruct ready; cbn [negb]; [|by apply publish_told].
    apply tells_all. unfold trades_body.
    apply tells_bind; [keeps_quiet|]. intros []. apply tells_bind; [keeps_quiet|]. intros flex_list.
    destruct (queries flex_list) as [|q qs]; [apply tells_publish; by cbn|].
    do 2 (apply tells_bind; [keeps_quiet|]; intros ?).
    apply tells_bind; [keeps_quiet|]. intros [[[from_date to_date] mode] days].
    apply tells_bind; [apply keeps_queries|]. intros p. apply tells_report.
  - unfold upsert_executions_from_uploaded_flex_xml. destruct ready; cbn [negb]; [|by apply publish_told].
    apply tells_all. unfold upload_body. case_decide; [apply tells_publish; by cbn|].
    apply tells_bind; [keeps_quiet|]. intros [|r rows]; [apply tells_publish; by cbn|].
    apply tells_bind; [apply keeps_write|]. intros [|]; apply tells_publish; by cbn.
Qed.

(** ** Complete runs *)

Section complete.
Context `{Reports}.

(** Every query brought its report, in order, and these are all the rows. *)
Inductive all_fetched (from_date to_date : option string) (fb : bool) : world → list query → world → list row → Prop :=
| all_fetched_nil w : all_fetched from_date to_date fb w [] w []
| all_fetched_cons w q rest w1 w2 rows rows' used kind :
    fetch_trades_with_date_fallback (q_token q) (q_id q) from_date to_date fb w = (Ok (rows, used, kind), w1) →
    all_fetched from_date to_date fb w1 rest w2 rows' →
    all_fetched from_date to_date fb w (q :: rest) w2 (rows ++ rows').

Definition same_tables (w w' : world) : Prop :=
  w_transactions w' = w_transactions w ∧ w_executions w' = w_executions w.
#[local] Instance same_tables_refl : Reflexive same_tables.
Proof. done. Qed.
#[local] Instance same_tables_trans : Transitive same_tables.
Proof. intros w1 w2 w3 [? ?] [? ?]. split; congruence. Qed.

Lemma fallback_same_tables token query_id f t fb : keeps same_tables (fetch_trades_with_date_fallback token query_id f t fb).
Proof.
  assert (∀ rq, keeps same_tables (fetch_trade rq)) as Hf by done.
  assert (∀ A ex, keeps same_tables (praise ex : prog A)) as Hr by done.
  unfold fetch_trades_with_date_fallback, query_default_or_period.
  repeat first
    [ progress intros | progress cbn zeta | apply Hf | apply Hr | apply keeps_ret; [apply _]
    | apply keeps_catch; [apply _|..] | apply keeps_bind; [apply _|..]
    | match goal with |- keeps _ (match ?x with _ => _ end) => destruct x end ].
Qed.

Lemma fetch_queries_spec i n f t fb qs p w p' w' :
  fetch_queries i n f t fb qs p w = (Ok p', w') →
  same_tables w w' ∧ (∃ more, p_errors p' = p_errors p ++ more ∧ Forall (λ err, strip err ≠ "") more)
  ∧ (p_errors p' = p_errors p → ∃ rows, p_rows p' = p_rows p ++ rows ∧ all_fetched f t fb w qs w' rows).
Proof.
  revert i p w. induction qs as [|q qs IH]; intros i p w; cbn [fetch_queries].
  - intros [= <- <-]. split; [done|]. split; [exists []; by rewrite app_nil_r|]. intros _.
    exists []. rewrite app_nil_r. split; [done|constructor].
  - intros (p1 & w1 & Hq & Hrest)%prog_bind_ok. apply IH in Hrest as (Ht & (more & He & Hne) & Hall).
    unfold pcatch, mbind, prog_bind, mret, prog_ret, pret in Hq.
    pose proof (fallback_same_tables (q_token q) (q_id q) f t fb w) as Ht1.
    destruct (fetch_trades_with_date_fallback _ _ _ _ _ w) as [[[[rows used] kind]|ex] w0] eqn:Hf; cbn in Ht1.
    + injection Hq as <- <-. cbn in *. split; [by etrans|]. split; [by exists more|]. intros E.
      destruct (Hall E) as (rows' & -> & Hall'). exists (rows ++ rows'). rewrite app_assoc. split; [done|]. by econstructor.
    + destruct (is_value_error ex); [|done]. injection Hq as <- <-. cbn in *. split; [by etrans|]. split.
      * exists (query_error i n q ex :: more). split; [by rewrite He, <-app_assoc|]. constructor; [|done].
        by refine (strip_marked "" "F" _ _).
      * intros E. rewrite He, <-app_assoc in E. rewrite <-(app_nil_r (p_errors p)) in E at 2.
        by apply app_inv_head in E.
Qed.
End complete.

Lemma report_trades_judged `{PyRepr, CoreWriters, RunContext} qs f t mode days p w s w' label out :
  Forall (λ err, strip err ≠ "") (p_errors p) →
  report_trades qs f t mode days p w = (Ok s, w') → require_ok s label = Ok out →
  p_errors p = [] ∧ w_requests w' = w_requests w
  ∧ ((p_rows p = [] ∧ w_executions w' = w_executions w ∧ dict_get "inserted" out = PInt 0)
     ∨ (p_rows p ≠ [] ∧ write_account_executions_to_db (p_rows p) (w_executions w) = (Ok true, w_executions w')
        ∧ dict_get "inserted" out = PInt (Z.of_nat (length (p_rows p))))).
Proof.
  intros Hne. unfold report_trades. destruct (data_span _) as [data_from data_to].
  destruct (p_rows p) as [|r rows].
  - destruct (p_errors p) as [|err errors] eqn:He; intros (_ & -> & ->)%publish_then_ok; [|done]. intros Ho.
    apply (require_ok_judges _ _ _ true 0 []) in Ho as (_ & _ & Ho); try done. split_and!; auto.
  - set (all := r :: rows). intros (written & w1 & Hw & Hk)%prog_bind_ok.
    unfold write_executions in Hw. destruct (write_account_executions_to_db all (w_executions w)) as [wr x] eqn:Hwr.
    injection Hw as -> <-. destruct written; cbn [negb] in Hk; [|by apply publish_then_ok in Hk as (_ & -> & ->)].
    apply prog_bind_ok in Hk as ([c last] & w2 & [_ ->]%read_ok & Hk). apply publish_then_ok in Hk as (_ & -> & ->). intros Ho.
    apply (require_ok_judges _ _ _ true (Z.of_nat (length all)) (p_errors p)) in Ho as (_ & He & Ho); try done.
    split_and!; [done|done|]. right. by split_and!.
Qed.

(** A trades run the handler accepts is complete: every credential's query brought its
    report, all the rows of all of them were written, and as many are reported as
    inserted; a run where one credential failed, or where the writer refused, is a
    failed job. *)
Theorem accepted_trades_complete `{PyRepr, Reports, CoreWriters, RunContext} ready e g today body w s w' out :
  fetch_flex_trades_and_upsert_executions ready e g today body w = (Ok s, w') →
  require_ok s "flex-trades" = Ok out →
  let qs := queries (get_flex_config_purpose e g "trades") in
  ∃ from_date to_date w1 rows,
    qs ≠ [] ∧ all_fetched from_date to_date (fallback_arg body) w qs w1 rows ∧ w_requests w' = w_requests w1
    ∧ (is_Some from_date ∨ is_Some to_date)
    ∧ ((rows = [] ∧ w_executions w' = w_executions w ∧ dict_get "inserted" out = PInt 0)
       ∨ (rows ≠ [] ∧ write_account_executions_to_db rows (w_executions w) = (Ok true, w_executions w')
          ∧ dict_get "inserted" out = PInt (Z.of_nat (length rows)))).
Proof.
  intros Hrun Hok. cbn zeta. unfold fetch_flex_trades_and_upsert_executions in Hrun.
  destruct ready; cbn [negb] in Hrun; [|by apply publish_then_ok in Hrun as (_ & -> & ->)]. unfold pcatch in Hrun.
  destruct (trades_body _ _ _ _ _) as [[s0|ex] w0] eqn:Hb; [|by apply publish_then_ok in Hrun as (_ & -> & ->)].
  injection Hrun as -> ->. unfold trades_body in Hb.
  apply prog_bind_ok in Hb as ([] & w1 & [_ ->]%read_ok & Hb).
  apply prog_bind_ok in Hb as (flex_list & w1 & [-> ->]%read_ok & Hb).
  destruct (queries _) as [|q qs]; [by apply publish_then_ok in Hb as (_ & -> & ->)|].
  apply prog_bind_ok in Hb as (from0 & w1 & [Hf ->]%lift_ok & Hb).
  apply prog_bind_ok in Hb as (to0 & w1 & [Ht ->]%lift_ok & Hb).
  apply prog_bind_ok in Hb as ([[[from_date to_date] mode] days] & w1 & Hwin & Hb).
  assert (w1 = w ∧ (is_Some from_date ∨ is_Some to_date)) as [-> Hdates].
  { destruct from0 as [f|]; [injection Hwin as <- <- <- <- <-; split; [done|by left; eexists]|].
    destruct to0 as [t|]; [injection Hwin as <- <- <- <- <-; split; [done|by right; eexists]|].
    apply prog_bind_ok in Hwin as (stats & w2 & [-> ->]%read_ok & Hwin).
    apply prog_bind_ok in Hwin as ([dd di] & w2 & [_ ->]%read_ok & Hwin).
    apply prog_bind_ok in Hwin as ([[[start stop] m] n] & w2 & [_ ->]%lift_ok & Hwin).
    injection Hwin as <- <- <- <- <-. split; [done|by left; eexists]. }
  apply prog_bind_ok in Hb as (p & w2 & Hq & Hb).
  apply fetch_queries_spec in Hq as ([_ Hx] & (more & He & Hne) & Hall). cbn in He, Hall. subst more.
  eapply report_trades_judged in Hb as (He & Hreq & Hwrite); [|done..].
  destruct (Hall He) as (rows & Hrows & Hfetched). cbn in Hrows. subst rows. rewrite Hx in Hwrite.
  by exists from_date, to_date, w2, (p_rows p).
Qed.

(** ** Long outages *)

Lemma request_params_long token query_id a b :
  date_ok a = true → date_ok b = true → MAX_FLEX_DAYS < b - a →
  request_params token query_id (Some (strftime_ymd a)) (Some (strftime_ymd b)) None = Raise (Exn ValueError span_message).
Proof.
  intros Ha Hb Hab. unfold request_params.
  rewrite !given_ymd by done. cbn [andb default from_option Datatypes.id]. rewrite !ymd_strip by done.
  rewrite (proj1 (ymd_text_utake a Ha)), (proj1 (ymd_text_utake b Hb)), !strptime_strftime_ymd by done.
  cbn [mbind res_bind]. replace ((b * day_usec - a * day_usec) / day_usec) with (b - a).
  - replace (MAX_FLEX_DAYS <? b - a) with true by lia. done.
  - rewrite <-Z.mul_sub_distr_r, Z.div_mul; done.
Qed.

Section refused.
Context `{Reports} (from_date to_date : option string) (fb : bool) (ex : exn).
Context (Hval : is_value_error ex = true) (Hun : statement_unavailable ex = false).
Definition own (q : query) : request := mkRequest (q_token q) (q_id q) from_date to_date None.

(** Queries that are all refused for another reason than an unavailable statement. *)
Lemma fetch_queries_refused i n qs p w :
  (∀ log q, q ∈ qs → trade_report log (own q) = Raise ex) →
  ∃ p', fetch_queries i n from_date to_date fb qs p w
        = (Ok p', mkWorld (w_requests w ++ (own <$> qs)) (w_transactions w) (w_executions w) (w_messages w))
    ∧ p_rows p' = p_rows p ∧ (qs = [] → p' = p) ∧ (qs ≠ [] → p_errors p' ≠ []) ∧ (p_errors p ≠ [] → p_errors p' ≠ []).
Proof.
  revert i p w. induction qs as [|q qs IH]; intros i p w Hq; cbn [fetch_queries fmap list_fmap].
  - exists p. rewrite app_nil_r. by destruct w.
  - set (p1 := mkProgress (p_rows p) (p_errors p ++ [query_error i n q ex]) (p_counts p ++ [-1]) (p_queries p)).
    set (w1 := mkWorld (w_requests w ++ [own q]) (w_transactions w) (w_executions w) (w_messages w)).
    assert (fetch_trades_with_date_fallback (q_token q) (q_id q) from_date to_date fb w = (Raise ex, w1)) as Hf.
    { unfold fetch_trades_with_date_fallback, pcatch, mbind, prog_bind, fetch_trade. fold (own q).
      rewrite Hq by set_solver. fold w1. rewrite Hun. by destruct (_ && _ && _). }
    destruct (IH (i + 1) p1 w1) as (p' & Hp' & Hrows & _ & _ & Herr); [intros; apply Hq; set_solver|].
    exists p'. unfold mbind, prog_bind, pcatch. rewrite Hf, Hval. cbn. fold p1. rewrite Hp'. cbn.
    rewrite <-app_assoc. split; [done|]. split; [done|]. split; [done|].
    assert (p_errors p1 ≠ []) as Hne by (cbn; by destruct (p_errors p)). split; auto.
Qed.
End refused.

Lemma days_before_eq d n : n ≤ 999999999 → MIN_DATE ≤ d - n ≤ MAX_DATE → days_before d n = Ok (d - n).
Proof. intros Hn Hd. unfold days_before. replace (999999999 <? n) with false by lia. by rewrite date_add_ok by lia. Qed.

Lemma trades_window_incremental w newest default_days init_days today :
  max_date (flex_executions w) = Some newest → newest ≤ today - 1 → 1 ≤ default_days →
  let days := today - 1 - newest + default_days in
  days ≤ 999999999 → MIN_DATE ≤ today - 1 - days → today - 1 ≤ MAX_DATE →
  trades_window (get_flex_executions_stats w) default_days init_days today
  = Ok (today - 1 - days, today - 1, "incremental", days).
Proof.
  cbn zeta. intros Hmax Hnew Hd Hdays Hlo Hhi. unfold trades_window, get_flex_executions_stats. rewrite Hmax.
  rewrite days_before_eq by lia. cbn [mbind res_bind].
  replace (Z.of_nat (length (flex_executions w)) =? 0) with false
    by (symmetry; apply Z.eqb_neq; destruct (flex_executions w); [done|cbn; lia]).
  replace (Z.max 0 (today - 1 - newest) + default_days) with (today - 1 - newest + default_days) by lia.
  by rewrite days_before_eq by lia.
Qed.

(** C24. A trades window is one request: once the incremental window, from the newest stored
    execution less the default days to yesterday, is longer than 366 days, every run without
    dates is refused by the client itself. No network call is made, nothing is written and
    the run fails, with or without fallback, so it cannot catch up by itself: its summary
    says so, or the run raises because the URL of the message center cannot be resolved. *)
Theorem long_outage_never_recovers `{RunContext, CoreWriters, XmlParser, FlexWeb, PyRepr, ZoneDb} tz e g today body w newest :
  (∀ st, read_fault st = None) →
  date_arg "from_date" body = Ok None → date_arg "to_date" body = Ok None →
  let qs := queries (get_flex_config_purpose e g "trades") in
  let default_days := fst (get_flex_range_days g) in
  let days := today - 1 - newest + default_days in
  qs ≠ [] → max_date (flex_executions w) = Some newest → newest ≤ today - 1 →
  days_of_ymd (mkYmd 1000 1 1) ≤ today - 1 - days → date_ok today = true → days ≤ 999999999 → MAX_FLEX_DAYS < days →
  ∃ r w' sent, @fetch_flex_trades_and_upsert_executions (flex_reports tz) _ _ true e g today body w = (r, w')
    ∧ match r with Ok s => dict_get "ok" s = PBool false | Raise ex => message_url = Raise ex end
    ∧ w_executions w' = w_executions w
    ∧ w_requests w' = w_requests w ++ sent
    ∧ ∀ rq, rq ∈ sent →
        request_params (rq_token rq) (rq_query rq) (rq_from rq) (rq_to rq) (rq_period rq) = Raise (Exn ValueError span_message).
Proof.
  intros Hrf Hfrom Hto qs default_days days Hqs Hmax Hnew Hlo Hhi Hdays Hlong.
  assert (MIN_DATE ≤ days_of_ymd (mkYmd 1000 1 1)) as H1000 by (by vm_compute).
  unfold date_ok in Hhi. bool_hyps. assert (1 ≤ default_days) as Hd1 by apply get_range_ge_1.
  set (start := today - 1 - days). set (stop := today - 1).
  assert (date_ok start = true ∧ date_ok stop = true) as [Hs1 Hs2].
  { unfold date_ok, start, stop. split; apply andb_true_iff; split; lia. }
  pose proof (trades_window_incremental w newest default_days (snd (get_flex_range_days g)) today) as Hwin.
  cbn zeta in Hwin. ospecialize (Hwin _ _ _ _ _ _); [done|lia..|]. fold days start stop in Hwin.
  assert (∀ tok q, request_params tok q (Some (strftime_ymd start)) (Some (strftime_ymd stop)) None
                   = Raise (Exn ValueError span_message)) as Href.
  { intros tok q. apply request_params_long; [done..|]. unfold start, stop. lia. }
  destruct (@fetch_queries_refused (flex_reports tz) (Some (strftime_ymd start)) (Some (strftime_ymd stop)) (fallback_arg body)
              (Exn ValueError span_message) eq_refl eq_refl 0 (Z.of_nat (length qs)) qs (mkProgress [] [] [] []) w)
    as (p & Hp & Hrows & _ & Herr & _).
  { intros log q _. change (FlexClient.fetch_trades tz (q_token q) (q_id q) (Some (strftime_ymd start)) (Some (strftime_ymd stop)) None
      = Raise (Exn ValueError span_message)).
    unfold FlexClient.fetch_trades, request_report. by rewrite Href. }
  unfold fetch_flex_trades_and_upsert_executions. cbn [negb].
  assert (∃ r w', @trades_body (flex_reports tz) _ _ e g today body w = (r, w') ∧ failing r
    ∧ w_executions w' = w_executions w
    ∧ w_requests w' = w_requests w ++ (own (Some (strftime_ymd start)) (Some (strftime_ymd stop)) <$> qs)) as (r & w' & Hb & Hok & Hx & Hr).
  { unfold trades_body. rewrite (prog_bind_eq _ _ _ _ _ (read_eq _ _ _ (Hrf _))), (prog_bind_eq _ _ _ _ _ (read_eq _ _ _ (Hrf _))).
    fold qs. destruct qs as [|q qs']; [done|]. rewrite Hfrom, Hto.
    do 2 erewrite prog_bind_eq by reflexivity.
    erewrite prog_bind_eq; [|erewrite prog_bind_eq by (by apply read_eq); erewrite prog_bind_eq by (by apply read_eq)].
    2:{ rewrite (surjective_pairing (get_flex_range_days g)). fold default_days. cbv beta iota.
        erewrite prog_bind_eq by (unfold lift; rewrite Hwin; reflexivity). reflexivity. }
    cbv beta iota. erewrite prog_bind_eq by exact Hp. unfold report_trades. destruct (data_span _). rewrite Hrows. cbn [p_rows].
    specialize (Herr ltac:(done)). destruct (p_errors p); [done|].
    edestruct publish_failing as (r & w' & -> & Hr & Hreq & _ & Hx & _); [|exists r, w'; by split_and!]. done. }
  edestruct (catch_failing _ "Flex executions fetch failed" _ _ _ Hb Hok) as (r' & w'' & -> & Hf & Hreq & _ & Hx' & _).
  exists r', w'', (own (Some (strftime_ymd start)) (Some (strftime_ymd stop)) <$> qs).
  split_and!; [done|done|congruence|congruence|].
  intros rq (q & -> & _)%list_elem_of_fmap. apply Href.
Qed.

(** Without credentials nothing is asked and nothing is retried: a run of either kind
    that finds no usable token and query id sends no request, leaves the tables alone,
    and fails with the missing-credentials message, which the retry policy reads as a
    configuration error and gives up on at the first attempt. *)
Theorem no_credentials_give_up `{PyRepr, Reports, CoreWriters, RunContext, ZoneDb} session_tz e g today body w
    attempts max_attempts policy :
  (∀ st, read_fault st = None) → is_ok message_url = true →
  (usable (get_flex_config_purpose e g "cash_transactions") = [] →
     ∃ s ex, fetch_cash_transactions_from_flex session_tz true e g today body w = (Ok s, w)
       ∧ require_ok s "flex-transactions" = Raise ex
       ∧ retry (plan_retry (classify_flex_error (exn_str ex)) attempts max_attempts policy) = false)
  ∧ (queries (get_flex_config_purpose e g "trades") = [] →
     ∃ s w' ex, fetch_flex_trades_and_upsert_executions true e g today body w = (Ok s, w')
       ∧ w_requests w' = w_requests w ∧ w_executions w' = w_executions w ∧ w_transactions w' = w_transactions w
       ∧ require_ok s "flex-trades" = Raise ex
       ∧ retry (plan_retry (classify_flex_error (exn_str ex)) attempts max_attempts policy) = false).
Proof.
  intros Hrf Hurl. split; intros Hu.
  - eexists _, _. split.
    + unfold fetch_cash_transactions_from_flex, pcatch, run_body. cbn [negb].
      do 2 rewrite (prog_bind_eq _ _ _ _ _ (read_eq _ _ _ (Hrf _))). rewrite Hu. reflexivity.
    + split; [reflexivity|]. cbn [exn_str]. assert (classify_flex_error no_cash_credentials = CONFIG) as Hc by (by vm_compute).
      change (py_str _) with no_cash_credentials. by rewrite Hc.
  - edestruct (publish_failing "Flex executions fetch failed" no_trades_credentials (Some "no flex trades credentials") "error"
      (failed_summary no_trades_credentials) w) as (r & w' & Hp & _ & Hr & Ht & Hx & Hok); [done|]. rewrite (Hok Hurl) in Hp.
    eexists _, w', _. split.
    + unfold fetch_flex_trades_and_upsert_executions, pcatch, trades_body. cbn [negb].
      do 2 rewrite (prog_bind_eq _ _ _ _ _ (read_eq _ _ _ (Hrf _))). rewrite Hu, Hp. reflexivity.
    + do 3 (split; [done|]). split; [reflexivity|]. cbn [exn_str].
      assert (classify_flex_error no_trades_credentials = CONFIG) as Hc by (by vm_compute).
      change (py_str _) with no_trades_credentials. by rewrite Hc.
Qed.

(** The two runs as the orchestrations the handlers call, in the world they find. *)
Definition flex_orchestrations `{Reports, CoreWriters, RunContext, ZoneDb} (session_tz : option string) (ready : bool)
    (e : env) (g : golden) (today : Z) (w : world) : Orchestrations := {|
  fetch_flex_trades := λ payload, (fetch_flex_trades_and_upsert_executions ready e g today payload w).1;
  Handlers.fetch_cash_transactions := λ payload, (fetch_cash_transactions_from_flex session_tz ready e g today payload w).1
|}.

(** ** Concrete runs *)

Section example_run.
Definition trades_run (w : world) : res pydict * world :=
  @fetch_flex_trades_and_upsert_executions sample_reports sample_writers sample_faults true sample_env sample_golden 20601 scheduled_body w.
(** The newest execution is 400 days old. *)
Definition stale_world : world := mkWorld [] [] [mkExecution (Some "U1") (Some 20200) (Some "flex_trades")] [].
Definition recent_world : world := mkWorld [] [] [mkExecution (Some "U1") (Some 20598) (Some "flex_trades")] [].
(** A network that cannot be reached. *)
Definition sample_web : FlexWeb := {|
  send_request := λ _, Raise (Exn URLError "unreachable");
  get_statement_answer := λ _ _, Raise (Exn URLError "unreachable")
|}.
Definition sample_parser : XmlParser := λ _, inr "no element found".
End example_run.

Lemma fetch_trades_fallback_spec_witness :
  ∃ asked, w_requests (@fetch_trades_with_date_fallback sample_reports "tok" "333" (Some "20260101") (Some "20260201") true recent_world).2
      = [] ++ asked
    ∧ Forall no_rows (removelast (@answers sample_reports [] asked)).
Proof.
  destruct (@fetch_trades_with_date_fallback sample_reports "tok" "333" (Some "20260101") (Some "20260201") true recent_world)
    as [r w'] eqn:E.
  destruct (@fetch_trades_fallback_spec sample_reports "tok" "333" (Some "20260101") (Some "20260201") true recent_world r w' E)
    as (asked & Hw & _ & _ & _ & Hno & _).
  exists asked. split; [exact Hw|exact Hno].
Defined.

Lemma trades_window_spec_witness :
  ∃ start, trades_window (get_flex_executions_stats recent_world) 30 360 20601 = Ok (start, 20600, "incremental", 32)
    ∧ start = Z.min 20598 20600 - 30.
Proof.
  assert (trades_window (get_flex_executions_stats recent_world) 30 360 20601 = Ok (20568, 20600, "incremental", 32)) as E
    by (vm_compute; reflexivity).
  exists 20568. split; [exact E|].
  destruct (trades_window_spec recent_world 30 360 20601 _ _ _ _ ltac:(lia) ltac:(lia) E) as (_ & _ & _ & _ & _ & Hm).
  destruct (Hm ltac:(discriminate)) as (x & newest & Hx & Hn & _ & -> & _).
  apply list_elem_of_filter in Hx as [_ Hx%list_elem_of_singleton]. subst x. injection Hn as <-. reflexivity.
Defined.

Lemma accepted_trades_complete_witness :
  ∃ from_date to_date w1 rows,
    @all_fetched sample_reports from_date to_date false recent_world
      (queries (get_flex_config_purpose sample_env sample_golden "trades")) w1 rows.
Proof.
  assert (∃ s out, @fetch_flex_trades_and_upsert_executions sample_reports sample_writers sample_faults
                 true sample_env sample_golden 20601 scheduled_body recent_world = (Ok s, (trades_run recent_world).2)
    ∧ @require_ok sample_text s "flex-trades" = Ok out) as (s & out & Hs & Ho).
  { eexists _, _. split; [vm_compute; reflexivity|vm_compute; reflexivity]. }
  destruct (@accepted_trades_complete sample_text sample_reports sample_writers sample_faults
              true sample_env sample_golden 20601 scheduled_body recent_world s (trades_run recent_world).2 out Hs Ho)
    as (f & t & w1 & rows & _ & Hf & _).
  exists f, t, w1, rows. exact Hf.
Defined.

Lemma long_outage_never_recovers_witness :
  ∃ s w', @fetch_flex_trades_and_upsert_executions
      (@flex_reports sample_parser sample_web sample_text sample_zones "America/New_York") sample_writers sample_faults
      true sample_env sample_golden 20601 scheduled_body stale_world = (Ok s, w')
    ∧ dict_get "ok" s = PBool false ∧ w_executions w' = w_executions stale_world.
Proof.
  destruct (@long_outage_never_recovers sample_faults sample_writers sample_parser sample_web sample_text sample_zones
              "America/New_York" sample_env sample_golden 20601 scheduled_body stale_world 20200
              (λ _, eq_refl) eq_refl eq_refl) as (r & w' & sent & Hrun & Hok & Hx & _);
    [by vm_compute|by vm_compute|by vm_compute|by vm_compute|by vm_compute|by vm_compute|by vm_compute|].
  destruct r as [s|ex]; [|discriminate Hok].
  exists s, w'. split; [exact Hrun|]. split; [exact Hok|exact Hx].
Defined.

Lemma no_credentials_give_up_witness :
  ∃ s ex, @fetch_cash_transactions_from_flex sample_reports sample_writers sample_faults sample_zones None true
      (mkEnv "" " " "") sample_golden 20601 [] sample_world = (Ok s, sample_world)
    ∧ @require_ok sample_text s "flex-transactions" = Raise ex
    ∧ retry (plan_retry (classify_flex_error (exn_str ex)) 1 8 default_policy) = false.
Proof.
  refine (proj1 (@no_credentials_give_up sample_text sample_reports sample_writers sample_faults sample_zones None
                   (mkEnv "" " " "") sample_golden 20601 [] sample_world 1 8 default_policy (λ _, eq_refl) eq_refl) _).
  vm_compute. reflexivity.
Defined.
