(* ===== verification/Cron.v ===== *)
(** * Cron plans ([scheduler/cronutil.py])

    Fields are parsed to sets of numbers ([None] for a star); the fires of a cron in a
    window are found by walking it minute by minute. Instants are microseconds of
    UTC, which is what every caller passes. *)
From Stdlib Require Import Ascii.
From S2P Require Import Prelude Pytext Pytime.

(** ** Parsing *)

Definition int_or_raise (s : string) : res Z :=
  match int_of_str s with
  | Some n => Ok n
  | None => Raise (Exn ValueError ("invalid literal for int() with base 10: " +:+ s))
  end.

(** [p.split("-", 1)], when there is a dash. *)
Fixpoint split_first (c : ascii) (s : string) : option (string * string) :=
  match s with
  | "" => None
  | String a r =>
      if decide (a = c) then Some ("", r)
      else match split_first c r with Some (x, y) => Some (String a x, y) | None => None end
  end.

Definition parse_part (part : string) (minimum maximum : Z) : res (gset Z) :=
  let p := strip part in
  if startswith "*/" p then
    step ← int_or_raise (udrop 2 p);
    if step <=? 0 then Raise (Exn ValueError ("invalid step in cron field: " +:+ part))
    else Ok (list_to_set (filter (λ v, v mod step = 0) (seqZ minimum (maximum + 1 - minimum))))
  else
    match split_first "-" p with
    | Some (a, b) => x ← int_or_raise a; y ← int_or_raise b; Ok (list_to_set (seqZ x (y + 1 - x)))
    | None => n ← int_or_raise p; Ok {[ n ]}
    end.

Definition parse_field (field : string) (minimum maximum : Z) : res (option (gset Z)) :=
  let f := strip field in
  if decide (f = "*") then Ok None
  else Some <$> fold_res (λ out part, (λ s, out ∪ s) <$> parse_part part minimum maximum) ∅ (split_on "," f).

(** Minutes, hours, days of the week: the day-of-month and month fields are read past. *)
Record cron_plan := mkCron {
  cron_minutes : option (gset Z);
  cron_hours : option (gset Z);
  cron_dows : option (gset Z)
}.

Definition parse_cron (expr : string) : res cron_plan :=
  match split_ws (strip expr) with
  | [minute_s; hour_s; _; _; dow_s] =>
      minutes ← parse_field minute_s 0 59;
      hours ← parse_field hour_s 0 23;
      dows ← parse_field dow_s 0 6;
      Ok (mkCron minutes hours dows)
  | _ => Raise (Exn ValueError ("expected 5-field cron, got " +:+ expr))
  end.

(** ** Matching *)

Definition MINUTE : Z := 60000000.

Definition in_field (f : option (gset Z)) (v : Z) : bool :=
  match f with None => true | Some s => bool_decide (v ∈ s) end.

(** Sunday is 0, Monday 1. *)
Definition cron_dow (w : Z) : Z :=
  if weekday (date_of w) =? 6 then 0 else weekday (date_of w) + 1.

(** [_matches], on a wall-clock reading. *)
Definition matches (w : Z) (c : cron_plan) : bool :=
  in_field (cron_minutes c) (wall_minute w) && in_field (cron_hours c) (wall_hour w)
  && in_field (cron_dows c) (cron_dow w).

(** ** Fires *)

Section fires.
Context `{ZoneDb}.

(** [while cur < end]; [fuel] bounds the number of rounds. *)
Fixpoint fires_loop (fuel : nat) (zone : option string) (c : cron_plan) (cur end_ : Z) : list Z :=
  match fuel with
  | O => []
  | S fuel' =>
      if cur <? end_ then
        if matches (to_wall zone cur) c then cur :: fires_loop fuel' zone c (cur + MINUTE) end_
        else fires_loop fuel' zone c (cur + MINUTE) end_
      else []
  end.

(** The first whole minute at or after [start]. *)
Definition first_minute (start : Z) : Z :=
  let cur := start / MINUTE * MINUTE in
  if cur <? start then cur + MINUTE else cur.

Definition rounds (cur end_ : Z) : nat := Z.to_nat ((end_ - cur + MINUTE - 1) / MINUTE).

Definition iter_cron_fires (expr : string) (start end_ : Z) (tz : option string) : res (list Z) :=
  c ← parse_cron expr;
  zone ← get_zone tz;
  let cur := first_minute start in
  Ok (fires_loop (rounds cur end_) zone c cur end_).

Definition next_fires (expr : string) (after count horizon_days : Z) (tz : option string) : res (list Z) :=
  take (Z.to_nat (Z.max 0 count)) <$>
    iter_cron_fires expr (after + MINUTE) (after + horizon_days * day_usec) tz.

Definition previous_fire (expr : string) (before lookback_days : Z) (tz : option string) : res (option Z) :=
  last <$> iter_cron_fires expr (before - lookback_days * day_usec) before tz.

Definition iso_z (dt : option Z) : option string := iso_instant <$> dt.

(** What a fire of [expr] in [tz] is: a whole minute whose wall clock matches. *)
Definition fires_at (c : cron_plan) (tz : option string) (t : Z) : Prop :=
  t mod MINUTE = 0 ∧ matches (to_wall tz t) c = true.

#[global] Instance fires_at_dec c tz t : Decision (fires_at c tz t).
Proof. unfold fires_at. apply _. Defined.

Lemma first_minute_spec start t :
  t mod MINUTE = 0 → first_minute start ≤ t ↔ start ≤ t.
Proof.
  intros Ht. unfold first_minute. change MINUTE with 60000000 in *.
  destruct (_ <? start) eqn:E; bool_hyps; Z.to_euclidean_division_equations; lia.
Qed.

Lemma first_minute_aligned start : first_minute start mod MINUTE = 0.
Proof.
  unfold first_minute. case_match; [rewrite <-Z.mul_succ_l|]; apply Z.mod_mul; done.
Qed.

Lemma fires_loop_elem n zone c cur end_ t :
  cur mod MINUTE = 0 → (Z.to_nat ((end_ - cur + MINUTE - 1) / MINUTE) ≤ n)%nat →
  t ∈ fires_loop n zone c cur end_ ↔ fires_at c zone t ∧ cur ≤ t < end_.
Proof.
  revert cur. induction n as [|n IH]; intros cur Hcur Hn; cbn [fires_loop].
  - split; [set_solver|]. change MINUTE with 60000000 in *. Z.to_euclidean_division_equations. lia.
  - destruct (cur <? end_) eqn:Hlt; bool_hyps; [|split; [set_solver|lia]].
    assert ((cur + MINUTE) mod MINUTE = 0) as Hcur'.
    { change MINUTE with 60000000 in *. Z.to_euclidean_division_equations. lia. }
    assert (Z.to_nat ((end_ - (cur + MINUTE) + MINUTE - 1) / MINUTE) ≤ n)%nat as Hn'.
    { change MINUTE with 60000000 in *. Z.to_euclidean_division_equations. lia. }
    specialize (IH (cur + MINUTE) Hcur' Hn').
    assert (∀ P : Prop, (P ↔ t = cur ∧ fires_at c zone cur ∨ fires_at c zone t ∧ cur + MINUTE ≤ t < end_) →
              (P ↔ fires_at c zone t ∧ cur ≤ t < end_)) as Hstep.
    { intros P ->. split; [intros [(-> & ? & ?)|(? & ?)]|intros [Hf Ht]].
      - split; [done|lia].
      - split; [done|]. change MINUTE with 60000000 in *. lia.
      - destruct (decide (t = cur)) as [->|Hne]; [by left|right]. split; [done|].
        destruct Hf as [Hf _]. change MINUTE with 60000000 in *. Z.to_euclidean_division_equations. lia. }
    apply Hstep. destruct (matches (to_wall zone cur) c) eqn:Hm.
    + rewrite elem_of_cons, IH. unfold fires_at. rewrite Hm. tauto.
    + rewrite IH. unfold fires_at at 2. rewrite Hm. split; [tauto|]. intros [(_ & _ & [=])|?]. done.
Qed.

Lemma fires_loop_sorted n zone c cur end_ :
  StronglySorted Z.lt (fires_loop n zone c cur end_)
  ∧ ∀ t, t ∈ fires_loop n zone c cur end_ → cur ≤ t.
Proof.
  revert cur. induction n as [|n IH]; intros cur; cbn [fires_loop]; [split; [constructor|set_solver]|].
  destruct (cur <? end_); [|split; [constructor|set_solver]].
  destruct (IH (cur + MINUTE)) as [Hs Hle].
  destruct (matches _ _).
  - split; [constructor; [done|]; apply Forall_forall|intros t [->|?]%elem_of_cons; [done|]];
      [intros t ?%Hle|apply Hle in H0]; change MINUTE with 60000000 in *; lia.
  - split; [done|]. intros t ?%Hle. change MINUTE with 60000000 in *; lia.
Qed.

Lemma iter_inv expr start end_ tz l :
  iter_cron_fires expr start end_ tz = Ok l →
  ∃ c, parse_cron expr = Ok c ∧ StronglySorted Z.lt l
    ∧ ∀ t, t ∈ l ↔ fires_at c tz t ∧ start ≤ t < end_.
Proof.
  unfold iter_cron_fires. intros Hi. inv_res.
  match goal with H : parse_cron _ = Ok ?c |- _ => exists c; split; [done|]; rename c into p end.
  assert (tz = x0) as <-. { unfold get_zone in *. repeat case_match; by simplify_eq. }
  split; [apply fires_loop_sorted|]. intros t.
  rewrite fires_loop_elem by (done || apply first_minute_aligned).
  split; (intros [[Ha Hm] Ht]; split; [by split|]); rewrite first_minute_spec in *; done.
Qed.
End fires.

(** ** The grammar of a field *)

(** [*/n], [a-b], [n]; a field is a star or a comma-separated list of them. *)
Inductive cron_atom := AStep (n : Z) | ARange (a b : Z) | AOne (n : Z).

Definition atom_text (x : cron_atom) : string :=
  match x with
  | AStep n => "*/" +:+ str_of_Z n
  | ARange a b => str_of_Z a +:+ "-" +:+ str_of_Z b
  | AOne n => str_of_Z n
  end.

Definition field_text (f : option (list cron_atom)) : string :=
  match f with None => "*" | Some l => join "," (atom_text <$> l) end.

(** Numbers are written without a sign, a step is positive, a list is not empty. *)
Definition atom_wf (x : cron_atom) : Prop :=
  match x with AStep n => 0 < n | ARange a b => 0 ≤ a ∧ 0 ≤ b | AOne n => 0 ≤ n end.
Definition field_wf (f : option (list cron_atom)) : Prop :=
  match f with None => True | Some l => l ≠ [] ∧ Forall atom_wf l end.

(** The values a field stands for. *)
Definition atom_means (lo hi : Z) (x : cron_atom) (v : Z) : Prop :=
  match x with
  | AStep n => lo ≤ v ≤ hi ∧ v mod n = 0
  | ARange a b => a ≤ v ≤ b
  | AOne n => v = n
  end.
Definition field_means (lo hi : Z) (f : option (list cron_atom)) (v : Z) : Prop :=
  match f with None => True | Some l => Exists (λ x, atom_means lo hi x v) l end.

Lemma int_or_raise_nonneg n : 0 ≤ n → int_or_raise (str_of_Z n) = Ok n.
Proof. intros. unfold int_or_raise. by rewrite int_of_str_nonneg. Qed.

Lemma split_first_word c w s : char_free c w = true → split_first c (w +:+ String c s) = Some (w, s).
Proof.
  unfold char_free. induction w as [|d w IH]; intros Hw.
  - change ("" +:+ ?x) with x. cbn [split_first]. by rewrite decide_True.
  - simpl in Hw. bool_hyps. rewrite append_cons. cbn [split_first]. by rewrite decide_False, IH.
Qed.

Lemma split_first_none c w : char_free c w = true → split_first c w = None.
Proof.
  unfold char_free. induction w as [|d w IH]; intros Hw; [done|]. simpl in Hw. bool_hyps.
  cbn [split_first]. by rewrite decide_False, IH.
Qed.

(** Digits, for the texts of atoms. *)
Lemma nat_text n : 0 ≤ n → ∃ c r, str_of_Z n = String c r ∧ is_digit c = true ∧ str_forallb is_digit r = true.
Proof.
  intros Hn. destruct (str_of_nonneg n Hn) as (Hd & Hne & _).
  destruct (str_of_Z n) as [|c r]; [done|]. simpl in Hd. bool_hyps. eauto.
Qed.

Lemma atom_text_free x : atom_wf x → space_free (atom_text x) = true ∧ char_free "," (atom_text x) = true.
Proof.
  assert (∀ n, 0 ≤ n → space_free (str_of_Z n) = true ∧ char_free "," (str_of_Z n) = true) as Hn.
  { intros n Hn. destruct (str_of_nonneg n Hn) as (Hd & _). auto using digits_space_free, digits_free. }
  unfold space_free, char_free in *.
  destruct x as [n|a b|n]; cbn [atom_wf atom_text]; intros Hwf; rewrite ?str_forallb_app.
  - destruct (Hn n) as [-> ->]; [lia|done].
  - destruct (Hn a) as [-> ->]; [lia|]. destruct (Hn b) as [-> ->]; [lia|done].
  - by apply Hn.
Qed.

Lemma digit_not c d : is_digit c = true → is_digit d = false → c ≠ d.
Proof. congruence. Qed.

Lemma startswith_star_digits c r : is_digit c = true → startswith "*/" (String c r) = false.
Proof. intros Hc. cbn [startswith]. by rewrite decide_False by (intros <-; done). Qed.

Lemma udrop_ascii2 (s : string) : udrop 2 ("*/" +:+ s) = udrop 0 s.
Proof. done. Qed.

Lemma parse_part_text lo hi x :
  atom_wf x → ∃ s, parse_part (atom_text x) lo hi = Ok s ∧ ∀ v, v ∈ s ↔ atom_means lo hi x v.
Proof.
  intros Hwf. destruct (atom_text_free x Hwf) as [Hsp _]. unfold parse_part.
  rewrite strip_space_free by done. destruct x as [n|a b|n]; cbn [atom_wf atom_text atom_means] in *.
  - rewrite startswith_app, udrop_ascii2. destruct (nat_text n) as (c & r & En & Hc & _); [lia|].
    assert (udrop 0 (str_of_Z n) = str_of_Z n) as ->.
    { rewrite En. destruct c as [[] [] [] [] [] [] [] []]; done. }
    rewrite int_or_raise_nonneg by lia. cbn. rewrite (proj2 (Z.leb_gt n 0)) by lia. eexists. split; [done|].
    intros v. rewrite elem_of_list_to_set, list_elem_of_filter, elem_of_seqZ. lia.
  - destruct Hwf as [Ha Hb]. destruct (nat_text a Ha) as (c & r & En & Hc & Hr).
    assert (startswith "*/" (str_of_Z a +:+ "-" +:+ str_of_Z b) = false) as ->
      by (rewrite En, append_cons; by apply startswith_star_digits).
    assert (char_free "-" (str_of_Z a) = true) as Hf by (apply digits_free; [done|by apply str_of_nonneg]).
    change ("-" +:+ str_of_Z b) with (String "-" (str_of_Z b)). rewrite split_first_word by done.
    rewrite !int_or_raise_nonneg by done. cbn. eexists. split; [done|].
    intros v. rewrite elem_of_list_to_set, elem_of_seqZ. lia.
  - destruct (nat_text n Hwf) as (c & r & En & Hc & Hr). 
    assert (startswith "*/" (str_of_Z n) = false) as -> by (rewrite En; by apply startswith_star_digits).
    rewrite split_first_none by (apply digits_free; [done|by apply str_of_nonneg]).
    rewrite int_or_raise_nonneg by done. cbn. eexists. split; [done|]. set_solver.
Qed.

Lemma parse_field_text lo hi f :
  field_wf f → ∃ s, parse_field (field_text f) lo hi = Ok s ∧ ∀ v, in_field s v = true ↔ field_means lo hi f v.
Proof.
  destruct f as [l|]; cbn [field_wf field_text field_means]; [|intros _; by exists None].
  intros [Hne Hwf].
  assert (forallb (char_free ",") (atom_text <$> l) = true ∧ space_free (join "," (atom_text <$> l)) = true
          ∧ join "," (atom_text <$> l) ≠ "*") as (Hcf & Hsp & Hstar).
  { clear lo hi. unfold space_free. split_and!.
    - clear Hne. induction Hwf as [|x l Hx Hl IH]; [done|]. cbn. rewrite IH, andb_true_r. by apply atom_text_free.
    - clear Hne. induction Hwf as [|x l Hx Hl IH]; [done|]. pose proof (proj1 (atom_text_free x Hx)) as Hs.
      unfold space_free in Hs. destruct l; [exact Hs|]. cbn [fmap list_fmap join] in *. by rewrite !str_forallb_app, Hs, IH.
    - destruct l as [|x l]; [done|]. inversion Hwf as [|?? Hx _]; subst.
      assert (∃ c r, atom_text x = String c r ∧ (c = "*"%char → r ≠ "")) as (c & r & Ex & Hr).
      { destruct x as [n|a b|n]; cbn [atom_wf atom_text] in *; [by eexists _, _|..].
        - destruct (nat_text a) as (c & r & -> & Hc & _); [lia|]. rewrite append_cons.
          eexists _, _. split; [done|]. intros ->. done.
        - destruct (nat_text n) as (c & r & -> & Hc & _); [lia|]. eexists _, _. split; [done|]. intros ->. done. }
      cbn [fmap list_fmap]. destruct (atom_text <$> l) eqn:El; cbn [join]; rewrite Ex, ?append_cons.
      + intros [= -> ->]. by apply Hr.
      + intros [= -> E]. destruct r; [by apply Hr|]. by rewrite append_cons in E. }
  unfold parse_field. rewrite strip_space_free, decide_False, split_on_join by (try done; by destruct l).
  cut (∀ acc : gset Z, ∃ s, fold_res (λ out part, (λ s, out ∪ s) <$> parse_part part lo hi) acc (atom_text <$> l) = Ok s
         ∧ ∀ v, v ∈ s ↔ v ∈ acc ∨ Exists (λ x, atom_means lo hi x v) l).
  { intros H. destruct (H ∅) as (s & -> & Hs). exists (Some s). split; [done|]. intros v. cbn.
    rewrite bool_decide_eq_true, Hs. set_solver. }
  clear -Hwf. induction Hwf as [|x l Hx Hl IH]; intros acc; cbn [fmap list_fmap fold_res].
  - exists acc. split; [done|]. intros v. rewrite Exists_nil. tauto.
  - destruct (parse_part_text lo hi x Hx) as (sx & -> & Hsx). cbn.
    destruct (IH (acc ∪ sx)) as (s & -> & Hs). exists s. split; [done|].
    intros v. rewrite Hs, Exists_cons, elem_of_union, Hsx. tauto.
Qed.

Lemma field_text_word f :
  field_wf f → space_free (field_text f) && negb (bool_decide (field_text f = "")) = true.
Proof.
  destruct f as [l|]; [|done]. cbn [field_wf field_text]. intros [Hne Hwf]. apply andb_true_iff. split.
  - clear Hne. induction Hwf as [|x l Hx Hl IH]; [done|]. pose proof (proj1 (atom_text_free x Hx)) as Hs.
    unfold space_free in *. destruct l; [exact Hs|]. cbn [fmap list_fmap join] in *. by rewrite !str_forallb_app, Hs, IH.
  - apply negb_true_iff, bool_decide_eq_false. destruct l as [|x l]; [done|]. inversion Hwf as [|?? Hx _]; subst.
    assert (∃ c r, atom_text x = String c r) as (c & r & Ex).
    { destruct x as [n|a b|n]; cbn [atom_wf atom_text] in *; [by eexists _, _|..].
      - destruct (nat_text a) as (c & r & -> & _); [lia|]. rewrite append_cons. eauto.
      - destruct (nat_text n) as (c & r & -> & _); [lia|]. eauto. }
    cbn [fmap list_fmap]. destruct (atom_text <$> l); cbn [join]; rewrite Ex, ?append_cons; done.
Qed.

(** ** Theorems *)

(** C31. A cron written in the grammar is read as what it means: it matches a moment
    exactly when each of the minute, hour and weekday fields stands for the moment's
    (Sunday 0), whatever the day-of-month and month fields say. *)
Theorem parse_cron_text m h dom mon dow :
  field_wf m → field_wf h → field_wf dow →
  dom ≠ "" → mon ≠ "" → space_free dom = true → space_free mon = true →
  ∃ c, parse_cron (join " " [field_text m; field_text h; dom; mon; field_text dow]) = Ok c
    ∧ ∀ w, matches w c = true ↔
        field_means 0 59 m (wall_minute w) ∧ field_means 0 23 h (wall_hour w) ∧ field_means 0 6 dow (cron_dow w).
Proof.
  intros Hm Hh Hd Hdn Hmn Hds Hms. unfold parse_cron. rewrite split_ws_strip, split_ws_join.
  - destruct (parse_field_text 0 59 m Hm) as (sm & -> & Em), (parse_field_text 0 23 h Hh) as (sh & -> & Eh),
      (parse_field_text 0 6 dow Hd) as (sd & -> & Ed).
    eexists. split; [done|]. intros w. unfold matches. cbn [cron_minutes cron_hours cron_dows].
    rewrite !andb_true_iff, Em, Eh, Ed. tauto.
  - cbn [forallb]. rewrite !field_text_word, Hds, Hms by done.
    by rewrite (bool_decide_eq_false_2 (dom = "")), (bool_decide_eq_false_2 (mon = "")).
Qed.

Lemma parse_cron_text_witness :
  ∃ c, parse_cron "30 6 * * 1-6" = Ok c
    ∧ ∀ w, matches w c = true ↔
        field_means 0 59 (Some [AOne 30]) (wall_minute w) ∧ field_means 0 23 (Some [AOne 6]) (wall_hour w)
        ∧ field_means 0 6 (Some [ARange 1 6]) (cron_dow w).
Proof.
  apply (parse_cron_text (Some [AOne 30]) (Some [AOne 6]) "*" "*" (Some [ARange 1 6]));
    first [done | split; [done|]; repeat constructor; done].
Defined.

Section theorems.
Context `{ZoneDb}.

(** C30. The planned fires of a window: the listing fails exactly when the expression
    or the zone does; otherwise it lists, in order, every whole minute of the
    window whose wall clock in the zone matches, and nothing else. *)
Theorem iter_cron_fires_spec expr start end_ tz :
  match parse_cron expr, get_zone tz with
  | Ok c, Ok _ => ∃ l, iter_cron_fires expr start end_ tz = Ok l ∧ StronglySorted Z.lt l
      ∧ ∀ t, t ∈ l ↔ fires_at c tz t ∧ start ≤ t < end_
  | Raise e, _ | _, Raise e => iter_cron_fires expr start end_ tz = Raise e
  end.
Proof.
  destruct (parse_cron expr) as [c|e] eqn:Hp; [destruct (get_zone tz) as [z|e] eqn:Hz|].
  - assert (is_ok (iter_cron_fires expr start end_ tz)) as Hok
      by (unfold iter_cron_fires; rewrite Hp, Hz; done).
    destruct (iter_cron_fires expr start end_ tz) as [l|] eqn:Hi; [|done].
    apply iter_inv in Hi as (c' & Hp' & Hs & Hl). rewrite Hp in Hp'. simplify_eq. eauto.
  - unfold iter_cron_fires. by rewrite Hp, Hz.
  - unfold iter_cron_fires. by rewrite Hp.
Qed.

Lemma sorted_last (l : list Z) t :
  StronglySorted Z.lt l → last l = Some t → t ∈ l ∧ ∀ t', t' ∈ l → t' ≤ t.
Proof.
  induction 1 as [|x l Hs IH Hx]; [done|]. destruct l as [|y l].
  - intros [= <-]. split; [set_solver|]. intros t' ->%list_elem_of_singleton. done.
  - intros Hl. destruct (IH Hl) as [Hin Hle]. split; [set_solver|].
    intros t' [->|Ht']%elem_of_cons; [|by apply Hle].
    rewrite Forall_forall in Hx. specialize (Hx t Hin). lia.
Qed.

(** The latest fire before a moment. *)
Definition latest_fire (c : cron_plan) (tz : option string) (before t : Z) : Prop :=
  fires_at c tz t ∧ t < before ∧ ∀ t', fires_at c tz t' → t' < before → t' ≤ t.

Lemma previous_fire_inv expr before days tz r :
  previous_fire expr before days tz = Ok r →
  ∃ c, parse_cron expr = Ok c ∧
    match r with
    | Some t => latest_fire c tz before t ∧ before - days * day_usec ≤ t
    | None => ∀ t', fires_at c tz t' → t' < before → t' < before - days * day_usec
    end.
Proof.
  unfold previous_fire. intros (l & Hi & <-)%res_fmap_ok.
  apply iter_inv in Hi as (c & Hp & Hs & Hl). exists c. split; [done|].
  destruct (last l) as [t|] eqn:Hlast.
  - destruct (sorted_last _ _ Hs Hlast) as [Hin Hmax]. apply Hl in Hin as [Hf Ht].
    split; [split; [done|split; [lia|]]|lia]. intros t' Hf' Ht'.
    destruct (decide (before - days * day_usec ≤ t')); [|lia]. by apply Hmax, Hl.
  - apply last_None in Hlast as ->. intros t' Hf' Ht'.
    destruct (decide (before - days * day_usec ≤ t')); [|lia].
    assert (t' ∈ []) as Hin by (by apply Hl). set_solver.
Qed.

Lemma latest_fire_unique c tz before t1 t2 : latest_fire c tz before t1 → latest_fire c tz before t2 → t1 = t2.
Proof. intros (Hf1 & Ht1 & Hm1) (Hf2 & Ht2 & Hm2). apply Z.le_antisymm; auto. Qed.

(** A shorter walk that finds a fire finds the one the whole lookback would. *)
Lemma previous_fire_walk expr start before days tz l t :
  iter_cron_fires expr start before tz = Ok l → last l = Some t → before - days * day_usec ≤ start →
  previous_fire expr before days tz = Ok (Some t).
Proof.
  intros Hi Hlast Hstart.
  assert (is_ok (previous_fire expr before days tz)) as Hok.
  { unfold previous_fire, iter_cron_fires in *. inv_res.
    repeat match goal with H : _ = Ok _ |- _ => rewrite H; clear H end. done. }
  apply iter_inv in Hi as (c & Hp & Hs & Hl). destruct (sorted_last _ _ Hs Hlast) as [Hin Hmax].
  apply Hl in Hin as [Hf Ht].
  assert (latest_fire c tz before t) as Hlate.
  { split; [done|split; [lia|]]. intros t' Hf' Ht'. destruct (decide (start ≤ t')); [|lia]. by apply Hmax, Hl. }
  destruct (previous_fire expr before days tz) as [r|] eqn:Hr; [|done].
  apply previous_fire_inv in Hr as (c' & Hp' & Hr). rewrite Hp in Hp'. simplify_eq. destruct r as [t'|].
  - destruct Hr as [Hlate' _]. by rewrite (latest_fire_unique _ _ _ _ _ Hlate Hlate').
  - specialize (Hr t Hf). lia.
Qed.

(** The first of the next fires is the earliest one of the window. *)
Lemma next_fires_head expr after count days tz l :
  0 < count → next_fires expr after count days tz = Ok l →
  ∃ c, parse_cron expr = Ok c ∧
    match head l with
    | Some t => fires_at c tz t ∧ after + MINUTE ≤ t < after + days * day_usec
                ∧ ∀ t', fires_at c tz t' → after + MINUTE ≤ t' → t ≤ t'
    | None => ∀ t', fires_at c tz t' → after + MINUTE ≤ t' → after + days * day_usec ≤ t'
    end.
Proof.
  intros Hcount. unfold next_fires. intros (f & Hi & <-)%res_fmap_ok.
  apply iter_inv in Hi as (c & Hp & Hs & Hl). exists c. split; [done|].
  assert (head (take (Z.to_nat (Z.max 0 count)) f) = head f) as ->
    by (destruct (Z.to_nat _) eqn:E; [lia|by destruct f]).
  destruct f as [|t f]; cbn [head].
  - intros t' Hf Ht. destruct (decide (t' < after + days * day_usec)); [|lia]. assert (t' ∈ []) as Hin by (by apply Hl).
    by apply not_elem_of_nil in Hin.
  - destruct (proj1 (Hl t)) as [Hf Ht]; [by left|]. split_and!; [done|lia|lia|]. intros t' Hf' Ht'.
    destruct (decide (t' < after + days * day_usec)); [|lia]. assert (t' ∈ t :: f) as [->|Hin]%elem_of_cons by (by apply Hl); [done|].
    apply StronglySorted_inv in Hs as [_ Hs]. rewrite Forall_forall in Hs. specialize (Hs t' Hin). lia.
Qed.

(** [previous_fire] answers a moment exactly when it is the latest fire before
    [before] and within the lookback; it answers nothing exactly when no fire of
    the lookback precedes [before]. *)
Theorem previous_fire_spec expr before days tz r :
  previous_fire expr before days tz = Ok r →
  ∃ c, parse_cron expr = Ok c
    ∧ (∀ t, r = Some t ↔ latest_fire c tz before t ∧ before - days * day_usec ≤ t)
    ∧ (r = None ↔ ∀ t, fires_at c tz t → t < before → t < before - days * day_usec).
Proof.
  intros (c & Hp & Hr)%previous_fire_inv. exists c. split; [done|]. destruct r as [t0|].
  - destruct Hr as [Hlate Hlo]. split.
    + intros t. split; [by intros [= <-]|]. intros [(Hf & Ht & Hmax) _]. f_equal.
      destruct Hlate as (Hf0 & Ht0 & Hmax0). apply Z.le_antisymm; auto.
    + split; [done|]. intros Hnone. destruct Hlate as (Hf & Ht & _). specialize (Hnone t0 Hf Ht). lia.
  - split; [|by split]. intros t. split; [done|]. intros [(Hf & Ht & _) Hlo]. specialize (Hr t Hf Ht). lia.
Qed.

(** [next_fires] answers the first [count] fires of the horizon {e from one minute
    after} the moment on: they are in order, and any other fire of that window
    comes only once [count] of them have been listed, after them. A fire less
    than a minute away is not among them. *)
Theorem next_fires_spec expr after count days tz l :
  next_fires expr after count days tz = Ok l →
  ∃ c, parse_cron expr = Ok c ∧ StronglySorted Z.lt l ∧ Z.of_nat (length l) ≤ Z.max 0 count
    ∧ (∀ t, t ∈ l → fires_at c tz t ∧ after + MINUTE ≤ t < after + days * day_usec)
    ∧ (∀ t, fires_at c tz t → after + MINUTE ≤ t < after + days * day_usec → t ∉ l →
         Z.of_nat (length l) = Z.max 0 count ∧ ∀ t', t' ∈ l → t' < t)
    ∧ (∀ t, fires_at c tz t → after < t < after + MINUTE → t ∉ l).
Proof.
  unfold next_fires. intros (f & Hi & <-)%res_fmap_ok.
  apply iter_inv in Hi as (c & Hp & Hs & Hl). exists c. split; [done|].
  set (n := Z.to_nat (Z.max 0 count)).
  assert (∀ t, t ∈ take n f → t ∈ f) as Htake by (intros t Ht; rewrite <-(take_drop n f); set_solver).
  assert (∀ t, t ∈ f → t ∉ take n f → t ∈ drop n f) as Hdrop.
  { intros t Ht Hn. rewrite <-(take_drop n f) in Ht. set_solver. }
  split_and!.
  - rewrite <-(take_drop n f) in Hs. by apply StronglySorted_app in Hs as (_ & ? & _).
  - rewrite length_take. lia.
  - intros t Ht. by apply Hl, Htake.
  - intros t Hf Ht Hn. assert (t ∈ drop n f) as Hd by (by apply Hdrop; [apply Hl|]). split.
    + assert (n < length f)%nat; [|rewrite length_take; lia].
      destruct (decide (n < length f)%nat); [done|]. rewrite drop_ge in Hd by lia. set_solver.
    + intros t' Ht'. rewrite <-(take_drop n f) in Hs.
      apply StronglySorted_app in Hs as (Hlt & _). by apply Hlt.
  - intros t Hf Ht Hin%Htake%Hl. lia.
Qed.
End theorems.

(** 2026-09-08 (a Tuesday), 06:29:30 in New York: the morning's fire, 30 seconds
    away, is not the first of the list. *)
Definition deployed_cron : string := "30 6 * * 1-6".
Definition half_past_six : Z := days_of_ymd (mkYmd 2026 9 8) * day_usec + 37800 * 1000000.

Lemma next_fires_spec_witness :
  @next_fires sample_zones deployed_cron (half_past_six - 30000000) 1 2 (Some "America/New_York")
    = Ok [half_past_six + day_usec]
  ∧ ∃ c, parse_cron deployed_cron = Ok c ∧ @fires_at sample_zones c (Some "America/New_York") half_past_six.
Proof.
  assert (@next_fires sample_zones deployed_cron (half_past_six - 30000000) 1 2 (Some "America/New_York")
    = Ok [half_past_six + day_usec]) as E by (vm_compute; reflexivity).
  split; [exact E|]. destruct (@next_fires_spec sample_zones _ _ _ _ _ _ E) as (c & Hp & _).
  exists c. split; [exact Hp|]. vm_compute in Hp. injection Hp as <-. split; vm_compute; reflexivity.
Defined.

Lemma previous_fire_spec_witness :
  ∃ c, parse_cron deployed_cron = Ok c
    ∧ ∀ t, Some half_past_six = Some t ↔
        @latest_fire sample_zones c (Some "America/New_York") (half_past_six + 1) t
        ∧ half_past_six + 1 - 1 * day_usec ≤ t.
Proof.
  assert (@previous_fire sample_zones deployed_cron (half_past_six + 1) 1 (Some "America/New_York")
    = Ok (Some half_past_six)) as E by (vm_compute; reflexivity).
  destruct (@previous_fire_spec sample_zones _ _ _ _ _ E) as (c & Hp & Hlatest & _).
  exists c. split; [exact Hp|exact Hlatest].
Defined.
