(* ===== verification/Schedule.v ===== *)
(** * Slots and their jobs ([scheduler/daily.py], [worker/catchup.py])

    What a scheduled run looks like when it lands in the queue, and the worker's own
    safety net for a slot the scheduler never fired. The configuration is the
    [scheduler] mapping of the schedule file; [today] is the UTC date of the clock. *)
From S2P Require Import Prelude Pytext PyVal Json JobQueue Pytime Cron.

(** ** [scheduler/daily.py] *)

Definition SLOT_NAMES : list string := ["flex-trades"; "flex-transactions"].
Definition SLOT_KIND : list (string * string) :=
  [("flex-trades", "flex-trades"); ("flex-transactions", "flex-transactions")].
Definition DEFAULT_SLOT_MAX_ATTEMPTS : Z := 8.
Definition EXECUTION_KEYS : list string := ["fallback"; "catchup"].
Definition DEFAULT_CATCHUP_GRACE_SEC : Z := 2700.

Section config.
Context `{PyRepr}.

(** The zone the slot crons are written in ([None] = UTC). *)
Definition schedule_timezone (cfg : pydict) : option string :=
  let tz := strip (py_str (py_or (dict_get "timezone" cfg) (PStr ""))) in
  if decide (tz = "") then None else Some tz.

Definition catchup_grace_sec (cfg : pydict) : res Z :=
  let raw := dict_get "catchup_grace_sec" cfg in
  try_except [TypeError; ValueError]
    (if given raw then Z.max 300 <$> py_int raw else Ok DEFAULT_CATCHUP_GRACE_SEC)
    (λ _, Ok DEFAULT_CATCHUP_GRACE_SEC).
End config.

(** [SLOT_KIND[slot]]. *)
Definition slot_kind (slot : string) : string :=
  match list_find (λ kv, kv.1 = slot) SLOT_KIND with Some (_, (_, kind)) => kind | None => "" end.

(** What [enqueue_slot] returns. *)
Record slot_result := mkSlotResult {
  sr_slot : string;
  sr_kind : string;
  sr_enqueued : Z;
  sr_deduped : Z;
  sr_job_id : option Z;
  sr_payload : pydict;
  sr_max_attempts : Z
}.

(** The items that say which job it is, and the payload that is stored. *)
Definition identity (body : pydict) : pydict := filter (λ kv, kv.1 ∉ EXECUTION_KEYS) body.
Definition with_as_of (today : string) (payload : pydict) : pydict :=
  if dict_has "as_of" payload then payload else dict_set "as_of" (PStr today) payload.

Section enqueue_slot.
Context `{PyRepr, Sha256}.

Definition enqueue_slot (today : string) (t : Z) (slot : string) (cfg payload : pydict) (q : queue)
    : res (slot_result * queue) :=
  let slot_key := lower (strip slot) in
  if negb (bool_decide (slot_key ∈ SLOT_NAMES)) then Raise (Exn ValueError ("unknown slot: " +:+ slot))
  else
    slots ← dict_or_empty (dict_get "slots" cfg);
    scfg ← dict_or_empty (dict_get slot_key slots);
    priority ← py_int (py_or (dict_get "priority" scfg) (PInt 0));
    max_attempts ← py_int (py_or (dict_get "max_attempts" scfg) (PInt DEFAULT_SLOT_MAX_ATTEMPTS));
    let kind := slot_kind slot_key in
    let body := with_as_of today payload in
    let ident := identity body in
    let body := dict_setdefault "fallback" (PBool false) body in
    '(job_id, q') ← insert_job t kind body priority max_attempts (Some ident) q;
    Ok (mkSlotResult slot_key kind
          (match job_id with None => 0 | Some _ => 1 end)
          (match job_id with None => 1 | Some _ => 0 end)
          job_id body max_attempts, q').
End enqueue_slot.

(** ** [worker/catchup.py] *)

(** A slot whose planned fire passed with no job. *)
Record missed := mkMissed { m_slot : string; m_kind : string; m_planned : Z; m_as_of : string }.

Section catchup.
Context `{PyRepr, Sha256, ZoneDb}.

(** One round of the loop of [missed_slots]: the slot, when it is missed. *)
Definition missed_slot (cfg slots : pydict) (now grace_sec : Z) (jobs_since : string → option Z)
    (slot kind : string) : res (option missed) :=
  let tz := schedule_timezone cfg in
  scfg ← dict_or_empty (dict_get slot slots);
  let cron := py_str (py_or (dict_get "cron" scfg) (PStr "")) in
  if decide (cron = "") then Ok None
  else
    planned ← previous_fire cron now 14 tz;
    match planned with
    | None => Ok None
    | Some planned =>
        let age := now - planned in
        if (age <? secs grace_sec) || (secs 86400 <? age) then Ok None
        else if match jobs_since kind with Some newest => planned <=? newest | None => false end then Ok None
        else Ok (Some (mkMissed slot kind planned (isoformat (date_of (to_wall tz planned)))))
    end.

Definition missed_slots (cfg : pydict) (now grace_sec : Z) (jobs_since : string → option Z) : res (list missed) :=
  slots ← dict_or_empty (dict_get "slots" cfg);
  fold_res (λ out '(slot, kind), (λ m, out ++ option_list m) <$> missed_slot cfg slots now grace_sec jobs_since slot kind)
    [] SLOT_KIND.

(** [SELECT kind, max(created_at) ... GROUP BY kind]. *)
Definition newest_job_per_kind (q : queue) (kind : string) : option Z :=
  j_created <$> min_by (λ a b, j_created b <? j_created a)
    (filter (λ j, j_kind j = kind) (map_to_list (q_rows q)).*2).

(** The loop that enqueues: what it has done and the table, even when it stops at an
    exception. [clock] gives the database's time at each insert. *)
Fixpoint enqueue_missed (today : string) (clock : nat → Z) (cfg : pydict) (ms : list missed) (n : nat) (q : queue)
    : res (list (missed * Z)) * queue :=
  match ms with
  | [] => (Ok [], q)
  | m :: ms' =>
      match enqueue_slot today (clock n) (m_slot m) cfg
              [("as_of", PStr (m_as_of m)); ("catchup", PBool true)] q with
      | Raise e => (Raise e, q)
      | Ok (r, q1) =>
          let '(rest, q2) := enqueue_missed today clock cfg ms' (S n) q1 in
          (match sr_job_id r with
           | Some i => (λ l, (m, i) :: l) <$> rest
           | None => rest
           end, q2)
      end
  end.

Definition catchup_missed_slots (today : string) (clock : nat → Z) (cfg : pydict) (now grace_sec : Z) (q : queue)
    : res (list (missed * Z)) * queue :=
  match missed_slots cfg now grace_sec (newest_job_per_kind q) with
  | Raise e => (Raise e, q)
  | Ok ms => enqueue_missed today clock cfg ms 0 q
  end.

Definition next_catchup_window (planned_at grace_sec : Z) : Z := planned_at + secs grace_sec.
End catchup.

(** ** What an enqueue does *)

Section slot_lemmas.
Context `{PyRepr, Sha256}.

(** The payload a slot's job is stored with, and the hash it is known by. *)
Definition slot_body (today : string) (payload : pydict) : pydict :=
  dict_setdefault "fallback" (PBool false) (with_as_of today payload).
Definition slot_hash (today : string) (payload : pydict) : string :=
  payload_hash (identity (with_as_of today payload)).

Lemma slot_kind_name slot : slot ∈ SLOT_NAMES → slot_kind slot = slot ∧ strip slot = slot ∧ slot ≠ "".
Proof. unfold SLOT_NAMES. rewrite !elem_of_cons. intros [->|[->|H1]]; [done..|]. set_solver. Qed.

Lemma slot_name_key slot : slot ∈ SLOT_NAMES → lower (strip slot) = slot.
Proof. unfold SLOT_NAMES. rewrite !elem_of_cons. intros [->|[->|?%not_elem_of_nil]]; done. Qed.

Lemma enqueue_slot_inv today t slot cfg payload q r q' :
  enqueue_slot today t slot cfg payload q = Ok (r, q') →
  lower (strip slot) ∈ SLOT_NAMES ∧ ∃ priority maxa,
    insert_job t (lower (strip slot)) (slot_body today payload) priority maxa
      (Some (identity (with_as_of today payload))) q = Ok (sr_job_id r, q')
    ∧ fits_smallint priority = true ∧ fits_smallint maxa = true
    ∧ r = mkSlotResult (lower (strip slot)) (lower (strip slot))
            (match sr_job_id r with None => 0 | Some _ => 1 end)
            (match sr_job_id r with None => 1 | Some _ => 0 end)
            (sr_job_id r) (slot_body today payload) maxa.
Proof.
  unfold enqueue_slot. cbn zeta. destruct (bool_decide _) eqn:Hs; [|done]. bool_hyps. cbn [negb].
  destruct (slot_kind_name _ Hs) as (-> & Hstrip & _). intros Hr. inv_res.
  repeat match goal with p : (option Z * queue)%type |- _ => destruct p as [i qi] end.
  inv_res. split; [done|].
  match goal with H : insert_job _ _ _ _ _ _ _ = Ok _ |- _ =>
    destruct (insert_job_fits _ _ _ _ _ _ _ _ H); eexists _, _; split; [cbn [sr_job_id]; exact H|] end.
  by split_and!.
Qed.

(** After an enqueue that returned, the slot's identity is active. *)
Lemma enqueue_slot_active today t slot cfg payload q r q' :
  enqueue_slot today t slot cfg payload q = Ok (r, q') →
  ∃ i j, q_rows q' !! i = Some j ∧ index_key j = Some (lower (strip slot), slot_hash today payload).
Proof.
  intros (Hs & prio & maxa & Hi & _)%enqueue_slot_inv. destruct (slot_kind_name _ Hs) as (_ & Hstrip & _).
  apply insert_job_inv in Hi as [(_ & (i & j & Hj & Hk) & ->)|(_ & _ & ->)]; rewrite Hstrip in *.
  - by exists i, j.
  - eexists _, _. cbn [q_rows]. split; [apply lookup_insert_eq|done].
Qed.

(** Rows only appear. *)
Lemma enqueue_slot_rows today t slot cfg payload q r q' i j :
  queue_ok q → enqueue_slot today t slot cfg payload q = Ok (r, q') →
  q_rows q !! i = Some j → q_rows q' !! i = Some j.
Proof.
  intros Hok (Hs & prio & maxa & Hi & _)%enqueue_slot_inv Hj.
  apply insert_job_inv in Hi as [(_ & _ & ->)|(_ & _ & ->)]; [done|]. cbn [q_rows].
  rewrite lookup_insert_ne; [done|]. pose proof (ok_seq _ Hok _ _ Hj). lia.
Qed.

Lemma enqueue_slot_ok today t slot cfg payload q r q' :
  queue_ok q → enqueue_slot today t slot cfg payload q = Ok (r, q') → queue_ok q'.
Proof. intros Hok (Hs & prio & maxa & Hi & _)%enqueue_slot_inv. by eapply insert_job_ok. Qed.

(** An active identity is enqueued no second time. *)
Lemma enqueue_slot_dup today t slot cfg payload q r q' i j :
  enqueue_slot today t slot cfg payload q = Ok (r, q') →
  q_rows q !! i = Some j → index_key j = Some (lower (strip slot), slot_hash today payload) →
  sr_job_id r = None ∧ sr_deduped r = 1 ∧ q_rows q' = q_rows q.
Proof.
  intros (Hs & prio & maxa & Hi & Hp & Hm & Hr)%enqueue_slot_inv Hj Hk.
  destruct (slot_kind_name _ Hs) as (_ & Hstrip & Hne).
  assert (strip (lower (strip slot)) = lower (strip slot)) as E by done.
  erewrite insert_job_dup in Hi; [| |done|done|exact Hj|by rewrite E]; [|by rewrite E].
  injection Hi as Hid <-. rewrite <-Hid in Hr. rewrite Hr. done.
Qed.
End slot_lemmas.

(** ** What the catch-up does *)

Section catchup_lemmas.
Context `{PyRepr, Sha256, ZoneDb}.

(** The cron text of a slot. *)
Definition slot_cron (slots : pydict) (slot : string) : res string :=
  scfg ← dict_or_empty (dict_get slot slots); Ok (py_str (py_or (dict_get "cron" scfg) (PStr ""))).

(** A slot is missed: its latest planned fire is at least [grace] seconds and at most
    a day old, and no job of its kind has been created since. *)
Definition slot_missed (cfg slots : pydict) (now grace : Z) (since : string → option Z) (slot kind : string)
    (m : missed) : Prop :=
  let tz := schedule_timezone cfg in
  ∃ cron c, slot_cron slots slot = Ok cron ∧ cron ≠ "" ∧ parse_cron cron = Ok c
    ∧ latest_fire c tz now (m_planned m)
    ∧ secs grace ≤ now - m_planned m ≤ secs 86400
    ∧ (∀ newest, since kind = Some newest → newest < m_planned m)
    ∧ m = mkMissed slot kind (m_planned m) (isoformat (date_of (to_wall tz (m_planned m)))).

Lemma missed_slot_spec cfg slots now grace since slot kind r :
  missed_slot cfg slots now grace since slot kind = Ok r →
  ∀ m, r = Some m ↔ slot_missed cfg slots now grace since slot kind m.
Proof.
  unfold missed_slot. intros (scfg & Hscfg & Hr)%res_bind_ok m.
  assert (slot_cron slots slot = Ok (py_str (py_or (dict_get "cron" scfg) (PStr "")))) as Hcron
    by (unfold slot_cron; by rewrite Hscfg).
  revert Hr Hcron. generalize (py_str (py_or (dict_get "cron" scfg) (PStr ""))). intros cron Hr Hcron.
  destruct (decide (cron = "")) as [E|Hne].
  { simplify_eq. split; [done|]. intros (cron & c & Hc & Hne & _). rewrite Hcron in Hc. by simplify_eq. }
  apply res_bind_ok in Hr as (planned & (c & Hp & Hfire)%previous_fire_inv & Hr).
  assert (slot_missed cfg slots now grace since slot kind m ↔
    ∃ t, planned = Some t ∧ secs grace ≤ now - t ≤ secs 86400 ∧ (∀ newest, since kind = Some newest → newest < t)
      ∧ m = mkMissed slot kind t (isoformat (date_of (to_wall (schedule_timezone cfg) t)))) as ->.
  { unfold slot_missed. split.
    - intros (cron' & c' & Hc' & _ & Hp' & Hl & Hage & Hs & Hm). rewrite Hcron in Hc'. simplify_eq.
      rewrite Hp in Hp'. simplify_eq. exists (m_planned m). split; [|done]. destruct planned as [t|].
      + destruct Hfire as [Hl' _]. f_equal. by eapply latest_fire_unique.
      + destruct Hl as (Hf & Ht & _). specialize (Hfire _ Hf Ht). unfold secs, day_usec in *. lia.
    - intros (t & -> & Hage & Hs & ->). exists cron, c. cbn. by destruct Hfire. }
  destruct planned as [t|]; [|split; [by intros ->|by intros (? & ? & _)]].
  destruct ((now - t <? secs grace) || (secs 86400 <? now - t)) eqn:Hage.
  { simplify_eq. split; [done|]. intros (t' & [= <-] & Hb & _). apply orb_true_iff in Hage as [?|?]; bool_hyps; lia. }
  bool_hyps. destruct (since kind) as [newest|] eqn:Hn.
  - destruct (t <=? newest) eqn:Hle; bool_hyps; simplify_eq.
    + split; [done|]. intros (t' & [= <-] & _ & Hs & _). specialize (Hs _ eq_refl). lia.
    + split; [intros [= <-]; exists t; split_and!; try done; try lia; intros ? [= <-]; lia|].
      by intros (t' & [= <-] & _ & _ & ->).
  - simplify_eq. split; [intros [= <-]; exists t; by split_and!|]. by intros (t' & [= <-] & _ & _ & ->).
Qed.

(** The payload the catch-up enqueues with. *)
Definition catchup_payload (m : missed) : pydict := [("as_of", PStr (m_as_of m)); ("catchup", PBool true)].

(** One turn of the loop, where the whole of it returned. *)
Lemma enqueue_missed_cons today clock cfg m ms n q l q' :
  enqueue_missed today clock cfg (m :: ms) n q = (Ok l, q') →
  ∃ r q1 l', enqueue_slot today (clock n) (m_slot m) cfg (catchup_payload m) q = Ok (r, q1)
    ∧ enqueue_missed today clock cfg ms (S n) q1 = (Ok l', q')
    ∧ l = match sr_job_id r with Some i => (m, i) :: l' | None => l' end.
Proof.
  cbn [enqueue_missed]. fold (catchup_payload m). destruct (enqueue_slot _ _ _ _ _ q) as [[r q1]|]; [|done].
  destruct (enqueue_missed _ _ _ ms (S n) q1) as [rest q2] eqn:Hrest. intros Heq. exists r, q1.
  destruct rest as [l'|e]; [|by destruct (sr_job_id r)]. exists l'.
  destruct (sr_job_id r); injection Heq as <- <-; by split_and!.
Qed.

(** The loop keeps the table well formed and every row of it. *)
Lemma enqueue_missed_ok today clock cfg ms n q l q' :
  queue_ok q → enqueue_missed today clock cfg ms n q = (Ok l, q') →
  queue_ok q' ∧ ∀ i j, q_rows q !! i = Some j → q_rows q' !! i = Some j.
Proof.
  revert n q l q'. induction ms as [|m ms IH]; intros n q l q' Hok; [by intros [= _ <-]|].
  intros (r & q1 & l' & He & Hrest & _)%enqueue_missed_cons. apply IH in Hrest as [Hok' Hmono]; [|by eapply enqueue_slot_ok].
  split; [done|]. intros i j Hj. apply Hmono. exact (enqueue_slot_rows _ _ _ _ _ _ _ _ _ _ Hok He Hj).
Qed.

(** Every slot the loop went over is active afterwards. *)
Lemma enqueue_missed_active today clock cfg ms n q l q' m :
  queue_ok q → enqueue_missed today clock cfg ms n q = (Ok l, q') → m ∈ ms →
  ∃ i j, q_rows q' !! i = Some j ∧ index_key j = Some (lower (strip (m_slot m)), slot_hash today (catchup_payload m)).
Proof.
  revert n q l q'. induction ms as [|m0 ms IH]; intros n q l q' Hok; [by intros _ ?%elem_of_nil|].
  intros (r & q1 & l' & He & Hrest & _)%enqueue_missed_cons Hm.
  assert (queue_ok q1) as Hok1 by (by eapply enqueue_slot_ok).
  apply elem_of_cons in Hm as [->|Hm]; [|by eapply IH].
  apply enqueue_slot_active in He as (i & j & Hj & Hk). exists i, j. split; [|done]. by eapply enqueue_missed_ok.
Qed.

(** A slot the loop enqueued was listed and not active before, and its job is a row of the
    kind, created during the loop. *)
Lemma enqueue_missed_inserted today clock cfg ms n q l q' m i :
  queue_ok q → enqueue_missed today clock cfg ms n q = (Ok l, q') → (m, i) ∈ l →
  m ∈ ms
  ∧ (∀ i' j, q_rows q !! i' = Some j → index_key j ≠ Some (lower (strip (m_slot m)), slot_hash today (catchup_payload m)))
  ∧ ∃ j k, q_rows q' !! i = Some j ∧ j_kind j = lower (strip (m_slot m)) ∧ j_created j = clock k.
Proof.
  revert n q l q'. induction ms as [|m0 ms IH]; intros n q l q' Hok; [intros [= <- _]; by intros ?%elem_of_nil|].
  intros (r & q1 & l' & He & Hrest & ->)%enqueue_missed_cons Hin.
  assert (queue_ok q1) as Hok1 by (by eapply enqueue_slot_ok).
  assert ((m, i) ∈ l' ∨ m = m0 ∧ sr_job_id r = Some i) as [Hin'|[-> Hi]].
  { destruct (sr_job_id r) as [i0|]; [|by left]. apply elem_of_cons in Hin as [[= -> ->]|?]; [by right|by left]. }
  - destruct (IH _ _ _ _ Hok1 Hrest Hin') as (Hm & Hno & Hj). split_and!; [set_solver| |done].
    intros i' j Hj'. apply (Hno i' j). exact (enqueue_slot_rows _ _ _ _ _ _ _ _ _ _ Hok He Hj').
  - split_and!; [set_solver| |].
    + intros i' j Hj Hk. destruct (enqueue_slot_dup _ _ _ _ _ _ _ _ _ _ He Hj Hk) as [Hn _]. congruence.
    + apply enqueue_slot_inv in He as (Hs & prio & maxa & He & _). destruct (slot_kind_name _ Hs) as (_ & Hstrip & _).
      apply insert_job_inv in He as [(Hn & _)|(Hid & _ & Hq1)]; [congruence|]. rewrite Hi in Hid. injection Hid as ->.
      eexists _, n. split; [eapply (enqueue_missed_ok _ _ _ _ _ _ _ _ Hok1 Hrest); rewrite Hq1; apply lookup_insert_eq|].
      by rewrite Hstrip.
Qed.

(** The newest job of a kind is at least as new as any of its rows. *)
Lemma newest_job_since q i j :
  q_rows q !! i = Some j → ∃ newest, newest_job_per_kind q (j_kind j) = Some newest ∧ j_created j ≤ newest.
Proof.
  intros Hj. unfold newest_job_per_kind. set (l := filter _ _).
  assert (j ∈ l) as Hin.
  { apply list_elem_of_filter. split; [done|]. apply list_elem_of_fmap. exists (i, j). split; [done|]. by apply elem_of_map_to_list. }
  destruct (min_by _ l) as [b|] eqn:Hb; cbn.
  - eexists. split; [done|]. by eapply (min_by_max_key j_created).
  - apply min_by_None in Hb. rewrite Hb in Hin. by apply elem_of_nil in Hin.
Qed.
End catchup_lemmas.

(** ** Theorems *)

Section theorems.
Context `{PyRepr, Sha256, ZoneDb}.

(** The loop over the slots lists those that are missed. *)
Lemma missed_loop cfg slots now grace since l acc ms :
  fold_res (λ out '(slot, kind),
    (λ m, out ++ option_list m) <$> missed_slot cfg slots now grace since slot kind) acc l = Ok ms →
  ∀ m, m ∈ ms ↔ m ∈ acc ∨ ∃ slot kind, (slot, kind) ∈ l ∧ slot_missed cfg slots now grace since slot kind m.
Proof.
  revert acc ms. induction l as [|[slot kind] l IH]; intros acc ms; cbn [fold_res].
  - intros [= <-] m. set_solver.
  - destruct (missed_slot _ _ _ _ _ slot kind) as [r|] eqn:Hm; [|done]. cbn. intros Hf m.
    rewrite (IH _ _ Hf), elem_of_app. pose proof (missed_slot_spec _ _ _ _ _ _ _ _ Hm m) as Hspec.
    assert (m ∈ option_list r ↔ r = Some m) as ->.
    { destruct r as [m'|]; cbn; [rewrite list_elem_of_singleton; naive_solver|set_solver]. }
    rewrite Hspec. setoid_rewrite elem_of_cons. naive_solver.
Qed.

Lemma listed_missed cfg now grace since ms m :
  missed_slots cfg now grace since = Ok ms → m ∈ ms →
  ∃ slots slot kind, (slot, kind) ∈ SLOT_KIND ∧ slot_missed cfg slots now grace since slot kind m.
Proof.
  unfold missed_slots. intros (slots & _ & Hf)%res_bind_ok Hm. exists slots.
  apply (missed_loop _ _ _ _ _ _ _ _ Hf) in Hm as [[]%elem_of_nil|Hm]. exact Hm.
Qed.

(** C27. The net misses nothing and invents nothing: a slot is listed exactly when its
    latest planned fire is at least the grace and at most a day old and no job of
    its kind was created since, with the fire's own calendar day in the
    schedule's zone as [as_of]. *)
Theorem missed_slots_spec cfg now grace since ms :
  missed_slots cfg now grace since = Ok ms →
  ∃ slots, dict_or_empty (dict_get "slots" cfg) = Ok slots
    ∧ ∀ m, m ∈ ms ↔ ∃ slot kind, (slot, kind) ∈ SLOT_KIND ∧ slot_missed cfg slots now grace since slot kind m.
Proof.
  unfold missed_slots. intros (slots & Hslots & Hf)%res_bind_ok. exists slots. split; [done|].
  intros m. rewrite (missed_loop _ _ _ _ _ _ _ _ Hf). set_solver.
Qed.

(** The knobs [fallback] and [catchup] are not identity: as long as a slot's job
    for a day is active, an enqueue of the same slot whose payload says the same
    apart from those knobs, in any order, adds no row. *)
Theorem enqueue_slot_dedupe today today' t t' slot slot' cfg cfg' p p' q r q1 r' q' :
  enqueue_slot today t slot cfg p q = Ok (r, q1) →
  lower (strip slot') = lower (strip slot) →
  NoDup (identity (with_as_of today p)).*1 →
  identity (with_as_of today p) ≡ₚ identity (with_as_of today' p') →
  enqueue_slot today' t' slot' cfg' p' q1 = Ok (r', q') →
  sr_enqueued r + sr_deduped r = 1
  ∧ sr_job_id r' = None ∧ sr_deduped r' = 1 ∧ q_rows q' = q_rows q1.
Proof.
  intros He Hslot Hnd Hperm He'. split.
  - apply enqueue_slot_inv in He as (_ & prio & maxa & _ & _ & _ & Hr). rewrite Hr. cbn. by destruct (sr_job_id r).
  - apply enqueue_slot_active in He as (i & j & Hj & Hk).
    eapply enqueue_slot_dup; [exact He'|exact Hj|]. rewrite Hk, Hslot. unfold slot_hash.
    by rewrite (payload_hash_perm _ _ Hnd Hperm).
Qed.

(** C28. A catch-up is not repeated. Once it enqueued a slot's job, a later catch-up, at any
    moment, with any grace and whatever became of the job and of the rest of the table,
    enqueues the slot again only for a later planned fire, as long as the job's row is
    there. And right after a catch-up a second one enqueues no slot and day the first one
    dealt with, be it that the first found the day's job active already. *)
Theorem catchup_not_repeated today clock cfg now grace q ms l q1 :
  queue_ok q → (∀ n, now ≤ clock n) →
  missed_slots cfg now grace (newest_job_per_kind q) = Ok ms →
  catchup_missed_slots today clock cfg now grace q = (Ok l, q1) →
  (∀ m i today' clock' now' grace' q2 l' q3,
     (m, i) ∈ l → queue_ok q2 →
     (∀ j, q_rows q1 !! i = Some j → ∃ j2, q_rows q2 !! i = Some j2 ∧ j_kind j2 = j_kind j ∧ j_created j2 = j_created j) →
     catchup_missed_slots today' clock' cfg now' grace' q2 = (Ok l', q3) →
     ∀ m' i', (m', i') ∈ l' → m_slot m' = m_slot m → m_planned m < m_planned m')
  ∧ (∀ clock' now' grace' l' q2,
       catchup_missed_slots today clock' cfg now' grace' q1 = (Ok l', q2) →
       ∀ m i m', (m, i) ∈ l' → m' ∈ ms → m_slot m = m_slot m' → m_as_of m ≠ m_as_of m').
Proof.
  intros Hok Hclock Hms Hc. unfold catchup_missed_slots in Hc. rewrite Hms in Hc.
  pose proof (enqueue_missed_ok _ _ _ _ _ _ _ _ Hok Hc) as [Hok1 _].
  split.
  - intros m i today' clock' now' grace' q2 l' q3 Hin Hok2 Hkept Hc' m' i' Hin' Hslot. unfold catchup_missed_slots in Hc'.
    destruct (missed_slots cfg now' grace' _) as [ms'|] eqn:Hms'; [|done].
    destruct (enqueue_missed_inserted _ _ _ _ _ _ _ _ _ _ Hok Hc Hin) as (Hm & _ & j & k & Hj & Hkind & Hcreated).
    destruct (enqueue_missed_inserted _ _ _ _ _ _ _ _ _ _ Hok2 Hc' Hin') as (Hm' & _).
    apply (listed_missed _ _ _ _ _ _ Hms) in Hm as (slots & slot & kind & Hsk & cron & c & _ & _ & _ & Hfire & _ & _ & Em).
    apply (listed_missed _ _ _ _ _ _ Hms') in Hm' as (slots' & slot' & kind' & Hsk' & cron' & c' & _ & _ & _ & _ & _ & Hnew & Em').
    destruct (Hkept j Hj) as (j2 & Hj2 & Hk2 & Hc2). apply newest_job_since in Hj2 as (newest & Hnewest & Hle).
    assert (j_kind j2 = kind') as Ek.
    { rewrite Hk2, Hkind, <-Hslot, Em'. cbn [m_slot]. unfold SLOT_KIND in Hsk'. set_solver. }
    rewrite Ek in Hnewest. specialize (Hnew _ Hnewest). specialize (Hclock k). destruct Hfire as (_ & Hbefore & _). lia.
  - intros clock' now' grace' l' q2 Hc' m i m' Hin Hm' Hslot Hday. unfold catchup_missed_slots in Hc'.
    destruct (missed_slots cfg now' _ _) as [ms'|]; [|done].
    destruct (enqueue_missed_inserted _ _ _ _ _ _ _ _ _ _ Hok1 Hc' Hin) as (_ & Hno & _).
    destruct (enqueue_missed_active _ _ _ _ _ _ _ _ _ Hok Hc Hm') as (i' & j & Hj & Hk). apply (Hno i' j Hj). rewrite Hk.
    unfold catchup_payload. by rewrite Hslot, Hday.
Qed.

(** The dedupe covers active jobs only: once the day's job is finished, however it
    was enqueued, a late enqueue of the slot for the same day inserts a second
    job. *)
Theorem late_enqueue_runs_again today t slot cfg p q r q' :
  queue_ok q →
  (∀ i j, q_rows q !! i = Some j → j_kind j = lower (strip slot) →
     j_hash j = Some (slot_hash today p) → active j = false) →
  enqueue_slot today t slot cfg p q = Ok (r, q') →
  sr_enqueued r = 1 ∧ ∃ i j, sr_job_id r = Some i ∧ q_rows q !! i = None ∧ q_rows q' !! i = Some j
    ∧ j_status j = Pending ∧ j_hash j = Some (slot_hash today p).
Proof.
  intros Hok Hdone (Hs & prio & maxa & Hi & _ & _ & Hr)%enqueue_slot_inv.
  destruct (slot_kind_name _ Hs) as (_ & Hstrip & _).
  apply insert_job_inv in Hi as [(_ & (i & j & Hj & Hk) & _)|(Hid & _ & ->)]; rewrite Hstrip in *.
  - unfold index_key in Hk. destruct (active j) eqn:Ha, (j_hash j) eqn:Hh; simplify_eq/=.
    specialize (Hdone i j Hj). rewrite Ha in Hdone. naive_solver.
  - rewrite Hid in Hr. rewrite Hr. cbn. split; [done|]. eexists _, _. split; [done|]. split.
    + destruct (q_rows q !! q_next q) eqn:E; [|done]. apply (ok_seq _ Hok) in E. lia.
    + split; [apply lookup_insert_eq|done].
Qed.
End theorems.

(** ** Examples *)

(** The deployed schedule, an hour after a morning whose fires nobody enqueued. *)
Definition sample_slot (priority : Z) : pyval :=
  PDict [("cron", PStr deployed_cron); ("priority", PInt priority); ("max_attempts", PInt 8)].
Definition sample_slots : pydict := [("flex-trades", sample_slot 5); ("flex-transactions", sample_slot 4)].
Definition deployed_schedule : pydict :=
  [("timezone", PStr "America/New_York"); ("slots", PDict sample_slots); ("catchup_grace_sec", PInt 2700)].
Definition late_morning : Z := half_past_six + secs 3600.
Definition missed_kind (kind : string) : missed := mkMissed kind kind half_past_six "2026-09-08".

Lemma morning_fire :
  @previous_fire sample_zones deployed_cron late_morning 14 (Some "America/New_York") = Ok (Some half_past_six).
Proof.
  eapply (@previous_fire_walk sample_zones _ half_past_six _ _ _ [half_past_six]); [|reflexivity|discriminate].
  vm_compute. reflexivity.
Qed.

Lemma deployed_missed since kind :
  kind ∈ SLOT_NAMES →
  @missed_slot sample_repr sample_zones deployed_schedule sample_slots late_morning 2700 since kind kind
  = Ok (if match since kind with Some newest => half_past_six <=? newest | None => false end
        then None else Some (missed_kind kind)).
Proof.
  intros Hk.
  assert (∃ prio, dict_or_empty (dict_get kind sample_slots)
                  = Ok [("cron", PStr deployed_cron); ("priority", PInt prio); ("max_attempts", PInt 8)]) as [prio E].
  { unfold SLOT_NAMES in Hk. rewrite !elem_of_cons in Hk. destruct Hk as [->|[->|Hk]]; [by eexists..|set_solver]. }
  unfold missed_slot. rewrite E. cbn [mbind res_bind].
  change (py_str _) with deployed_cron.
  change (@schedule_timezone sample_repr deployed_schedule) with (Some "America/New_York").
  rewrite decide_False by done. rewrite morning_fire. cbn [mbind res_bind].
  change ((late_morning - half_past_six <? secs 2700) || (secs 86400 <? late_morning - half_past_six)) with false.
  cbn beta iota. by destruct (since kind) as [newest|]; [destruct (half_past_six <=? newest)|].
Qed.

Definition none_since (since : string → option Z) (m : missed) : bool :=
  match since (m_kind m) with Some newest => newest <? half_past_six | None => true end.

Lemma deployed_missed_slots since :
  @missed_slots sample_repr sample_zones deployed_schedule late_morning 2700 since
  = Ok (filter (λ m, none_since since m = true) (missed_kind <$> SLOT_NAMES)).
Proof.
  unfold missed_slots. change (dict_or_empty (dict_get "slots" deployed_schedule)) with (Ok sample_slots).
  cbn [mbind res_bind SLOT_KIND fold_res]. rewrite !deployed_missed by set_solver.
  assert (∀ k, (if match since k with Some newest => half_past_six <=? newest | None => false end
                then None else Some (missed_kind k))
               = if none_since since (missed_kind k) then Some (missed_kind k) else None) as Hs.
  { intros k. unfold none_since. cbn [m_kind missed_kind]. destruct (since k) as [n|]; [|done].
    rewrite Z.leb_antisym. by destruct (n <? half_past_six). }
  rewrite !Hs. cbn [fmap res_fmap list_fmap SLOT_NAMES]. rewrite !filter_cons, filter_nil.
  destruct (none_since since (missed_kind "flex-trades")), (none_since since (missed_kind "flex-transactions"));
    repeat case_decide; done.
Qed.

(** The table the catch-up leaves when it was empty, and after its jobs were done. *)
Definition morning_clock (n : nat) : Z := late_morning + secs (Z.of_nat n).
Definition caught_up : queue :=
  (@enqueue_missed sample_repr sample_sha "2026-09-08" morning_clock deployed_schedule
     (missed_kind <$> SLOT_NAMES) 0 empty_queue).2.
Definition morning_done : queue :=
  match mark_done (late_morning + secs 60) 1 [] caught_up with Ok q => q | Raise _ => caught_up end.

Lemma morning_done_ok : queue_ok morning_done.
Proof.
  assert (queue_ok caught_up) as Hok.
  { destruct (@enqueue_slot sample_repr sample_sha "2026-09-08" (morning_clock 0) "flex-trades" deployed_schedule
                (catchup_payload (missed_kind "flex-trades")) empty_queue) as [[r q1]|] eqn:E1;
      [|vm_compute in E1; discriminate E1].
    pose proof (enqueue_slot_ok _ _ _ _ _ _ _ _ empty_queue_ok E1) as Hok1.
    destruct (@enqueue_slot sample_repr sample_sha "2026-09-08" (morning_clock 1) "flex-transactions" deployed_schedule
                (catchup_payload (missed_kind "flex-transactions")) q1) as [[r2 q2]|] eqn:E2;
      [|vm_compute in E1; injection E1 as _ <-; vm_compute in E2; discriminate E2].
    assert (caught_up = q2) as ->.
    { vm_compute in E1. injection E1 as _ <-. vm_compute in E2. injection E2 as _ <-. vm_compute. reflexivity. }
    by eapply enqueue_slot_ok. }
  assert (mark_done (late_morning + secs 60) 1 [] caught_up = Ok morning_done) as E by (vm_compute; reflexivity).
  exact (update_row_ok _ _ (done_row _ _) _ Hok (λ _, eq_refl) E).
Qed.

Lemma missed_slots_spec_witness :
  ∃ slots, dict_or_empty (dict_get "slots" deployed_schedule) = Ok slots
    ∧ ∀ m, m ∈ (missed_kind <$> SLOT_NAMES) ↔ ∃ slot kind, (slot, kind) ∈ SLOT_KIND
        ∧ @slot_missed sample_repr sample_zones deployed_schedule slots late_morning 2700 (λ _, None) slot kind m.
Proof.
  apply (@missed_slots_spec sample_repr sample_zones deployed_schedule late_morning 2700 (λ _, None)).
  rewrite deployed_missed_slots. reflexivity.
Defined.

(** A manual payload for the same day, with other knobs. *)
Lemma enqueue_slot_dedupe_witness :
  ∃ r q', @enqueue_slot sample_repr sample_sha "2026-09-09" late_morning " Flex-Trades" deployed_schedule
            [("fallback", PBool true); ("as_of", PStr "2026-09-08")]
            (queue_after empty_queue (@enqueue_slot sample_repr sample_sha "2026-09-08" 7 "flex-trades" deployed_schedule
              [("as_of", PStr "2026-09-08"); ("catchup", PBool true)] empty_queue)) = Ok (r, q')
    ∧ sr_job_id r = None.
Proof.
  destruct (@enqueue_slot sample_repr sample_sha "2026-09-08" 7 "flex-trades" deployed_schedule
              [("as_of", PStr "2026-09-08"); ("catchup", PBool true)] empty_queue) as [[r q1]|] eqn:E1;
    [|vm_compute in E1; discriminate E1].
  destruct (@enqueue_slot sample_repr sample_sha "2026-09-09" late_morning " Flex-Trades" deployed_schedule
              [("fallback", PBool true); ("as_of", PStr "2026-09-08")] q1) as [[r' q']|] eqn:E2;
    [|vm_compute in E1; injection E1 as _ <-; vm_compute in E2; discriminate E2].
  exists r', q'. split; [exact E2|].
  refine (proj1 (proj2 (@enqueue_slot_dedupe sample_repr sample_sha _ _ _ _ _ _ _ _ _ _ _ _ _ _ _
    E1 _ _ _ E2))); [reflexivity|apply NoDup_singleton|reflexivity].
Defined.

Definition first_catchup : list (missed * Z) :=
  [(missed_kind "flex-trades", 1); (missed_kind "flex-transactions", 2)].

Lemma first_catchup_run :
  @catchup_missed_slots sample_repr sample_sha sample_zones "2026-09-08" morning_clock deployed_schedule
    late_morning 2700 empty_queue = (Ok first_catchup, caught_up).
Proof.
  unfold catchup_missed_slots. rewrite deployed_missed_slots. vm_compute. reflexivity.
Qed.

Lemma second_catchup_run :
  @catchup_missed_slots sample_repr sample_sha sample_zones "2026-09-08" morning_clock deployed_schedule
    late_morning 2700 caught_up = (Ok [], caught_up).
Proof.
  unfold catchup_missed_slots. rewrite deployed_missed_slots. vm_compute. reflexivity.
Qed.

Lemma first_missed :
  @missed_slots sample_repr sample_zones deployed_schedule late_morning 2700 (newest_job_per_kind empty_queue)
  = Ok (missed_kind <$> SLOT_NAMES).
Proof. rewrite deployed_missed_slots. vm_compute. reflexivity. Qed.

(** The trades job of the catch-up is done; an hour later the same fire is not caught up
    again, though nothing of that day is active. *)
Lemma catchup_not_repeated_witness :
  (missed_kind "flex-trades", 1) ∈ first_catchup
  ∧ (∃ j, q_rows morning_done !! 1 = Some j ∧ active j = false)
  ∧ ∀ l' q3, @catchup_missed_slots sample_repr sample_sha sample_zones "2026-09-09" (λ _, late_morning + secs 3600)
               deployed_schedule (late_morning + secs 3600) 2700 morning_done = (Ok l', q3) →
      ∀ m' i', (m', i') ∈ l' → m_slot m' = "flex-trades" → half_past_six < m_planned m'.
Proof.
  split; [left|]. split; [eexists; split; [vm_compute; reflexivity|reflexivity]|].
  intros l' q3 Hc. refine (proj1 (@catchup_not_repeated sample_repr sample_sha sample_zones "2026-09-08" morning_clock deployed_schedule
    late_morning 2700 empty_queue _ first_catchup caught_up empty_queue_ok _ first_missed first_catchup_run)
    (missed_kind "flex-trades") 1 _ _ _ _ morning_done l' q3 _ morning_done_ok _ Hc).
  - intros n. unfold morning_clock, secs. lia.
  - left.
  - intros j Hj. vm_compute in Hj. injection Hj as <-. eexists. split; [vm_compute; reflexivity|]. by split.
Defined.

(** Dagster's own enqueue, after the catch-up's job of the day was done. *)
Lemma late_enqueue_runs_again_witness :
  ∃ r q', @enqueue_slot sample_repr sample_sha "2026-09-08" (late_morning + secs 120) "flex-trades" deployed_schedule
            [("as_of", PStr "2026-09-08")] morning_done = Ok (r, q') ∧ sr_enqueued r = 1.
Proof.
  destruct (@enqueue_slot sample_repr sample_sha "2026-09-08" (late_morning + secs 120) "flex-trades" deployed_schedule
              [("as_of", PStr "2026-09-08")] morning_done) as [[r q']|] eqn:E;
    [|vm_compute in E; discriminate E].
  exists r, q'. split; [reflexivity|].
  refine (proj1 (@late_enqueue_runs_again sample_repr sample_sha _ _ _ _ _ _ _ _ morning_done_ok _ E)).
  intros i j Hj Hk _. revert Hk. apply elem_of_map_to_list in Hj. vm_compute in Hj.
  repeat (apply elem_of_cons in Hj as [Hj|Hj]; [injection Hj as _ ->; vm_compute; congruence|]).
  apply elem_of_nil in Hj. contradiction.
Defined.
