(* ===== verification/Diagnose.v ===== *)
(** * The self-check ([ops/diagnose.py])

    One verdict per kind with the actions that make sense, the checks beside them and
    the sentence that says what to do, as functions of what the API has read. Reading a
    clock in a zone fails when the zone database does not know it, so the texts are
    fallible. *)
From S2P Require Import Prelude Pytext PyVal JobQueue Pytime Ddl Ingest Coverage.

(** The name a zone gives itself at an instant ([local.tzname()]). *)
Class ZoneNames := zone_abbrev : string → Z → string.

(** The verdicts; [SAttention] is only ever an overall one. *)
Inductive standing :=
| SFailed | SMissed | SThrottled | SWaiting | SRunning | SQueued | SOk | SIdle | SUnknown | SAttention.
#[export] Instance standing_eq_dec : EqDecision standing.
Proof. solve_decision. Defined.

Definition standing_text (s : standing) : string :=
  match s with
  | SFailed => "failed" | SMissed => "missed" | SThrottled => "throttled" | SWaiting => "waiting"
  | SRunning => "running" | SQueued => "queued" | SOk => "ok" | SIdle => "idle" | SUnknown => "unknown"
  | SAttention => "attention"
  end.

Definition VERDICT_ORDER : list standing :=
  [SFailed; SMissed; SThrottled; SWaiting; SRunning; SQueued; SOk; SIdle; SUnknown].
Definition HEARTBEAT_STALE_SEC : Z := 180.

(** ** What the check is given *)

Record KindInput := mkKindInput {
  ki_kind : string;
  ki_job : option job;
  ki_freshness : option freshness;
  ki_planned_last : option Z;
  ki_planned_next : option Z;
  ki_max_attempts : Z
}.

Record tokens := mkTokens { tk_host : bool; tk_secondary : bool; tk_issued_at : option string; tk_age_days : option Z }.

Record CheckInput := mkCheckInput {
  ci_now : Z;
  ci_tz : option string;
  ci_grace_sec : Z;
  ci_kinds : list KindInput;
  ci_heartbeat : option heartbeat;
  ci_tokens : tokens;
  ci_data_latest : list (string * option Z);
  ci_cooldown_until : option Z;
  ci_catchup_enabled : bool;
  ci_worker_poll_sec : pyfloat;
  ci_coverage : option coverage;
  ci_coverage_error : option string
}.

(** ** What it answers *)

Record Action := mkAction {
  a_id : string;
  a_label : string;
  a_method : string;
  a_path : string;
  a_body : option (list (string * string));
  a_enabled : bool;
  a_reason : option string
}.

Record KindVerdict := mkKindVerdict {
  kv_kind : string;
  kv_verdict : standing;
  kv_headline : string;
  kv_detail : option string;
  kv_next_at : option Z;
  kv_job : option job;
  kv_last_success_at : option Z;
  kv_actions : list Action
}.

(** ** Texts *)

(** [x or "?"]. *)
Definition or_else (s d : string) : string := if decide (s = "") then d else s.

Definition weekday_name (d : Z) : string :=
  match weekday d with
  | 0 => "Mon" | 1 => "Tue" | 2 => "Wed" | 3 => "Thu" | 4 => "Fri" | 5 => "Sat" | _ => "Sun"
  end.

(** [_job_error]: the [error] item of the result, when there is one. *)
Definition job_error `{PyRepr} (j : option job) : string :=
  match j ≫= j_result with
  | Some res => let e := dict_get "error" res in if truthy e then py_str e else ""
  | None => ""
  end.

(** [_short]. *)
Definition short (msg : string) (n : Z) : string :=
  let msg := join " " (split_ws msg) in
  if ulen msg <=? n then msg else utake (n - 1) msg +:+ "…".

Section diagnose.
Context `{PyRepr, ZoneDb, ZoneNames}.

(** ['Mon 06:30 EDT']. *)
Definition fmt_local (dt : option Z) (tz : option string) : res string :=
  match dt with
  | None => Ok "—"
  | Some t =>
      zone ← get_zone (tz ≫= or_none);
      let local := to_wall zone t in
      let name := match zone with None => "UTC" | Some z => zone_abbrev z t end in
      Ok (weekday_name (date_of local) +:+ " " +:+ pad2 (wall_hour local) +:+ ":" +:+ pad2 (wall_minute local)
          +:+ " " +:+ or_else name (or_else (default "" tz) "UTC"))
  end.

Definition iso (dt : option Z) : option string := iso_instant <$> dt.

Definition enqueue_action (kind label : string) (cooldown_until : option Z) (now : Z) (tz : option string) : res Action :=
  let a := mkAction "enqueue" label "POST" "/flex/ingest/enqueue" (Some [("slot", kind)]) in
  match cooldown_until with
  | Some c =>
      if now <? c
      then until ← fmt_local (Some c) tz; Ok (a false (Some ("IB throttle cooldown until " +:+ until)))
      else Ok (a true None)
  | None => Ok (a true None)
  end.

(** The planned fire is at least the grace and at most a day old, and the newest job is
    older than it. *)
Definition missed_plan (k : KindInput) (inp : CheckInput) : bool :=
  match ki_planned_last k with
  | None => false
  | Some planned_last =>
      let age := ci_now inp - planned_last in
      if (age <? secs (ci_grace_sec inp)) || (secs 86400 <? age) then false
      else match ki_job k with
           | None => true
           | Some j => j_created j <? planned_last
           end
  end.

Definition missed_verdict (k : KindInput) (inp : CheckInput) (tail : string) : res KindVerdict :=
  planned ← fmt_local (ki_planned_last k) (ci_tz inp);
  enqueue ← enqueue_action (ki_kind k) "Enqueue today's slot" (ci_cooldown_until inp) (ci_now inp) (ci_tz inp);
  Ok (mkKindVerdict (ki_kind k) SMissed
        ("Planned " +:+ planned +:+ " came and went with no job" +:+ tail +:+ ".")
        (Some (if ci_catchup_enabled inp
               then "The worker's catch-up enqueues it on its own after the grace period; press Enqueue to do it now."
               else "Catch-up is disabled; enqueue it by hand."))
        None None None [enqueue]).

(** [with_job]. *)
Definition with_job (k : KindInput) (v : KindVerdict) : KindVerdict :=
  mkKindVerdict (kv_kind v) (kv_verdict v) (kv_headline v) (kv_detail v) (kv_next_at v)
    (ki_job k) (ki_freshness k ≫= f_latest_ts) (kv_actions v).

(** ["attempt/budget"], the budget of the slot standing in for a missing one. *)
Definition attempts_text (k : KindInput) (j : job) : string :=
  str_of_Z (j_attempts j) +:+ "/" +:+ str_of_Z (if j_max_attempts j =? 0 then ki_max_attempts k else j_max_attempts j).

Definition detail_of (j : job) : option string := or_none (short (job_error (Some j)) 220).

Definition assess_running (k : KindInput) (inp : CheckInput) (j : job) : res KindVerdict :=
  started ← fmt_local (j_started j) (ci_tz inp);
  Ok (mkKindVerdict (ki_kind k) SRunning ("Running since " +:+ started +:+ " (attempt " +:+ attempts_text k j +:+ ").")
        (Some "An IB fetch takes seconds to a few minutes; a run older than two hours is reclaimed automatically.")
        None None None []).

Definition run_now_action (j : job) : bool → option string → Action :=
  mkAction "run_now" "Run now" "POST" ("/flex/ingest/jobs/" +:+ str_of_Z (j_id j) +:+ "/run-now") None.

Definition assess_pending (k : KindInput) (inp : CheckInput) (j : job) : res KindVerdict :=
  let category := default "" (j_category j) in
  let waits := match j_not_before j with Some nb => ci_now inp <? nb | None => false end in
  if waits then
    if decide (category = "throttled") then
      before ← fmt_local (j_not_before j) (ci_tz inp);
      Ok (mkKindVerdict (ki_kind k) SThrottled
            ("IB throttled the token; cooling down until " +:+ before +:+ " (attempt " +:+ attempts_text k j +:+ ").")
            (detail_of j) (j_not_before j) None None
            [run_now_action j false
               (Some ("IB refused the token ([1018]); a request before " +:+ before +:+ " fails again"))])
    else
      let why := if decide (category = "not_ready") then "IB has not generated the statement yet"
                 else or_else category "retry scheduled" in
      before ← fmt_local (j_not_before j) (ci_tz inp);
      Ok (mkKindVerdict (ki_kind k) SWaiting
            (why +:+ "; the worker retries at " +:+ before +:+ " (attempt " +:+ attempts_text k j +:+ ").")
            (detail_of j) (j_not_before j) None None [run_now_action j true None])
  else
    poll ← float_trunc (ci_worker_poll_sec inp);
    Ok (mkKindVerdict (ki_kind k) SQueued ("Queued; the worker claims it within " +:+ str_of_Z poll +:+ "s.")
          None None None None []).

Definition assess_failed (k : KindInput) (inp : CheckInput) (j : job) : res KindVerdict :=
  let category := default "" (j_category j) in
  if decide (category = "config") then
    Ok (mkKindVerdict (ki_kind k) SFailed "Failed on configuration — retrying cannot fix this." (detail_of j) None None None
          [mkAction "fix_config" "Fix config, then enqueue" "POST" "/flex/ingest/enqueue" (Some [("slot", ki_kind k)]) false
             (Some ("Expired/invalid token: generate a new one in IB Account Management and run "
                    +:+ "make sync-flex-tokens; bad query id: Config tab"))])
  else
    finished ← fmt_local (j_finished j) (ci_tz inp);
    enqueue ← enqueue_action (ki_kind k) "Enqueue again" (ci_cooldown_until inp) (ci_now inp) (ci_tz inp);
    Ok (mkKindVerdict (ki_kind k) SFailed
          ("Failed for good at " +:+ finished +:+ " (" +:+ or_else category "error" +:+ ", "
           +:+ attempts_text k j +:+ " attempts).")
          (detail_of j) None None None [enqueue]).

(** [", 12 rows (3 new)"]. *)
Definition rows_text (f : option freshness) : string :=
  match f ≫= f_processed_rows with
  | None => ""
  | Some processed =>
      ", " +:+ str_of_Z processed +:+ " rows"
      +:+ match f ≫= f_new_rows with Some n => " (" +:+ str_of_Z n +:+ " new)" | None => "" end
  end.

Definition assess_done (k : KindInput) (inp : CheckInput) (j : job) : res KindVerdict :=
  if missed_plan k inp then
    created ← fmt_local (Some (j_created j)) (ci_tz inp);
    missed_verdict k inp ("; last run was " +:+ created)
  else
    finished ← fmt_local (j_finished j) (ci_tz inp);
    planned ← fmt_local (ki_planned_next k) (ci_tz inp);
    Ok (mkKindVerdict (ki_kind k) SOk
          ("Completed " +:+ finished +:+ rows_text (ki_freshness k) +:+ "; next planned " +:+ planned +:+ ".")
          None (ki_planned_next k) None None []).

Definition assess_kind (k : KindInput) (inp : CheckInput) : res KindVerdict :=
  with_job k <$>
  match ki_job k with
  | None =>
      if missed_plan k inp then missed_verdict k inp ""
      else
        planned ← fmt_local (ki_planned_next k) (ci_tz inp);
        enqueue ← enqueue_action (ki_kind k) "Enqueue now" (ci_cooldown_until inp) (ci_now inp) (ci_tz inp);
        Ok (mkKindVerdict (ki_kind k) SIdle "Never ran." (Some ("Next planned " +:+ planned +:+ "."))
              (ki_planned_next k) None None [enqueue])
  | Some j =>
      match j_status j with
      | Running => assess_running k inp j
      | Pending => assess_pending k inp j
      | Failed => assess_failed k inp j
      | Done => assess_done k inp j
      end
  end.
End diagnose.

(** ** The checks *)

(** [_worst]. *)
Definition worst (verdicts : list standing) : standing :=
  match list_find (λ v, v ∈ verdicts) VERDICT_ORDER with Some (_, v) => v | None => SUnknown end.

Definition plain_check (id : string) (ok : bool) (detail : string) : check := mkCheck id ok detail [].

Definition tokens_check (t : tokens) : check :=
  if negb (tk_host t) && negb (tk_secondary t)
  then plain_check "tokens" false "No Flex token in Secret bifrost-flex-tokens — run make sync-flex-tokens."
  else
    let age := match tk_age_days t with Some n => str_of_Z n | None => "None" end in
    let issued := match tk_issued_at t with
                  | Some at_ => if decide (at_ = "") then ", issue date unknown"
                                else ", issued " +:+ at_ +:+ " (" +:+ age +:+ "d ago)"
                  | None => ", issue date unknown"
                  end in
    let warn := match tk_age_days t with Some n => 335 <? n | None => false end in
    let sides := join "+" ((if tk_host t then ["host"] else []) ++ (if tk_secondary t then ["secondary"] else [])) in
    plain_check "tokens" (negb warn)
      (sides +:+ " from Secret" +:+ issued
       +:+ if warn then " — IB expires tokens after a year, rotate soon." else "").

Definition worker_check (inp : CheckInput) : check :=
  match ci_heartbeat inp with
  | None => plain_check "worker" false "Worker has never reported in — is flex-query-worker running on 0.6.1+?"
  | Some hb =>
      let silent := ci_now inp - hb_seen_at hb in
      let ok := silent <=? secs HEARTBEAT_STALE_SEC in
      plain_check "worker" ok
        (if ok then
           "worker alive, seen " +:+ str_of_Z (Z.quot silent 1000000) +:+ "s ago (pod " +:+ or_else (hb_pod hb) "?"
           +:+ ", v" +:+ or_else (hb_version hb) "?" +:+ ", "
           +:+ "done " +:+ str_of_Z (hb_done hb) +:+ " / retried " +:+ str_of_Z (hb_retried hb)
           +:+ " / failed " +:+ str_of_Z (hb_failed hb) +:+ ", "
           +:+ "db reconnects " +:+ str_of_Z (hb_reconnects hb) +:+ ", catch-ups " +:+ str_of_Z (hb_catchups hb) +:+ ")"
         else
           "worker silent for " +:+ str_of_Z (silent / secs 60) +:+ " min (last pod " +:+ or_else (hb_pod hb) "?"
           +:+ ") — check flex-query-worker.")
  end.

(** [min(l)], if there is one. *)
Definition min_time (l : list Z) : option Z := min_by Z.ltb l.

Section checks.
Context `{PyRepr, ZoneDb, ZoneNames}.

Definition cooldown_check (inp : CheckInput) : res check :=
  match ci_cooldown_until inp with
  | Some c =>
      if ci_now inp <? c
      then until ← fmt_local (Some c) (ci_tz inp);
           Ok (plain_check "cooldown" false ("IB throttle cooldown until " +:+ until +:+ " — no request before then."))
      else Ok (plain_check "cooldown" true "No IB throttle cooldown.")
  | None => Ok (plain_check "cooldown" true "No IB throttle cooldown.")
  end.

Definition schedule_check (inp : CheckInput) : res check :=
  next ← fmt_local (min_time (omap ki_planned_next (ci_kinds inp))) (ci_tz inp);
  Ok (plain_check "schedule" true
        ("Trigger: Dagster research_flex_morning_schedule; next planned " +:+ next
         +:+ if ci_catchup_enabled inp
             then "; worker catch-up " +:+ str_of_Z (ci_grace_sec inp / 60) +:+ " min after a missed slot"
             else "; catch-up disabled")).

(** One round of the loop over the tables: the parts of the text and whether the data is stale. *)
Definition data_part (inp : CheckInput) (acc : list string * bool) (kv : string * option Z) : res (list string * bool) :=
  let '(parts, stale) := acc in
  let '(table, dt) := kv in
  match dt with
  | None => Ok (parts ++ [table +:+ ": none"], true)
  | Some d =>
      at_ ← fmt_local (Some d) (ci_tz inp);
      Ok (parts ++ [table +:+ ": " +:+ at_],
          stale || bool_decide (table = "executions_raw_flex") && (secs (7 * 86400) <? ci_now inp - d))
  end.

Definition data_check (inp : CheckInput) : res check :=
  '(parts, stale) ← fold_res (data_part inp) ([], false) (ci_data_latest inp);
  Ok (plain_check "data" (negb stale) (or_else (join "; " parts) "—")).

(** [_checks]. *)
Definition checks (inp : CheckInput) : res (list check) :=
  cooldown ← cooldown_check inp;
  schedule ← schedule_check inp;
  data ← data_check inp;
  Ok ([tokens_check (ci_tokens inp); worker_check inp; cooldown; schedule; data]
      ++ if bool_decide (is_Some (ci_coverage inp)) || bool_decide (default "" (ci_coverage_error inp) ≠ "")
         then [coverage_check (ci_coverage inp) (ci_coverage_error inp)] else []).

(** [first[s]]: the first verdict of a standing. *)
Definition first_of (s : standing) (verdicts : list KindVerdict) : res KindVerdict :=
  match list_find (λ v, kv_verdict v = s) verdicts with
  | Some (_, v) => Ok v
  | None => Raise (Exn OtherError (standing_text s))
  end.

(** [_next_step]. *)
Definition next_step (overall : standing) (verdicts : list KindVerdict) (inp : CheckInput) : res string :=
  let tz := ci_tz inp in
  match overall with
  | SFailed =>
      v ← first_of SFailed verdicts;
      Ok (if bool_decide ((kv_job v ≫= j_category) = Some "config")
          then "Fix the configuration for " +:+ kv_kind v +:+ " (see its action), then enqueue; nothing automatic will help."
          else kv_kind v +:+ " exhausted its attempts; enqueue it again (the next planned run will also try).")
  | SMissed =>
      v ← first_of SMissed verdicts;
      Ok (if ci_catchup_enabled inp
          then "Enqueue " +:+ kv_kind v +:+ " now, or wait for the worker's catch-up."
          else "Enqueue " +:+ kv_kind v +:+ " now.")
  | SThrottled =>
      v ← first_of SThrottled verdicts;
      until ← fmt_local (kv_next_at v) tz;
      Ok ("Do nothing until " +:+ until +:+ "; the worker retries by itself and every request before then fails.")
  | SWaiting =>
      v ← first_of SWaiting verdicts;
      at_ ← fmt_local (kv_next_at v) tz;
      Ok ("The worker retries " +:+ kv_kind v +:+ " at " +:+ at_ +:+ "; press Run now to skip the wait.")
  | SRunning | SQueued => Ok "A job is in flight; refresh in a minute."
  | _ =>
      match min_time (omap kv_next_at verdicts) with
      | Some t => next ← fmt_local (Some t) tz; Ok ("Nothing to do; next planned run " +:+ next +:+ ".")
      | None => Ok "Nothing to do."
      end
  end.

(** ** The answer *)

Record job_view := mkJobView {
  jv_id : Z;
  jv_status : string;
  jv_attempts : Z;
  jv_max_attempts : Z;
  jv_error_category : option string;
  jv_not_before : option string;
  jv_created_at : option string;
  jv_finished_at : option string;
  jv_error : option string;
  jv_manual : bool
}.

Definition view_job (j : job) : job_view :=
  mkJobView (j_id j) (status_text (j_status j)) (j_attempts j) (j_max_attempts j) (j_category j)
    (iso (j_not_before j)) (iso (Some (j_created j))) (iso (j_finished j))
    (or_none (short (job_error (Some j)) 500)) (truthy (dict_get "manual" (j_payload j))).

Record kind_report := mkKindReport {
  kr_kind : string;
  kr_verdict : string;
  kr_headline : string;
  kr_detail : option string;
  kr_next_at : option string;
  kr_next_in_seconds : option Z;
  kr_last_success_at : option string;
  kr_job : option job_view;
  kr_actions : list Action
}.

Definition report_kind (inp : CheckInput) (v : KindVerdict) : kind_report :=
  mkKindReport (kv_kind v) (standing_text (kv_verdict v)) (kv_headline v) (kv_detail v) (iso (kv_next_at v))
    ((λ t, Z.max 0 (Z.quot (t - ci_now inp) 1000000)) <$> kv_next_at v)
    (iso (kv_last_success_at v)) (view_job <$> kv_job v) (kv_actions v).

Record diagnosis := mkDiagnosis {
  d_generated_at : option string;
  d_timezone : string;
  d_verdict : string;
  d_next_step : string;
  d_kinds : list kind_report;
  d_checks : list check
}.

(** The overall verdict: the worst one, unless all is quiet but a check fails. *)
Definition overall_of (verdicts : list KindVerdict) (cs : list check) : standing :=
  let overall := worst (kv_verdict <$> verdicts) in
  if bool_decide (overall ∈ [SOk; SIdle]) && existsb (λ c, negb (ck_ok c)) cs then SAttention else overall.

Definition diagnose (inp : CheckInput) : res diagnosis :=
  verdicts ← fold_res (λ out k, (λ v, out ++ [v]) <$> assess_kind k inp) [] (ci_kinds inp);
  cs ← checks inp;
  let overall := overall_of verdicts cs in
  step ← next_step overall verdicts inp;
  Ok (mkDiagnosis (iso (Some (ci_now inp))) (or_else (default "" (ci_tz inp)) "UTC") (standing_text overall) step
        (report_kind inp <$> verdicts) cs).
End checks.

(** ** What a verdict means *)

(** A pending job that may not be claimed yet. *)
Definition waits (now : Z) (j : job) : Prop := ∃ nb, j_not_before j = Some nb ∧ now < nb.

(** The verdict of a kind, by what holds of its newest job and its plan. *)
Inductive stands (k : KindInput) (inp : CheckInput) : standing → Prop :=
| stands_missed : (∀ j, ki_job k = Some j → j_status j = Done) → missed_plan k inp = true → stands k inp SMissed
| stands_idle : ki_job k = None → missed_plan k inp = false → stands k inp SIdle
| stands_ok j : ki_job k = Some j → j_status j = Done → missed_plan k inp = false → stands k inp SOk
| stands_running j : ki_job k = Some j → j_status j = Running → stands k inp SRunning
| stands_failed j : ki_job k = Some j → j_status j = Failed → stands k inp SFailed
| stands_queued j : ki_job k = Some j → j_status j = Pending → ¬ waits (ci_now inp) j → stands k inp SQueued
| stands_throttled j : ki_job k = Some j → j_status j = Pending → waits (ci_now inp) j →
    j_category j = Some "throttled" → stands k inp SThrottled
| stands_waiting j : ki_job k = Some j → j_status j = Pending → waits (ci_now inp) j →
    j_category j ≠ Some "throttled" → stands k inp SWaiting.

(** The boolean the code computes for [waits]. *)
Definition waitsb (now : Z) (j : job) : bool := match j_not_before j with Some nb => now <? nb | None => false end.

Lemma waitsb_spec now j : waitsb now j = true ↔ waits now j.
Proof.
  unfold waitsb, waits. destruct (j_not_before j) as [nb|].
  - rewrite Z.ltb_lt. naive_solver.
  - naive_solver.
Qed.

Lemma default_category j c : c ≠ "" → default "" (j_category j) = c ↔ j_category j = Some c.
Proof. intros Hc. destruct (j_category j); cbn; naive_solver. Qed.

Section verdicts.
Context `{PyRepr, ZoneDb, ZoneNames}.

(** Open the monadic steps of a verdict that was returned. *)
Ltac open_verdict :=
  repeat match goal with
  | H : mbind _ _ = Ok _ |- _ => apply res_bind_ok in H as (? & ? & ?)
  | H : Ok _ = Ok _ |- _ => injection H as <-
  end.

Lemma assess_pending_cases k inp j v :
  assess_pending k inp j = Ok v →
  kv_kind v = ki_kind k ∧
  if waitsb (ci_now inp) j then
    kv_next_at v = j_not_before j
    ∧ if decide (j_category j = Some "throttled")
      then kv_verdict v = SThrottled ∧ ∃ why, kv_actions v = [run_now_action j false why]
      else kv_verdict v = SWaiting ∧ kv_actions v = [run_now_action j true None]
  else kv_verdict v = SQueued ∧ kv_actions v = [].
Proof.
  unfold assess_pending. cbn zeta. fold (waitsb (ci_now inp) j). destruct (waitsb (ci_now inp) j).
  - pose proof (default_category j "throttled" ltac:(done)) as Hc.
    destruct (decide (default "" (j_category j) = "throttled")) as [E|E].
    + rewrite (decide_True (P := j_category j = Some "throttled")) by tauto. intros. open_verdict. cbn. eauto.
    + rewrite (decide_False (P := j_category j = Some "throttled")) by tauto. intros. open_verdict. cbn. eauto.
  - intros. open_verdict. done.
Qed.

Lemma missed_verdict_inv k inp tail v :
  missed_verdict k inp tail = Ok v → kv_kind v = ki_kind k ∧ kv_verdict v = SMissed ∧ ∃ a, kv_actions v = [a] ∧ a_id a = "enqueue".
Proof.
  unfold missed_verdict. intros. open_verdict. cbn. split_and!; [done..|].
  eexists. split; [done|]. unfold enqueue_action in *. repeat case_match; open_verdict; done.
Qed.

Lemma assess_running_inv k inp j v :
  assess_running k inp j = Ok v → kv_kind v = ki_kind k ∧ kv_verdict v = SRunning ∧ kv_actions v = [].
Proof. unfold assess_running. intros. by open_verdict. Qed.

Lemma assess_failed_inv k inp j v :
  assess_failed k inp j = Ok v →
  kv_kind v = ki_kind k ∧ kv_verdict v = SFailed ∧ Forall (λ a, a_id a ≠ "run_now") (kv_actions v).
Proof.
  unfold assess_failed. cbn zeta. case_decide; intros; open_verdict; cbn; split_and!; try done.
  - by repeat constructor.
  - constructor; [|constructor]. unfold enqueue_action in *. repeat case_match; open_verdict; done.
Qed.

Lemma assess_done_inv k inp j v :
  assess_done k inp j = Ok v →
  kv_kind v = ki_kind k ∧ kv_verdict v = (if missed_plan k inp then SMissed else SOk)
  ∧ Forall (λ a, a_id a ≠ "run_now") (kv_actions v).
Proof.
  unfold assess_done. destruct (missed_plan k inp); intros; open_verdict; [|cbn; auto].
  destruct (missed_verdict_inv _ _ _ _ ltac:(eassumption)) as (-> & -> & a & -> & Ha).
  split_and!; [done..|]. constructor; [by rewrite Ha|constructor].
Qed.

Lemma assess_kind_stands k inp v :
  assess_kind k inp = Ok v →
  stands k inp (kv_verdict v)
  ∧ kv_kind v = ki_kind k ∧ kv_job v = ki_job k ∧ kv_last_success_at v = ki_freshness k ≫= f_latest_ts.
Proof.
  unfold assess_kind. intros (u & Hu & <-)%res_fmap_ok. cbn [with_job kv_verdict kv_kind kv_job kv_last_success_at].
  enough (kv_kind u = ki_kind k ∧ stands k inp (kv_verdict u)) as [??] by done.
  destruct (ki_job k) as [j|] eqn:Hj; [destruct (j_status j) eqn:Hst|].
  - apply assess_pending_cases in Hu as [-> Hu]. split; [done|].
    destruct (waitsb (ci_now inp) j) eqn:Hw; [destruct Hu as [_ Hu]; case_decide; destruct Hu as [-> _]|destruct Hu as [-> _]].
    + by eapply stands_throttled; [..|apply waitsb_spec|].
    + by eapply stands_waiting; [..|apply waitsb_spec|].
    + eapply stands_queued; [done..|]. rewrite <-waitsb_spec. congruence.
  - apply assess_running_inv in Hu as (-> & -> & _). split; [done|]. by eapply stands_running.
  - apply assess_done_inv in Hu as (-> & -> & _). split; [done|].
    destruct (missed_plan k inp) eqn:Hm; [apply stands_missed; [|done]; congruence|by eapply stands_ok].
  - apply assess_failed_inv in Hu as (-> & -> & _). split; [done|]. by eapply stands_failed.
  - destruct (missed_plan k inp) eqn:Hm.
    + apply missed_verdict_inv in Hu as (-> & -> & _). split; [done|]. apply stands_missed; [|done]. by rewrite Hj.
    + open_verdict. split; [done|]. by apply stands_idle.
Qed.

Lemma stands_functional k inp s s' : stands k inp s → stands k inp s' → s = s'.
Proof.
  intros [] []; try done; simplify_eq; try congruence;
    repeat match goal with H : ∀ j, ki_job k = Some j → _, H' : ki_job k = Some _ |- _ => specialize (H _ H') end;
    congruence || done.
Qed.

(** The verdict of a kind is the one its newest job and its plan stand for, and it is
    reported with that job and the kind's last success. *)
Theorem assess_kind_spec k inp v :
  assess_kind k inp = Ok v →
  (∀ s, stands k inp s ↔ kv_verdict v = s)
  ∧ kv_kind v = ki_kind k ∧ kv_job v = ki_job k ∧ kv_last_success_at v = ki_freshness k ≫= f_latest_ts.
Proof.
  intros [Hs ?]%assess_kind_stands. split; [|done]. intros s. split; [|by intros <-].
  intros Hs'. by eapply stands_functional.
Qed.

(** C29. The verdict agrees with the queue: a pending job is called queued exactly when the
    worker may claim it now; when it has to wait, the report names the first moment it
    may be claimed; and the offered Run now is enabled exactly when the route accepts the
    job without force. *)
Theorem verdict_matches_queue k inp v j :
  assess_kind k inp = Ok v → ki_job k = Some j →
  (kv_verdict v = SQueued ↔ claimable (ci_now inp) j = true)
  ∧ (kv_verdict v ∈ [SThrottled; SWaiting] →
       ∃ nb, kv_next_at v = Some nb ∧ ∀ t, claimable t j = true ↔ nb ≤ t)
  ∧ (∀ a, a ∈ kv_actions v → a_id a = "run_now" →
       (a_enabled a = true ↔ run_now_check (ci_now inp) false (Some j) = RunNowOk)).
Proof.
  unfold assess_kind. intros (u & Hu & <-)%res_fmap_ok Hj. rewrite Hj in Hu.
  cbn [with_job kv_verdict kv_next_at kv_actions]. unfold claimable.
  assert (∀ l : list Action, Forall (λ a, a_id a ≠ "run_now") l → ∀ a, a ∈ l → a_id a = "run_now" →
            a_enabled a = true ↔ run_now_check (ci_now inp) false (Some j) = RunNowOk) as Hno.
  { intros l Hl a Ha Hid. rewrite Forall_forall in Hl. by destruct (Hl a Ha). }
  destruct (j_status j) eqn:Hst.
  - rewrite (bool_decide_eq_true_2 (Pending = Pending)) by done. cbn [andb].
    unfold run_now_check. rewrite decide_False by (rewrite Hst; intros []; done).
    apply assess_pending_cases in Hu as [_ Hu]. unfold waitsb in Hu.
    destruct (j_not_before j) as [nb|] eqn:Hnb.
    + destruct (ci_now inp <? nb) eqn:Hw; bool_hyps.
      * rewrite andb_true_r. destruct Hu as [Hnext Hu].
        assert (∃ nb0, kv_next_at u = Some nb0 ∧ ∀ t, (nb <=? t) = true ↔ nb0 ≤ t) as Hwait.
        { exists nb. split; [done|]. intros. apply Z.leb_le. }
        assert ((nb <=? ci_now inp) = false) as -> by (apply Z.leb_gt; lia).
        case_decide as Hc; destruct Hu as [-> Hact].
        -- destruct Hact as [why ->]. split_and!; [done|done|]. intros a ->%list_elem_of_singleton _. cbn.
           by rewrite bool_decide_eq_true_2 by done.
        -- rewrite Hact. split_and!; [done|done|]. intros a ->%list_elem_of_singleton _. cbn.
           by rewrite bool_decide_eq_false_2 by done.
      * destruct Hu as [-> ->]. assert ((nb <=? ci_now inp) = true) as -> by (apply Z.leb_le; lia).
        split_and!; [done| |by intros a ?%not_elem_of_nil]. by intros [?|[?|?%not_elem_of_nil]%elem_of_cons]%elem_of_cons.
    + destruct Hu as [-> ->]. split_and!; [done| |by intros a ?%not_elem_of_nil].
      by intros [?|[?|?%not_elem_of_nil]%elem_of_cons]%elem_of_cons.
  - apply assess_running_inv in Hu as (_ & -> & ->). split_and!; [done| |by apply Hno].
    by intros [?|[?|?%not_elem_of_nil]%elem_of_cons]%elem_of_cons.
  - apply assess_done_inv in Hu as (_ & -> & Ha). split_and!; [by destruct (missed_plan k inp)| |by apply Hno].
    destruct (missed_plan k inp); by intros [?|[?|?%not_elem_of_nil]%elem_of_cons]%elem_of_cons.
  - apply assess_failed_inv in Hu as (_ & -> & Ha). split_and!; [done| |by apply Hno].
    by intros [?|[?|?%not_elem_of_nil]%elem_of_cons]%elem_of_cons.
Qed.
End verdicts.

(** ** The overall verdict *)

(** [s] comes before [s'] in [VERDICT_ORDER]. *)
Definition worse (s s' : standing) : Prop :=
  ∃ before after, VERDICT_ORDER = before ++ s' :: after ∧ s ∈ before.

Lemma worst_spec l :
  Forall (λ s, s ∈ VERDICT_ORDER) l → l ≠ [] → worst l ∈ l ∧ ∀ s, s ∈ l → ¬ worse s (worst l).
Proof.
  intros Hall Hne. unfold worst. destruct (list_find _ _) as [[i s]|] eqn:E.
  - apply list_find_Some in E as (Hi & Hs & Hbefore). split; [done|]. intros s' Hs' (before & after & Hord & Hin).
    apply list_elem_of_lookup in Hin as [n Hn].
    assert (NoDup VERDICT_ORDER) as Hnd by (by apply (bool_decide_unpack _)).
    assert (VERDICT_ORDER !! length before = Some s) as Hs2 by (by rewrite Hord, list_lookup_middle).
    pose proof (NoDup_lookup _ _ _ _ Hnd Hi Hs2) as ->.
    pose proof (lookup_lt_Some _ _ _ Hn).
    assert (VERDICT_ORDER !! n = Some s') as Hn' by (rewrite Hord; by apply lookup_app_l_Some).
    by apply (Hbefore _ _ Hn').
  - apply list_find_None in E. destruct l as [|s l]; [done|]. apply Forall_cons in Hall as [Hs _].
    rewrite Forall_forall in E. destruct (E s Hs). by left.
Qed.

(** The verdicts that call for an answer whatever the checks say. *)
Definition ALARMS : list standing := [SFailed; SMissed; SThrottled; SWaiting; SRunning; SQueued].
Definition quiet (s : standing) : Prop := s = SOk ∨ s = SIdle.

Section overall.
Context `{PyRepr, ZoneDb, ZoneNames}.

Lemma assess_kind_ordered k inp v : assess_kind k inp = Ok v → kv_verdict v ∈ VERDICT_ORDER ∧ (quiet (kv_verdict v) ∨ kv_verdict v ∈ ALARMS).
Proof.
  intros Hv. unfold assess_kind in Hv. apply res_fmap_ok in Hv as (u & Hu & <-). cbn [with_job kv_verdict].
  assert (kv_verdict u ∈ [SFailed; SMissed; SThrottled; SWaiting; SRunning; SQueued; SOk; SIdle]) as Hin.
  { destruct (ki_job k) as [j|]; [destruct (j_status j)|].
    - apply assess_pending_cases in Hu as [_ Hu].
      destruct (waitsb _ _); [destruct Hu as [_ Hu]; case_decide|]; destruct Hu as [-> _]; by apply (bool_decide_unpack _).
    - apply assess_running_inv in Hu as (_ & -> & _). by apply (bool_decide_unpack _).
    - apply assess_done_inv in Hu as (_ & -> & _). destruct (missed_plan k inp); by apply (bool_decide_unpack _).
    - apply assess_failed_inv in Hu as (_ & -> & _). by apply (bool_decide_unpack _).
    - destruct (missed_plan k inp).
      + apply missed_verdict_inv in Hu as (_ & -> & _). by apply (bool_decide_unpack _).
      + apply res_bind_ok in Hu as (? & _ & Hu). apply res_bind_ok in Hu as (? & _ & [= <-]).
        by apply (bool_decide_unpack _). }
  revert Hin. generalize (kv_verdict u). intros s Hin. unfold quiet.
  repeat (apply elem_of_cons in Hin as [->|Hin];
          [split; [by apply (bool_decide_unpack _)|solve [auto | right; by apply (bool_decide_unpack _)]]|]).
  by apply not_elem_of_nil in Hin.
Qed.

Lemma verdicts_ordered inp ks vs :
  Forall2 (λ k v, assess_kind k inp = Ok v) ks vs →
  Forall (λ s, s ∈ VERDICT_ORDER) (kv_verdict <$> vs)
  ∧ Forall (λ v, quiet (kv_verdict v) ∨ kv_verdict v ∈ ALARMS) vs.
Proof.
  induction 1 as [|k v ks vs Hv _ [IH1 IH2]]; [by split; constructor|].
  apply assess_kind_ordered in Hv as [??]. split; by constructor.
Qed.

(** Something is wrong with the overall verdict only when a check fails. *)
Lemma existsb_checks cs : existsb (λ c, negb (ck_ok c)) cs = false ↔ Forall (λ c, ck_ok c = true) cs.
Proof.
  induction cs as [|c cs IH]; [by split; [constructor|]|]. cbn [existsb]. rewrite orb_false_iff, Forall_cons, IH.
  by rewrite negb_false_iff.
Qed.

Lemma quiet_worst vs :
  Forall (λ s, s ∈ VERDICT_ORDER) (kv_verdict <$> vs) → Forall (λ v, quiet (kv_verdict v) ∨ kv_verdict v ∈ ALARMS) vs →
  quiet (worst (kv_verdict <$> vs)) ↔ vs ≠ [] ∧ Forall (λ v, quiet (kv_verdict v)) vs.
Proof.
  intros Hord Hcases. destruct (decide (vs = [])) as [->|Hne].
  { split; [intros [?|?]; done|by intros []]. }
  destruct (worst_spec _ Hord) as [Hin Hno]; [by destruct vs|]. split.
  - intros Hq. split; [done|]. rewrite Forall_forall in Hcases |- *. intros v Hv.
    destruct (Hcases v Hv) as [|Halarm]; [done|]. destruct (Hno (kv_verdict v)).
    { apply list_elem_of_fmap. by exists v. }
    destruct Hq as [-> | ->].
    + exists ALARMS, [SIdle; SUnknown]. done.
    + exists (ALARMS ++ [SOk]), [SUnknown]. split; [done|]. apply elem_of_app. by left.
  - intros [_ Hall]. apply list_elem_of_fmap in Hin as (v & -> & Hv). rewrite Forall_forall in Hall. by apply Hall.
Qed.

Lemma diagnose_inv inp d :
  diagnose inp = Ok d →
  ∃ vs cs, Forall2 (λ k v, assess_kind k inp = Ok v) (ci_kinds inp) vs ∧ checks inp = Ok cs
    ∧ d_kinds d = report_kind inp <$> vs ∧ d_checks d = cs ∧ d_verdict d = standing_text (overall_of vs cs).
Proof.
  unfold diagnose. intros (vs & (vs' & Hvs & ->)%fold_res_collect & Hd)%res_bind_ok.
  apply res_bind_ok in Hd as (cs & Hcs & Hd). cbn zeta in Hd. apply res_bind_ok in Hd as (step & _ & [= <-]).
  by exists vs', cs.
Qed.

Lemma standing_quiet s : standing_text s = "ok" ∨ standing_text s = "idle" ↔ quiet s.
Proof. unfold quiet. destruct s; cbn; split; intros [?|?]; auto; done. Qed.

(** The overall verdict is quiet. *)
Lemma quiet_overall inp ks vs cs :
  Forall2 (λ k v, assess_kind k inp = Ok v) ks vs →
  standing_text (overall_of vs cs) = "ok" ∨ standing_text (overall_of vs cs) = "idle" ↔
  vs ≠ [] ∧ Forall (λ v, quiet (kv_verdict v)) vs ∧ Forall (λ c, ck_ok c = true) cs.
Proof.
  intros [Hord Hcases]%verdicts_ordered. pose proof (quiet_worst vs Hord Hcases) as Hq. unfold overall_of.
  rewrite standing_quiet, <-existsb_checks. destruct (existsb _ cs) eqn:Hx.
  - rewrite andb_true_r. case_bool_decide as Hb; [split; [intros [?|?]; done|intros (? & ? & ?); done]|].
    split; [|intros (? & ? & ?); done]. intros Hs. destruct Hb. destruct Hs as [-> | ->]; by apply (bool_decide_unpack _).
  - rewrite andb_false_r. rewrite Hq. split; [intros [??]; auto|intros (? & ? & ?); auto].
Qed.

(** The answer hides nothing: it reports every kind with its own verdict; it calls the
    system quiet (ok or idle) exactly when there is a kind, every kind is quiet and every
    check passes; and otherwise, unless the kinds are all quiet and only a check failed
    (attention), its verdict is that of a kind and no kind's verdict is worse. *)
Theorem diagnose_spec inp d :
  diagnose inp = Ok d →
  ∃ vs cs, Forall2 (λ k v, assess_kind k inp = Ok v) (ci_kinds inp) vs ∧ checks inp = Ok cs
    ∧ d_kinds d = report_kind inp <$> vs ∧ d_checks d = cs
    ∧ (d_verdict d = "ok" ∨ d_verdict d = "idle" ↔
         vs ≠ [] ∧ Forall (λ v, quiet (kv_verdict v)) vs ∧ Forall (λ c, ck_ok c = true) cs)
    ∧ (vs ≠ [] → d_verdict d = "attention" ∧ Forall (λ v, quiet (kv_verdict v)) vs
       ∨ ∃ v, v ∈ vs ∧ d_verdict d = standing_text (kv_verdict v)
              ∧ ∀ v', v' ∈ vs → ¬ worse (kv_verdict v') (kv_verdict v)).
Proof.
  intros (vs & cs & Hvs & Hcs & Hk & Hc & Hd)%diagnose_inv. exists vs, cs. split_and!; [done..| |].
  - rewrite Hd. by eapply quiet_overall.
  - destruct (verdicts_ordered _ _ _ Hvs) as [Hord Hcases]. pose proof (quiet_worst vs Hord Hcases) as Hq.
    rewrite Hd. unfold overall_of. intros Hne. destruct (worst_spec _ Hord) as [Hin Hno]; [by destruct vs|].
    case_match eqn:Hb.
    + left. split; [done|]. apply andb_true_iff in Hb as [Hb _]. apply bool_decide_eq_true in Hb.
      apply Hq. apply elem_of_cons in Hb as [Hb|Hb]; [by left|]. apply list_elem_of_singleton in Hb. by right.
    + right. apply list_elem_of_fmap in Hin as (v & Hv & Hin). exists v. rewrite <-Hv. split_and!; [done..|].
      intros v' Hv'. apply Hno, list_elem_of_fmap. by exists v'.
Qed.
End overall.

(** ** The check always answers *)

Section total.
Context `{PyRepr, ZoneDb, ZoneNames}.
Context (inp : CheckInput) (zone : option string) (poll : Z).
Context (Hzone : get_zone (ci_tz inp ≫= or_none) = Ok zone) (Hpoll : float_trunc (ci_worker_poll_sec inp) = Ok poll).

Lemma fmt_local_ok dt : ∃ s, fmt_local dt (ci_tz inp) = Ok s.
Proof. unfold fmt_local. destruct dt; [rewrite Hzone|]; cbn; eauto. Qed.

Lemma enqueue_action_ok kind label cd now : ∃ a, enqueue_action kind label cd now (ci_tz inp) = Ok a.
Proof.
  unfold enqueue_action. destruct cd as [c|]; [|eauto]. destruct (now <? c); [|eauto].
  destruct (fmt_local_ok (Some c)) as [s ->]. cbn. eauto.
Qed.

(** Run the texts and actions a verdict is made of. *)
Ltac run_texts :=
  repeat match goal with
  | |- context [fmt_local ?dt (ci_tz inp)] => destruct (fmt_local_ok dt) as [? ->]; cbn [mbind res_bind]
  | |- context [enqueue_action ?k ?l ?c ?n (ci_tz inp)] => destruct (enqueue_action_ok k l c n) as [? ->]; cbn [mbind res_bind]
  end; eauto.

Lemma assess_kind_ok k : ∃ v, assess_kind k inp = Ok v.
Proof.
  unfold assess_kind. enough (∀ m : res KindVerdict, (∃ u, m = Ok u) → ∃ v, with_job k <$> m = Ok v) as Hm.
  { apply Hm. unfold assess_running, assess_pending, assess_failed, assess_done, missed_verdict.
    destruct (ki_job k) as [j|]; [destruct (j_status j)|]; cbn zeta.
    - case_match; [case_decide|rewrite Hpoll; cbn]; run_texts.
    - run_texts.
    - destruct (missed_plan k inp); run_texts.
    - case_decide; [eauto|run_texts].
    - destruct (missed_plan k inp); run_texts. }
  intros m [u ->]. cbn. eauto.
Qed.

Lemma checks_ok : ∃ cs, checks inp = Ok cs.
Proof.
  unfold checks, cooldown_check, schedule_check.
  assert (∀ l acc, ∃ r, fold_res (data_part inp) acc l = Ok r) as Hdata.
  { induction l as [|[tb [t|]] l IH]; intros [parts stale]; cbn [fold_res data_part]; [eauto| |apply IH].
    destruct (fmt_local_ok (Some t)) as [? ->]. cbn [mbind res_bind]. apply IH. }
  unfold data_check. destruct (Hdata (ci_data_latest inp) ([], false)) as [[parts stale] ->].
  destruct (ci_cooldown_until inp) as [c|]; [destruct (ci_now inp <? c)|]; run_texts; cbn [mbind res_bind]; run_texts.
Qed.

Lemma first_of_ok s vs : s ∈ kv_verdict <$> vs → ∃ v, first_of s vs = Ok v.
Proof.
  intros (v & -> & Hv)%list_elem_of_fmap. unfold first_of.
  destruct (list_find _ vs) as [[i v']|] eqn:E; [eauto|]. apply list_find_None in E.
  rewrite Forall_forall in E. by destruct (E v Hv).
Qed.

Lemma next_step_ok vs cs :
  Forall (λ s, s ∈ VERDICT_ORDER) (kv_verdict <$> vs) → ∃ s, next_step (overall_of vs cs) vs inp = Ok s.
Proof.
  intros Hord. destruct (decide (vs = [])) as [->|Hne].
  { unfold overall_of, worst. cbn. eauto. }
  destruct (worst_spec _ Hord) as [Hin _]; [by destruct vs|]. unfold overall_of.
  destruct (bool_decide _ && _) eqn:Hb.
  - cbn [next_step]. case_match; run_texts.
  - destruct (worst (kv_verdict <$> vs)); cbn [next_step]; try (case_match; run_texts; fail);
      try (destruct (first_of_ok _ _ Hin) as [v ->]; cbn [mbind res_bind]; run_texts); eauto.
Qed.

(** The self-check answers whatever the queue, the tables and the heartbeat hold: the only
    ways to fail are a configured zone nobody knows and a poll interval that is not
    finite. *)
Theorem diagnose_total : ∃ d, diagnose inp = Ok d.
Proof.
  assert (∀ ks, ∃ vs, Forall2 (λ k v, assess_kind k inp = Ok v) ks vs) as Hks.
  { induction ks as [|k ks [vs IH]]; [exists []; constructor|]. destruct (assess_kind_ok k) as [v Hv].
    exists (v :: vs). by constructor. }
  destruct (Hks (ci_kinds inp)) as [vs Hvs]. destruct checks_ok as [cs Hcs].
  destruct (next_step_ok vs cs) as [step Hstep]; [by apply (verdicts_ordered inp (ci_kinds inp))|].
  unfold diagnose. rewrite (proj2 (fold_res_collect _ _ [] ([] ++ vs))) by eauto.
  cbn [mbind res_bind app]. rewrite Hcs. cbn [mbind res_bind]. rewrite Hstep. cbn. eauto.
Qed.
End total.

(** ** Examples *)

Definition sample_names : ZoneNames := λ _ t, if eastern_offset t =? -4 * 3600000000 then "EDT" else "EST".

(** A trades job thrown back by a 1018, half a minute after it started. *)
Definition throttled_kind : KindInput :=
  mkKindInput "flex-trades" (q_rows cooled_queue !! 1) None None (Some day_usec) 8.
Definition throttled_input : CheckInput :=
  mkCheckInput (secs 30) (Some "America/New_York") 2700 [throttled_kind] None (mkTokens true false None None) [] None true
    (FDec 5 0) None None.

Lemma throttled_assessed : ∃ v, @assess_kind sample_repr sample_zones sample_names throttled_kind throttled_input = Ok v.
Proof. eexists. vm_compute. reflexivity. Qed.

Lemma assess_kind_spec_witness :
  ∃ v, @assess_kind sample_repr sample_zones sample_names throttled_kind throttled_input = Ok v
    ∧ ∀ s, stands throttled_kind throttled_input s ↔ kv_verdict v = s.
Proof.
  destruct throttled_assessed as [v Hv]. exists v. split; [exact Hv|].
  exact (proj1 (@assess_kind_spec sample_repr sample_zones sample_names _ _ _ Hv)).
Defined.

Lemma verdict_matches_queue_witness :
  ∃ v j, @assess_kind sample_repr sample_zones sample_names throttled_kind throttled_input = Ok v
    ∧ q_rows cooled_queue !! 1 = Some j
    ∧ (kv_verdict v = SQueued ↔ claimable (secs 30) j = true).
Proof.
  destruct throttled_assessed as [v Hv]. destruct (q_rows cooled_queue !! 1) as [j|] eqn:Hj; [|vm_compute in Hj; discriminate Hj].
  exists v, j. split; [exact Hv|]. split; [reflexivity|].
  exact (proj1 (@verdict_matches_queue sample_repr sample_zones sample_names throttled_kind throttled_input v j Hv Hj)).
Defined.

Lemma diagnose_total_witness :
  ∃ d, @diagnose sample_repr sample_zones sample_names throttled_input = Ok d.
Proof. exact (@diagnose_total sample_repr sample_zones sample_names throttled_input (Some "America/New_York") 5 eq_refl eq_refl). Defined.

Lemma diagnose_spec_witness :
  ∃ d vs, @diagnose sample_repr sample_zones sample_names throttled_input = Ok d
    ∧ (∃ v, v ∈ vs ∧ d_verdict d = standing_text (kv_verdict v))
    ∧ d_kinds d = @report_kind sample_repr throttled_input <$> vs.
Proof.
  destruct (@diagnose sample_repr sample_zones sample_names throttled_input) as [d|] eqn:E; [|vm_compute in E; discriminate E].
  destruct (@diagnose_spec sample_repr sample_zones sample_names _ _ E) as (vs & cs & Hvs & _ & Hk & _ & _ & Hworst).
  exists d, vs. split; [reflexivity|]. split; [|exact Hk].
  destruct Hworst as [[Hatt _]|(v & Hv & Hd & _)]; [intros ->; inversion Hvs|vm_compute in E; injection E as <-; discriminate Hatt|].
  exists v. split; [exact Hv|exact Hd].
Defined.
