(* ===== verification/OpsCheck.v ===== *)
(** * What the self-check reads ([api/ops.py])

    [collect_check_input] over the queue, the freshness and heartbeat rows, the two data
    tables and the schedule; [check] composes it with [Diagnose.diagnose]. The schedule
    file, the configuration and the environment are arguments. *)
From S2P Require Import Prelude Pytext PyVal JobQueue Json Pytime Cron Schedule Ddl ConfigRw Ingest Coverage Diagnose.

(** The tables of one call. [st_exec_time] and [st_ts] are the answers of the two
    [max(...)] reads, which may fail; [st_coverage] is the failure of the coverage query. *)
Record store := mkStore {
  st_queue : queue;
  st_fresh : gmap string freshness;
  st_hearts : gmap string heartbeat;
  st_executions : list execution;
  st_transactions : list cash;
  st_exec_time : res (option Z);
  st_ts : res (option Z);
  st_coverage : option exn
}.

(** [SELECT DISTINCT ON (kind) ... ORDER BY kind, id DESC]: the newest job of a kind. *)
Definition newest_job (q : queue) (kind : string) : option job :=
  min_by (λ a b, j_id b <? j_id a) (filter (λ j, j_kind j = kind) (map_to_list (q_rows q)).*2).

(** [ORDER BY seen_at DESC NULLS LAST LIMIT 1]. *)
Definition latest_heartbeat (hearts : gmap string heartbeat) : option heartbeat :=
  min_by (λ a b, hb_seen_at b <? hb_seen_at a) (map_to_list hearts).*2.

(** [SELECT max(not_before) ... WHERE status = 'pending' AND error_category = 'throttled'
    AND not_before > clock_timestamp()], at the moment [t]. *)
Definition cooling (t : Z) (j : job) : option Z :=
  if bool_decide (j_status j = Pending) && bool_decide (j_category j = Some "throttled") && waitsb t j
  then j_not_before j else None.
Definition throttle_until (t : Z) (q : queue) : option Z :=
  min_by (λ a b, b <? a) (omap (cooling t) (map_to_list (q_rows q)).*2).

(** A read whose failure counts as nothing there. *)
Definition or_nothing {A} (r : res (option A)) : option A := match r with Ok x => x | Raise _ => None end.

(** [type(exc).__name__]. *)
Class ExnNames := type_name : exn → string.

(** [" ".join(str(exc).split())[:200] or type(exc).__name__]. *)
Definition error_text `{ExnNames} (e : exn) : string :=
  or_else (utake 200 (join " " (split_ws (exn_str e)))) (type_name e).

(** The process's environment, beyond the tokens. *)
Definition catchup_enabled (FLEX_CATCHUP_DISABLED : string) : bool :=
  bool_decide (strip FLEX_CATCHUP_DISABLED ∉ ["1"; "true"; "yes"]).

Section collect.
Context `{PyRepr, ZoneDb, ZoneNames, ExnNames, Collation}.

(** One round of the loop over [SLOT_KIND]. *)
Definition collect_kind (slots : pydict) (now : Z) (tz : option string) (st : store) (slot kind : string) : res KindInput :=
  scfg ← dict_or_empty (dict_get slot slots);
  let cron := py_str (py_or (dict_get "cron" scfg) (PStr "")) in
  planned_last ← (if decide (cron = "") then Ok None else previous_fire cron now 14 tz);
  upcoming ← (if decide (cron = "") then Ok [] else next_fires cron now 1 14 tz);
  max_attempts ← py_int (py_or (dict_get "max_attempts" scfg) (PInt DEFAULT_SLOT_MAX_ATTEMPTS));
  Ok (mkKindInput kind (newest_job (st_queue st) kind) (st_fresh st !! kind) planned_last (head upcoming) max_attempts).

(** [dict(load_config().get("worker") or {})], or nothing when that fails. *)
Definition worker_section (config : res pydict) : pydict :=
  match config ≫= λ cfg, dict_or_empty (dict_get "worker" cfg) with Ok d => d | Raise _ => [] end.

(** [collect_check_input]: [t] is the database's clock, [now] the API's. *)
Definition collect_check_input (schedule : pydict) (config : res pydict) (e : env) (FLEX_CATCHUP_DISABLED : string)
    (now t : Z) (st : store) : res CheckInput :=
  scheduler_cfg ← dict_or_empty (dict_get "scheduler" schedule);
  let tz := schedule_timezone scheduler_cfg in
  slots ← dict_or_empty (dict_get "slots" scheduler_cfg);
  let covered := read_coverage (st_coverage st) t (st_executions st) (st_transactions st) in
  kinds ← fold_res (λ out '(slot, kind), (λ k, out ++ [k]) <$> collect_kind slots now tz st slot kind) [] SLOT_KIND;
  let '(host_tok, sec_tok, _, _) := resolve_flex_tokens e in
  let '(issued_at, age_days) := flex_tokens_issued_at e now in
  grace_sec ← catchup_grace_sec scheduler_cfg;
  poll ← py_float (py_or (dict_get "poll_interval_sec" (worker_section config)) (PInt 5));
  Ok (mkCheckInput now tz grace_sec kinds (latest_heartbeat (st_hearts st))
        (mkTokens (bool_decide (host_tok ≠ "")) (bool_decide (sec_tok ≠ "")) issued_at age_days)
        [("executions_raw_flex", or_nothing (st_exec_time st)); ("transactions", or_nothing (st_ts st))]
        (throttle_until t (st_queue st))
        (catchup_enabled FLEX_CATCHUP_DISABLED)
        poll
        (match covered with Ok c => Some c | Raise _ => None end)
        (match covered with Ok _ => None | Raise ex => Some (error_text ex) end)).

(** [GET /flex/ops/check]. *)
Definition check_route (schedule : pydict) (config : res pydict) (e : env) (FLEX_CATCHUP_DISABLED : string)
    (now t : Z) (st : store) : res diagnosis :=
  collect_check_input schedule config e FLEX_CATCHUP_DISABLED now t st ≫= diagnose.

End collect.

(** ** The check and the worker's catch-up *)

(** Of some rows, the one with the highest id. *)
Lemma newest_row_spec (q : queue) (P : job → Prop) (l : list job) j :
  queue_ok q → (∀ a, a ∈ l ↔ q_rows q !! j_id a = Some a ∧ P a) →
  min_by (λ a b, j_id b <? j_id a) l = Some j ↔
  q_rows q !! j_id j = Some j ∧ P j ∧ ∀ i j', q_rows q !! i = Some j' → P j' → j_id j' ≤ j_id j.
Proof.
  intros Hok Hl.
  assert (∀ a, min_by (λ a b, j_id b <? j_id a) l = Some a → q_rows q !! j_id a = Some a ∧ P a
            ∧ ∀ i j', q_rows q !! i = Some j' → P j' → j_id j' ≤ j_id a) as Hmin.
  { intros a Ha. pose proof (min_by_elem _ _ _ Ha) as Hin. apply Hl in Hin as [Hin Hk]. split_and!; [done..|].
    intros i j' Hj' Hk'. apply (min_by_max_key j_id l); [done|]. apply Hl. by rewrite (ok_id _ Hok _ _ Hj'). }
  split; [apply Hmin|]. intros (Hj & Hk & Hmax).
  destruct (min_by _ l) as [a|] eqn:Ha.
  - destruct (Hmin a eq_refl) as (Hina & Hka & Hmaxa). f_equal.
    assert (j_id a = j_id j) as E; [|congruence].
    specialize (Hmax _ _ Hina Hka). specialize (Hmaxa _ _ Hj Hk). lia.
  - apply min_by_None in Ha. assert (j ∈ l) as Hin by (by apply Hl). rewrite Ha in Hin. by apply not_elem_of_nil in Hin.
Qed.

Lemma newest_job_spec q kind j :
  queue_ok q →
  newest_job q kind = Some j ↔
  q_rows q !! j_id j = Some j ∧ j_kind j = kind
  ∧ ∀ i j', q_rows q !! i = Some j' → j_kind j' = kind → j_id j' ≤ j_id j.
Proof.
  intros Hok. apply (newest_row_spec _ (λ j, j_kind j = kind)); [done|]. intros a.
  rewrite list_elem_of_filter, elem_of_rows by done. tauto.
Qed.

(** Jobs are numbered in the order they are created. *)
Definition created_in_order (q : queue) : Prop :=
  ∀ i1 j1 i2 j2, q_rows q !! i1 = Some j1 → q_rows q !! i2 = Some j2 → j_id j1 < j_id j2 → j_created j1 ≤ j_created j2.

Lemma newest_job_created q kind :
  queue_ok q → created_in_order q → j_created <$> newest_job q kind = newest_job_per_kind q kind.
Proof.
  intros Hok Hord. unfold newest_job, newest_job_per_kind.
  set (l := filter _ _). assert (∀ a, a ∈ l → q_rows q !! j_id a = Some a) as Hl.
  { by intros a [_ Hi%elem_of_rows]%list_elem_of_filter. }
  clearbody l. destruct (min_by (λ a b, j_id b <? j_id a) l) as [a|] eqn:Ha.
  - destruct (min_by (λ a b, j_created b <? j_created a) l) as [b|] eqn:Hb.
    + cbn. f_equal. pose proof (min_by_elem _ _ _ Ha) as Hain. pose proof (min_by_elem _ _ _ Hb) as Hbin.
      pose proof (min_by_max_key j_id _ _ Ha b Hbin) as Hida.
      pose proof (min_by_max_key j_created _ _ Hb a Hain) as Hcb.
      cbn in *. destruct (decide (j_id a = j_id b)) as [E|E].
      * apply Hl in Hain, Hbin. congruence.
      * apply Hl in Hain, Hbin. specialize (Hord _ _ _ _ Hbin Hain). lia.
    + by apply min_by_None in Hb as ->.
  - by apply min_by_None in Ha as ->.
Qed.

Section agreement.
Context `{PyRepr, ZoneDb, ZoneNames, ExnNames, Collation}.

(** One slot: the check and the catch-up read the same plan and the same jobs. *)
Lemma collect_kind_missed cfg slots now st slot kind k inp r :
  queue_ok (st_queue st) → created_in_order (st_queue st) →
  collect_kind slots now (schedule_timezone cfg) st slot kind = Ok k → ci_now inp = now →
  missed_slot cfg slots now (ci_grace_sec inp) (newest_job_per_kind (st_queue st)) slot kind = Ok r →
  ki_kind k = kind ∧ (missed_plan k inp = true ↔ is_Some r).
Proof.
  intros Hok Hord Hk Hnow Hm. unfold collect_kind in Hk. unfold missed_slot in Hm.
  apply res_bind_ok in Hk as (scfg & Hscfg & Hk). rewrite Hscfg in Hm. cbn [mbind res_bind] in Hm.
  cbn zeta in Hk, Hm. apply res_bind_ok in Hk as (planned & Hplanned & Hk).
  apply res_bind_ok in Hk as (upcoming & _ & Hk). apply res_bind_ok in Hk as (n & _ & [= <-]).
  split; [done|]. unfold missed_plan. cbn [ki_planned_last ki_job].
  destruct (decide (py_str _ = "")).
  { simplify_eq. split; [done|]. by intros [? ?]. }
  rewrite Hplanned in Hm. cbn [mbind res_bind] in Hm. destruct planned as [p|]; [|simplify_eq; split; [done|by intros [? ?]]].
  rewrite Hnow. destruct ((now - p <? secs (ci_grace_sec inp)) || (secs 86400 <? now - p)).
  { simplify_eq. split; [done|]. by intros [? ?]. }
  rewrite <-newest_job_created in Hm by done. destruct (newest_job (st_queue st) kind) as [j|]; cbn [fmap option_fmap option_map] in Hm.
  - destruct (p <=? j_created j) eqn:E; bool_hyps; simplify_eq; (split; [intros|intros [? ?]]; bool_hyps); try lia; try done.
  - simplify_eq. split; [eauto|done].
Qed.

Lemma collect_inv schedule config e flag now t st inp :
  collect_check_input schedule config e flag now t st = Ok inp →
  ∃ cfg slots, dict_or_empty (dict_get "scheduler" schedule) = Ok cfg ∧ dict_or_empty (dict_get "slots" cfg) = Ok slots
    ∧ ci_now inp = now ∧ catchup_grace_sec cfg = Ok (ci_grace_sec inp) ∧ ci_tz inp = schedule_timezone cfg
    ∧ Forall2 (λ sk k, collect_kind slots now (schedule_timezone cfg) st sk.1 sk.2 = Ok k) SLOT_KIND (ci_kinds inp)
    ∧ ci_coverage inp = match read_coverage (st_coverage st) t (st_executions st) (st_transactions st) with Ok c => Some c | Raise _ => None end
    ∧ ci_coverage_error inp = match read_coverage (st_coverage st) t (st_executions st) (st_transactions st) with
                              | Ok _ => None | Raise ex => Some (error_text ex) end
    ∧ ci_cooldown_until inp = throttle_until t (st_queue st)
    ∧ ci_heartbeat inp = latest_heartbeat (st_hearts st)
    ∧ (tk_host (ci_tokens inp) || tk_secondary (ci_tokens inp) = true ↔
         strip (FLEX_HOST_TOKEN e) ≠ "" ∨ strip (FLEX_SECONDARY_TOKEN e) ≠ "").
Proof.
  unfold collect_check_input. intros (cfg & Hcfg & Hr)%res_bind_ok. cbn zeta in Hr.
  apply res_bind_ok in Hr as (slots & Hslots & Hr). apply res_bind_ok in Hr as (kinds & Hkinds & Hr).
  unfold resolve_flex_tokens in Hr. destruct (flex_tokens_issued_at e now) as [issued age].
  apply res_bind_ok in Hr as (grace & Hgrace & Hr). apply res_bind_ok in Hr as (poll & _ & [= <-]).
  assert (fold_res (λ out sk, (λ k, out ++ [k]) <$> collect_kind slots now (schedule_timezone cfg) st sk.1 sk.2) [] SLOT_KIND
          = Ok kinds) as Hk by exact Hkinds.
  apply fold_res_collect in Hk as (ks & Hks & ->). exists cfg, slots. split_and!; try done. cbn.
  rewrite orb_true_iff, !bool_decide_eq_true. done.
Qed.

(** C14. The check and the worker agree about a missed slot: over one queue, whose jobs were
    created in the order of their ids, and one schedule, the check's rule for a missed plan
    holds of a kind exactly when the worker's catch-up lists the kind's slot as missed. *)
Theorem missed_plan_is_caught_up schedule config e flag now t st inp cfg ms :
  queue_ok (st_queue st) → created_in_order (st_queue st) →
  collect_check_input schedule config e flag now t st = Ok inp →
  dict_or_empty (dict_get "scheduler" schedule) = Ok cfg →
  missed_slots cfg now (ci_grace_sec inp) (newest_job_per_kind (st_queue st)) = Ok ms →
  ∀ kind, (∃ k, k ∈ ci_kinds inp ∧ ki_kind k = kind ∧ missed_plan k inp = true)
          ↔ ∃ m, m ∈ ms ∧ m_kind m = kind.
Proof.
  intros Hok Hord (cfg' & slots & Hcfg' & Hslots & Hnow & _ & _ & Hkinds & _)%collect_inv Hcfg Hms kind.
  rewrite Hcfg' in Hcfg. simplify_eq. unfold missed_slots in Hms. rewrite Hslots in Hms. cbn [mbind res_bind] in Hms.
  unfold SLOT_KIND in Hkinds, Hms.
  apply Forall2_cons_inv_l in Hkinds as (k1 & ks & Hk1 & Hkinds & ->).
  apply Forall2_cons_inv_l in Hkinds as (k2 & ks2 & Hk2 & Hnil%Forall2_nil_inv_l & ->). subst ks2.
  cbn [fst snd fold_res] in *.
  destruct (missed_slot cfg slots _ _ _ "flex-trades" _) as [r1|] eqn:E1; cbn [fmap res_fmap] in Hms; [|done].
  destruct (missed_slot cfg slots _ _ _ "flex-transactions" _) as [r2|] eqn:E2; cbn [fmap res_fmap] in Hms; [|done].
  injection Hms as <-. subst.
  destruct (collect_kind_missed _ _ _ _ _ _ _ inp _ Hok Hord Hk1 eq_refl E1) as [Hkind1 Hm1].
  destruct (collect_kind_missed _ _ _ _ _ _ _ inp _ Hok Hord Hk2 eq_refl E2) as [Hkind2 Hm2].
  assert (∀ slot kind r, missed_slot cfg slots (ci_now inp) (ci_grace_sec inp) (newest_job_per_kind (st_queue st)) slot kind
            = Ok r → ∀ m, r = Some m → m_kind m = kind) as Hkind.
  { intros slot kind' r Hr m (? & ? & _ & _ & _ & _ & _ & _ & ->)%(missed_slot_spec _ _ _ _ _ _ _ _ Hr). done. }
  assert (∀ m, m ∈ ([] ++ option_list r1) ++ option_list r2 ↔ r1 = Some m ∨ r2 = Some m) as Hin.
  { intros m. rewrite !elem_of_app. destruct r1, r2; cbn; rewrite ?list_elem_of_singleton, ?elem_of_nil; naive_solver. }
  setoid_rewrite Hin. setoid_rewrite elem_of_cons. split.
  - intros (k & [->|[->|?%not_elem_of_nil]%elem_of_cons] & <- & Hmiss); [| |done].
    + apply Hm1 in Hmiss as [m ->]. exists m. rewrite Hkind1. split; [by left|by eapply Hkind].
    + apply Hm2 in Hmiss as [m ->]. exists m. rewrite Hkind2. split; [by right|by eapply Hkind].
  - intros (m & [-> | ->] & <-).
    + exists k1. rewrite Hkind1. split_and!; [by left|by symmetry; eapply Hkind|]. apply Hm1. eauto.
    + exists k2. rewrite Hkind2. split_and!; [right; by left|by symmetry; eapply Hkind|]. apply Hm2. eauto.
Qed.

Lemma error_text_ne ex : type_name ex ≠ "" → error_text ex ≠ "".
Proof. intros Hn. unfold error_text, or_else. by case_decide. Qed.

(** The checks, and what each of them passing means. *)
Lemma checks_pass inp cs :
  checks inp = Ok cs → Forall (λ c, ck_ok c = true) cs →
  ck_ok (tokens_check (ci_tokens inp)) = true ∧ ck_ok (worker_check inp) = true
  ∧ (∀ u, ci_cooldown_until inp = Some u → u ≤ ci_now inp)
  ∧ (is_Some (ci_coverage inp) ∨ default "" (ci_coverage_error inp) ≠ "" →
       ck_ok (coverage_check (ci_coverage inp) (ci_coverage_error inp)) = true).
Proof.
  unfold checks. intros (cd & Hcd & Hr)%res_bind_ok Hall. apply res_bind_ok in Hr as (sched & _ & Hr).
  apply res_bind_ok in Hr as (data & _ & [= <-]).
  apply Forall_cons in Hall as [Htok Hall]. apply Forall_cons in Hall as [Hwork Hall].
  apply Forall_cons in Hall as [Hcool Hall]. do 2 apply Forall_cons in Hall as [_ Hall].
  split_and!; [done..| |].
  - intros u Hu. unfold cooldown_check in Hcd. rewrite Hu in Hcd. destruct (ci_now inp <? u) eqn:E; bool_hyps; [|done].
    apply res_bind_ok in Hcd as (? & _ & [= <-]). done.
  - intros Hcov. assert (bool_decide (is_Some (ci_coverage inp)) || bool_decide (default "" (ci_coverage_error inp) ≠ "") = true)
      as Hb by (rewrite orb_true_iff, !bool_decide_eq_true; done).
    rewrite Hb in Hall. by apply Forall_cons in Hall as [? _].
Qed.

Lemma collect_kind_job slots now tz st slot kind k :
  collect_kind slots now tz st slot kind = Ok k → ki_job k = newest_job (st_queue st) kind.
Proof.
  unfold collect_kind. intros (scfg & _ & Hk)%res_bind_ok. cbn zeta in Hk.
  apply res_bind_ok in Hk as (? & _ & Hk). apply res_bind_ok in Hk as (? & _ & Hk).
  by apply res_bind_ok in Hk as (? & _ & [= <-]).
Qed.

(** A kind whose verdict is quiet has no job, or a done one. *)
Lemma quiet_done k inp s j : stands k inp s → quiet s → ki_job k = Some j → j_status j = Done.
Proof. intros [] [?|?] Hj; try done; congruence. Qed.

(** C13. A quiet answer means what an operator takes it to mean. When the check says ok or
    idle, the newest job of every kind, if there is one, is done; the worker was seen in
    the last three minutes; a token is configured; no throttle cooldown lies ahead; and
    every account with an execution in a closed month has a cash row of that month. *)
Theorem quiet_check_means schedule config e flag now t st d :
  (∀ ex, type_name ex ≠ "") →
  check_route schedule config e flag now t st = Ok d →
  d_verdict d = "ok" ∨ d_verdict d = "idle" →
  (∀ slot kind j, (slot, kind) ∈ SLOT_KIND → newest_job (st_queue st) kind = Some j → j_status j = Done)
  ∧ (∃ hb, latest_heartbeat (st_hearts st) = Some hb ∧ now - hb_seen_at hb ≤ secs 180)
  ∧ (strip (FLEX_HOST_TOKEN e) ≠ "" ∨ strip (FLEX_SECONDARY_TOKEN e) ≠ "")
  ∧ (∀ u, throttle_until t (st_queue st) = Some u → u ≤ now)
  ∧ (∀ a m, traded_in t (st_executions st) a m → cash_in (st_transactions st) a m).
Proof.
  intros Hname (inp & Hinp & Hd)%res_bind_ok Hquiet.
  destruct (collect_inv _ _ _ _ _ _ _ _ Hinp)
    as (cfg & slots & _ & _ & Hnow & _ & _ & Hkinds & Hcov & Hcoverr & Hcool & Hhb & Htok).
  destruct (diagnose_inv _ _ Hd) as (vs & cs & Hvs & Hcs & _ & _ & Hverdict).
  rewrite Hverdict in Hquiet. apply (quiet_overall _ _ _ _ Hvs) in Hquiet as (_ & Hall & Hchecks).
  destruct (checks_pass _ _ Hcs Hchecks) as (Htokens & Hworker & Hcooldown & Hcoverage). split_and!.
  - intros slot kind j (i & Hi)%list_elem_of_lookup_1 Hj.
    eapply Forall2_lookup_l in Hkinds as (k & Hk & Hcollect); [|exact Hi].
    eapply Forall2_lookup_l in Hvs as (v & Hv & Hassess); [|exact Hk].
    apply collect_kind_job in Hcollect. cbn [fst snd] in Hcollect. rewrite Hj in Hcollect.
    apply assess_kind_stands in Hassess as [Hstands _].
    eapply Forall_lookup_1 in Hall; [|exact Hv]. by eapply quiet_done.
  - unfold worker_check in Hworker. rewrite Hhb in Hworker. destruct (latest_heartbeat _) as [hb|]; [|done].
    exists hb. split; [done|]. cbn in Hworker. bool_hyps. by rewrite Hnow in Hworker.
  - apply Htok. unfold tokens_check in Htokens. destruct (tk_host _), (tk_secondary _); done.
  - intros u Hu. rewrite <-Hnow. apply Hcooldown. by rewrite Hcool.
  - destruct (read_coverage _ t _ _) as [c|ex] eqn:Hread.
    + specialize (Hcoverage ltac:(rewrite Hcov; by left)). rewrite Hcov, Hcoverr in Hcoverage.
      by apply (covered_iff _ _ _ _ _ Hread).
    + specialize (Hcoverage ltac:(rewrite Hcoverr; right; cbn; apply error_text_ne, Hname)).
      rewrite Hcoverr in Hcoverage. unfold coverage_check in Hcoverage. cbn in Hcoverage.
      rewrite decide_True in Hcoverage by apply error_text_ne, Hname. done.
Qed.
End agreement.

(** ** Examples *)

Definition sample_type_name : ExnNames := λ _, "Exception".
Definition check_env : env := mkEnv "host-token" "" "2026-01-15".

(** A store with this queue, a worker seen a minute before [t] and fresh data. *)
Definition healthy (t : Z) (q : queue) : store :=
  mkStore q ∅ {[ WORKER_KEY := mkHeartbeat "pod-1" "0.11.0" (t - secs 60) 0 1 0 0 0 0 0 None None ]}
    july_trades august_cash (Ok (Some t)) (Ok (Some t)) None.

Lemma next_fires_ok `{ZoneDb} expr after count days tz c z :
  parse_cron expr = Ok c → get_zone tz = Ok z → ∃ l, next_fires expr after count days tz = Ok l.
Proof. unfold next_fires, iter_cron_fires. intros -> ->. cbn. eauto. Qed.

Lemma collect_kind_eq `{PyRepr, ZoneDb} slots now tz st slot kind scfg cron p l n :
  dict_or_empty (dict_get slot slots) = Ok scfg → py_str (py_or (dict_get "cron" scfg) (PStr "")) = cron → cron ≠ "" →
  previous_fire cron now 14 tz = Ok p → next_fires cron now 1 14 tz = Ok l →
  py_int (py_or (dict_get "max_attempts" scfg) (PInt DEFAULT_SLOT_MAX_ATTEMPTS)) = Ok n →
  collect_kind slots now tz st slot kind
  = Ok (mkKindInput kind (newest_job (st_queue st) kind) (st_fresh st !! kind) p (head l) n).
Proof.
  intros Hs Hc Hne Hp Hl Hn. unfold collect_kind. rewrite Hs. cbn [mbind res_bind]. rewrite Hc. cbn zeta.
  rewrite !decide_False by done. rewrite Hp. cbn [mbind res_bind]. rewrite Hl. cbn [mbind res_bind]. by rewrite Hn.
Qed.

(** Late in the morning, with nothing queued. *)
Definition deployed_file : pydict := [("scheduler", PDict deployed_schedule)].

Lemma deployed_kind st kind :
  kind ∈ SLOT_NAMES → ∃ k, @collect_kind sample_repr sample_zones sample_slots late_morning (Some "America/New_York") st kind kind = Ok k.
Proof.
  intros Hk.
  assert (∃ prio, dict_or_empty (dict_get kind sample_slots)
                  = Ok [("cron", PStr deployed_cron); ("priority", PInt prio); ("max_attempts", PInt 8)]) as [prio E].
  { unfold SLOT_NAMES in Hk. rewrite !elem_of_cons in Hk. destruct Hk as [->|[->|Hk]]; [by eexists..|].
    by apply not_elem_of_nil in Hk. }
  assert (∃ c, parse_cron deployed_cron = Ok c) as [c Hc] by (eexists; vm_compute; reflexivity).
  destruct (@next_fires_ok sample_zones deployed_cron late_morning 1 14 (Some "America/New_York") c _ Hc eq_refl) as [l Hl].
  eexists. eapply (@collect_kind_eq sample_repr sample_zones); [exact E|reflexivity|discriminate|exact morning_fire|exact Hl|reflexivity].
Qed.

Lemma morning_collect st :
  ∃ inp, @collect_check_input sample_repr sample_zones sample_type_name sample_collation deployed_file (Ok []) check_env ""
           late_morning late_morning st = Ok inp ∧ ci_grace_sec inp = 2700.
Proof.
  destruct (deployed_kind st "flex-trades") as [k1 H1]; [by apply (bool_decide_unpack _)|].
  destruct (deployed_kind st "flex-transactions") as [k2 H2]; [by apply (bool_decide_unpack _)|].
  unfold collect_check_input. change (dict_or_empty (dict_get "scheduler" deployed_file)) with (Ok deployed_schedule).
  cbn [mbind res_bind]. cbn zeta. change (@schedule_timezone sample_repr deployed_schedule) with (Some "America/New_York").
  change (dict_or_empty (dict_get "slots" deployed_schedule)) with (Ok sample_slots). cbn [mbind res_bind].
  unfold SLOT_KIND. cbn [fold_res]. rewrite H1. cbn [fmap res_fmap]. rewrite H2. cbn [fmap res_fmap mbind res_bind].
  destruct (resolve_flex_tokens check_env) as [[[? ?] ?] ?]. destruct (flex_tokens_issued_at check_env late_morning).
  change (catchup_grace_sec deployed_schedule) with (Ok 2700). cbn [mbind res_bind].
  change (py_float _) with (Ok (FDec 5 0)). cbn [mbind res_bind]. eexists. by split.
Qed.

Lemma missed_plan_is_caught_up_witness :
  ∃ inp, @collect_check_input sample_repr sample_zones sample_type_name sample_collation deployed_file (Ok []) check_env ""
           late_morning late_morning (healthy late_morning empty_queue) = Ok inp
    ∧ ∀ kind, (∃ k, k ∈ ci_kinds inp ∧ ki_kind k = kind ∧ missed_plan k inp = true)
              ↔ ∃ m, m ∈ (missed_kind <$> SLOT_NAMES) ∧ m_kind m = kind.
Proof.
  destruct (morning_collect (healthy late_morning empty_queue)) as (inp & Hinp & Hgrace). exists inp. split; [exact Hinp|].
  apply (@missed_plan_is_caught_up sample_repr sample_zones sample_type_name sample_collation deployed_file (Ok []) check_env ""
           late_morning late_morning (healthy late_morning empty_queue) inp deployed_schedule);
    [apply empty_queue_ok| |exact Hinp|reflexivity|rewrite Hgrace; exact first_missed].
  intros i1 j1 i2 j2 H1. cbn in H1. by rewrite lookup_empty in H1.
Defined.

(** Both jobs of the morning done, the July gap filled. *)
Definition quiet_store (t : Z) : store :=
  let st := healthy t (match mark_done (late_morning + secs 90) 2 [] morning_done with Ok q => q | Raise _ => morning_done end) in
  mkStore (st_queue st) (st_fresh st) (st_hearts st) (st_executions st)
    (mkCash (Some "U1") (20651 * day_usec) :: st_transactions st) (st_exec_time st) (st_ts st) (st_coverage st).

Lemma quiet_check_means_witness :
  (∃ j, newest_job (st_queue (quiet_store late_morning)) "flex-trades" = Some j ∧ j_status j = Done)
  ∧ strip (FLEX_HOST_TOKEN check_env) ≠ "".
Proof.
  destruct (@check_route sample_repr sample_zones sample_names sample_type_name sample_collation [] (Ok []) check_env ""
              late_morning late_morning (quiet_store late_morning)) as [d|] eqn:E; [|vm_compute in E; discriminate E].
  assert (d_verdict d = "ok") as Hok by (vm_compute in E; injection E as <-; reflexivity).
  destruct (@quiet_check_means sample_repr sample_zones sample_names sample_type_name sample_collation [] (Ok []) check_env ""
              late_morning late_morning (quiet_store late_morning) d (λ _ H, ltac:(discriminate H)) E (or_introl Hok))
    as (Hjobs & _ & Htok & _).
  destruct (newest_job (st_queue (quiet_store late_morning)) "flex-trades") as [j|] eqn:Ej;
    [|vm_compute in Ej; discriminate Ej].
  split; [exists j; split; [reflexivity|]|].
  - apply (Hjobs "flex-trades" "flex-trades"); [apply (bool_decide_unpack _); exact I|exact Ej].
  - destruct Htok as [H|H]; [exact H|]. intros _. apply H. reflexivity.
Defined.
