(* ===== verification/HttpMetrics.v ===== *)
(** * Request metrics ([api/http_metrics.py])

    The histogram, the registry of request counts and latencies, its text, and the
    middleware that records one observation per request. A float is an IEEE 754 double
    as [SpecFloat] defines it, so sums and comparisons are the machine's; [str] of a
    float stays abstract. The lock makes each method atomic and is left out. *)
From Stdlib Require Import Ascii SpecFloat.
From S2P Require Import Prelude Pytext.

(** ** Floats *)

Notation float := spec_float.
Definition fadd (x y : float) : float := SFadd 53 1024 x y.
Definition fle (x y : float) : bool := SFleb x y.

(** The double nearest to an integer, and to the literal [n / 10^k]. *)
Definition float_of_Z (n : Z) : float := binary_normalize 53 1024 n 0 false.
Definition literal (n k : Z) : float := SFdiv 53 1024 (float_of_Z n) (float_of_Z (10 ^ k)).

(** [str(x)] of a float. *)
Class FloatRepr := float_repr : float → string.

(** ** Names and labels *)

Definition UNRECORDED_HANDLERS : list string := ["/metrics"].
Definition UNTIMED_HANDLERS : list string := ["/metrics"; "/health"].
Definition DURATION_BUCKETS : list float := [literal 1 1; literal 5 1; literal 1 0].
Definition HIGHR_BUCKETS : list float :=
  [literal 1 2; literal 25 3; literal 5 2; literal 75 3; literal 1 1; literal 25 2; literal 5 1; literal 75 2; literal 1 0;
   literal 15 1; literal 2 0; literal 25 1; literal 3 0; literal 35 1; literal 4 0; literal 45 1; literal 5 0; literal 75 1;
   literal 10 0; literal 30 0; literal 60 0].
Definition METHODS : list string := ["GET"; "HEAD"; "POST"; "PUT"; "PATCH"; "DELETE"; "OPTIONS"].

Definition QUOTE : ascii := "034"%char.
Definition BACKSLASH : ascii := "092"%char.
Definition NEWLINE : ascii := "010"%char.
Definition quoted (s : string) : string := String QUOTE (s +:+ String QUOTE "").

(** [_escape]. *)
Definition escape (v : string) : string :=
  replace_char NEWLINE " " (replace_char QUOTE (String BACKSLASH (String QUOTE ""))
    (replace_char BACKSLASH (String BACKSLASH (String BACKSLASH "")) v)).

(** [_labels]. *)
Definition label (kv : string * string) : string := kv.1 +:+ "=" +:+ quoted (escape kv.2).
Definition labels (pairs : list (string * string)) : string := join "," (label <$> pairs).

(** ** The histogram *)

Record Histogram := mkHistogram { h_bounds : list float; h_counts : list Z; h_n : Z; h_total : float }.

Definition new_histogram (bounds : list float) : Histogram :=
  mkHistogram bounds (replicate (length bounds) 0) 0 (S754_zero false).

(** The loop of [observe]: the first bucket the value fits. *)
Fixpoint bump (seconds : float) (bounds : list float) (counts : list Z) : list Z :=
  match bounds, counts with
  | b :: bounds', c :: counts' => if fle seconds b then c + 1 :: counts' else c :: bump seconds bounds' counts'
  | _, _ => counts
  end.

Definition hist_observe (h : Histogram) (seconds : float) : Histogram :=
  mkHistogram (h_bounds h) (bump seconds (h_bounds h) (h_counts h)) (h_n h + 1) (fadd (h_total h) seconds).

Section render.
Context `{FloatRepr}.

Definition bucket_line (name : string) (pairs : list (string * string)) (le : string) (n : Z) : string :=
  name +:+ "_bucket{" +:+ labels (pairs ++ [("le", le)]) +:+ "} " +:+ str_of_Z n.

(** The loop of [render], with its running sum. *)
Fixpoint bucket_lines (name : string) (pairs : list (string * string)) (running : Z) (bounds : list float) (counts : list Z)
    : list string :=
  match bounds, counts with
  | b :: bounds', c :: counts' =>
      bucket_line name pairs (float_repr b) (running + c) :: bucket_lines name pairs (running + c) bounds' counts'
  | _, _ => []
  end.

Definition base_labels (pairs : list (string * string)) : string :=
  match pairs with [] => "" | _ => "{" +:+ labels pairs +:+ "}" end.

Definition hist_render (h : Histogram) (name : string) (pairs : list (string * string)) : list string :=
  bucket_lines name pairs 0 (h_bounds h) (h_counts h)
  ++ [bucket_line name pairs "+Inf" (h_n h);
      name +:+ "_sum" +:+ base_labels pairs +:+ " " +:+ float_repr (h_total h);
      name +:+ "_count" +:+ base_labels pairs +:+ " " +:+ str_of_Z (h_n h)].
End render.

(** ** The registry *)

Record HttpMetrics := mkHttpMetrics {
  m_requests : gmap (string * string * string) Z;
  m_duration : gmap (string * string) Histogram;
  m_highr : Histogram
}.

Definition reset : HttpMetrics := mkHttpMetrics ∅ ∅ (new_histogram HIGHR_BUCKETS).

Definition method_label (method : string) : string := if decide (method ∈ METHODS) then method else "OTHER".
Definition status_class (status_code : Z) : string := str_of_Z (status_code / 100) +:+ "xx".

(** One request, as the middleware reports it. *)
Record observation := mkObservation { o_handler : string; o_method : string; o_status : Z; o_seconds : float }.

Definition observe (m : HttpMetrics) (o : observation) : HttpMetrics :=
  if decide (o_handler o ∈ UNRECORDED_HANDLERS) then m
  else
    let method := method_label (o_method o) in
    let key := (o_handler o, method, status_class (o_status o)) in
    let requests := <[key := default 0 (m_requests m !! key) + 1]> (m_requests m) in
    if decide (o_handler o ∈ UNTIMED_HANDLERS) then mkHttpMetrics requests (m_duration m) (m_highr m)
    else
      let hist := default (new_histogram DURATION_BUCKETS) (m_duration m !! (o_handler o, method)) in
      mkHttpMetrics requests (<[(o_handler o, method) := hist_observe hist (o_seconds o)]> (m_duration m))
        (hist_observe (m_highr m) (o_seconds o)).

(** Tuples of texts compare lexicographically. *)
Definition lex_le {A} (le : relation A) (a b : A * string) : Prop :=
  (a.1 ≠ b.1 ∧ le a.1 b.1) ∨ (a.1 = b.1 ∧ String.le a.2 b.2).
#[export] Instance lex_le_dec {A} `{EqDecision A} (le : relation A) `{RelDecision _ _ le} : RelDecision (lex_le le).
Proof. intros a b. unfold lex_le. apply _. Defined.
Definition key_order {K V} (le : relation K) (a b : K * V) : Prop := le a.1 b.1.
#[export] Instance key_order_dec {K V} (le : relation K) `{RelDecision _ _ le} : RelDecision (@key_order K V le).
Proof. intros a b. unfold key_order. apply _. Defined.

Section render_all.
Context `{FloatRepr}.

Definition request_line (kv : string * string * string * Z) : string :=
  let '((handler, method, status), n) := kv in
  "http_requests_total{" +:+ labels [("handler", handler); ("method", method); ("status", status)] +:+ "} " +:+ str_of_Z n.

Definition duration_lines (kv : string * string * Histogram) : list string :=
  let '((handler, method), hist) := kv in
  hist_render hist "http_request_duration_seconds" [("handler", handler); ("method", method)].

(** [HttpMetrics.render]. *)
Definition metrics_lines (m : HttpMetrics) : list string :=
  ["# HELP http_requests_total Total number of requests by method, status and handler.";
   "# TYPE http_requests_total counter"]
  ++ (request_line <$> merge_sort (key_order (lex_le (lex_le String.le))) (map_to_list (m_requests m)))
  ++ ["# HELP http_request_duration_seconds Latency with only few buckets by handler.";
      "# TYPE http_request_duration_seconds histogram"]
  ++ concat (duration_lines <$> merge_sort (key_order (lex_le String.le)) (map_to_list (m_duration m)))
  ++ ["# HELP http_request_duration_highr_seconds Latency with many buckets but no API specific labels.";
      "# TYPE http_request_duration_highr_seconds histogram"]
  ++ hist_render (m_highr m) "http_request_duration_highr_seconds" [].
Definition render (m : HttpMetrics) : string :=
  join (String NEWLINE "") (metrics_lines m) +:+ String NEWLINE "".
End render_all.

(** ** The middleware *)

(** A message the application sends, with the route the scope holds at that moment and
    the seconds since the start. *)
Record message := mkMessage { ms_type : string; ms_status : Z; ms_route : option string; ms_elapsed : float }.

(** How the application ends: it returns, raises an [Exception], or is cancelled (which
    [except Exception] lets through). *)
Inductive outcome := Returned | Raised (route : option string) (elapsed : float) | Cancelled.

(** [record]. *)
Definition record_request (method : string) (route : option string) (status : Z) (elapsed : float) (m : HttpMetrics)
    : HttpMetrics :=
  match route with Some handler => observe m (mkObservation handler method status elapsed) | None => m end.

(** [send_and_record]: the [started] flag and the registry. *)
Definition send_and_record (method : string) (s : bool * HttpMetrics) (msg : message) : bool * HttpMetrics :=
  if bool_decide (ms_type msg = "http.response.start") && negb s.1
  then (true, record_request method (ms_route msg) (ms_status msg) (ms_elapsed msg) s.2)
  else s.

(** [__call__], for the messages the application sends before it ends. *)
Definition middleware (scope_type method : string) (sent : list message) (out : outcome) (m : HttpMetrics) : HttpMetrics :=
  if decide (scope_type ≠ "http") then m
  else
    let '(started, m1) := foldl (send_and_record method) (false, m) sent in
    match out with
    | Raised route elapsed => if started then m1 else record_request method route 500 elapsed m1
    | _ => m1
    end.

(** ** The order of floats *)

(** Comparison is transitive; a NaN compares with nothing, so it needs no exception. *)
Ltac lex :=
  repeat match goal with
  | H : context [PosDef.Pos.compare_cont Eq ?a ?b] |- _ => change (PosDef.Pos.compare_cont Eq a b) with (Pos.compare a b) in H
  | |- context [PosDef.Pos.compare_cont Eq ?a ?b] => change (PosDef.Pos.compare_cont Eq a b) with (Pos.compare a b)
  | H : context [Z.compare ?a ?b] |- _ => destruct (Z.compare_spec a b); subst
  | |- context [Z.compare ?a ?b] => destruct (Z.compare_spec a b); subst
  | H : context [Pos.compare ?a ?b] |- _ => destruct (Pos.compare_spec a b); subst
  | |- context [Pos.compare ?a ?b] => destruct (Pos.compare_spec a b); subst
  end; try done; try lia.

Lemma fle_trans x y z : fle x y = true → fle y z = true → fle x z = true.
Proof.
  unfold fle, SFleb, SFcompare.
  destruct x as [sx|sx| |sx mx ex], y as [sy|sy| |sy my ey], z as [sz|sz| |sz mz ez]; try done;
    repeat match goal with s : bool |- _ => destruct s end; try done; intros Hxy Hyz; lex.
Qed.
#[export] Instance fle_transitive : Transitive (λ x y, fle x y = true).
Proof. intros x y z. apply fle_trans. Qed.

(** Bounds in ascending order. *)
Definition ascending (bounds : list float) : Prop := StronglySorted (λ x y, fle x y = true) bounds.
Fixpoint ascendingb (bounds : list float) : bool :=
  match bounds with
  | a :: ((b :: _) as rest) => fle a b && ascendingb rest
  | _ => true
  end.
Lemma ascendingb_spec bounds : ascendingb bounds = true → ascending bounds.
Proof.
  intros Hb. apply Sorted_StronglySorted; [apply _|].
  induction bounds as [|a [|b rest] IH]; [constructor|by repeat constructor|].
  cbn in Hb. apply andb_true_iff in Hb as [? ?]. constructor; [by apply IH|by constructor].
Qed.
Lemma duration_ascending : ascending DURATION_BUCKETS.
Proof. apply ascendingb_spec. vm_compute. reflexivity. Qed.
Lemma highr_ascending : ascending HIGHR_BUCKETS.
Proof. apply ascendingb_spec. vm_compute. reflexivity. Qed.

(** ** The histogram counts *)

(** The running sums [render] prints. *)
Fixpoint running_sums (running : Z) (counts : list Z) : list Z :=
  match counts with [] => [] | c :: counts' => (running + c) :: running_sums (running + c) counts' end.

Lemma running_sums_shift k r counts : running_sums (r + k) counts = (λ n, n + k) <$> running_sums r counts.
Proof.
  revert r. induction counts as [|c counts IH]; intros r; [done|]. cbn. f_equal; [lia|].
  rewrite <-IH. f_equal. lia.
Qed.

(** One more value raises every bucket whose bound it does not exceed. *)
Lemma running_sums_bump x bounds counts r :
  ascending bounds → length counts = length bounds →
  running_sums r (bump x bounds counts)
  = zip_with (λ b n, n + if fle x b then 1 else 0) bounds (running_sums r counts).
Proof.
  intros Hs. revert counts r. induction Hs as [|b bounds Hs IH Hall]; intros [|c counts] r Hlen; try done.
  cbn. destruct (fle x b) eqn:Hx.
  - cbn. f_equal; [lia|].
    replace (r + (c + 1)) with (r + c + 1) by lia. rewrite running_sums_shift.
    cbn in Hlen. injection Hlen as Hlen. clear Hs IH.
    revert counts Hlen r. induction Hall as [|b' bounds Hb' Hall IH']; intros [|c' counts] Hlen r; try done.
    cbn. rewrite (fle_trans _ _ _ Hx Hb'). f_equal. replace (r + c + c') with (r + c' + c) by lia. apply IH'. by injection Hlen.
  - cbn. f_equal; [lia|]. apply IH. by injection Hlen.
Qed.

Lemma length_bump x bounds counts : length (bump x bounds counts) = length counts.
Proof.
  revert counts. induction bounds as [|b bounds IH]; intros [|c counts]; cbn; try done.
  destruct (fle x b); cbn; by rewrite ?IH.
Qed.

(** The histogram of the values [xs]. *)
Definition histogram_of (bounds : list float) (xs : list float) : Histogram :=
  foldl hist_observe (new_histogram bounds) xs.

Definition count_le (xs : list float) (b : float) : Z := Z.of_nat (length (filter (λ x, fle x b = true) xs)).

Lemma histogram_of_snoc bounds xs x : histogram_of bounds (xs ++ [x]) = hist_observe (histogram_of bounds xs) x.
Proof. unfold histogram_of. by rewrite foldl_app. Qed.

Lemma running_sums_zero n : running_sums 0 (replicate n 0) = replicate n 0.
Proof. induction n as [|n IH]; [done|]. cbn [replicate running_sums]. f_equal. exact IH. Qed.

Lemma histogram_of_spec bounds xs :
  ascending bounds →
  let h := histogram_of bounds xs in
  h_bounds h = bounds ∧ length (h_counts h) = length bounds ∧ h_n h = Z.of_nat (length xs)
  ∧ h_total h = foldl fadd (S754_zero false) xs
  ∧ running_sums 0 (h_counts h) = count_le xs <$> bounds.
Proof.
  intros Hs. cbn zeta. induction xs as [|x xs IH] using rev_ind.
  - assert (running_sums 0 (replicate (length bounds) 0) = count_le [] <$> bounds) as Hz.
    { rewrite running_sums_zero. clear Hs. induction bounds as [|b bounds IH]; [done|]. cbn. by rewrite IH. }
    split_and!; try done. apply length_replicate.
  - rewrite histogram_of_snoc. destruct IH as (Hb & Hlen & Hn & Ht & Hsum). cbn. rewrite Hb. split_and!.
    + done.
    + by rewrite length_bump.
    + rewrite Hn, length_app. cbn. lia.
    + by rewrite Ht, foldl_app.
    + rewrite running_sums_bump, Hsum by done. clear. induction bounds as [|b bounds IH]; [done|]. cbn. f_equal; [|done].
      unfold count_le. rewrite filter_app, length_app, filter_cons, filter_nil. destruct (fle x b); [rewrite decide_True by done|rewrite decide_False by done]; cbn [length]; lia.
Qed.

Section render_theorems.
Context `{FloatRepr}.

Lemma bucket_lines_sums name pairs r bounds counts :
  length counts = length bounds →
  bucket_lines name pairs r bounds counts
  = zip_with (λ b n, bucket_line name pairs (float_repr b) n) bounds (running_sums r counts).
Proof.
  revert r counts. induction bounds as [|b bounds IH]; intros r [|c counts] Hlen; try done.
  cbn. f_equal. apply IH. by injection Hlen.
Qed.

(** The histogram tells Prometheus the truth: after any observations, the line of a bucket
    carries the number of them that do not exceed its bound, the [+Inf] bucket and the
    count carry all of them, and the sum is the float sum in the order they came. *)
Theorem hist_render_spec bounds xs name pairs :
  ascending bounds →
  hist_render (histogram_of bounds xs) name pairs
  = ((λ b, bucket_line name pairs (float_repr b) (count_le xs b)) <$> bounds)
    ++ [bucket_line name pairs "+Inf" (Z.of_nat (length xs));
        name +:+ "_sum" +:+ base_labels pairs +:+ " " +:+ float_repr (foldl fadd (S754_zero false) xs);
        name +:+ "_count" +:+ base_labels pairs +:+ " " +:+ str_of_Z (Z.of_nat (length xs))].
Proof.
  intros Hs. destruct (histogram_of_spec bounds xs Hs) as (Hb & Hlen & Hn & Ht & Hsum). unfold hist_render.
  rewrite Hb, Hn, Ht, bucket_lines_sums, Hsum by done. f_equal.
  clear. induction bounds as [|b bounds IH]; [done|]. cbn. by rewrite IH.
Qed.
End render_theorems.

(** ** What the registry holds *)

Definition request_key (o : observation) : string * string * string :=
  (o_handler o, method_label (o_method o), status_class (o_status o)).
Definition duration_key (o : observation) : string * string := (o_handler o, method_label (o_method o)).
Definition recorded (o : observation) : Prop := o_handler o ∉ UNRECORDED_HANDLERS.
Definition timed (o : observation) : Prop := o_handler o ∉ UNTIMED_HANDLERS.
#[export] Instance recorded_dec o : Decision (recorded o).
Proof. unfold recorded. apply _. Defined.
#[export] Instance timed_dec o : Decision (timed o).
Proof. unfold timed. apply _. Defined.

(** The observations counted under a key, and the seconds that went into a histogram. *)
Definition counted_as (k : string * string * string) (obs : list observation) : list observation :=
  filter (λ o, recorded o ∧ request_key o = k) obs.
Definition seconds_of (k : string * string) (obs : list observation) : list float :=
  o_seconds <$> filter (λ o, timed o ∧ duration_key o = k) obs.

Lemma timed_recorded o : timed o → recorded o.
Proof. unfold timed, recorded. intros Ht Hr. apply Ht. unfold UNRECORDED_HANDLERS, UNTIMED_HANDLERS in *. set_solver. Qed.

Lemma observe_spec m o :
  m_requests (observe m o)
  = (if decide (recorded o) then <[request_key o := default 0 (m_requests m !! request_key o) + 1]> (m_requests m) else m_requests m)
  ∧ m_duration (observe m o)
    = (if decide (timed o)
       then <[duration_key o := hist_observe (default (new_histogram DURATION_BUCKETS) (m_duration m !! duration_key o)) (o_seconds o)]>
              (m_duration m)
       else m_duration m)
  ∧ m_highr (observe m o) = (if decide (timed o) then hist_observe (m_highr m) (o_seconds o) else m_highr m).
Proof.
  unfold observe. pose proof (timed_recorded o) as Htr. unfold recorded, timed in *.
  destruct (decide (o_handler o ∈ UNRECORDED_HANDLERS)) as [Hr|Hr].
  - rewrite !decide_False by tauto. done.
  - rewrite (decide_True (P := _ ∉ UNRECORDED_HANDLERS)) by done.
    destruct (decide (o_handler o ∈ UNTIMED_HANDLERS)) as [Ht|Ht];
      [rewrite !decide_False by tauto|rewrite !decide_True by done]; done.
Qed.

(** A non-zero count of what a filter keeps. *)
Definition positive_length {A} (l : list A) : option Z := match l with [] => None | _ => Some (Z.of_nat (length l)) end.

Lemma positive_length_snoc {A} (l : list A) a : positive_length (l ++ [a]) = Some (default 0 (positive_length l) + 1).
Proof. unfold positive_length. destruct l as [|b l]; [done|]. cbn [app default]. f_equal. cbn. rewrite length_app. cbn. lia. Qed.

Lemma filter_snoc {A} (P : A → Prop) `{∀ x, Decision (P x)} (l : list A) a :
  filter P (l ++ [a]) = if decide (P a) then filter P l ++ [a] else filter P l.
Proof.
  rewrite filter_app, filter_cons, filter_nil. case_decide; [done|]. apply app_nil_r.
Qed.

Lemma requests_of_obs obs k : m_requests (foldl observe reset obs) !! k = positive_length (counted_as k obs).
Proof.
  induction obs as [|o obs IH] using rev_ind; [done|]. rewrite foldl_app. cbn [foldl].
  destruct (observe_spec (foldl observe reset obs) o) as (-> & _). unfold counted_as. rewrite filter_snoc.
  fold (counted_as k obs). destruct (decide (recorded o)) as [Hr|Hr].
  - destruct (decide (request_key o = k)) as [<-|Hne].
    + rewrite lookup_insert_eq, decide_True, positive_length_snoc, IH by done. done.
    + rewrite lookup_insert_ne, decide_False by tauto. done.
  - rewrite decide_False by tauto. done.
Qed.

Lemma duration_of_obs obs k :
  m_duration (foldl observe reset obs) !! k
  = match seconds_of k obs with [] => None | xs => Some (histogram_of DURATION_BUCKETS xs) end.
Proof.
  induction obs as [|o obs IH] using rev_ind; [done|]. rewrite foldl_app. cbn [foldl].
  destruct (observe_spec (foldl observe reset obs) o) as (_ & -> & _). unfold seconds_of. rewrite filter_snoc.
  destruct (decide (timed o)) as [Ht|Ht].
  - destruct (decide (duration_key o = k)) as [<-|Hne].
    + rewrite lookup_insert_eq, (decide_True (P := timed o ∧ _)), fmap_app by done. fold (seconds_of (duration_key o) obs). rewrite IH.
      cbn [fmap list_fmap]. generalize (seconds_of (duration_key o) obs). intros l.
      assert (∀ y, match l ++ [y] with [] => None | xs => Some (histogram_of DURATION_BUCKETS xs) end
                   = Some (histogram_of DURATION_BUCKETS (l ++ [y]))) as -> by (by destruct l).
      rewrite histogram_of_snoc. by destruct l.
    + rewrite lookup_insert_ne, decide_False by tauto. done.
  - rewrite decide_False by tauto. done.
Qed.

(** The registry is exactly what the requests so far make it: each request series counts
    the requests of its handler, method and status class; each latency histogram holds the
    seconds of its handler and method; the fine histogram holds them all; the metrics route
    is in none of them and the probes in no histogram. The series stay bounded: a method
    label is one of the seven known ones or OTHER, a handler label that of a request. *)
Theorem observe_all_spec obs :
  let m := foldl observe reset obs in
  (∀ k, m_requests m !! k = positive_length (counted_as k obs))
  ∧ (∀ k, m_duration m !! k = match seconds_of k obs with [] => None | xs => Some (histogram_of DURATION_BUCKETS xs) end)
  ∧ m_highr m = histogram_of HIGHR_BUCKETS (o_seconds <$> filter timed obs)
  ∧ ∀ h me st, is_Some (m_requests m !! (h, me, st)) →
      h ∉ UNRECORDED_HANDLERS ∧ me ∈ "OTHER" :: METHODS ∧ ∃ o, o ∈ obs ∧ o_handler o = h.
Proof.
  cbn zeta. split_and!; [apply requests_of_obs|apply duration_of_obs| |].
  - induction obs as [|o obs IH] using rev_ind; [done|]. rewrite foldl_app. cbn [foldl].
    destruct (observe_spec (foldl observe reset obs) o) as (_ & _ & ->). rewrite filter_snoc, IH.
    case_decide; [|done]. by rewrite fmap_app, <-histogram_of_snoc.
  - intros h me st Hs. rewrite requests_of_obs in Hs. destruct (counted_as (h, me, st) obs) as [|o l] eqn:E; [by destruct Hs|].
    assert (o ∈ counted_as (h, me, st) obs) as [[Hr Hk] Hin]%list_elem_of_filter by (rewrite E; by left).
    unfold request_key in Hk. simplify_eq. split_and!; [done| |by exists o].
    unfold method_label. case_decide; [by right|by left].
Qed.

(** ** One request, one observation *)

Definition is_start (msg : message) : Prop := ms_type msg = "http.response.start".

Lemma sent_after_start method sent m : foldl (send_and_record method) (true, m) sent = (true, m).
Proof.
  induction sent as [|msg sent IH]; [done|]. cbn [foldl]. unfold send_and_record at 2. cbn. by rewrite andb_false_r.
Qed.

Lemma sent_spec method sent m :
  foldl (send_and_record method) (false, m) sent
  = match head (filter is_start sent) with
    | Some msg => (true, record_request method (ms_route msg) (ms_status msg) (ms_elapsed msg) m)
    | None => (false, m)
    end.
Proof.
  induction sent as [|msg sent IH]; [done|]. cbn [foldl]. rewrite filter_cons. unfold send_and_record at 2. cbn [fst snd].
  destruct (decide (is_start msg)) as [Hs|Hs].
  - rewrite bool_decide_eq_true_2 by exact Hs. cbn [andb negb]. by rewrite sent_after_start.
  - rewrite bool_decide_eq_false_2 by exact Hs. cbn [andb]. exact IH.
Qed.

(** A request leaves one observation at most: that of its first response start, however
    many messages follow and even if the application then raises; status 500 when it
    raises before any; nothing when it is cancelled before any, when no route matched, or
    when the connection is not HTTP. *)
Theorem middleware_records_once scope_type method sent out m :
  middleware scope_type method sent out m =
  if decide (scope_type = "http") then
    match head (filter is_start sent), out with
    | Some msg, _ => record_request method (ms_route msg) (ms_status msg) (ms_elapsed msg) m
    | None, Raised route elapsed => record_request method route 500 elapsed m
    | None, _ => m
    end
  else m.
Proof.
  unfold middleware. destruct (decide (scope_type = "http")) as [Hh|Hh].
  - rewrite decide_False by (intros Hn; by apply Hn). rewrite sent_spec.
    destruct (head _), out; done.
  - by rewrite decide_True.
Qed.

(** ** Labels can be read back *)

(** The scanner of the exposition format: a value up to its closing quote, where a
    backslash escapes the next character and [\n] is a line feed. *)
Fixpoint read_value (s : string) : option (string * string) :=
  match s with
  | EmptyString => None
  | String c s' =>
      if decide (c = QUOTE) then Some ("", s')
      else if decide (c = BACKSLASH) then
        match s' with
        | EmptyString => None
        | String d s'' =>
            (λ vr, (String (if decide (d = "n"%char) then NEWLINE else d) vr.1, vr.2)) <$> read_value s''
        end
      else (λ vr, (String c vr.1, vr.2)) <$> read_value s'
  end.

(** A name up to the equals sign. *)
Fixpoint read_name (s : string) : option (string * string) :=
  match s with
  | EmptyString => None
  | String c s' => if decide (c = "="%char) then Some ("", s') else (λ nr, (String c nr.1, nr.2)) <$> read_name s'
  end.

(** A label set; [n] bounds the number of labels. *)
Fixpoint read_labels (n : nat) (s : string) : option (list (string * string)) :=
  match n with
  | O => None
  | S n' =>
      '(name, s1) ← read_name s;
      match s1 with
      | String q s2 =>
          if decide (q = QUOTE) then
            '(value, s3) ← read_value s2;
            match s3 with
            | EmptyString => Some [(name, value)]
            | String c s4 => if decide (c = ","%char) then cons (name, value) <$> read_labels n' s4 else None
            end
          else None
      | EmptyString => None
      end
  end.

(** What a value keeps: line feeds become spaces. *)
Definition one_line (v : string) : string := replace_char NEWLINE " " v.

(** What one character of a value becomes. *)
Definition escape_char (c : ascii) : string :=
  if decide (c = BACKSLASH) then String BACKSLASH (String BACKSLASH "")
  else if decide (c = QUOTE) then String BACKSLASH (String QUOTE "")
  else if decide (c = NEWLINE) then " " else String c "".

Lemma replace_char_app c r a b : replace_char c r (a +:+ b) = replace_char c r a +:+ replace_char c r b.
Proof.
  induction a as [|x a IH]; [done|]. rewrite append_cons. cbn [replace_char]. by rewrite IH, append_assoc.
Qed.

Lemma escape_cons c v : escape (String c v) = escape_char c +:+ escape v.
Proof.
  unfold escape. cbn [replace_char]. rewrite !replace_char_app. f_equal. unfold escape_char.
  destruct (decide (c = BACKSLASH)) as [->|Hb]; [done|]. cbn [replace_char].
  destruct (decide (c = QUOTE)) as [->|Hq]; [done|].
  rewrite append_nil_r. cbn [replace_char]. rewrite append_nil_r. by destruct (decide (c = NEWLINE)).
Qed.

Lemma read_value_escape v rest : read_value (escape v +:+ String QUOTE rest) = Some (one_line v, rest).
Proof.
  induction v as [|c v IH]; [done|]. rewrite escape_cons, append_assoc. unfold one_line. cbn [replace_char].
  fold (one_line v). unfold escape_char.
  destruct (decide (c = BACKSLASH)) as [->|Hb]; [|destruct (decide (c = QUOTE)) as [->|Hq]; [|destruct (decide (c = NEWLINE)) as [->|Hn]]].
  - change (String BACKSLASH (String BACKSLASH "") +:+ ?s) with (String BACKSLASH (String BACKSLASH s)).
    cbn [read_value]. rewrite IH. reflexivity.
  - change (String BACKSLASH (String QUOTE "") +:+ ?s) with (String BACKSLASH (String QUOTE s)).
    cbn [read_value]. rewrite IH. reflexivity.
  - change (" " +:+ ?s) with (String " " s). cbn [read_value]. rewrite IH. reflexivity.
  - rewrite append_cons. cbn [read_value]. rewrite !decide_False by done.
    change ("" +:+ ?s) with s. rewrite IH. done.
Qed.

Lemma read_name_eq name rest :
  char_free "="%char name = true → read_name (name +:+ "=" +:+ rest) = Some (name, rest).
Proof.
  induction name as [|c name IH]; [done|]. unfold char_free. cbn [str_forallb]. intros [Hc Hf]%andb_true_iff.
  apply bool_decide_eq_true in Hc. rewrite append_cons. cbn [read_name]. rewrite decide_False by done. by rewrite IH.
Qed.

Lemma label_read n name value rest :
  char_free "="%char name = true →
  read_labels (S n) (label (name, value) +:+ rest)
  = match rest with
    | EmptyString => Some [(name, one_line value)]
    | String c s4 => if decide (c = ","%char) then cons (name, one_line value) <$> read_labels n s4 else None
    end.
Proof.
  intros Hf. unfold label, quoted. cbn [fst snd read_labels].
  rewrite append_assoc, append_assoc, read_name_eq by done. cbn [mbind option_bind].
  rewrite append_cons. rewrite decide_True by done. rewrite append_assoc, append_cons.
  change ("" +:+ rest) with rest. rewrite read_value_escape. done.
Qed.

(** No character [c] in a text. *)
Lemma char_free_app c a b : char_free c (a +:+ b) = char_free c a && char_free c b.
Proof. apply str_forallb_app. Qed.

Lemma escape_one_line v : char_free NEWLINE (escape v) = true.
Proof.
  induction v as [|c v IH]; [done|]. rewrite escape_cons, char_free_app, IH, andb_true_r. unfold escape_char.
  repeat case_decide; try done. unfold char_free. cbn. by rewrite bool_decide_eq_true_2.
Qed.

Lemma label_one_line kv : char_free NEWLINE kv.1 = true → char_free NEWLINE (label kv) = true.
Proof. intros H. unfold label, quoted. rewrite !char_free_app, H. change (String QUOTE ?s) with (String QUOTE "" +:+ s). by rewrite !char_free_app, escape_one_line. Qed.

(** A label set is one line when its names are. *)
Lemma labels_one_line pairs : Forall (λ kv, char_free NEWLINE kv.1 = true) pairs → char_free NEWLINE (labels pairs) = true.
Proof.
  unfold labels. induction 1 as [|kv pairs Hkv Hall IH]; [done|]. destruct pairs as [|p pairs]; [by apply label_one_line|].
  cbn [fmap list_fmap] in *.
  change (join "," (label kv :: label p :: (label <$> pairs))) with (label kv +:+ "," +:+ join "," (label p :: (label <$> pairs))).
  rewrite !char_free_app, IH, label_one_line by done. done.
Qed.

(** Whatever the values hold — quotes, backslashes, line feeds, commas — a rendered label
    set is one line, and the exposition format's scanner reads back every name with its
    value, line feeds turned into spaces. *)
Theorem labels_roundtrip pairs :
  pairs ≠ [] → Forall (λ kv, char_free "="%char kv.1 = true ∧ char_free NEWLINE kv.1 = true) pairs →
  read_labels (length pairs) (labels pairs) = Some ((λ kv, (kv.1, one_line kv.2)) <$> pairs)
  ∧ char_free NEWLINE (labels pairs) = true.
Proof.
  intros Hne Hall. split; [|by apply labels_one_line; eapply Forall_impl; [exact Hall|]; cbn; tauto].
  induction Hall as [|[name value] pairs [Hname _] Hall IH]; [done|]. unfold labels. destruct pairs as [|p pairs].
  - cbn [fmap list_fmap join length]. rewrite <-(append_nil_r (label _)). by rewrite label_read.
  - specialize (IH ltac:(done)). unfold labels in IH. cbn [fmap list_fmap] in *.
    change (join "," (label (name, value) :: label p :: (label <$> pairs)))
      with (label (name, value) +:+ "," +:+ join "," (label p :: (label <$> pairs))).
    cbn [length]. rewrite label_read by done. change ("," +:+ ?s) with (String "," s). cbn [length] in IH.
    cbv iota. rewrite decide_True by done. rewrite IH. done.
Qed.

(** A text of lines splits into them. *)
Lemma split_lines ls :
  Forall (λ l, char_free NEWLINE l = true) ls → split_on NEWLINE (join (String NEWLINE "") (ls ++ [""])) = ls ++ [""].
Proof.
  intros Hall. apply split_on_join; [by destruct ls|]. rewrite forallb_app. apply andb_true_iff. split; [|done].
  induction Hall as [|l ls Hl _ IH]; [done|]. cbn. by rewrite Hl.
Qed.

Lemma str_of_Z_one_line n : char_free NEWLINE (str_of_Z n) = true.
Proof.
  destruct (decide (0 ≤ n)) as [Hn|Hn]; [apply digits_free; [done|by apply str_of_nonneg]|].
  destruct n as [|p|p]; [lia..|]. unfold str_of_Z, pretty, pretty_Z.
  rewrite char_free_app. apply andb_true_iff. split; [done|]. apply digits_free; [done|]. by apply (str_of_nonneg (Zpos p)).
Qed.

Section one_line_each.
Context `{FloatRepr} (float_line : ∀ x, char_free NEWLINE (float_repr x) = true).

Lemma bucket_line_free name pairs le n :
  char_free NEWLINE name = true → Forall (λ kv, char_free NEWLINE kv.1 = true) pairs →
  char_free NEWLINE (bucket_line name pairs le n) = true.
Proof.
  intros Hn Hp. unfold bucket_line. rewrite !char_free_app, Hn, str_of_Z_one_line, labels_one_line; [done|].
  apply Forall_app. split; [done|]. by repeat constructor.
Qed.

Lemma hist_render_free h name pairs :
  char_free NEWLINE name = true → Forall (λ kv, char_free NEWLINE kv.1 = true) pairs →
  Forall (λ l, char_free NEWLINE l = true) (hist_render h name pairs).
Proof.
  intros Hn Hp. assert (char_free NEWLINE (base_labels pairs) = true) as Hb.
  { unfold base_labels. destruct pairs; [done|]. by rewrite !char_free_app, labels_one_line. }
  unfold hist_render. apply Forall_app. split.
  - generalize 0 (h_bounds h) (h_counts h). intros r bounds. revert r.
    induction bounds as [|b bounds IH]; intros r [|c counts]; try by constructor. cbn. constructor; [by apply bucket_line_free|apply IH].
  - repeat constructor; [by apply bucket_line_free|..];
      rewrite !char_free_app, Hn, Hb, ?float_line, ?str_of_Z_one_line; done.
Qed.

(** Every line of the registry's text is one line. *)
Lemma metrics_lines_free m : Forall (λ l, char_free NEWLINE l = true) (metrics_lines m).
Proof.
  assert (∀ ls, forallb (char_free NEWLINE) ls = true → Forall (λ l, char_free NEWLINE l = true) ls) as Hconst.
  { induction ls as [|l ls IH]; [constructor|]. cbn. intros [? ?]%andb_true_iff. constructor; auto. }
  unfold metrics_lines.
  apply Forall_app; split; [by apply Hconst|]. apply Forall_app; split.
  { apply Forall_fmap, Forall_forall. intros [[[handler method] status] n] _. cbn [compose request_line].
    rewrite !char_free_app, str_of_Z_one_line, labels_one_line by (repeat constructor). done. }
  apply Forall_app; split; [by apply Hconst|]. apply Forall_app; split.
  { apply Forall_concat, Forall_fmap, Forall_forall. intros [[handler method] hist] _. cbn [compose duration_lines].
    apply hist_render_free; [done|by repeat constructor]. }
  apply Forall_app; split; [by apply Hconst|]. apply hist_render_free; [done|constructor].
Qed.
End one_line_each.

(** ** Examples *)

Definition sample_float_repr : FloatRepr := λ x, match x with S754_finite _ m e => str_of_Z (Zpos m) | _ => "0.0" end.

Lemma hist_render_spec_witness :
  count_le [literal 5 2; literal 3 1; literal 5 1; literal 12 1] (literal 5 1) = 3
  ∧ length (@hist_render sample_float_repr (histogram_of DURATION_BUCKETS [literal 5 2; literal 3 1; literal 5 1; literal 12 1]) "d" []) = 6%nat.
Proof.
  split; [vm_compute; reflexivity|].
  rewrite (@hist_render_spec sample_float_repr DURATION_BUCKETS [literal 5 2; literal 3 1; literal 5 1; literal 12 1] "d" [] duration_ascending).
  reflexivity.
Defined.

Lemma labels_roundtrip_witness :
  let v := String QUOTE (String BACKSLASH (String NEWLINE "x")) in
  read_labels 2 (labels [("handler", v); ("method", "GET")])
  = Some [("handler", String QUOTE (String BACKSLASH " x")); ("method", "GET")].
Proof.
  intros v. destruct (labels_roundtrip [("handler", v); ("method", "GET")]) as [H _];
    [discriminate|repeat constructor|exact H].
Defined.
