(* ===== verification/Config.v ===== *)
(** * Configuration and write access ([config.py], [api/deps.py])

    The YAML file overlaid with the environment, the connection arguments and the shape
    [bifrost_core] wants, and the two guards of the writing routes. The environment, the
    file system and the YAML parser are arguments. *)
From S2P Require Import Prelude Pytext PyVal.

(** The process around the configuration: [os.environ], the files there are, the parsed
    contents of one, and the package's root. *)
Class Process := {
  environ : string → option string;
  is_file : string → bool;
  yaml_load : string → res pyval;
  package_root : string
}.

(** [os.environ.get(name)] as a value, and [(os.environ.get(name) or "").strip()]. *)
Definition env_val `{Process} (name : string) : pyval := from_option PStr PNone (environ name).

Section config.
Context `{Process}.

Definition default_config_path : option string :=
  let env := strip (default "" (environ "FLEX_QUERY_CONFIG")) in
  if decide (env ≠ "") then (if is_file env then Some env else None)
  else
    let candidates := [package_root +:+ "/config/flex-query.yaml"; package_root +:+ "/config/flex-query.yaml.example"] in
    snd <$> list_find (λ c, is_file c = true) candidates.

(** One round of an override loop: a set, non-blank variable replaces the key. *)
Definition override (d : pydict) (kv : string * string) : res pydict :=
  let '(key, env_name) := kv in
  match environ env_name with
  | Some val =>
      if decide (strip val = "") then Ok d
      else if decide (key = "port") then (λ n, dict_set key (PInt n) d) <$> py_int (PStr val)
      else Ok (dict_set key (PStr val) d)
  | None => Ok d
  end.

Definition POSTGRES_ENV : list (string * string) :=
  [("host", "POSTGRES_HOST"); ("port", "POSTGRES_PORT"); ("dbname", "POSTGRES_DB"); ("user", "POSTGRES_USER");
   ("password", "POSTGRES_PASSWORD")].
Definition GOLDEN_ENV : list (string * string) :=
  [("host", "GOLDEN_SOURCE_HOST"); ("port", "GOLDEN_SOURCE_PORT"); ("database", "GOLDEN_SOURCE_DATABASE");
   ("user", "GOLDEN_SOURCE_USER"); ("password", "GOLDEN_SOURCE_PASSWORD")].

(** A section of the configuration with its variables; stored when it is not empty. *)
Definition overlay (section : string) (vars : list (string * string)) (cfg : pydict) : res pydict :=
  d ← dict_or_empty (dict_get section cfg);
  d ← fold_res override d vars;
  Ok (match d with [] => cfg | _ => dict_set section (PDict d) cfg end).

(** The file's mapping. *)
Definition read_file (path : option string) : res pydict :=
  match path with
  | Some p =>
      if is_file p then
        raw ← yaml_load p;
        Ok (match py_or raw (PDict []) with PDict d => d | _ => [] end)
      else Ok []
  | None => Ok []
  end.

Definition load_config (path : option string) : res pydict :=
  cfg ← read_file (match path with Some p => Some p | None => default_config_path end);
  cfg ← overlay "postgres" POSTGRES_ENV cfg;
  cfg ← overlay "golden_source" GOLDEN_ENV cfg;
  Ok (match environ "FLEX_QUERY_WRITE_TOKEN" with
      | Some tok => if decide (tok = "") then cfg else dict_set "write_token" (PStr (strip tok)) cfg
      | None => cfg
      end).

(** [psycopg2.connect]'s arguments. *)
Record connect_kwargs := mkKwargs { kw_host : pyval; kw_port : Z; kw_dbname : pyval; kw_user : pyval; kw_password : pyval }.

(** [a or b or c or d]. *)
Definition first_true (vs : list pyval) (dflt : pyval) : pyval := foldr py_or dflt vs.

Definition postgres_connect_kwargs (data : pydict) : res connect_kwargs :=
  pg ← dict_or_empty (dict_get "postgres" data);
  gs ← dict_or_empty (dict_get "golden_source" data);
  port ← py_int (first_true [dict_get "port" pg; dict_get "port" gs; env_val "POSTGRES_PORT"] (PInt 5432));
  Ok (mkKwargs
        (first_true [dict_get "host" pg; dict_get "host" gs; env_val "POSTGRES_HOST"] (PStr "localhost"))
        port
        (first_true [dict_get "dbname" pg; dict_get "database" gs; env_val "POSTGRES_DB"] (PStr "bifrost_golden_source"))
        (first_true [dict_get "user" pg; dict_get "user" gs; env_val "POSTGRES_USER"] (PStr "bifrost"))
        (first_true [dict_get "password" pg; dict_get "password" gs; env_val "POSTGRES_PASSWORD"] (PStr ""))).

(** The placeholder [ib] section. *)
Definition NO_IB : pyval :=
  PDict [("host", PDict [("ip", PStr "127.0.0.1"); ("port_type", PStr "tws_paper"); ("client_id", PDict [])]);
         ("connect_timeout", PInt 60)].

(** [core_config]: what [bifrost_core]'s writers read. *)
Definition core_config (data : pydict) : res pydict :=
  pg ← postgres_connect_kwargs data;
  gs ← dict_or_empty (dict_get "golden_source" data);
  let postgres := PDict [("host", kw_host pg); ("port", PInt (kw_port pg)); ("dbname", kw_dbname pg);
                         ("user", kw_user pg); ("password", kw_password pg); ("database", kw_dbname pg)] in
  let golden := PDict [("host", py_or (dict_get "host" gs) (kw_host pg));
                       ("port", py_or (dict_get "port" gs) (PInt (kw_port pg)));
                       ("database", first_true [dict_get "database" gs; dict_get "dbname" gs] (kw_dbname pg));
                       ("user", py_or (dict_get "user" gs) (kw_user pg));
                       ("password", py_or (dict_get "password" gs) (kw_password pg))] in
  let data := dict_set "sink" (PStr "postgres") (dict_set "golden_source" golden (dict_set "postgres" postgres data)) in
  Ok (if dict_has "ib" data then data else dict_set "ib" NO_IB data).
End config.

(** ** Write access ([api/deps.py]) *)

(** The three headers a guard reads. *)
Record headers := mkHeaders {
  x_flex_query_write_token : option string;
  authorization : option string;
  x_bifrost_trade_gateway : option string
}.

Section guards.
Context `{Process, PyRepr}.

Definition get_write_token : res string :=
  cfg ← load_config None;
  Ok (strip (py_str (first_true [dict_get "write_token" cfg; env_val "FLEX_QUERY_WRITE_TOKEN"] (PStr "")))).

Definition write_token_from_headers (h : headers) : string :=
  let got := strip (default "" (x_flex_query_write_token h)) in
  if decide (got = "") then
    match authorization h with
    | Some a => if startswith "bearer " (lower a) then strip (udrop 7 a) else ""
    | None => ""
    end
  else got.

Definition from_gateway (h : headers) : bool := bool_decide (strip (default "" (x_bifrost_trade_gateway h)) = "1").

(** The guards: [true] lets the request through, [false] is the 401. *)
Definition require_write_token (expected : string) (h : headers) : bool :=
  if decide (expected = "") then true
  else bool_decide (write_token_from_headers h = expected) || from_gateway h.

Definition require_config_write_identity (expected : string) (h : headers) : bool :=
  (bool_decide (expected ≠ "") && bool_decide (write_token_from_headers h = expected)) || from_gateway h.
End guards.

(** ** Overrides *)

(** The variable is set to more than blanks. *)
Definition set_to `{Process} (var v : string) : Prop := environ var = Some v ∧ strip v ≠ "".

Section overrides.
Context `{Process}.

Lemma override_lookup d key var d' k :
  override d (key, var) = Ok d' → k ≠ key → dict_lookup k d' = dict_lookup k d.
Proof.
  unfold override. intros Hd Hne. repeat case_match; inv_res; subst; try done; by rewrite dict_lookup_set, decide_False by congruence.
Qed.

(** What a key holds after its own variable was looked at. *)
Definition overridden (key var : string) (old new : option pyval) : Prop :=
  (∀ v, set_to var v → if decide (key = "port") then ∃ n, py_int (PStr v) = Ok n ∧ new = Some (PInt n)
                       else new = Some (PStr v))
  ∧ ((∀ v, ¬ set_to var v) → new = old).

Lemma override_own d key var d' :
  override d (key, var) = Ok d' → overridden key var (dict_lookup key d) (dict_lookup key d').
Proof.
  unfold override, overridden, set_to. destruct (environ var) as [val|] eqn:Hv.
  - destruct (decide (strip val = "")) as [Hblank|Hset].
    + intros [= <-]. split; [by intros v [[= <-] ?]|done].
    + case_decide.
      * intros (n & Hn & <-)%res_fmap_ok. rewrite dict_lookup_set, decide_True by done. split.
        -- intros v [[= <-] _]. by exists n.
        -- intros Hno. by destruct (Hno val).
      * intros [= <-]. rewrite dict_lookup_set, decide_True by done. split; [by intros v [[= <-] _]|].
        intros Hno. by destruct (Hno val).
  - intros [= <-]. split; [by intros v [? _]|done].
Qed.

Lemma overrides_lookup vars d d' :
  NoDup vars.*1 → fold_res override d vars = Ok d' →
  (∀ key var, (key, var) ∈ vars → overridden key var (dict_lookup key d) (dict_lookup key d'))
  ∧ ∀ k, k ∉ vars.*1 → dict_lookup k d' = dict_lookup k d.
Proof.
  revert d. induction vars as [|[key var] vars IH]; intros d Hnd Hf; cbn [fold_res] in Hf.
  - simplify_eq. split; [by intros ?? ?%not_elem_of_nil|done].
  - destruct (override d (key, var)) as [d1|] eqn:E; [|done]. cbn in Hnd. apply NoDup_cons in Hnd as [Hnot Hnd].
    destruct (IH _ Hnd Hf) as [IH1 IH2]. split.
    + intros k v [Hkv|Hin]%elem_of_cons.
      * simplify_eq. rewrite (IH2 key) by done. by eapply override_own.
      * rewrite <-(override_lookup d key var d1 k E); [by apply IH1|].
        intros ->. apply Hnot. apply list_elem_of_fmap. by exists (key, v).
    + intros k Hk. cbn in Hk. apply not_elem_of_cons in Hk as [? ?]. rewrite IH2 by done. by eapply override_lookup.
Qed.

(** A section after its overlay. *)
Lemma overlay_lookup section vars cfg cfg' :
  NoDup vars.*1 → overlay section vars cfg = Ok cfg' →
  ∃ d d', dict_or_empty (dict_get section cfg) = Ok d ∧ dict_or_empty (dict_get section cfg') = Ok d'
    ∧ (∀ key var, (key, var) ∈ vars → overridden key var (dict_lookup key d) (dict_lookup key d'))
    ∧ ∀ k, k ≠ section → dict_lookup k cfg' = dict_lookup k cfg.
Proof.
  unfold overlay. intros Hnd (d & Hd & Hr)%res_bind_ok. apply res_bind_ok in Hr as (d' & Hd' & [= <-]).
  apply overrides_lookup in Hd' as [Hov Hother]; [|done]. exists d, d'. split; [done|]. split_and!; [|done|].
  - destruct d' as [|kv d2] eqn:E; [|unfold dict_get at 1; by rewrite dict_lookup_set, decide_True].
    destruct d as [|[k v] d]; [done|]. exfalso. clear Hd.
    destruct (decide (k ∈ vars.*1)) as [Hin|Hout].
    + apply list_elem_of_fmap in Hin as ([k' var] & Hk & Hin). cbn in Hk. subst k'.
      destruct (Hov _ _ Hin) as [Hset Hunset]. cbn in Hset, Hunset. rewrite decide_True in Hunset by done.
      destruct (environ var) as [w|] eqn:Hw.
      * destruct (decide (strip w = "")) as [Hb|Hb].
        -- assert (∀ v0, ¬ set_to var v0) as Hno by (intros v0 [Hv0 Hne]; congruence). by specialize (Hunset Hno).
        -- specialize (Hset w (conj Hw Hb)). case_decide; [by destruct Hset as (? & _ & ?)|done].
      * assert (∀ v0, ¬ set_to var v0) as Hno by (intros v0 [Hv0 Hne]; congruence). by specialize (Hunset Hno).
    + specialize (Hother _ Hout). cbn in Hother. by rewrite decide_True in Hother.
  - intros k Hk. destruct d'; [done|]. by rewrite dict_lookup_set, decide_False by congruence.
Qed.

Lemma py_or_true a b : truthy a = true → py_or a b = a.
Proof. unfold py_or. by intros ->. Qed.

Lemma set_text_true v : strip v ≠ "" → truthy (PStr v) = true.
Proof. intros Hv. cbn. apply bool_decide_eq_true. intros ->. by apply Hv. Qed.

Lemma load_config_inv path cfg :
  load_config path = Ok cfg →
  ∃ pg gs, dict_or_empty (dict_get "postgres" cfg) = Ok pg ∧ dict_or_empty (dict_get "golden_source" cfg) = Ok gs
    ∧ (∀ key var, (key, var) ∈ POSTGRES_ENV → ∃ old, overridden key var old (dict_lookup key pg))
    ∧ (∀ key var, (key, var) ∈ GOLDEN_ENV → ∃ old, overridden key var old (dict_lookup key gs)).
Proof.
  unfold load_config. intros (cfg0 & _ & Hr)%res_bind_ok. apply res_bind_ok in Hr as (cfg1 & H1 & Hr).
  apply res_bind_ok in Hr as (cfg2 & H2 & Hr).
  apply overlay_lookup in H1 as (d & pg & _ & Hpg & Hov1 & _); [|by apply (bool_decide_unpack _)].
  apply overlay_lookup in H2 as (d2 & gs & _ & Hgs & Hov2 & Hkeep); [|by apply (bool_decide_unpack _)].
  exists pg, gs.
  assert (∀ k, k ≠ "write_token" → dict_lookup k cfg = dict_lookup k cfg2) as Htok.
  { intros k Hk. repeat case_match; simplify_eq; try done; by rewrite dict_lookup_set, decide_False by congruence. }
  split_and!.
  - unfold dict_get. rewrite Htok, Hkeep by done. exact Hpg.
  - unfold dict_get. rewrite Htok by done. exact Hgs.
  - eauto.
  - eauto.
Qed.

(** The environment wins. Whatever the configuration file says, a connection variable
    that is set to more than blanks is what the plugin connects with, and a port that is
    not a number stops it from loading. *)
Theorem environment_wins path cfg kw :
  load_config path = Ok cfg → postgres_connect_kwargs cfg = Ok kw →
  (∀ v, set_to "POSTGRES_HOST" v → kw_host kw = PStr v)
  ∧ (∀ v, set_to "POSTGRES_DB" v → kw_dbname kw = PStr v)
  ∧ (∀ v, set_to "POSTGRES_USER" v → kw_user kw = PStr v)
  ∧ (∀ v, set_to "POSTGRES_PASSWORD" v → kw_password kw = PStr v)
  ∧ (∀ v, set_to "POSTGRES_PORT" v → ∃ n, py_int (PStr v) = Ok n ∧ (n ≠ 0 → kw_port kw = n)).
Proof.
  intros (pg & gs & Hpg & Hgs & Hov & _)%load_config_inv. unfold postgres_connect_kwargs. rewrite Hpg, Hgs.
  cbn [mbind res_bind]. intros (port & Hport & [= <-])%res_bind_ok. cbn [kw_host kw_port kw_dbname kw_user kw_password].
  assert (∀ key var v rest, (key, var) ∈ POSTGRES_ENV → key ≠ "port" → set_to var v →
            py_or (dict_get key pg) rest = PStr v) as Htext.
  { intros key var v rest Hin Hne Hset. destruct (Hov _ _ Hin) as (old & Hown & _). specialize (Hown _ Hset).
    rewrite decide_False in Hown by done. unfold dict_get. rewrite Hown. cbn [default].
    apply py_or_true, set_text_true, Hset. }
  split_and!; intros v Hset.
  1: apply (Htext "host" "POSTGRES_HOST"); [by apply (bool_decide_unpack _)|done..].
  1: apply (Htext "dbname" "POSTGRES_DB"); [by apply (bool_decide_unpack _)|done..].
  1: apply (Htext "user" "POSTGRES_USER"); [by apply (bool_decide_unpack _)|done..].
  1: apply (Htext "password" "POSTGRES_PASSWORD"); [by apply (bool_decide_unpack _)|done..].
  destruct (Hov "port" "POSTGRES_PORT") as (old & Hown & _); [by apply (bool_decide_unpack _)|].
  specialize (Hown _ Hset). rewrite decide_True in Hown by done. destruct Hown as (n & Hn & Hl). exists n. split; [done|].
  intros Hne. cbn [first_true foldr] in Hport. unfold dict_get in Hport at 1. rewrite Hl in Hport. cbn [default] in Hport.
  rewrite py_or_true in Hport; [by injection Hport|]. cbn. by apply negb_true_iff, Z.eqb_neq.
Qed.

(** Unless a [golden_source] section says otherwise, the database [bifrost_core] writes to
    is the one the queue lives in. *)
Theorem core_writes_to_queue_database data kw d :
  postgres_connect_kwargs data = Ok kw → core_config data = Ok d → truthy (dict_get "golden_source" data) = false →
  dict_get "golden_source" d
  = PDict [("host", kw_host kw); ("port", PInt (kw_port kw)); ("database", kw_dbname kw); ("user", kw_user kw);
           ("password", kw_password kw)].
Proof.
  intros Hkw. unfold core_config. rewrite Hkw. cbn [mbind res_bind]. unfold dict_or_empty at 1.
  intros Hd Hgs. rewrite Hgs in Hd. cbn [mbind res_bind] in Hd.
  assert (∀ v, dict_get "golden_source" (dict_set "ib" NO_IB (dict_set "sink" (PStr "postgres") v)) = dict_get "golden_source" v
               ∧ dict_get "golden_source" (dict_set "sink" (PStr "postgres") v) = dict_get "golden_source" v) as Hkeep.
  { intros v. unfold dict_get. by rewrite !dict_lookup_set, !decide_False by done. }
  injection Hd as <-. case_match; [rewrite (proj2 (Hkeep _))|rewrite (proj1 (Hkeep _))];
    unfold dict_get at 1; by rewrite dict_lookup_set, decide_True.
Qed.
End overrides.

(** ** Who may write *)

(** The request carries [tok]: in the plugin's own header, or, when that is blank, as a
    bearer token, whatever the scheme's case. ([udrop 0] drops nothing of a valid text.) *)
Definition presents (h : headers) (tok : string) : Prop :=
  let own := strip (default "" (x_flex_query_write_token h)) in
  own = tok
  ∨ own = "" ∧ ∃ scheme rest, authorization h = Some (scheme +:+ rest) ∧ lower scheme = "bearer " ∧ strip (udrop 0 rest) = tok.

Lemma is_lead_lower c : is_lead (lower_char c) = is_lead c.
Proof. by destruct c as [[] [] [] [] [] [] [] []]. Qed.

Lemma startswith_lower p a :
  startswith p (lower a) = true ↔ ∃ scheme rest, a = scheme +:+ rest ∧ lower scheme = p.
Proof.
  split.
  - revert a. induction p as [|c p IH]; intros a Hs; [by exists "", a|].
    destruct a as [|d a]; [done|]. cbn in Hs. case_decide as Hc; [|done].
    destruct (IH a Hs) as (scheme & rest & -> & <-). exists (String d scheme), rest. split; [done|]. cbn. by rewrite Hc.
  - intros (scheme & rest & -> & <-). induction scheme as [|d scheme IH]; [done|]. rewrite append_cons. simpl. by rewrite decide_True.
Qed.

Lemma udrop_scheme scheme rest :
  str_forallb is_lead (lower scheme) = true → udrop (ulen (lower scheme)) (scheme +:+ rest) = udrop 0 rest.
Proof.
  induction scheme as [|c scheme IH]; [done|]. cbn [lower str_map str_forallb ulen]. rewrite is_lead_lower.
  intros [Hc Hall]%andb_true_iff. rewrite Hc, append_cons. cbn [udrop]. rewrite Hc.
  pose proof (ulen_nonneg (lower scheme)) as Hn. unfold lower in Hn.
  destruct (1 + ulen (str_map lower_char scheme) <=? 0) eqn:E; [bool_hyps; lia|].
  replace (1 + ulen (str_map lower_char scheme) - 1) with (ulen (str_map lower_char scheme)) by lia. by apply IH.
Qed.

Lemma write_token_presented h tok : tok ≠ "" → write_token_from_headers h = tok ↔ presents h tok.
Proof.
  intros Hne. unfold write_token_from_headers, presents. cbn zeta.
  destruct (decide (strip (default "" (x_flex_query_write_token h)) = "")) as [->|Hown].
  - destruct (authorization h) as [a|].
    + destruct (startswith "bearer " (lower a)) eqn:Hs.
      * apply startswith_lower in Hs as (scheme & rest & -> & Hl).
        assert (udrop 7 (scheme +:+ rest) = udrop 0 rest) as ->.
        { change 7 with (ulen "bearer "). rewrite <-Hl. apply udrop_scheme. by rewrite Hl. }
        split; [intros <-; right; split; [done|]; by exists scheme, rest|].
        intros [?|(_ & scheme' & rest' & [= Heq] & Hl' & <-)]; [congruence|]. f_equal.
        pose proof (udrop_scheme scheme rest ltac:(by rewrite Hl)) as H1.
        pose proof (udrop_scheme scheme' rest' ltac:(by rewrite Hl')) as H2. rewrite Hl in H1. rewrite Hl' in H2. congruence.
      * split; [congruence|]. intros [?|(_ & scheme & rest & [= ->] & Hl & _)]; [congruence|].
        assert (startswith "bearer " (lower (scheme +:+ rest)) = true) by (apply startswith_lower; eauto). congruence.
    + split; [congruence|]. intros [?|(_ & ? & ? & ? & _)]; congruence.
  - split; [by left|]. intros [?|[? _]]; [done|congruence].
Qed.

(** Who gets through. With a token configured, the guard of the writing routes lets in
    exactly the requests that carry it and those of the gateway, and the guard of the
    configuration route the same; with none configured the first lets everyone in and the
    second only the gateway, whatever token a request carries. *)
Theorem write_guards_spec expected h :
  (require_write_token expected h = true ↔ expected = "" ∨ presents h expected ∨ from_gateway h = true)
  ∧ (require_config_write_identity expected h = true ↔ (expected ≠ "" ∧ presents h expected) ∨ from_gateway h = true).
Proof.
  unfold require_write_token, require_config_write_identity. split.
  - destruct (decide (expected = "")) as [->|Hne]; [tauto|].
    rewrite orb_true_iff, bool_decide_eq_true, write_token_presented by done. tauto.
  - rewrite orb_true_iff, andb_true_iff, !bool_decide_eq_true.
    destruct (decide (expected = "")) as [->|Hne]; [tauto|]. rewrite write_token_presented by done. tauto.
Qed.

(** ** Examples *)

(** A pod: the database's login in the environment, a file that names another host. *)
Definition sample_process : Process := {|
  environ var := if decide (var = "POSTGRES_HOST") then Some "golden.local" else if decide (var = "POSTGRES_PORT") then Some "6432" else None;
  is_file p := bool_decide (p = "/app/config/flex-query.yaml");
  yaml_load _ := Ok (PDict [("postgres", PDict [("host", PStr "localhost"); ("user", PStr "flex")])]);
  package_root := "/app"
|}.

Lemma environment_wins_witness :
  ∃ cfg kw, @load_config sample_process None = Ok cfg ∧ @postgres_connect_kwargs sample_process cfg = Ok kw
    ∧ kw_host kw = PStr "golden.local" ∧ kw_user kw = PStr "flex".
Proof.
  destruct (@load_config sample_process None) as [cfg|] eqn:Hc; [|vm_compute in Hc; discriminate Hc].
  destruct (@postgres_connect_kwargs sample_process cfg) as [kw|] eqn:Hk;
    [|vm_compute in Hc; injection Hc as <-; vm_compute in Hk; discriminate Hk].
  exists cfg, kw. split; [reflexivity|]. split; [exact Hk|].
  destruct (@environment_wins sample_process None cfg kw Hc Hk) as [Hhost _]. split.
  - apply Hhost. split; [reflexivity|vm_compute; discriminate].
  - vm_compute in Hc. injection Hc as <-. vm_compute in Hk. injection Hk as <-. reflexivity.
Defined.

Lemma core_writes_to_queue_database_witness :
  ∃ d, @core_config sample_process [] = Ok d
    ∧ dict_get "golden_source" d
      = PDict [("host", PStr "golden.local"); ("port", PInt 6432); ("database", PStr "bifrost_golden_source");
               ("user", PStr "bifrost"); ("password", PStr "")].
Proof.
  destruct (@core_config sample_process []) as [d|] eqn:E; [|vm_compute in E; discriminate E]. exists d. split; [reflexivity|].
  exact (@core_writes_to_queue_database sample_process []
           (mkKwargs (PStr "golden.local") 6432 (PStr "bifrost_golden_source") (PStr "bifrost") (PStr "")) d eq_refl E eq_refl).
Defined.
