(* ===== verification/Notify.v ===== *)
(** * The message center ([orchestration/notify.py])

    Where a run's message goes and whether it was taken. The Redis helpers and the event
    stream belong to [bifrost_core] and the Redis client; they are an interface. *)
From S2P Require Import Prelude Pytext PyVal Ingest Config.

(** [bifrost_core.core.redis_url] and [message_center]: the connection settings in effect,
    their URL, and writing an event to the stream behind a URL, which answers the event's
    id in it. *)
Class MessageCenter := {
  effective_redis_dict : pydict → res pydict;
  format_redis_url : pydict → string;
  publish_system_message_event : string → event → res (option string)
}.

Definition LOOPBACK_HOSTS : list string := ["127.0.0.1"; "localhost"; "::1"].

Section notify.
Context `{PyRepr, Process, MessageCenter}.

(** [REDIS_HOST], or [redis.host] of the configuration, set to more than blanks. *)
Definition explicit_redis_host (config : pydict) : res bool :=
  if decide (strip (default "" (environ "REDIS_HOST")) ≠ "") then Ok true
  else
    match py_or (dict_get "redis" config) (PDict []) with
    | PDict r => let host := dict_get "host" r in Ok (negb (is_none host) && bool_decide (strip (py_str host) ≠ ""))
    | _ => Raise (Exn AttributeError "object has no attribute 'get'")
    end.

(** The URL, or nothing for no configuration and for a loopback nobody asked for. *)
Definition resolve_message_center_redis_url (config : option pydict) : res (option string) :=
  match config with
  | None | Some [] => Ok None
  | Some cfg =>
      effective ← effective_redis_dict cfg;
      let host := lower (strip (py_str (py_or (dict_get "host" effective) (PStr "")))) in
      skip ← (if decide (host ∈ LOOPBACK_HOSTS) then negb <$> explicit_redis_host cfg else Ok false);
      Ok (if skip : bool then None else Some (format_redis_url effective))
  end.

(** The answer, and the event with the URL it was offered to. *)
Definition publish_flex_executions_system_message (config : option pydict) (ok : bool) (title message : string)
    (reason : option string) (level : string) : res bool * option (string * event) :=
  match resolve_message_center_redis_url config with
  | Raise ex => (Raise ex, None)
  | Ok None => (Ok false, None)
  | Ok (Some url) =>
      if decide (url = "") then (Ok false, None)
      else
        let ev := fetch_event ok title message reason level in
        (match publish_system_message_event url ev with
         | Ok (Some _) => Ok true
         | Ok None | Raise _ => Ok false
         end, Some (url, ev))
  end.

(** The runs of a process with that configuration: [Ingest.publish] is this function. *)
Definition run_context (config : option pydict) (faults : site → option exn) : RunContext := {|
  read_fault := faults;
  message_url := resolve_message_center_redis_url config;
  stream_answer := publish_system_message_event
|}.

Lemma publish_is_published config faults ok title message reason level w :
  let '(answer, sent) := publish_flex_executions_system_message config ok title message reason level in
  @publish (run_context config faults) ok title message reason level w
  = (answer, mkWorld (w_requests w) (w_transactions w) (w_executions w)
       (w_messages w ++ match answer, sent with Ok true, Some (_, ev) => [ev] | _, _ => [] end)).
Proof.
  unfold publish_flex_executions_system_message, publish, taken. cbn [message_url run_context stream_answer].
  assert (w = mkWorld (w_requests w) (w_transactions w) (w_executions w) (w_messages w ++ [])) as E
    by (rewrite app_nil_r; by destruct w).
  destruct (resolve_message_center_redis_url config) as [[url|]|ex]; [|by rewrite <-E..].
  destruct (decide (url = "")); [by rewrite <-E|].
  by destruct (publish_system_message_event _ _) as [[i|]|]; [|rewrite <-E..].
Qed.

(** ** Where a message goes *)

(** The host the settings in effect name. *)
Definition redis_host (effective : pydict) : string := lower (strip (py_str (py_or (dict_get "host" effective) (PStr "")))).

(** Nothing is sent to a loopback nobody configured, nothing is reported as sent that the
    stream did not take, and a failure of the stream is an answer, not an exception: only
    reading the configuration can raise. A message that is sent says complete exactly for a
    run that was well. *)
Theorem publish_reaches_configured_redis config ok title message reason level :
  let '(answer, sent) := publish_flex_executions_system_message config ok title message reason level in
  (∀ ex, answer = Raise ex ↔ resolve_message_center_redis_url config = Raise ex)
  ∧ (answer = Ok true ↔ ∃ url ev i, sent = Some (url, ev) ∧ publish_system_message_event url ev = Ok (Some i))
  ∧ ∀ url ev, sent = Some (url, ev) →
      ev = fetch_event ok title message reason level ∧ (ev_status_to ev = "complete" ↔ ok = true)
      ∧ ∃ cfg effective, config = Some cfg ∧ cfg ≠ [] ∧ effective_redis_dict cfg = Ok effective
          ∧ url = format_redis_url effective ∧ url ≠ ""
          ∧ (redis_host effective ∈ LOOPBACK_HOSTS → explicit_redis_host cfg = Ok true).
Proof.
  unfold publish_flex_executions_system_message.
  destruct (resolve_message_center_redis_url config) as [[url|]|ex] eqn:Hurl.
  - destruct (decide (url = "")) as [->|Hne].
    { split_and!; [done|split; [done|by intros (? & ? & ? & ? & _)]|done]. }
    set (ev := fetch_event ok title message reason level). split_and!.
    + intros ex. by destruct (publish_system_message_event url ev) as [[i|]|].
    + destruct (publish_system_message_event url ev) as [[i|]|] eqn:Hp; (split; [intros; simplify_eq; eauto 6|]); try done;
        intros (? & ? & ? & [= <- <-] & Hi); rewrite Hp in Hi; done.
    + intros url' ev' [= <- <-]. split; [done|]. split; [unfold ev, fetch_event; cbn; by destruct ok|].
      unfold resolve_message_center_redis_url in Hurl. destruct config as [[|kv cfg]|]; [done| |done].
      set (c := kv :: cfg) in *. apply res_bind_ok in Hurl as (effective & He & Hr). cbn zeta in Hr.
      apply res_bind_ok in Hr as (skip & Hskip & Hr). destruct skip; [done|]. injection Hr as <-.
      exists c, effective. split_and!; try done. intros Hin. unfold redis_host in Hin.
      rewrite decide_True in Hskip by done. apply res_fmap_ok in Hskip as (b & -> & Hb). by destruct b.
  - split_and!; [done|split; [done|by intros (? & ? & ? & ? & _)]|done].
  - split_and!; [intros ex'; split; congruence|split; [done|by intros (? & ? & ? & ? & _)]|done].
Qed.
End notify.
