(* ===== verification/SlotCli.v ===== *)
(** * The slot command and the schedule file ([scheduler/daily.py])

    Finding and reading the schedule, and the command a CronJob runs: read the
    configuration, connect with patience, refuse without tokens, enqueue one slot. *)
From S2P Require Import Prelude Pytext PyVal Json JobQueue Pytime ConfigRw Cron Schedule Config.

(** ** The schedule file *)

Section schedule_file.
Context `{Process}.

Definition default_schedule_path : option string :=
  let env := strip (default "" (environ "SCHEDULE_CONFIG")) in
  if decide (env ≠ "" ∧ is_file env = true) then Some env
  else snd <$> list_find (λ c, is_file c = true) ["/config/schedule.yaml"; package_root +:+ "/config/schedule.yaml"].

Definition load_schedule (path : option string) : res pydict :=
  match (match path with Some p => Some p | None => default_schedule_path end) with
  | Some p =>
      if is_file p then
        raw ← yaml_load p;
        Ok (match py_or raw (PDict []) with PDict d => d | _ => [("scheduler", PDict [])] end)
      else Ok [("scheduler", PDict [])]
  | None => Ok [("scheduler", PDict [])]
  end.
End schedule_file.

(** ** The command *)

(** The parsed arguments. *)
Record cli_args := mkArgs { ca_slot : string; ca_config : option string; ca_schedule : option string }.

(** The five connection attempts: the result and the pauses made. [connect] is how each
    attempt goes. *)
Fixpoint connect_loop (connect : Z → res ()) (attempt : Z) (left : nat) (last_err : exn) : res () * list Z :=
  match left with
  | O => (Raise last_err, [])
  | S left' =>
      match connect attempt with
      | Ok _ => (Ok (), [])
      | Raise ex =>
          if decide (exn_cls ex = OperationalError) then
            let '(r, pauses) := connect_loop connect (attempt + 1) left' ex in (r, Z.min (2 * attempt) 8 :: pauses)
          else (Raise ex, [])
      end
  end.

Section main.
Context `{Process, PyRepr, Sha256}.

(** From the open connection on: the exit code and the table. [schema] is how
    [ensure_flex_ops_schema] goes. *)
Definition enqueue_connected (slot : string) (cfg : pydict) (schema : res ()) (e : env) (today : string) (t : Z) (q : queue)
    : res Z * queue :=
  match schema with
  | Raise ex => (Raise ex, q)
  | Ok _ =>
      let '(host_tok, sec_tok, _, _) := resolve_flex_tokens e in
      if decide (host_tok = "" ∧ sec_tok = "") then (Ok 1, q)
      else
        match enqueue_slot today t slot cfg [] q with
        | Ok (_, q') => (Ok 0, q')
        | Raise ex => (Raise ex, q)
        end
  end.

(** Up to the open connection: the scheduler's section, and the pauses. *)
Definition opened (args : cli_args) (connect : Z → res ()) : res pydict * list Z :=
  match (cfg ← load_config (ca_config args);
         schedule ← load_schedule (ca_schedule args);
         scheduler_cfg ← dict_or_empty (dict_get "scheduler" schedule);
         kw ← postgres_connect_kwargs cfg;
         Ok (scheduler_cfg, kw)) with
  | Raise ex => (Raise ex, [])
  | Ok (scheduler_cfg, _) =>
      let '(r, pauses) := connect_loop connect 1 5 (Exn RuntimeError "postgres connect failed") in
      ((λ _, scheduler_cfg) <$> r, pauses)
  end.

(** [main]: the exit code ([argparse] exits with 2 on a slot that is no choice), the pauses
    and the table. *)
Definition main (args : cli_args) (connect : Z → res ()) (schema : res ()) (e : env) (today : string) (t : Z) (q : queue)
    : res Z * list Z * queue :=
  if decide (ca_slot args ∉ SLOT_NAMES) then (Ok 2, [], q)
  else
    match opened args connect with
    | (Raise ex, pauses) => (Raise ex, pauses, q)
    | (Ok scheduler_cfg, pauses) =>
        let '(code, q') := enqueue_connected (ca_slot args) scheduler_cfg schema e today t q in (code, pauses, q')
    end.
End main.

(** ** What an exit code means *)

Lemma connect_loop_spec connect attempt n last_err :
  let '(r, pauses) := connect_loop connect attempt n last_err in
  (length pauses ≤ n)%nat ∧ Forall (λ s, s ≤ 8) pauses
  ∧ match r with
    | Ok _ => ∃ k, attempt ≤ k < attempt + Z.of_nat n ∧ connect k = Ok ()
              ∧ ∀ i, attempt ≤ i < k → ∃ ex, connect i = Raise ex ∧ exn_cls ex = OperationalError
    | Raise ex => ex = last_err ∧ n = 0%nat ∨ ∃ k, attempt ≤ k < attempt + Z.of_nat n ∧ connect k = Raise ex
              ∧ (exn_cls ex ≠ OperationalError ∨ k = attempt + Z.of_nat n - 1)
    end.
Proof.
  revert attempt last_err. induction n as [|n IH]; intros attempt last_err; cbn [connect_loop].
  - split_and!; [done|done|by left].
  - destruct (connect attempt) as [[]|ex] eqn:Hc.
    { split_and!; [cbn; lia|done|]. exists attempt. split_and!; [lia|lia|done|lia]. }
    case_decide as Hcls; [|split_and!; [cbn; lia|done|]; right; exists attempt; split_and!; [lia|lia|done|by left]].
    specialize (IH (attempt + 1) ex). destruct (connect_loop connect (attempt + 1) n ex) as [r pauses].
    destruct IH as (Hlen & Hall & Hr). split_and!; [cbn; lia|constructor; [lia|done]|]. destruct r as [[]|ex'].
    + destruct Hr as (k & Hk & Hok & Hbefore). exists k. split_and!; [lia|lia|done|]. intros i Hi.
      destruct (decide (i = attempt)) as [->|]; [by exists ex|]. apply Hbefore. lia.
    + right. destruct Hr as [[-> ->]|(k & Hk & Hok & Hlast)].
      * exists attempt. split_and!; [lia|lia|done|right; lia].
      * exists k. split_and!; [lia|lia|done|]. destruct Hlast as [?|?]; [by left|right; lia].
Qed.

Section main_theorem.
Context `{Process, PyRepr, Sha256}.

(** Every ending but the last leaves the queue alone and does not answer zero. *)
Ltac refused := split_and!; (done || (cbn; lia)).

(** C17. The command is honest with its CronJob: exit code zero means that a token is there and
    that the slot's job of the day is active in the queue, added by this run or found; any
    other ending, an error included, leaves the queue as it was. It pauses at most five
    times, eight seconds at most each, and keeps the queue well formed. *)
Theorem exit_zero_means_enqueued args connect schema e today t q :
  queue_ok q →
  let '(code, pauses, q') := main args connect schema e today t q in
  queue_ok q' ∧ (length pauses ≤ 5)%nat ∧ Forall (λ s, s ≤ 8) pauses
  ∧ (code ≠ Ok 0 → q' = q)
  ∧ (code = Ok 0 →
       (strip (FLEX_HOST_TOKEN e) ≠ "" ∨ strip (FLEX_SECONDARY_TOKEN e) ≠ "")
       ∧ (∃ k, 1 ≤ k ≤ 5 ∧ connect k = Ok ())
       ∧ ∃ i j, q_rows q' !! i = Some j ∧ index_key j = Some (ca_slot args, slot_hash today [])).
Proof.
  intros Hok. unfold main, opened. case_decide as Hslot; [refused|].
  destruct (load_config (ca_config args) ≫= _) as [[scheduler_cfg kw]|ex]; [|refused].
  pose proof (connect_loop_spec connect 1 5 (Exn RuntimeError "postgres connect failed")) as Hloop.
  destruct (connect_loop connect 1 5 _) as [[[]|ex] pauses]; destruct Hloop as (Hlen & Hall & Hr); cbn [fmap res_fmap]; [|refused].
  unfold enqueue_connected. destruct schema as [[]|ex]; [|refused].
  unfold resolve_flex_tokens. case_decide as Htok; [refused|].
  destruct (enqueue_slot today t (ca_slot args) scheduler_cfg [] q) as [[r q']|ex] eqn:He; [|refused].
  split_and!; [by eapply enqueue_slot_ok|done|done|done|]. intros _. split_and!.
  - destruct (decide (strip (FLEX_HOST_TOKEN e) = "")); [right|by left]. intros ?. by apply Htok.
  - destruct Hr as (k & Hk & Hc & _). exists k. split; [lia|done].
  - destruct (enqueue_slot_active _ _ _ _ _ _ _ _ He) as (i & j & Hj & Hkey). exists i, j. split; [done|].
    destruct (decide (ca_slot args ∈ SLOT_NAMES)) as [Hin|]; [|done]. by rewrite (slot_name_key _ Hin) in Hkey.
Qed.
End main_theorem.

(** ** At concrete inputs *)

(** A database that is up at the third attempt. *)
Definition slow_start (k : Z) : res () := if k <? 3 then Raise (Exn OperationalError "connection refused") else Ok ().

Lemma exit_zero_means_enqueued_witness :
  ∃ q', @main sample_process sample_repr sample_sha (mkArgs "flex-trades" None None) slow_start (Ok ()) (mkEnv "token" "" "")
          "2026-09-08" 5 empty_queue = (Ok 0, [2; 4], q')
    ∧ queue_ok q' ∧ ∃ i j, q_rows q' !! i = Some j ∧ j_kind j = "flex-trades" ∧ active j = true.
Proof.
  pose proof (@exit_zero_means_enqueued sample_process sample_repr sample_sha (mkArgs "flex-trades" None None) slow_start (Ok ())
                (mkEnv "token" "" "") "2026-09-08" 5 empty_queue empty_queue_ok) as Hmain.
  destruct (@main sample_process sample_repr sample_sha (mkArgs "flex-trades" None None) slow_start (Ok ()) (mkEnv "token" "" "")
              "2026-09-08" 5 empty_queue) as [[code pauses] q'] eqn:E.
  exists q'. assert (code = Ok 0 ∧ pauses = [2; 4]) as [-> ->] by (vm_compute in E; injection E as <- <- _; split; reflexivity).
  split; [reflexivity|]. destruct Hmain as (Hok & _ & _ & _ & Hzero). split; [exact Hok|].
  destruct (Hzero eq_refl) as (_ & _ & i & j & Hj & Hkey). exists i, j. split; [exact Hj|].
  unfold index_key in Hkey. destruct (active j); [|discriminate Hkey].
  destruct (j_hash j); [injection Hkey as Hkind _; split; [exact Hkind|reflexivity]|discriminate Hkey].
Defined.
