(* ===== verification/Manual.v ===== *)
(** * Manual runs ([api/manual_ops.py])

    The trigger and the upload run synchronously, but leave the trail a queued job would:
    a row in the queue and an outcome in the freshness table. The trail is best effort:
    a database error while writing it does not stop the run. *)
From S2P Require Import Prelude Pytext PyVal Json JobQueue Retry Ddl Handlers Config.

(** What an HTTP route answers: a body, an error code, or an exception that escaped. *)
Inductive answer := Reply (d : pydict) | Refused (code : Z) (detail : string) | Crashed (e : exn).

(** The two tables of the trail. *)
Record trail := mkTrail { tr_queue : queue; tr_fresh : gmap string freshness }.

(** Database errors while the trail is written: preparing the schema or inserting the
    row, finishing the row, recording the outcome. *)
Class TrailFaults := {
  start_fault : option exn;
  mark_fault : option exn;
  fresh_fault : option exn
}.

(** [upsert_executions_from_uploaded_flex_xml], as the route calls it. *)
Class Uploads := upload_xml : string → res pydict.

Definition KIND_TO_JOB : list (string * string) := [("trades", "flex-trades"); ("transactions", "flex-transactions")].
Definition job_kind_of (kind : string) : option string :=
  (λ r, r.2.2) <$> list_find (λ kv, kv.1 = kind) KIND_TO_JOB.

Section manual.
Context `{PyRepr, Orchestrations, Uploads, TrailFaults}.

(** [_audit_start]. *)
Definition audit_start (t : Z) (job_kind : string) (payload : pydict) (st : trail) : option Z * trail :=
  match start_fault with
  | Some _ => (None, st)
  | None =>
      match insert_manual_job t job_kind payload (tr_queue st) with
      | Ok (i, q) => (Some i, mkTrail q (tr_fresh st))
      | Raise _ => (None, st)
      end
  end.

(** The keys of a summary the job's result keeps. *)
Definition SUMMARY_KEYS : list string :=
  ["count"; "message"; "range_from"; "range_to"; "data_from"; "data_to"; "per_query"; "errors"].
Definition summary_of (result : pydict) : pydict :=
  omap (λ k, (λ v, (k, v)) <$> dict_lookup k result) SUMMARY_KEYS.

(** [_audit_finish]: reading the summary may raise; writing the trail may not. [t1] and
    [t2] are the database's clock at the two writes. *)
Definition audit_finish (t1 t2 : Z) (job_kind : string) (job_id : option Z) (result : pydict) (st : trail) : res trail :=
  raw ← iter_values (py_or (dict_get "errors" result) (PList []));
  let errors := filter (λ s, strip s ≠ "") (py_str <$> raw) in
  let ok := truthy (dict_get "ok" result) && bool_decide (errors = []) in
  processed ← py_int (py_or (dict_get "count" result) (py_or (dict_get "inserted" result) (PInt 0)));
  let error :=
    if ok then None
    else Some (py_str (py_or (dict_get "error" result)
                         (py_or (PStr (join "; " errors)) (PStr "manual run failed")))) in
  let marked :=
    match job_id with
    | None => Ok (tr_queue st)
    | Some i =>
        match mark_fault with
        | Some e => Raise e
        | None =>
            if ok
            then mark_done t1 i [("inserted", PInt processed); ("ok", PBool true); ("result", PDict (summary_of result))]
                   (tr_queue st)
            else mark_failed t1 i (default "" error)
                   (Some (category_value (classify_flex_error (default "" error)))) (tr_queue st)
        end
    end in
  Ok (match marked with
      | Raise _ => st
      | Ok q =>
          mkTrail q
            (match fresh_fault with
             | Some _ => tr_fresh st
             | None => record_freshness job_kind (mkAttempt t2 ok processed None error job_id) (tr_fresh st)
             end)
      end).

(** Run, then finish the trail: the last lines of both routes. *)
Definition finish_run (t1 t2 : Z) (job_kind : string) (job_id : option Z) (run : res pydict) (st : trail) : answer * trail :=
  match run with
  | Raise e => (Crashed e, st)
  | Ok result =>
      match audit_finish t1 t2 job_kind job_id result st with
      | Raise e => (Crashed e, st)
      | Ok st' => (Reply (dict_set "job_id" (from_option PInt PNone job_id) result), st')
      end
  end.

(** [payload.pop(k, d)]. *)
Definition dict_pop (k : string) (d : pyval) (payload : pydict) : pyval * pydict :=
  (default d (dict_lookup k payload), filter (λ kv, kv.1 ≠ k) payload).

(** [POST /flex/ingest/trigger]; [config] is what loading and shaping the configuration
    gave, [t0] the database's clock at the insert. *)
Definition trigger_flex_fetch (config : res pydict) (t0 t1 t2 : Z) (body : option pydict) (st : trail) : answer * trail :=
  let '(raw_kind, payload) := dict_pop "kind" (PStr "trades") (default [] body) in
  let kind := strip (py_str raw_kind) in
  match job_kind_of kind with
  | None => (Refused 400 ("unsupported kind: " +:+ py_repr (PStr kind) +:+ " (use 'trades' or 'transactions')"), st)
  | Some job_kind =>
      let payload := dict_setdefault "fallback" (PBool false) payload in
      match config with
      | Raise e => (Crashed e, st)
      | Ok _ =>
          let '(job_id, st1) := audit_start t0 job_kind (dict_merge [("source", PStr "trigger")] payload) st in
          let run := if decide (kind = "trades") then fetch_flex_trades payload else fetch_cash_transactions payload in
          finish_run t1 t2 job_kind job_id run st1
      end
  end.

(** [POST /flex/ingest/upload-xml]. *)
Definition upload_flex_xml (config : res pydict) (t0 t1 t2 : Z) (body : pydict) (st : trail) : answer * trail :=
  let xml_str := strip (py_str (py_or (dict_get "xml" body) (PStr ""))) in
  if decide (xml_str = "") then (Refused 400 "Missing 'xml' field in request body", st)
  else
    match config with
    | Raise e => (Crashed e, st)
    | Ok _ =>
        let '(job_id, st1) :=
          audit_start t0 "flex-trades" [("source", PStr "upload-xml"); ("bytes", PInt (ulen xml_str))] st in
        finish_run t1 t2 "flex-trades" job_id (upload_xml xml_str) st1
    end.
End manual.

(** ** What a manual run leaves behind *)

(** The orchestration's own verdict: it says ok and names no non-blank error. *)
Definition succeeded `{PyRepr} (result : pydict) : Prop :=
  truthy (dict_get "ok" result) = true
  ∧ ∃ raw, iter_values (py_or (dict_get "errors" result) (PList [])) = Ok raw ∧ Forall (λ e, strip (py_str e) = "") raw.

(** No failure. *)
Definition unfailed (failure : option exn) : bool := match failure with None => true | Some _ => false end.

(** The trail of a run of a kind, against the tables before it: its row [jid] if one could be
    inserted, [closed] or left running, and the freshness row, [told] or left alone. *)
Record trail_of (jid : option Z) (closed told : bool) (t0 t1 : Z) (kind : string) (ok : bool) (before after : trail) : Prop := mkTrailOf {
  to_row : ∀ i, jid = Some i →
    ∃ j, q_rows (tr_queue after) !! i = Some j ∧ j_kind j = kind ∧ j_hash j = None ∧ j_attempts j = 1 ∧ j_started j = Some t0
      ∧ if closed then j_status j = (if ok then Done else Failed) ∧ j_finished j = Some t1
        else j_status j = Running ∧ j_finished j = None;
  to_others : ∀ i', jid ≠ Some i' → q_rows (tr_queue after) !! i' = q_rows (tr_queue before) !! i';
  to_fresh : if told then ∃ f, tr_fresh after !! kind = Some f ∧ f_last_ok f = ok ∧ f_last_job_id f = jid
             else tr_fresh after !! kind = tr_fresh before !! kind;
  to_others_fresh : ∀ k, k ≠ kind → tr_fresh after !! k = tr_fresh before !! k
}.

Section trails.
Context `{PyRepr, Orchestrations, Uploads, TrailFaults}.

(** The row [insert_manual_job] adds. *)
Definition manual_row (t i : Z) (kind : string) (payload : pydict) : job :=
  mkJob i kind (dict_merge [("manual", PBool true)] payload) None 0 Running 1 1 None None None t t (Some t) None.

Lemma audit_start_eq t kind payload st :
  start_fault = None → strip kind = kind → kind ≠ "" →
  audit_start t kind payload st
  = (Some (q_next (tr_queue st)),
     mkTrail (mkQueue (<[q_next (tr_queue st) := manual_row t (q_next (tr_queue st)) kind payload]> (q_rows (tr_queue st)))
                (q_next (tr_queue st) + 1)) (tr_fresh st)).
Proof. intros Hf Hs Hne. unfold audit_start, insert_manual_job. rewrite Hf, Hs, decide_False by done. done. Qed.

(** Closing a row that has no index entry afterwards cannot conflict. *)
Lemma update_row_closed q i j f :
  q_rows q !! i = Some j → index_key (f j) = None → update_row q i f = Ok (mkQueue (<[i := f j]> (q_rows q)) (q_next q)).
Proof. intros Hj Hk. unfold update_row. rewrite Hj, Hk. done. Qed.

Lemma record_freshness_lookup kind a tb :
  (∃ f, record_freshness kind a tb !! kind = Some f ∧ f_last_ok f = a_ok a ∧ f_last_job_id f = a_job_id a)
  ∧ ∀ k, k ≠ kind → record_freshness kind a tb !! k = tb !! k.
Proof.
  unfold record_freshness. destruct a as [t ok n nr err jid]; cbn. destruct ok; split.
  - eexists. by rewrite lookup_insert_eq.
  - intros k Hk. by rewrite lookup_insert_ne.
  - rewrite lookup_insert_eq. eexists. split; [done|]. by destruct (tb !! kind).
  - intros k Hk. by rewrite lookup_insert_ne.
Qed.

Lemma errors_blank result errors :
  (∃ raw, iter_values (py_or (dict_get "errors" result) (PList [])) = Ok raw
     ∧ errors = filter (λ s, strip s ≠ "") (py_str <$> raw)) →
  truthy (dict_get "ok" result) && bool_decide (errors = []) = true ↔ succeeded result.
Proof.
  intros (raw & Hraw & ->). unfold succeeded. rewrite andb_true_iff, bool_decide_eq_true, blank_errors. split.
  - intros [? ?]. split; [done|]. by exists raw.
  - intros [? (raw' & Hraw' & ?)]. split; [done|]. congruence.
Qed.

(** Whether a run's outcome reaches the freshness table: a row that was there and could not
    be closed keeps it from being told. *)
Definition outcome_told : bool := unfailed fresh_fault && (negb (unfailed start_fault) || unfailed mark_fault).

(** The number a run's row gets. *)
Definition run_number (st : trail) : option Z := if unfailed start_fault then Some (q_next (tr_queue st)) else None.

(** What closing the row does to the table. *)
Definition closed_queue (t1 : Z) (job_id : option Z) (row : job → job) (q : queue) : queue :=
  match job_id with
  | Some i => match q_rows q !! i with Some j => mkQueue (<[i := row j]> (q_rows q)) (q_next q) | None => q end
  | None => q
  end.

Lemma audit_finish_eq t0 t1 t2 kind job_id payload result st st' :
  (∀ i, job_id = Some i → q_rows (tr_queue st) !! i = Some (manual_row t0 i kind payload)) →
  audit_finish t1 t2 kind job_id result st = Ok st' →
  ∃ ok n error row, (ok = true ↔ succeeded result)
    ∧ (∀ j, j_kind (row j) = j_kind j ∧ j_hash (row j) = j_hash j ∧ j_attempts (row j) = j_attempts j
        ∧ j_started (row j) = j_started j ∧ j_status (row j) = (if ok then Done else Failed) ∧ j_finished (row j) = Some t1)
    ∧ st' = (if bool_decide (job_id = None) || unfailed mark_fault
             then mkTrail (closed_queue t1 job_id row (tr_queue st))
                    (if unfailed fresh_fault then record_freshness kind (mkAttempt t2 ok n None error job_id) (tr_fresh st)
                     else tr_fresh st)
             else st).
Proof.
  intros Hrow. unfold audit_finish. intros (raw & Hraw & Hr)%res_bind_ok. cbn zeta in Hr.
  apply res_bind_ok in Hr as (n & _ & Hst). set (errors := filter _ _) in Hst.
  pose proof (errors_blank result errors ltac:(by exists raw)) as Hok.
  set (ok := truthy (dict_get "ok" result) && bool_decide (errors = [])) in *.
  set (error := if ok then None else _) in Hst.
  exists ok, n, error,
    (if ok then done_row t1 [("inserted", PInt n); ("ok", PBool true); ("result", PDict (summary_of result))]
     else failed_row t1 (default "" error) (Some (category_value (classify_flex_error (default "" error))))).
  split; [done|]. split; [intros j; by destruct ok|].
  assert (Ok (mkTrail (tr_queue st) (tr_fresh st)) = Ok st) as Heta by (by destruct st).
  destruct job_id as [i|]; cbn [bool_decide decide closed_queue orb]; [|injection Hst as <-; by destruct fresh_fault].
  rewrite (bool_decide_eq_false_2 (Some i = None)) by done. cbn [orb].
  rewrite (Hrow i eq_refl). destruct mark_fault as [e|]; cbn [unfailed]; [by injection Hst|].
  unfold mark_done, mark_failed in Hst. destruct ok; rewrite (update_row_closed _ _ _ _ (Hrow i eq_refl)) in Hst by done;
    injection Hst as <-; by destruct fresh_fault.
Qed.

Lemma finish_run_spec t0 t1 t2 kind payload run st d st' :
  strip kind = kind → kind ≠ "" →
  (let '(job_id, st1) := audit_start t0 kind payload st in finish_run t1 t2 kind job_id run st1) = (Reply d, st') →
  ∃ result ok, run = Ok result ∧ d = dict_set "job_id" (from_option PInt PNone (run_number st)) result
    ∧ (ok = true ↔ succeeded result)
    ∧ trail_of (run_number st) (unfailed mark_fault) outcome_told t0 t1 kind ok st st'.
Proof.
  intros Hk Hne. destruct (audit_start t0 kind payload st) as [jid st1] eqn:Hstart.
  assert (jid = run_number st ∧ tr_fresh st1 = tr_fresh st
    ∧ (∀ i, jid = Some i → q_rows (tr_queue st1) !! i = Some (manual_row t0 i kind payload))
    ∧ (∀ i', jid ≠ Some i' → q_rows (tr_queue st1) !! i' = q_rows (tr_queue st) !! i')) as (Hjid & Hfr1 & Hrow & Hoth).
  { unfold run_number. destruct start_fault as [e|] eqn:Hs; cbn [unfailed].
    - unfold audit_start in Hstart. rewrite Hs in Hstart. by injection Hstart as <- <-.
    - rewrite audit_start_eq in Hstart by done. injection Hstart as <- <-. cbn. split_and!; [done..| |].
      + intros i Hi. injection Hi as <-. by rewrite lookup_insert_eq.
      + intros i' Hi'. apply lookup_insert_ne. by intros <-. }
  unfold finish_run. destruct run as [result|e]; [|done].
  destruct (audit_finish _ _ _ _ _ _) as [st2|e] eqn:E; [|done]. intros [= <- <-].
  apply (audit_finish_eq t0 _ _ _ _ payload) in E as (ok & n & error & row & Hok & Hr & ->); [|done].
  exists result, ok. rewrite <-Hjid. split_and!; [done..|].
  destruct (record_freshness_lookup kind (mkAttempt t2 ok n None error jid) (tr_fresh st1)) as [Hf Hof].
  assert (bool_decide (jid = None) = negb (unfailed start_fault)) as ->.
  { rewrite Hjid. unfold run_number. by destruct start_fault. }
  unfold outcome_told. rewrite Hfr1 in *. destruct jid as [i|].
  - assert (unfailed start_fault = true) as -> by (unfold run_number in Hjid; by destruct (unfailed start_fault)).
    cbn [negb orb]. rewrite andb_comm. destruct (Hr (manual_row t0 i kind payload)) as (? & ? & ? & ? & ? & ?).
    destruct (unfailed mark_fault); cbn [andb closed_queue]; [rewrite (Hrow i eq_refl); cbn [tr_queue tr_fresh q_rows]|].
    + split; cbn [tr_queue tr_fresh q_rows].
      * intros i' [= <-]. rewrite lookup_insert_eq. eexists. by split_and!.
      * intros i' Hi'. rewrite lookup_insert_ne by congruence. by apply Hoth.
      * by destruct (unfailed fresh_fault).
      * destruct (unfailed fresh_fault); [exact Hof|done].
    + split; cbn [tr_queue tr_fresh q_rows]; [|exact Hoth|by rewrite Hfr1|intros; by rewrite Hfr1].
      intros i' [= <-]. rewrite (Hrow i eq_refl). eexists. by split_and!.
  - assert (unfailed start_fault = false) as -> by (unfold run_number in Hjid; by destruct (unfailed start_fault)).
    cbn [negb orb closed_queue]. rewrite andb_true_r. split; cbn [tr_queue tr_fresh]; [done|done| |].
    + by destruct (unfailed fresh_fault).
    + destruct (unfailed fresh_fault); [exact Hof|done].
Qed.

Lemma job_kind_inv kind jk :
  job_kind_of kind = Some jk →
  (kind = "trades" ∧ jk = "flex-trades" ∨ kind = "transactions" ∧ jk = "flex-transactions") ∧ strip jk = jk ∧ jk ≠ "".
Proof.
  unfold job_kind_of, KIND_TO_JOB. cbn. repeat case_decide; cbn; intros; simplify_eq; split_and!; auto; done.
Qed.

(** C37. A manual run that answers leaves the trail of a queued job: the answer is the run's own
    summary with the number of a new row of the queue, which is done exactly when the run
    says ok and names no error and failed otherwise; the kind's freshness row tells the same
    outcome and job; no other row of either table has changed. Where writing the trail fails,
    the answer is still the run's: without a row, its number is missing from the answer and
    from the freshness row; a row that could not be closed stays running and the freshness
    row as it was; a freshness row that could not be written stays as it was. *)
Theorem manual_run_trail config t0 t1 t2 body st d st' :
  trigger_flex_fetch config t0 t1 t2 body st = (Reply d, st') →
  ∃ kind payload result ok, fetches kind payload (Ok result)
    ∧ d = dict_set "job_id" (from_option PInt PNone (run_number st)) result
    ∧ (ok = true ↔ succeeded result)
    ∧ trail_of (run_number st) (unfailed mark_fault) outcome_told t0 t1 kind ok st st'.
Proof.
  unfold trigger_flex_fetch, dict_pop. cbn zeta beta iota.
  destruct (job_kind_of _) as [jk|] eqn:Hk; [|done]. apply job_kind_inv in Hk as (Hk & Hstrip & Hne).
  destruct config as [cfg|e]; [|done]. intros Hrun. apply finish_run_spec in Hrun as (result & ok & Hr & -> & Hok & Htr); [|done..].
  eexists jk, _, result, ok. split_and!; try done. unfold fetches.
  destruct Hk as [[Hkind ->]|[Hkind ->]]; rewrite Hkind in Hr; [left|right]; by rewrite <-Hr.
Qed.

(** The same for an uploaded report. *)
Theorem upload_trail config t0 t1 t2 body st d st' :
  upload_flex_xml config t0 t1 t2 body st = (Reply d, st') →
  ∃ xml result ok, xml ≠ "" ∧ upload_xml xml = Ok result
    ∧ d = dict_set "job_id" (from_option PInt PNone (run_number st)) result
    ∧ (ok = true ↔ succeeded result)
    ∧ trail_of (run_number st) (unfailed mark_fault) outcome_told t0 t1 "flex-trades" ok st st'.
Proof.
  unfold upload_flex_xml. cbn zeta. set (xml := strip _). case_decide as Hx; [done|].
  destruct config as [cfg|e]; [|done]. intros Hrun. apply finish_run_spec in Hrun as (result & ok & Hr & -> & Hok & Htr); [|done..].
  by exists xml, result, ok.
Qed.

(** A run that is never finished is not run again. When the fetch raises, the row of the
    run stays running; no worker claims it, and once it is older than the reclaim's limit
    the reclaim closes it as failed rather than queueing it. *)
Theorem crashed_manual_run_closed config t0 t1 t2 body st e st' :
  start_fault = None → (∃ cfg, config = Ok cfg) →
  (∀ payload, fetch_flex_trades payload = Raise e ∧ fetch_cash_transactions payload = Raise e) →
  (trigger_flex_fetch config t0 t1 t2 body st).1 = Crashed e →
  st' = (trigger_flex_fetch config t0 t1 t2 body st).2 →
  let i := q_next (tr_queue st) in
  (∃ j, q_rows (tr_queue st') !! i = Some j ∧ ∀ t, claimable t j = false)
  ∧ ∀ t stale_sec delay, t0 + secs (Z.max 60 stale_sec) < t →
      ∃ j, q_rows (reclaim_stale_running t stale_sec delay (tr_queue st')).2 !! i = Some j ∧ j_status j = Failed.
Proof.
  intros Hs [cfg ->] Hraise Hcrash ->. unfold trigger_flex_fetch, dict_pop in *. cbn zeta beta iota in *.
  destruct (job_kind_of _) as [jk|] eqn:Hk; [|done]. apply job_kind_inv in Hk as (_ & Hstrip & Hne).
  rewrite audit_start_eq in * by done.
  assert (∀ p, (if decide (strip (py_str (default (PStr "trades") (dict_lookup "kind" (default [] body)))) = "trades")
                then fetch_flex_trades p else fetch_cash_transactions p) = Raise e) as Hrun by (intros p; case_decide; apply Hraise).
  rewrite Hrun. cbn [finish_run fst snd tr_queue q_rows].
  split; [rewrite lookup_insert_eq; by eexists|]. intros t stale_sec delay Ht. unfold reclaim_stale_running.
  rewrite update_where_lookup. cbn [q_rows]. rewrite lookup_insert_eq. cbn [fmap option_fmap option_map].
  assert (stale t (Z.max 60 stale_sec) (manual_row t0 (q_next (tr_queue st)) jk
            (dict_merge [("source", PStr "trigger")] (dict_setdefault "fallback" (PBool false)
               (filter (λ kv, kv.1 ≠ "kind") (default [] body))))) = true) as ->.
  { unfold stale. cbn. apply Z.ltb_lt. lia. }
  eexists. split; [done|]. done.
Qed.

(** The two judges of a summary agree: a run a manual job is marked done for is one the
    worker's handlers accept, with the same count. *)
Theorem manual_ok_accepted result label n :
  succeeded result →
  py_int (py_or (dict_get "count" result) (py_or (dict_get "inserted" result) (PInt 0))) = Ok n →
  require_ok result label = Ok [("inserted", PInt n); ("ok", PBool true); ("result", PDict result)].
Proof.
  intros (Hok & raw & Hraw & Hblank) Hn. apply require_ok_Ok. exists n. split; [|done]. split_and!; [|by exists raw|done].
  by destruct (dict_get "ok" result) as [|[]| | | | |].
Qed.
End trails.

(** ** Examples *)

Definition no_trail_faults : TrailFaults := {| start_fault := None; mark_fault := None; fresh_fault := None |}.
Definition three_trades : pydict := [("ok", PBool true); ("count", PInt 3); ("errors", PList [])].
(** Trades arrive, cash is refused. *)
Definition sample_runs : Orchestrations := {|
  fetch_flex_trades := λ _, Ok three_trades;
  fetch_cash_transactions := λ _, Ok [("ok", PBool true); ("errors", PList [PStr "[1018] Too many requests"])]
|}.
Definition broken_runs : Orchestrations := {|
  fetch_flex_trades := λ _, Raise (Exn OtherError "boom"); fetch_cash_transactions := λ _, Raise (Exn OtherError "boom")
|}.
Definition empty_trail : trail := mkTrail two_jobs ∅.

Lemma manual_run_trail_witness :
  ∃ d st', @trigger_flex_fetch sample_repr sample_runs no_trail_faults (Ok []) 100 200 300
             (Some [("kind", PStr "transactions")]) empty_trail = (Reply d, st')
    ∧ ∃ kind ok, trail_of (Some 3) true true 100 200 kind ok empty_trail st'.
Proof.
  destruct (@trigger_flex_fetch sample_repr sample_runs no_trail_faults (Ok []) 100 200 300
             (Some [("kind", PStr "transactions")]) empty_trail) as [a st'] eqn:E.
  destruct a as [d|c s|e]; [|vm_compute in E; discriminate E..]. exists d, st'. split; [reflexivity|].
  destruct (@manual_run_trail sample_repr sample_runs no_trail_faults (Ok []) 100 200 300 _ empty_trail d st'
              E) as (kind & payload & result & ok & _ & _ & _ & Ht).
  exists kind, ok. exact Ht.
Defined.

Lemma upload_trail_witness :
  ∃ d st', @upload_flex_xml sample_repr (λ _, Ok three_trades) no_trail_faults (Ok []) 100 200 300
             [("xml", PStr "<FlexQueryResponse/>")] empty_trail = (Reply d, st')
    ∧ ∃ ok, trail_of (Some 3) true true 100 200 "flex-trades" ok empty_trail st'.
Proof.
  destruct (@upload_flex_xml sample_repr (λ _, Ok three_trades) no_trail_faults (Ok []) 100 200 300
             [("xml", PStr "<FlexQueryResponse/>")] empty_trail) as [a st'] eqn:E.
  destruct a as [d|c s|e]; [|vm_compute in E; discriminate E..]. exists d, st'. split; [reflexivity|].
  destruct (@upload_trail sample_repr (λ _, Ok three_trades) no_trail_faults (Ok []) 100 200 300 _ empty_trail d st'
              E) as (xml & result & ok & _ & _ & _ & _ & Ht).
  exists ok. exact Ht.
Defined.

Lemma crashed_manual_run_closed_witness :
  ∃ st', (∃ j, q_rows (tr_queue st') !! 3 = Some j ∧ ∀ t, claimable t j = false)
    ∧ ∃ j, q_rows (reclaim_stale_running (secs 8000) 7200 600 (tr_queue st')).2 !! 3 = Some j ∧ j_status j = Failed.
Proof.
  destruct (@crashed_manual_run_closed sample_repr broken_runs no_trail_faults (Ok []) 100 200 300 None empty_trail
              (Exn OtherError "boom") _ eq_refl (ex_intro _ [] eq_refl) (λ _, conj eq_refl eq_refl) eq_refl eq_refl)
    as [Hrow Hclosed].
  eexists. split; [exact Hrow|]. apply Hclosed. reflexivity.
Defined.

Lemma manual_ok_accepted_witness :
  @require_ok sample_repr three_trades "flex-trades"
  = Ok [("inserted", PInt 3); ("ok", PBool true); ("result", PDict three_trades)].
Proof.
  apply (@manual_ok_accepted sample_repr three_trades "flex-trades" 3); [|reflexivity].
  split; [reflexivity|]. exists []. split; [reflexivity|constructor].
Defined.
