(* ===== verification/Metrics.v ===== *)
(** * The metrics route ([api/metrics.py])

    A snapshot of the queue, the freshness and heartbeat rows, the plan and the tokens,
    and its text in the exposition format. *)
From Stdlib Require Import Ascii SpecFloat.
From S2P Require Import Prelude Pytext PyVal JobQueue Pytime Cron Schedule Ddl ConfigRw Ingest Coverage HttpMetrics OpsCheck.

Definition JOB_STATUSES : list string := ["pending"; "running"; "done"; "failed"].

(** [dt.timestamp()]: the microseconds divided by a million, rounded once. *)
Definition timestamp (t : Z) : float := SFdiv 53 1024 (float_of_Z t) (float_of_Z 1000000).

(** The value of a sample. *)
Inductive sample := SInt (n : Z) | SFloat (x : float).

(** The fields of a planned slot. *)
Record planned := mkPlanned { pl_slot : string; pl_last : option Z; pl_next : option Z }.

(** What [render_metrics] reads. *)
Record snapshot := mkSnapshot {
  sn_version : string;
  sn_freshness : list (string * freshness);
  sn_last_jobs : list job;
  sn_counts : string → Z;
  sn_planned : list planned;
  sn_data : list (string * option Z);
  sn_coverage : option coverage;
  sn_heartbeat : option heartbeat;
  sn_tokens : list (string * bool);
  sn_token_age_seconds : option Z
}.

Section render.
Context `{FloatRepr}.

Definition sample_text_of (v : sample) : string := match v with SInt n => str_of_Z n | SFloat x => float_repr x end.

(** [_line]; a label's value is escaped as [HttpMetrics.escape] does. *)
Definition line (name : string) (value : sample) (ls : list (string * string)) : string :=
  match ls with
  | [] => name +:+ " " +:+ sample_text_of value
  | _ => name +:+ "{" +:+ labels ls +:+ "} " +:+ sample_text_of value
  end.

Definition head_lines (name kind help : string) : list string :=
  ["# HELP " +:+ name +:+ " " +:+ help; "# TYPE " +:+ name +:+ " " +:+ kind].

(** A line for a value that may be missing. *)
Definition line_if (name : string) (value : option sample) (ls : list (string * string)) : list string :=
  option_list ((λ v, line name v ls) <$> value).

Definition time_sample (t : Z) : sample := SFloat (timestamp t).
Definition bool_sample (b : bool) : sample := SInt (if b then 1 else 0).

Definition freshness_lines (r : string * freshness) : list string :=
  let ls := [("kind", r.1)] in
  line_if "bifrost_flex_ingest_last_success_timestamp_seconds" (time_sample <$> f_latest_ts r.2) ls
  ++ [line "bifrost_flex_ingest_last_attempt_ok" (bool_sample (f_last_ok r.2)) ls]
  ++ line_if "bifrost_flex_ingest_last_processed_rows" (SInt <$> f_processed_rows r.2) ls
  ++ line_if "bifrost_flex_ingest_last_new_rows" (SInt <$> f_new_rows r.2) ls.

Definition status_line (j : job) (st : string) : string :=
  line "bifrost_flex_ingest_last_job_status" (bool_sample (bool_decide (status_text (j_status j) = st)))
    [("kind", j_kind j); ("status", st)].

Definition job_lines (j : job) : list string :=
  (status_line j <$> JOB_STATUSES)
  ++ (let c := default "" (j_category j) in
      if decide (c = "") then []
      else [line "bifrost_flex_ingest_last_job_category" (SInt 1) [("kind", j_kind j); ("category", c)]])
  ++ (if bool_decide (j_status j = Pending)
      then line_if "bifrost_flex_ingest_next_retry_timestamp_seconds" (time_sample <$> j_not_before j) [("kind", j_kind j)]
      else []).

Definition planned_lines (p : planned) : list string :=
  line_if "bifrost_flex_planned_last_timestamp_seconds" (time_sample <$> pl_last p) [("slot", pl_slot p)]
  ++ line_if "bifrost_flex_planned_next_timestamp_seconds" (time_sample <$> pl_next p) [("slot", pl_slot p)].

Definition heartbeat_lines (hb : heartbeat) : list string :=
  head_lines "bifrost_flex_worker_last_seen_timestamp_seconds" "gauge" "When the worker last reported in."
  ++ [line "bifrost_flex_worker_last_seen_timestamp_seconds" (time_sample (hb_seen_at hb)) []]
  ++ head_lines "bifrost_flex_worker_counter" "gauge" "Worker counters since its last start."
  ++ ((λ kv, line "bifrost_flex_worker_counter" (SInt kv.2) [("name", kv.1)]) <$>
      [("jobs_done", hb_done hb); ("jobs_failed", hb_failed hb); ("jobs_retried", hb_retried hb);
       ("catchups", hb_catchups hb); ("db_reconnects", hb_reconnects hb); ("stale_reclaimed", hb_reclaimed hb)]).

Definition coverage_lines (c : coverage) : list string :=
  head_lines "bifrost_flex_coverage_gap_months" "gauge"
    "Closed months with Flex executions but no cash transactions, per account (should be 0)."
  ++ ((λ kv, line "bifrost_flex_coverage_gap_months" (SInt kv.2) [("account", kv.1)]) <$> sorted_items (gap_months_by_account c)).

(** The lines of [render_metrics], in order. *)
Definition metric_lines (s : snapshot) : list string :=
  head_lines "bifrost_flex_plugin_info" "gauge" "Flex Query plugin version."
  ++ [line "bifrost_flex_plugin_info" (SInt 1) [("version", sn_version s)]]
  ++ head_lines "bifrost_flex_ingest_last_success_timestamp_seconds" "gauge" "When this kind last completed a run."
  ++ head_lines "bifrost_flex_ingest_last_attempt_ok" "gauge" "1 if the most recent attempt of this kind succeeded."
  ++ head_lines "bifrost_flex_ingest_last_processed_rows" "gauge" "Rows upserted by the last successful run."
  ++ head_lines "bifrost_flex_ingest_last_new_rows" "gauge" "Rows the last successful run added that did not exist before."
  ++ concat (freshness_lines <$> sn_freshness s)
  ++ head_lines "bifrost_flex_ingest_last_job_status" "gauge" "1 for the status of the newest job of this kind."
  ++ head_lines "bifrost_flex_ingest_last_job_category" "gauge" "1 for the error category of the newest job of this kind."
  ++ head_lines "bifrost_flex_ingest_next_retry_timestamp_seconds" "gauge"
       "When the newest job of this kind may run again (pending with not_before)."
  ++ concat (job_lines <$> sn_last_jobs s)
  ++ head_lines "bifrost_flex_ingest_jobs" "gauge" "Jobs in the queue by status."
  ++ ((λ st, line "bifrost_flex_ingest_jobs" (SInt (sn_counts s st)) [("status", st)]) <$> JOB_STATUSES)
  ++ head_lines "bifrost_flex_planned_last_timestamp_seconds" "gauge" "Most recent planned fire of the slot."
  ++ head_lines "bifrost_flex_planned_next_timestamp_seconds" "gauge" "Next planned fire of the slot."
  ++ concat (planned_lines <$> sn_planned s)
  ++ head_lines "bifrost_flex_data_latest_timestamp_seconds" "gauge" "Newest row timestamp in the landed data."
  ++ concat ((λ kv, line_if "bifrost_flex_data_latest_timestamp_seconds" (time_sample <$> kv.2) [("table", kv.1)]) <$> sn_data s)
  ++ match sn_coverage s with Some c => coverage_lines c | None => [] end
  ++ match sn_heartbeat s with Some hb => heartbeat_lines hb | None => [] end
  ++ head_lines "bifrost_flex_token_configured" "gauge" "1 when a Flex token is present for the side."
  ++ ((λ kv, line "bifrost_flex_token_configured" (bool_sample kv.2) [("side", kv.1)]) <$> sn_tokens s)
  ++ match sn_token_age_seconds s with
     | Some age => head_lines "bifrost_flex_token_age_seconds" "gauge"
                     "Seconds since the Flex tokens were issued (IB expires them after a year)."
                   ++ [line "bifrost_flex_token_age_seconds" (SInt age) []]
     | None => []
     end.

Definition render_metrics (s : snapshot) : string :=
  join (String NEWLINE "") (metric_lines s) +:+ String NEWLINE "".
End render.

(** ** Collecting *)

Section collect.
Context `{PyRepr, ZoneDb, Collation}.

(** [ORDER BY dimension] and [ORDER BY kind, id DESC] with [DISTINCT ON (kind)]. *)
Definition dimension_order (a b : string * freshness) : Prop := collate_le a.1 b.1.
#[export] Instance dimension_order_dec : RelDecision dimension_order.
Proof. intros a b. unfold dimension_order. apply _. Defined.

Definition freshness_rows (fresh : gmap string freshness) : list (string * freshness) :=
  merge_sort dimension_order (map_to_list fresh).

Definition last_jobs (q : queue) : list job :=
  omap (newest_job q) (merge_sort collate_le (remove_dups (j_kind <$> (map_to_list (q_rows q)).*2))).

(** [SELECT status, count( * ) ... GROUP BY status]. *)
Definition status_count (q : queue) (st : string) : Z :=
  Z.of_nat (length (filter (λ j, status_text (j_status j) = st) (map_to_list (q_rows q)).*2)).

(** A table whose read failed is left out. *)
Definition data_row (table : string) (r : res (option Z)) : list (string * option Z) :=
  match r with Ok latest => [(table, latest)] | Raise _ => [] end.

(** One round of the loop over the slots. *)
Definition plan_slot (slots : pydict) (now : Z) (tz : option string) (slot : string) : res (list planned) :=
  scfg ← dict_or_empty (dict_get slot slots);
  let cron := py_str (py_or (dict_get "cron" scfg) (PStr "")) in
  if decide (cron = "") then Ok []
  else
    upcoming ← next_fires cron now 1 14 tz;
    last ← previous_fire cron now 14 tz;
    Ok [mkPlanned slot last (head upcoming)].

Definition collect_metrics (version : string) (schedule : pydict) (e : env) (now t : Z) (st : store) : res snapshot :=
  scheduler_cfg ← dict_or_empty (dict_get "scheduler" schedule);
  let tz := schedule_timezone scheduler_cfg in
  slots ← dict_or_empty (dict_get "slots" scheduler_cfg);
  planned ← fold_res (λ out sk, (λ p, out ++ p) <$> plan_slot slots now tz sk.1) [] SLOT_KIND;
  let '(host_tok, sec_tok, _, _) := resolve_flex_tokens e in
  let '(_, age_days) := flex_tokens_issued_at e now in
  Ok (mkSnapshot version
        (freshness_rows (st_fresh st))
        (last_jobs (st_queue st))
        (status_count (st_queue st))
        planned
        (data_row "executions_raw_flex" (st_exec_time st) ++ data_row "transactions" (st_ts st))
        (match read_coverage (st_coverage st) t (st_executions st) (st_transactions st) with Ok c => Some c | Raise _ => None end)
        (latest_heartbeat (st_hearts st))
        [("host", bool_decide (host_tok ≠ "")); ("secondary", bool_decide (sec_tok ≠ ""))]
        ((λ n, n * 86400) <$> age_days)).

(** [GET /metrics]: the ingest's samples and the request metrics. *)
Definition metrics_route `{FloatRepr} (version : string) (schedule : pydict) (e : env) (now t : Z) (st : store)
    (http : HttpMetrics) : res string :=
  snap ← collect_metrics version schedule e now t st;
  Ok (render_metrics snap +:+ render http).
End collect.

(** ** One sample, one line *)

Lemma join_app sep a b : a ≠ [] → b ≠ [] → join sep (a ++ b) = join sep a +:+ sep +:+ join sep b.
Proof.
  intros Ha Hb. induction a as [|x [|y a] IH]; [done| |].
  - destruct b as [|z b]; [done|]. done.
  - change (join sep ((x :: y :: a) ++ b)) with (x +:+ sep +:+ join sep ((y :: a) ++ b)). rewrite IH by done.
    change (join sep (x :: y :: a)) with (x +:+ sep +:+ join sep (y :: a)). by rewrite !append_assoc.
Qed.

Section lines.
Context `{FloatRepr} (float_line : ∀ x, char_free NEWLINE (float_repr x) = true).

Notation free l := (char_free NEWLINE l = true).
Notation keys_free ls := (Forall (λ kv, free kv.1) ls).

Lemma line_free name v ls : free name → keys_free ls → free (line name v ls).
Proof.
  intros Hn Hl. assert (free (sample_text_of v)) as Hv by (destruct v; [apply str_of_Z_one_line|apply float_line]).
  unfold line. destruct ls; rewrite !char_free_app, Hn, Hv, ?labels_one_line by done; done.
Qed.

Lemma line_if_free name v ls : free name → keys_free ls → Forall (λ l, free l) (line_if name v ls).
Proof. intros Hn Hl. unfold line_if. destruct v; repeat constructor. by apply line_free. Qed.

Lemma head_lines_free name kind help : free name → free kind → free help → Forall (λ l, free l) (head_lines name kind help).
Proof. intros Hn Hk Hh. unfold head_lines. repeat constructor; rewrite !char_free_app, ?Hn, ?Hk, ?Hh; done. Qed.

(** Split a list of lines into its parts and close the constant ones. *)
Ltac free_lines :=
  repeat match goal with
  | |- Forall _ (_ ++ _) => apply Forall_app; split
  | |- Forall _ (concat (_ <$> _)) => apply Forall_concat, Forall_fmap, Forall_forall; intros; cbn [compose]
  | |- Forall _ (_ <$> _) => apply Forall_fmap, Forall_forall; intros; cbn [compose]
  | |- Forall _ (head_lines _ _ _) => by apply head_lines_free
  | |- Forall _ (line_if _ _ _) => apply line_if_free; [done|by repeat constructor]
  | |- Forall _ [_] => constructor; [|constructor]
  | |- Forall _ [] => constructor
  | |- char_free NEWLINE (line _ _ _) = true => apply line_free; [done|by repeat constructor]
  end.

Lemma metric_lines_free s : Forall (λ l, free l) (metric_lines s).
Proof.
  unfold metric_lines. free_lines.
  - unfold freshness_lines. cbn zeta. free_lines.
  - unfold job_lines. free_lines; [unfold status_line; free_lines|cbn zeta; case_decide; free_lines|case_bool_decide; free_lines].
  - unfold planned_lines. free_lines.
  - destruct (sn_coverage s) as [c|]; free_lines. unfold coverage_lines. free_lines.
  - destruct (sn_heartbeat s) as [hb|]; free_lines. unfold heartbeat_lines. free_lines.
  - destruct (sn_token_age_seconds s); free_lines.
Qed.

(** C36. The text Prometheus scrapes cannot be broken by what the tables hold: whatever texts
    stand in kinds, categories, accounts or the version, and whatever the request metrics
    hold, splitting the text at line feeds gives back exactly the rendered lines. *)
Theorem metrics_text_lines s m :
  split_on NEWLINE (render_metrics s +:+ render m) = metric_lines s ++ metrics_lines m ++ [""].
Proof.
  assert (metric_lines s ≠ []) as Hs by (unfold metric_lines, head_lines; done).
  assert (metrics_lines m ≠ []) as Hm by (unfold metrics_lines; done).
  assert (render_metrics s +:+ render m = join (String NEWLINE "") ((metric_lines s ++ metrics_lines m) ++ [""])) as ->.
  { unfold render_metrics, render. rewrite <-app_assoc, !join_app by (try done; by destruct (metrics_lines m)).
    cbn [join]. rewrite append_nil_r. by rewrite !append_assoc. }
  rewrite split_lines; [by rewrite app_assoc|]. apply Forall_app. split; [apply metric_lines_free|by apply metrics_lines_free].
Qed.
End lines.

(** ** What the queue's samples say *)

Section queue_samples.
Context `{PyRepr, ZoneDb, Collation}.

(** Every row has one of the four statuses. *)
Lemma status_count_sum (l : list job) :
  foldr (λ st n, Z.of_nat (length (filter (λ j, status_text (j_status j) = st) l)) + n) 0 JOB_STATUSES
  = Z.of_nat (length l).
Proof.
  induction l as [|j l IH]; [done|]. cbn [length]. unfold JOB_STATUSES in *. cbn [foldr] in *. rewrite !filter_cons.
  destruct (j_status j); cbn [status_text]; repeat (case_decide; try done); cbn [length]; lia.
Qed.

Lemma newest_job_kind q k j : queue_ok q → newest_job q k = Some j → j_kind j = k.
Proof. intros Hok Hj. by apply newest_job_spec in Hj as (_ & Hk & _). Qed.

Lemma last_jobs_spec q :
  queue_ok q →
  (∀ j, j ∈ last_jobs q ↔ newest_job q (j_kind j) = Some j) ∧ NoDup (j_kind <$> last_jobs q).
Proof.
  intros Hok. unfold last_jobs. set (kinds := merge_sort _ _).
  assert (NoDup kinds ∧ ∀ k, k ∈ kinds ↔ ∃ j, q_rows q !! j_id j = Some j ∧ j_kind j = k) as [Hnd Hk].
  { unfold kinds. split.
    - rewrite merge_sort_Permutation. apply NoDup_remove_dups.
    - intros k. rewrite merge_sort_Permutation, elem_of_remove_dups, list_elem_of_fmap.
      setoid_rewrite elem_of_rows; [|done]. naive_solver. }
  clearbody kinds. split.
  - intros j. rewrite list_elem_of_omap. split.
    + intros (k & _ & Hj). by rewrite (newest_job_kind _ _ _ Hok Hj).
    + intros Hj. exists (j_kind j). split; [|done]. apply Hk. apply newest_job_spec in Hj as (? & _); [|done]. eauto.
  - assert (∀ ks, NoDup ks → NoDup (j_kind <$> omap (newest_job q) ks)
                   ∧ ∀ k, k ∈ (j_kind <$> omap (newest_job q) ks) → k ∈ ks) as Hgen; [|by apply Hgen].
    induction ks as [|k ks IH]; intros Hks; [split; [constructor|done]|].
    apply NoDup_cons in Hks as [Hnot Hks]. destruct (IH Hks) as [IH1 IH2]. cbn [omap list_omap].
    destruct (newest_job q k) as [j|] eqn:Hj.
    + apply newest_job_kind in Hj as <-; [|done]. cbn [fmap list_fmap]. split.
      * apply NoDup_cons. split; [|done]. intros Hin. by apply Hnot, IH2.
      * intros k' [->|Hin]%elem_of_cons; [by left|right; by apply IH2].
    + split; [done|]. intros k' Hin. right. by apply IH2.
Qed.

(** What the queue's samples say is true: the four status counts add up to the number of
    jobs in the table, and the jobs the per-kind samples describe are exactly the newest
    job of each kind that has one, each kind once. *)
Theorem collect_metrics_spec version schedule e now t st snap :
  queue_ok (st_queue st) → collect_metrics version schedule e now t st = Ok snap →
  foldr (λ st n, sn_counts snap st + n) 0 JOB_STATUSES = Z.of_nat (size (q_rows (st_queue st)))
  ∧ NoDup (j_kind <$> sn_last_jobs snap)
  ∧ ∀ j, j ∈ sn_last_jobs snap ↔
      q_rows (st_queue st) !! j_id j = Some j
      ∧ ∀ i j', q_rows (st_queue st) !! i = Some j' → j_kind j' = j_kind j → j_id j' ≤ j_id j.
Proof.
  intros Hok. unfold collect_metrics. intros (cfg & _ & Hr)%res_bind_ok. cbn zeta in Hr.
  apply res_bind_ok in Hr as (slots & _ & Hr). apply res_bind_ok in Hr as (ps & _ & Hr).
  unfold resolve_flex_tokens in Hr. destruct (flex_tokens_issued_at e now) as [issued age]. injection Hr as <-.
  cbn [sn_counts sn_last_jobs]. destruct (last_jobs_spec _ Hok) as [Hlast Hnd]. split_and!; [|done|].
  - unfold status_count. rewrite (status_count_sum (map_to_list (q_rows (st_queue st))).*2).
    by rewrite length_fmap, length_map_to_list.
  - intros j. rewrite Hlast, newest_job_spec by done. tauto.
Qed.
End queue_samples.

(** ** At concrete inputs *)

(** A category read from an error message, with a quote and a line feed in it. *)
Definition noisy_snapshot : snapshot :=
  mkSnapshot "1.0" [] [] (λ _, 1) [mkPlanned (String QUOTE (String NEWLINE "slot")) (Some 0) None] [] None None [] (Some 86400).

Lemma metrics_text_lines_witness :
  (∀ x, char_free NEWLINE (sample_float_repr x) = true)
  ∧ split_on NEWLINE (@render_metrics sample_float_repr noisy_snapshot +:+ @render sample_float_repr reset)
    = @metric_lines sample_float_repr noisy_snapshot ++ @metrics_lines sample_float_repr reset ++ [""].
Proof.
  assert (∀ x, char_free NEWLINE (sample_float_repr x) = true) as Hfloat.
  { intros [| | |s m e]; try reflexivity. apply str_of_Z_one_line. }
  split; [exact Hfloat|]. exact (@metrics_text_lines sample_float_repr Hfloat noisy_snapshot reset).
Defined.

Definition two_jobs_store : store := mkStore two_jobs ∅ ∅ [] [] (Ok None) (Ok None) None.

Lemma collect_metrics_spec_witness :
  ∃ snap, @collect_metrics sample_repr sample_zones sample_collation "1.0" [] (mkEnv "a" "" "") 0 0 two_jobs_store = Ok snap
    ∧ sn_counts snap "pending" = 2 ∧ foldr (λ st n, sn_counts snap st + n) 0 JOB_STATUSES = 2
    ∧ ∀ j, j ∈ sn_last_jobs snap → q_rows two_jobs !! j_id j = Some j.
Proof.
  eexists. split; [vm_compute; reflexivity|]. split; [reflexivity|]. split; [reflexivity|].
  match goal with |- ∀ j, j ∈ sn_last_jobs ?snap → _ =>
    destruct (@collect_metrics_spec sample_repr sample_zones sample_collation "1.0" [] (mkEnv "a" "" "") 0 0 two_jobs_store snap
                two_jobs_ok) as (_ & _ & H) end; [vm_compute; reflexivity|].
  intros j Hj. apply H in Hj as [Hj _]. exact Hj.
Defined.
