(* ===== verification/Dashboard.v ===== *)
(** * The dashboard routes ([api/freshness_kpis.py], [api/ingest_dashboard.py])

    The overview's figures and the plan-versus-actual table of the queue, as functions of
    the tables, the schedule and the clock. Ages are kept in microseconds: the code's
    [total_seconds()] is that number over a million, and its whole part is exact for any
    two moments less than 285 years apart. *)
From Stdlib Require Import Ascii.
From S2P Require Import Prelude Pytext PyVal JobQueue Pytime Cron Schedule Ddl Ingest Coverage OpsCheck HttpMetrics Metrics.

(** ** Labels *)

(** [_age_seconds], at the moment its clock reads. *)
Definition age_seconds (now : Z) (ts : option Z) : option Z := (λ ts, Z.max 0 (now - ts)) <$> ts.

(** [int(secs // n)] and [int((secs % m) // n)]. *)
Definition whole (t n : Z) : Z := t / secs n.
Definition rest (t m n : Z) : Z := (t mod secs m) / secs n.

Definition age_label (secs_ : option Z) : string :=
  match secs_ with
  | None => "—"
  | Some t =>
      if t <? secs 60 then str_of_Z (whole t 1) +:+ "s ago"
      else if t <? secs 3600 then str_of_Z (whole t 60) +:+ "m ago"
      else if t <? secs 86400 then
        let h := whole t 3600 in
        let m := rest t 3600 60 in
        if decide (m = 0) then str_of_Z h +:+ "h ago" else str_of_Z h +:+ "h " +:+ str_of_Z m +:+ "m ago"
      else
        let d := whole t 86400 in
        let h := rest t 86400 3600 in
        if decide (h = 0) then str_of_Z d +:+ "d ago" else str_of_Z d +:+ "d " +:+ str_of_Z h +:+ "h ago"
  end.

Definition until_label (secs_ : option Z) : string :=
  match secs_ with
  | None => "—"
  | Some t =>
      if t <=? 0 then "overdue"
      else if t <? secs 3600 then "in " +:+ str_of_Z (whole t 60) +:+ "m"
      else if t <? secs 86400 then
        let h := whole t 3600 in
        let m := rest t 3600 60 in
        if decide (m = 0) then "in " +:+ str_of_Z h +:+ "h" else "in " +:+ str_of_Z h +:+ "h " +:+ str_of_Z m +:+ "m"
      else
        let d := whole t 86400 in
        let h := rest t 86400 3600 in
        if decide (h = 0) then "in " +:+ str_of_Z d +:+ "d" else "in " +:+ str_of_Z d +:+ "d " +:+ str_of_Z h +:+ "h"
  end.

(** ** [GET /flex/dashboard/freshness-kpis] *)

(** A moment with its age. *)
Record aged := mkAged { ag_at : option string; ag_age_seconds : option Z; ag_age_label : string }.

Record last_run := mkLastRun {
  lr_moment : aged;
  lr_status : option job_status;
  lr_kind : option string;
  lr_error : option string;
  lr_error_category : option string;
  lr_next_retry_at : option string
}.

Record dimension := mkDimension {
  dm_kind : string;
  dm_last_success_at : option string;
  dm_last_ok : bool;
  dm_last_error : option string;
  dm_processed_rows : option Z;
  dm_new_rows : option Z;
  dm_last_job_id : option Z;
  dm_last_finished_at : option string
}.

Record next_run := mkNextRun {
  nr_at : option string;
  nr_until_seconds : option Z;
  nr_until_label : string;
  nr_slot : option string
}.

Record kpis := mkKpis {
  kp_generated_at : option string;
  kp_last_successful_sync : aged;
  kp_last_run : last_run;
  kp_dimensions : list dimension;
  kp_timezone : string;
  kp_latest_execution : aged * option Z;
  kp_latest_transaction : aged * option Z;
  kp_next_scheduled_run : next_run;
  kp_last_planned : aged
}.

Definition newer (a b : Z) : bool := b <? a.
Definition sooner (a b : Z * string) : bool := a.1 <? b.1.

(** [SELECT max(finished_at) ... WHERE status = 'done']. *)
Definition last_finished (q : queue) : option Z :=
  min_by newer (omap (λ j, if decide (j_status j = Done) then j_finished j else None) (map_to_list (q_rows q)).*2).

(** The loop over the freshness rows, and the job table when no kind ever succeeded. *)
Definition last_success (rows : list (string * freshness)) (q : queue) : option Z :=
  match fold_left (keep_first newer) ((λ r, f_latest_ts r.2) <$> rows) None with
  | Some t => Some t
  | None => last_finished q
  end.

(** [ORDER BY id DESC LIMIT 1]. *)
Definition newest (q : queue) : option job := min_by (λ a b, j_id b <? j_id a) (map_to_list (q_rows q)).*2.

(** [finished_at or started_at or created_at]. *)
Definition run_moment (j : job) : Z :=
  match j_finished j, j_started j with Some t, _ => t | None, Some t => t | None, None => j_created j end.

Definition dimension_of (r : string * freshness) : dimension :=
  mkDimension r.1 (iso_z (f_latest_ts r.2)) (f_last_ok r.2) (f_last_error r.2) (f_processed_rows r.2)
    (f_new_rows r.2) (f_last_job_id r.2) (iso_z (Some (f_last_finished_at r.2))).

(** A table's [max(ts)] and [count( * )]; a failed read leaves both unknown. *)
Definition table_figures (r : res (option Z * Z)) : option Z * option Z :=
  match r with Ok (ts, n) => (ts, Some n) | Raise _ => (None, None) end.

Definition aged_at (now : Z) (t : option Z) : aged :=
  mkAged (iso_z t) (age_seconds now t) (age_label (age_seconds now t)).

Section kpis.
Context `{PyRepr, ZoneDb, Collation}.

(** A slot with an empty cron text has no plan. *)
Definition upcoming_of (slots : pydict) (now : Z) (tz : option string) (slot : string) : res (option (Z * string)) :=
  cron ← slot_cron slots slot;
  if decide (cron = "") then Ok None
  else (λ l, (λ t, (t, slot)) <$> head l) <$> next_fires cron now 1 14 tz.

Definition planned_of (slots : pydict) (now : Z) (tz : option string) (slot : string) : res (option Z) :=
  cron ← slot_cron slots slot;
  if decide (cron = "") then Ok None else previous_fire cron now 14 tz.

(** The two loops over the slots. *)
Definition next_run_of (slots : pydict) (now : Z) (tz : option string) : res (option (Z * string)) :=
  fold_res (λ acc sk, keep_first sooner acc <$> upcoming_of slots now tz sk.1) None SLOT_KIND.
Definition last_planned_of (slots : pydict) (now : Z) (tz : option string) : res (option Z) :=
  fold_res (λ acc sk, keep_first newer acc <$> planned_of slots now tz sk.1) None SLOT_KIND.

Definition job_error_of (j : job) : option string :=
  let e := match j_result j with Some d => dict_get "error" d | None => PNone end in
  if truthy e then Some (utake 500 (py_str e)) else None.

Definition last_run_of (clock : Z) (j : option job) : last_run :=
  mkLastRun (aged_at clock (run_moment <$> j)) (j_status <$> j) (j_kind <$> j) (j ≫= job_error_of) (j ≫= j_category)
    (iso_z (j ≫= λ j, if decide (j_status j = Pending) then j_not_before j else None)).

Definition next_run_at (now : Z) (next : option (Z * string)) : next_run :=
  let until := (λ n, n.1 - now) <$> next in
  mkNextRun (iso_z (fst <$> next)) until (until_label until) (snd <$> next).

(** [freshness_kpis]: [now] is read at its start, [clock] by each [_age_seconds]. *)
Definition freshness_kpis (schedule : pydict) (now : Z) (clock : nat → Z) (fresh : gmap string freshness) (q : queue)
    (executions transactions : res (option Z * Z)) : res kpis :=
  let rows := freshness_rows fresh in
  let '(latest_exec_ts, exec_row_count) := table_figures executions in
  let '(latest_txn_ts, txn_row_count) := table_figures transactions in
  scheduler_cfg ← dict_or_empty (dict_get "scheduler" schedule);
  let tz := schedule_timezone scheduler_cfg in
  slots ← dict_or_empty (dict_get "slots" scheduler_cfg);
  next ← next_run_of slots now tz;
  planned ← last_planned_of slots now tz;
  Ok (mkKpis (iso_z (Some now))
        (aged_at (clock 0%nat) (last_success rows q))
        (last_run_of (clock 1%nat) (newest q))
        (dimension_of <$> rows)
        (default "UTC" tz)
        (aged_at (clock 2%nat) latest_exec_ts, exec_row_count)
        (aged_at (clock 3%nat) latest_txn_ts, txn_row_count)
        (next_run_at now next)
        (mkAged (iso_z planned) (age_seconds (clock 4%nat) planned) (age_label (age_seconds (clock 5%nat) planned)))).
End kpis.

(** ** [GET /flex/ingest/queue-dashboard] *)

Inductive adherence := OnPlan | NoData | Late.
#[export] Instance adherence_eq_dec : EqDecision adherence.
Proof. solve_decision. Defined.

Definition adherence_text (a : adherence) : string :=
  match a with OnPlan => "on_plan" | NoData => "no_data" | Late => "late" end.

(** The columns of the newest job of a kind. *)
Record last_job := mkLastJob {
  lj_id : Z;
  lj_status : job_status;
  lj_attempts : Z;
  lj_max_attempts : Z;
  lj_error_category : option string;
  lj_not_before : option string;
  lj_created_at : Z;
  lj_started_at : option Z;
  lj_finished_at : option Z;
  lj_result : option pydict
}.

Definition last_job_of (j : job) : last_job :=
  mkLastJob (j_id j) (j_status j) (j_attempts j) (j_max_attempts j) (j_category j) (iso_z (j_not_before j))
    (j_created j) (j_started j) (j_finished j) (j_result j).

Record plan := mkPlan {
  pn_slot : string;
  pn_kind : string;
  pn_cron : string;
  pn_timezone : string;
  pn_max_attempts : pyval;
  pn_last_planned_at : option string;
  pn_next_fires : list (option string);
  pn_last_job : option last_job;
  pn_pending : Z;
  pn_next_retry_at : option string;
  pn_late : bool;
  pn_adherence : adherence
}.

Record queue_board := mkBoard {
  qb_now : option string;
  qb_timezone : string;
  qb_counts : list (string * Z);
  qb_slots : list plan
}.

Definition adherence_of (now : Z) (last_planned : option Z) (last : option job) : adherence :=
  match last_planned with
  | None => OnPlan
  | Some planned =>
      if planned + secs 7200 <? now then
        match last with
        | None => NoData
        | Some j => if j_created j <? planned then Late else OnPlan
        end
      else OnPlan
  end.

(** [SELECT count( * ), min(not_before) ... WHERE kind = %s AND status = 'pending']. *)
Definition pending_of (q : queue) (kind : string) : list job :=
  filter (λ j, j_kind j = kind ∧ j_status j = Pending) (map_to_list (q_rows q)).*2.
Definition next_retry_of (q : queue) (kind : string) : option Z := min_by Z.ltb (omap j_not_before (pending_of q kind)).

(** The statuses with their numbers, all four of them. *)
Definition status_counts (q : queue) : list (string * Z) := (λ st, (st, status_count q st)) <$> JOB_STATUSES.

Section queue_dashboard.
Context `{PyRepr, ZoneDb}.

(** One round of the loop over the slots. *)
Definition plan_of (slots : pydict) (now : Z) (tz : option string) (q : queue) (sk : string * string) : res plan :=
  let '(slot_name, kind) := sk in
  scfg ← dict_or_empty (dict_get slot_name slots);
  let cron := py_str (py_or (dict_get "cron" scfg) (PStr "")) in
  last_planned ← (if decide (cron = "") then Ok None else previous_fire cron now 14 tz);
  upcoming ← (if decide (cron = "") then Ok [] else next_fires cron now 3 14 tz);
  let last := newest_job q kind in
  let adherence := adherence_of now last_planned last in
  Ok (mkPlan slot_name kind cron (default "UTC" tz) (dict_get "max_attempts" scfg) (iso_z last_planned)
        ((λ t, iso_z (Some t)) <$> upcoming) (last_job_of <$> last)
        (Z.of_nat (length (pending_of q kind))) (iso_z (next_retry_of q kind))
        (bool_decide (adherence = Late)) adherence).

Definition queue_dashboard (schedule : pydict) (now : Z) (q : queue) : res queue_board :=
  scheduler_cfg ← dict_or_empty (dict_get "scheduler" schedule);
  let tz := schedule_timezone scheduler_cfg in
  slots ← dict_or_empty (dict_get "slots" scheduler_cfg);
  plans ← fold_res (λ out sk, (λ p, out ++ [p]) <$> plan_of slots now tz q sk) [] SLOT_KIND;
  Ok (mkBoard (iso_z (Some now)) (default "UTC" tz) (status_counts q) plans).
End queue_dashboard.

(** ** Labels read back *)

(** The seconds a label speaks of: numbers with a unit behind them, added up; any other
    character is passed over. *)
Fixpoint read_units (s : string) (total cur : Z) : Z :=
  match s with
  | "" => total
  | String c s' =>
      if is_digit c then read_units s' total (cur * 10 + digit_val c)
      else if decide (c = "s"%char) then read_units s' (total + cur) 0
      else if decide (c = "m"%char) then read_units s' (total + cur * 60) 0
      else if decide (c = "h"%char) then read_units s' (total + cur * 3600) 0
      else if decide (c = "d"%char) then read_units s' (total + cur * 86400) 0
      else read_units s' total cur
  end.
Definition read_label (s : string) : Z := read_units s 0 0.

Lemma read_units_digits s r total cur b v :
  str_forallb is_digit s = true → int_digits cur b s = Some v → read_units (s +:+ r) total cur = read_units r total v.
Proof.
  revert cur b. induction s as [|c s IH]; intros cur b Hd Hv; cbn [int_digits] in Hv.
  - destruct b; by simplify_eq.
  - cbn [str_forallb] in Hd. apply andb_true_iff in Hd as [Hc Hd].
    rewrite append_cons. cbn [read_units]. rewrite Hc in Hv |- *. by eapply IH.
Qed.

Lemma read_units_number n r total : 0 ≤ n → read_units (str_of_Z n +:+ r) total 0 = read_units r total n.
Proof. intros Hn. destruct (str_of_nonneg n Hn) as (Hd & _ & Hv). by eapply read_units_digits. Qed.

(** How coarse a label is. *)
Definition age_unit (t : Z) : Z := if t <? secs 60 then 1 else if t <? secs 86400 then 60 else 3600.
Definition until_unit (t : Z) : Z := if t <? secs 86400 then 60 else 3600.

Lemma read_unit c u r total cur :
  (c, u) ∈ [("s"%char, 1); ("m"%char, 60); ("h"%char, 3600); ("d"%char, 86400)] →
  read_units (String c r) total cur = read_units r (total + cur * u) 0.
Proof.
  rewrite !elem_of_cons. intros [[= -> ->]|[[= -> ->]|[[= -> ->]|[[= -> ->]|H]]]]; [..|set_solver];
    cbn [read_units]; try done. by rewrite Z.mul_1_r.
Qed.

Lemma read_skip c r total cur : c ∈ [" "%char; "i"%char; "n"%char; "a"%char; "g"%char; "o"%char] →
  read_units (String c r) total cur = read_units r total cur.
Proof. rewrite !elem_of_cons. intros [->|[->|[->|[->|[->|[->|H]]]]]]; [done..|set_solver]. Qed.

(** Go over a label that is a concatenation of numbers, units and other text. *)
Ltac read_all :=
  unfold read_label; rewrite ?append_assoc, ?append_cons;
  repeat first
    [ rewrite read_units_number by (unfold whole, rest, secs; apply Z.div_pos; [try apply Z.mod_pos_bound; lia|lia]);
      rewrite ?append_cons
    | erewrite read_unit by (rewrite !elem_of_cons; auto)
    | rewrite read_skip by (rewrite !elem_of_cons; auto 8)
    | progress change ("" +:+ ?s) with s ];
  cbn [read_units].

(** What the labels say, read back, is the age (or the time left) rounded down: to a
    second below a minute, to a minute below a day, to an hour from then on. *)
Theorem labels_read_back t :
  0 ≤ t →
  secs (read_label (age_label (Some t))) ≤ t < secs (read_label (age_label (Some t)) + age_unit t)
  ∧ (0 < t → secs (read_label (until_label (Some t))) ≤ t < secs (read_label (until_label (Some t)) + until_unit t)).
Proof.
  intros Ht. split.
  - unfold age_label, age_unit.
    destruct (t <? secs 60) eqn:E1; [|destruct (t <? secs 3600) eqn:E2; [|destruct (t <? secs 86400) eqn:E3]];
      repeat case_decide; read_all; bool_hyps; unfold rest, whole, secs in *;
      rewrite ?(proj2 (Z.ltb_lt t (86400 * 1000000))) by lia; Z.to_euclidean_division_equations; lia.
  - intros Hpos. unfold until_label, until_unit. rewrite (proj2 (Z.leb_gt t 0)) by done.
    destruct (t <? secs 3600) eqn:E2; [|destruct (t <? secs 86400) eqn:E3];
      repeat case_decide; read_all; bool_hyps; unfold rest, whole, secs in *;
      rewrite ?(proj2 (Z.ltb_lt t (86400 * 1000000))) by lia; Z.to_euclidean_division_equations; lia.
Qed.

(** ** What the figures mean *)

(** The latest of the moments a predicate holds of. *)
Definition latest (P : Z → Prop) (t : Z) : Prop := P t ∧ ∀ t', P t' → t' ≤ t.

(** A kind succeeded at [t]; a job ended well at [t]. *)
Definition succeeded_at (fresh : gmap string freshness) (t : Z) : Prop :=
  ∃ kind f, fresh !! kind = Some f ∧ f_latest_ts f = Some t.
Definition done_at_time (q : queue) (t : Z) : Prop :=
  ∃ i j, q_rows q !! i = Some j ∧ j_status j = Done ∧ j_finished j = Some t.

(** One of the slots is planned to fire at [t]. *)
Definition slot_fires `{PyRepr, ZoneDb} (slots : pydict) (tz : option string) (slot : string) (t : Z) : Prop :=
  slot ∈ SLOT_NAMES ∧ ∃ cron c, slot_cron slots slot = Ok cron ∧ cron ≠ "" ∧ parse_cron cron = Ok c ∧ fires_at c tz t.

Section slot_fires.
Context `{PyRepr, ZoneDb}.

Lemma slot_fires_iff slots tz slot cron c t :
  slot ∈ SLOT_NAMES → slot_cron slots slot = Ok cron → cron ≠ "" → parse_cron cron = Ok c →
  slot_fires slots tz slot t ↔ fires_at c tz t.
Proof.
  intros Hslot Hcron Hne Hp. split.
  - intros (_ & cron' & c' & Hc & _ & Hp' & Hf). rewrite Hcron in Hc. simplify_eq. rewrite Hp in Hp'. by simplify_eq.
  - intros Hf. split; [done|]. by exists cron, c.
Qed.

Lemma slot_fires_blank slots tz slot t : slot_cron slots slot = Ok "" → ¬ slot_fires slots tz slot t.
Proof. intros Hcron (_ & cron & c & Hc & Hne & _). rewrite Hcron in Hc. by simplify_eq. Qed.
End slot_fires.

Lemma newer_key x y : newer x y = true ↔ - x < - y.
Proof. unfold newer. rewrite Z.ltb_lt. lia. Qed.
Lemma sooner_key x y : sooner x y = true ↔ x.1 < y.1.
Proof. apply Z.ltb_lt. Qed.

Lemma latest_unique P s t : latest P s → latest P t → s = t.
Proof. intros [Hs Hls] [Ht Hlt]. apply Z.le_antisymm; auto. Qed.

Lemma latest_iff (P Q : Z → Prop) t : (∀ s, P s ↔ Q s) → latest P t ↔ latest Q t.
Proof. unfold latest. naive_solver. Qed.

Lemma min_by_newer l t : min_by newer l = Some t ↔ latest (λ t, t ∈ l) t.
Proof.
  assert (∀ s, min_by newer l = Some s → latest (λ t, t ∈ l) s) as Hmin.
  { intros s Hs. split; [by eapply min_by_elem|]. intros t' Ht'. by apply (min_by_max_key id l). }
  split; [apply Hmin|]. intros Hl. destruct (min_by newer l) as [s|] eqn:Hs.
  - f_equal. by eapply latest_unique; [apply Hmin|].
  - apply min_by_None in Hs as ->. destruct Hl as [Hl _]. by apply not_elem_of_nil in Hl.
Qed.

Lemma elem_of_freshness_rows `{Collation} fresh kind f :
  (kind, f) ∈ freshness_rows fresh ↔ fresh !! kind = Some f.
Proof. unfold freshness_rows. by rewrite merge_sort_Permutation, elem_of_map_to_list. Qed.

(** The newest of the successes, when there is one. *)
Lemma keep_newer_spec l r :
  fold_left (keep_first newer) l None = r →
  match r with Some t => latest (λ t, Some t ∈ l) t | None => ∀ t, Some t ∉ l end.
Proof.
  intros <-. pose proof (keep_first_fold newer Z.opp l None newer_key) as H. destruct (fold_left _ l None) as [t|].
  - destruct H as [[?|Hin] Hle]; [done|]. split; [done|]. intros t' Ht'. specialize (Hle t' (or_intror Ht')). lia.
  - destruct H as [_ H]. intros t Ht%H. done.
Qed.

Lemma last_success_spec `{Collation} fresh q t :
  queue_ok q →
  last_success (freshness_rows fresh) q = Some t ↔
  latest (succeeded_at fresh) t ∨ (∀ t', ¬ succeeded_at fresh t') ∧ latest (done_at_time q) t.
Proof.
  intros Hok. unfold last_success.
  assert (∀ t, Some t ∈ ((λ r : string * freshness, f_latest_ts r.2) <$> freshness_rows fresh) ↔ succeeded_at fresh t) as Hin.
  { intros t'. rewrite list_elem_of_fmap. unfold succeeded_at. split.
    - intros ([kind f] & Ht & Hr%elem_of_freshness_rows). by exists kind, f.
    - intros (kind & f & Hr%elem_of_freshness_rows & Ht). by exists (kind, f). }
  assert (∀ t, t ∈ omap (λ j, if decide (j_status j = Done) then j_finished j else None) (map_to_list (q_rows q)).*2
            ↔ done_at_time q t) as Hdone.
  { intros t'. rewrite list_elem_of_omap. unfold done_at_time. split.
    - intros (j & Hj%elem_of_rows & E); [|done]. case_decide; [|done]. by exists (j_id j), j.
    - intros (i & j & Hj & Hs & Hf). exists j. split; [|by rewrite decide_True].
      rewrite elem_of_rows by done. by rewrite (ok_id _ Hok _ _ Hj). }
  destruct (fold_left _ _ None) as [s|] eqn:Hs; apply keep_newer_spec in Hs.
  - assert (latest (succeeded_at fresh) s) as Hl.
    { destruct Hs as [Hs Hm]. split; [by apply Hin|]. intros t' Ht'. by apply Hm, Hin. }
    split; [by intros [= <-]; left|]. intros [Ht|[Hno _]]; [|by destruct (Hno s), Hl].
    f_equal. by eapply latest_unique.
  - assert (∀ t', ¬ succeeded_at fresh t') as Hno by (intros t' Ht'; by apply (Hs t'), Hin).
    unfold last_finished. rewrite min_by_newer, (latest_iff _ _ _ Hdone). split; [by right|].
    intros [[Ht _]|[_ Hl]]; [by destruct (Hno t)|done].
Qed.

Lemma newest_spec q j :
  queue_ok q →
  newest q = Some j ↔ q_rows q !! j_id j = Some j ∧ ∀ i j', q_rows q !! i = Some j' → j_id j' ≤ j_id j.
Proof.
  intros Hok. unfold newest. rewrite (newest_row_spec _ (λ _, True) _ _ Hok); [naive_solver|].
  intros a. rewrite elem_of_rows by done. tauto.
Qed.

Section slots.
Context `{PyRepr, ZoneDb}.
Implicit Types slots : pydict.

(** What one round of either loop finds. *)
Lemma upcoming_of_spec slots now tz slot r :
  slot ∈ SLOT_NAMES → upcoming_of slots now tz slot = Ok r →
  match r with
  | Some (t, s) => s = slot ∧ slot_fires slots tz slot t ∧ now + MINUTE ≤ t < now + 14 * day_usec
                   ∧ ∀ t', slot_fires slots tz slot t' → now + MINUTE ≤ t' → t ≤ t'
  | None => ∀ t', slot_fires slots tz slot t' → now + MINUTE ≤ t' → now + 14 * day_usec ≤ t'
  end.
Proof.
  intros Hslot. unfold upcoming_of. intros (cron & Hcron & Hr)%res_bind_ok.
  destruct (decide (cron = "")) as [->|Hne]; [injection Hr as <-; intros t' Hf; by destruct (slot_fires_blank _ tz _ t' Hcron)|].
  apply res_fmap_ok in Hr as (l & (c & Hp & Hl)%next_fires_head & <-); [|done].
  pose proof (λ t, slot_fires_iff slots tz slot cron c t Hslot Hcron Hne Hp) as Hf.
  destruct (head l) as [t|]; cbn [fmap option_fmap option_map]; setoid_rewrite Hf; [|done].
  destruct Hl as (Hl & Ht & Hmin). done.
Qed.

Lemma planned_of_spec slots now tz slot r :
  slot ∈ SLOT_NAMES → planned_of slots now tz slot = Ok r →
  match r with
  | Some t => slot_fires slots tz slot t ∧ now - 14 * day_usec ≤ t < now
              ∧ ∀ t', slot_fires slots tz slot t' → t' < now → t' ≤ t
  | None => ∀ t', slot_fires slots tz slot t' → t' < now → t' < now - 14 * day_usec
  end.
Proof.
  intros Hslot. unfold planned_of. intros (cron & Hcron & Hr)%res_bind_ok.
  destruct (decide (cron = "")) as [->|Hne]; [injection Hr as <-; intros t' Hf; by destruct (slot_fires_blank _ tz _ t' Hcron)|].
  apply previous_fire_inv in Hr as (c & Hp & Hr).
  pose proof (λ t, slot_fires_iff slots tz slot cron c t Hslot Hcron Hne Hp) as Hf.
  destruct r as [t|]; setoid_rewrite Hf; [|done]. destruct Hr as ((Hft & Ht & Hmax) & Hlo). by split_and!.
Qed.

(** Every slot has its round, every result comes from one. *)
Lemma rounds_elem {B} (f : string → res B) bs :
  Forall2 (λ sk b, f sk.1 = Ok b) SLOT_KIND bs →
  (∀ slot, slot ∈ SLOT_NAMES → ∃ b, b ∈ bs ∧ f slot = Ok b)
  ∧ ∀ b, b ∈ bs → ∃ slot, slot ∈ SLOT_NAMES ∧ f slot = Ok b.
Proof.
  intros Hbs. split.
  - intros slot Hslot. assert (∃ sk, sk ∈ SLOT_KIND ∧ sk.1 = slot) as (sk & Hsk & <-).
    { change SLOT_NAMES with SLOT_KIND.*1 in Hslot. apply list_elem_of_fmap in Hslot as (sk & -> & Hsk). by exists sk. }
    apply list_elem_of_lookup_1 in Hsk as [n Hn]. destruct (Forall2_lookup_l _ _ _ _ _ Hbs Hn) as (b & Hb & E).
    exists b. split; [|done]. by eapply list_elem_of_lookup_2.
  - intros b [n Hn]%list_elem_of_lookup_1. destruct (Forall2_lookup_r _ _ _ _ _ Hbs Hn) as (sk & Hsk & E).
    exists sk.1. split; [|done]. change SLOT_NAMES with SLOT_KIND.*1. apply list_elem_of_fmap_2.
    by eapply list_elem_of_lookup_2.
Qed.

(** The earliest fire of any slot from one minute on, within the two weeks looked at. *)
Definition earliest_run slots tz now (r : option (Z * string)) : Prop :=
  match r with
  | Some (t, slot) => slot_fires slots tz slot t ∧ now + MINUTE ≤ t < now + 14 * day_usec
                      ∧ ∀ slot' t', slot_fires slots tz slot' t' → now + MINUTE ≤ t' → t ≤ t'
  | None => ∀ slot' t', slot_fires slots tz slot' t' → now + MINUTE ≤ t' → now + 14 * day_usec ≤ t'
  end.

(** The latest fire of any slot before now, within the two weeks looked at. *)
Definition latest_run slots tz now (r : option Z) : Prop :=
  match r with
  | Some t => (∃ slot, slot_fires slots tz slot t) ∧ now - 14 * day_usec ≤ t < now
              ∧ ∀ slot' t', slot_fires slots tz slot' t' → t' < now → t' ≤ t
  | None => ∀ slot' t', slot_fires slots tz slot' t' → t' < now → t' < now - 14 * day_usec
  end.

Lemma next_run_of_spec slots now tz r : next_run_of slots now tz = Ok r → earliest_run slots tz now r.
Proof.
  unfold next_run_of, earliest_run. intros (bs & [Hall Hsome]%rounds_elem & ->)%(fold_res_step (λ sk : string * string, upcoming_of slots now tz sk.1)).
  pose proof (keep_first_fold sooner fst bs None sooner_key) as Hbest. destruct (fold_left _ bs None) as [[t slot]|].
  - destruct Hbest as [[?|Hin] Hle]; [done|]. destruct (Hsome _ Hin) as (s & Hs & Hu).
    apply upcoming_of_spec in Hu as (-> & Hf & Ht & _); [|done]. split_and!; [done|lia|lia|]. intros slot' t' Hf' Ht'.
    pose proof Hf' as [Hs' _]. destruct (Hall _ Hs') as (b & Hb & Hu). apply upcoming_of_spec in Hu; [|done].
    destruct b as [[t'' s'']|].
    + destruct Hu as (_ & _ & _ & Hmin). specialize (Hmin _ Hf' Ht'). specialize (Hle _ (or_intror Hb)). cbn in Hle. lia.
    + specialize (Hu _ Hf' Ht'). lia.
  - destruct Hbest as [_ Hnone]. intros slot' t' Hf' Ht'. pose proof Hf' as [Hs' _]. destruct (Hall _ Hs') as (b & Hb & Hu).
    rewrite (Hnone _ Hb) in Hu. apply upcoming_of_spec in Hu; [|done]. by apply Hu.
Qed.

Lemma last_planned_of_spec slots now tz r : last_planned_of slots now tz = Ok r → latest_run slots tz now r.
Proof.
  unfold last_planned_of, latest_run. intros (bs & [Hall Hsome]%rounds_elem & ->)%(fold_res_step (λ sk : string * string, planned_of slots now tz sk.1)).
  pose proof (keep_newer_spec bs _ eq_refl) as Hbest. destruct (fold_left _ bs None) as [t|].
  - destruct Hbest as [Hin Hmax]. destruct (Hsome _ Hin) as (s & Hs & Hp).
    apply planned_of_spec in Hp as (Hf & Ht & _); [|done]. split_and!; [by exists s|lia|lia|]. intros slot' t' Hf' Ht'.
    pose proof Hf' as [Hs' _]. destruct (Hall _ Hs') as (b & Hb & Hp). apply planned_of_spec in Hp; [|done].
    destruct b as [t''|].
    + destruct Hp as (_ & _ & Hle). specialize (Hle _ Hf' Ht'). specialize (Hmax _ Hb). lia.
    + specialize (Hp _ Hf' Ht'). lia.
  - intros slot' t' Hf' Ht'. pose proof Hf' as [Hs' _]. destruct (Hall _ Hs') as (b & Hb & Hp).
    destruct b as [t''|]; [by destruct (Hbest t'')|]. apply planned_of_spec in Hp; [|done]. by apply Hp.
Qed.
End slots.

Lemma not_overdue now next : (∀ n, next = Some n → now < n.1) → nr_until_label (next_run_at now next) ≠ "overdue".
Proof.
  intros Hnext. unfold next_run_at. cbn [nr_until_label]. destruct next as [n|]; cbn [fmap option_fmap option_map until_label]; [|done].
  specialize (Hnext n eq_refl). rewrite (proj2 (Z.leb_gt (n.1 - now) 0)) by lia. repeat case_match; by rewrite ?append_cons.
Qed.

(** ** Theorems *)

Section theorems.
Context `{PyRepr, ZoneDb, Collation}.

(** C33. What the overview shows is what the tables and the plan say: the last success is the
    newest success of any kind, or the newest done job when no kind ever recorded one;
    the last run is the job with the highest id, whatever it did; the next run is the
    earliest planned fire of any slot at least a minute away, so it is never shown as
    overdue; the last planned moment is the latest fire that has passed. *)
Theorem freshness_kpis_spec schedule now clock fresh q executions transactions k :
  queue_ok q → freshness_kpis schedule now clock fresh q executions transactions = Ok k →
  ∃ cfg slots success run next planned,
    dict_or_empty (dict_get "scheduler" schedule) = Ok cfg ∧ dict_or_empty (dict_get "slots" cfg) = Ok slots
    ∧ kp_last_successful_sync k = aged_at (clock 0%nat) success
    ∧ (∀ t, success = Some t ↔ latest (succeeded_at fresh) t
                               ∨ (∀ t', ¬ succeeded_at fresh t') ∧ latest (done_at_time q) t)
    ∧ kp_last_run k = last_run_of (clock 1%nat) run
    ∧ (∀ j, run = Some j ↔ q_rows q !! j_id j = Some j ∧ ∀ i j', q_rows q !! i = Some j' → j_id j' ≤ j_id j)
    ∧ kp_next_scheduled_run k = next_run_at now next ∧ earliest_run slots (schedule_timezone cfg) now next
    ∧ nr_until_label (kp_next_scheduled_run k) ≠ "overdue"
    ∧ ag_at (kp_last_planned k) = iso_z planned ∧ latest_run slots (schedule_timezone cfg) now planned.
Proof.
  intros Hok. unfold freshness_kpis. destruct (table_figures executions), (table_figures transactions).
  intros (cfg & Hcfg & Hr)%res_bind_ok. cbn zeta in Hr. apply res_bind_ok in Hr as (slots & Hslots & Hr).
  apply res_bind_ok in Hr as (next & Hnext%next_run_of_spec & Hr).
  apply res_bind_ok in Hr as (planned & Hplanned%last_planned_of_spec & [= <-]).
  exists cfg, slots, (last_success (freshness_rows fresh) q), (newest q), next, planned. split_and!; try done.
  - intros t. by apply last_success_spec.
  - intros j. by apply newest_spec.
  - apply not_overdue. intros [t slot] ->. destruct Hnext as (_ & Ht & _). change MINUTE with 60000000 in Ht. cbn. lia.
Qed.
End theorems.

Section adherence.
Context `{PyRepr, ZoneDb}.

(** What a row of the board is made of. *)
Lemma plan_of_inv slots now tz q slot kind p :
  plan_of slots now tz q (slot, kind) = Ok p →
  ∃ cron planned, slot_cron slots slot = Ok cron
    ∧ (if decide (cron = "") then planned = None else previous_fire cron now 14 tz = Ok planned)
    ∧ pn_slot p = slot ∧ pn_kind p = kind ∧ pn_cron p = cron
    ∧ pn_adherence p = adherence_of now planned (newest_job q kind)
    ∧ pn_late p = bool_decide (pn_adherence p = Late)
    ∧ pn_last_job p = last_job_of <$> newest_job q kind
    ∧ pn_pending p = Z.of_nat (length (pending_of q kind)).
Proof.
  unfold plan_of. intros (scfg & Hscfg & Hr)%res_bind_ok. cbn zeta in Hr.
  apply res_bind_ok in Hr as (planned & Hplanned & Hr). apply res_bind_ok in Hr as (upcoming & _ & [= <-]).
  exists (py_str (py_or (dict_get "cron" scfg) (PStr ""))), planned. unfold slot_cron. rewrite Hscfg.
  split_and!; try done. case_decide; [by injection Hplanned|done].
Qed.

(** No job of a kind was created since, seen from the newest one. *)
Lemma none_created_since q kind t :
  queue_ok q → created_in_order q →
  (∀ j, newest_job q kind = Some j → j_created j < t)
  ↔ ∀ i j, q_rows q !! i = Some j → j_kind j = kind → j_created j < t.
Proof.
  intros Hok Hord. split.
  - intros Hnew i j' Hj' Hk. pose proof (ok_id _ Hok _ _ Hj') as Hid. rewrite <-Hid in Hj'.
    destruct (newest_job q kind) as [j|] eqn:Hj.
    + specialize (Hnew j eq_refl). apply newest_job_spec in Hj as (Hj & Hkj & Hmax); [|done].
      specialize (Hmax _ _ Hj' Hk). destruct (decide (j_id j' = j_id j)) as [E|E]; [congruence|].
      specialize (Hord _ _ _ _ Hj' Hj). lia.
    + unfold newest_job in Hj. apply min_by_None in Hj.
      assert (j' ∈ filter (λ j, j_kind j = kind) (map_to_list (q_rows q)).*2) as Hin
        by (apply list_elem_of_filter; split; [done|by apply elem_of_rows]).
      rewrite Hj in Hin. by apply not_elem_of_nil in Hin.
  - intros Hall j (Hj & Hk & _)%newest_job_spec; [by eapply Hall|done].
Qed.

Lemma adherence_off now planned last :
  adherence_of now planned last ≠ OnPlan ↔
  ∃ t, planned = Some t ∧ t + secs 7200 < now ∧ ∀ j, last = Some j → j_created j < t.
Proof.
  unfold adherence_of. destruct planned as [t|]; [|split; [done|by intros (? & ? & _)]].
  destruct (t + secs 7200 <? now) eqn:E; bool_hyps.
  - destruct last as [j|]; [destruct (j_created j <? t) eqn:Ej; bool_hyps|].
    + split; [|done]. intros _. exists t. split_and!; [done..|]. by intros ? [= <-].
    + split; [done|]. intros (? & [= <-] & _ & Hj). specialize (Hj j eq_refl). lia.
    + split; [|done]. intros _. by exists t.
  - split; [done|]. intros (? & [= <-] & ? & _). lia.
Qed.

(** C34. The board and the worker's safety net agree: a row is off the plan exactly when its
    slot's last fire is more than two hours old and no job of the kind was created since.
    Within a day of that fire, and with a grace of at most two hours, the catch-up counts
    the slot as missed. Jobs are taken to be created in the order of their ids. *)
Theorem off_plan_is_missed cfg slots now grace q slot kind p r :
  queue_ok q → created_in_order q → grace ≤ 7200 →
  plan_of slots now (schedule_timezone cfg) q (slot, kind) = Ok p →
  missed_slot cfg slots now grace (newest_job_per_kind q) slot kind = Ok r →
  pn_adherence p ≠ OnPlan ↔
  ∃ t cron, slot_cron slots slot = Ok cron ∧ cron ≠ "" ∧ previous_fire cron now 14 (schedule_timezone cfg) = Ok (Some t)
    ∧ t + secs 7200 < now ∧ (∀ i j, q_rows q !! i = Some j → j_kind j = kind → j_created j < t)
    ∧ (now - t ≤ secs 86400 → ∃ m, r = Some m ∧ m_planned m = t).
Proof.
  intros Hok Hord Hgrace (cron & planned & Hcron & Hplanned & _ & _ & _ & Hadh & _)%plan_of_inv Hr.
  rewrite Hadh, adherence_off. pose proof (λ t, none_created_since q kind t Hok Hord) as Hsince. setoid_rewrite Hsince. split.
  - intros (t & -> & Ht & Hnone). destruct (decide (cron = "")) as [|Hne]; [done|].
    exists t, cron. split_and!; [done..|]. intros Hday.
    exists (mkMissed slot kind t (isoformat (date_of (to_wall (schedule_timezone cfg) t)))). split; [|done].
    apply (missed_slot_spec _ _ _ _ _ _ _ _ Hr). apply previous_fire_inv in Hplanned as (c & Hp & Hl & _).
    exists cron, c. cbn [m_planned]. split_and!; [done..|unfold secs in *; lia|lia| |done].
    intros newest. rewrite <-newest_job_created by done. intros (j & Hj & ->)%fmap_Some_1.
    apply newest_job_spec in Hj as (Hj & Hk & _); [|done]. by eapply Hnone.
  - intros (t & cron' & Hc & Hne & Hp & Ht & Hnone & _). rewrite Hcron in Hc. simplify_eq.
    exists t. split_and!; [|done..]. rewrite decide_False in Hplanned by done. rewrite Hplanned in Hp. by simplify_eq.
Qed.
End adherence.

(** ** At concrete inputs *)

Lemma labels_read_back_witness :
  age_label (Some (secs 97200)) = "1d 3h ago" ∧ until_label (Some (secs 5430)) = "in 1h 30m"
  ∧ secs (read_label (age_label (Some (secs 97200)))) ≤ secs 97200.
Proof.
  split; [vm_compute; reflexivity|]. split; [vm_compute; reflexivity|].
  exact (proj1 (proj1 (labels_read_back (secs 97200) ltac:(unfold secs; lia)))).

Defined.

(** One kind succeeded, two jobs wait, no slot has a plan. *)
Definition one_success : gmap string freshness :=
  {[ "flex-trades" := mkFreshness (Some 5) None 6 true None (Some 3) (Some 1) (Some 1) 6 ]}.

Lemma freshness_kpis_spec_witness :
  ∃ k, @freshness_kpis sample_repr sample_zones sample_collation [] 10 (λ _, secs 60 + 5) one_success two_jobs
         (Ok (None, 0)) (Raise (Exn DatabaseError "relation does not exist")) = Ok k
    ∧ ag_age_label (kp_last_successful_sync k) = "1m ago" ∧ lr_kind (kp_last_run k) = j_kind <$> q_rows two_jobs !! 2.
Proof.
  destruct (@freshness_kpis sample_repr sample_zones sample_collation [] 10 (λ _, secs 60 + 5) one_success two_jobs
              (Ok (None, 0)) (Raise (Exn DatabaseError "relation does not exist"))) as [k|] eqn:E;
    [|vm_compute in E; discriminate E].
  exists k. split; [reflexivity|]. split; [vm_compute in E; injection E as <-; reflexivity|].
  destruct (@freshness_kpis_spec sample_repr sample_zones sample_collation _ _ _ _ _ _ _ _ two_jobs_ok E)
    as (_ & _ & _ & run & _ & _ & _ & _ & _ & _ & -> & Hrun & _).
  destruct (q_rows two_jobs !! 2) as [j|] eqn:Hj; [|vm_compute in Hj; discriminate Hj].
  destruct (newest two_jobs) as [j'|] eqn:Hj'; [|vm_compute in Hj'; discriminate Hj'].
  assert (j' = j) as -> by (vm_compute in Hj, Hj'; congruence).
  assert (run = Some j) as ->; [|reflexivity]. apply Hrun. exact (proj1 (newest_spec two_jobs j two_jobs_ok) Hj').
Defined.

(** Three hours after the fire, with nothing in the queue. *)
Definition noon : Z := half_past_six + secs 10800.

Lemma noon_fire :
  @previous_fire sample_zones deployed_cron noon 14 (Some "America/New_York") = Ok (Some half_past_six).
Proof.
  eapply (@previous_fire_walk sample_zones _ half_past_six _ _ _ [half_past_six]); [|reflexivity|discriminate].
  vm_compute. reflexivity.
Qed.

Lemma plan_of_ok `{PyRepr, ZoneDb} slots now tz q slot kind scfg cron planned l :
  dict_or_empty (dict_get slot slots) = Ok scfg → py_str (py_or (dict_get "cron" scfg) (PStr "")) = cron → cron ≠ "" →
  previous_fire cron now 14 tz = Ok planned → next_fires cron now 3 14 tz = Ok l →
  ∃ p, plan_of slots now tz q (slot, kind) = Ok p.
Proof.
  intros Hs Hc Hne Hp Hl. unfold plan_of. rewrite Hs. cbn [mbind res_bind]. rewrite Hc. cbn zeta.
  rewrite !decide_False by done. rewrite Hp. cbn [mbind res_bind]. rewrite Hl. cbn [mbind res_bind]. by eexists.
Qed.

Lemma missed_slot_eq `{PyRepr, ZoneDb} cfg slots now grace since slot kind scfg cron planned :
  dict_or_empty (dict_get slot slots) = Ok scfg → py_str (py_or (dict_get "cron" scfg) (PStr "")) = cron → cron ≠ "" →
  previous_fire cron now 14 (schedule_timezone cfg) = Ok (Some planned) →
  secs grace ≤ now - planned ≤ secs 86400 → since kind = None →
  missed_slot cfg slots now grace since slot kind
  = Ok (Some (mkMissed slot kind planned (isoformat (date_of (to_wall (schedule_timezone cfg) planned))))).
Proof.
  intros Hs Hc Hne Hp Hage Hsince. unfold missed_slot. rewrite Hs. cbn [mbind res_bind]. rewrite Hc. cbn zeta.
  rewrite decide_False by done. rewrite Hp. cbn [mbind res_bind]. rewrite Hsince.
  rewrite (proj2 (Z.ltb_ge _ _)), (proj2 (Z.ltb_ge _ _)) by lia. done.
Qed.

Definition deployed_slot : pydict := [("cron", PStr deployed_cron); ("priority", PInt 5); ("max_attempts", PInt 8)].

Lemma noon_plan :
  ∃ p, @plan_of sample_repr sample_zones sample_slots noon (Some "America/New_York") empty_queue ("flex-trades", "flex-trades") = Ok p.
Proof.
  assert (∃ c, parse_cron deployed_cron = Ok c) as [c Hc] by (eexists; vm_compute; reflexivity).
  destruct (@next_fires_ok sample_zones deployed_cron noon 3 14 (Some "America/New_York") c _ Hc eq_refl) as [l Hl].
  exact (@plan_of_ok sample_repr sample_zones sample_slots noon (Some "America/New_York") empty_queue "flex-trades" "flex-trades"
           deployed_slot deployed_cron (Some half_past_six) l eq_refl eq_refl ltac:(discriminate) noon_fire Hl).
Qed.

Lemma noon_missed : ∃ m,
  @missed_slot sample_repr sample_zones deployed_schedule sample_slots noon 2700 (newest_job_per_kind empty_queue)
    "flex-trades" "flex-trades" = Ok (Some m) ∧ m_planned m = half_past_six.
Proof.
  eexists. split; [apply (@missed_slot_eq sample_repr sample_zones deployed_schedule sample_slots noon 2700
    (newest_job_per_kind empty_queue) "flex-trades" "flex-trades" deployed_slot deployed_cron half_past_six)|];
    [reflexivity|reflexivity|discriminate|exact noon_fire|unfold noon, secs; lia|vm_compute; reflexivity|reflexivity].
Qed.

Lemma off_plan_is_missed_witness :
  ∃ p, @plan_of sample_repr sample_zones sample_slots noon (Some "America/New_York") empty_queue ("flex-trades", "flex-trades") = Ok p
    ∧ pn_adherence p ≠ OnPlan.
Proof.
  destruct noon_plan as [p Hp]. destruct noon_missed as (m & Hm & Hplanned). exists p. split; [exact Hp|].
  apply (@off_plan_is_missed sample_repr sample_zones deployed_schedule sample_slots noon 2700 empty_queue
           "flex-trades" "flex-trades" p (Some m));
    [apply empty_queue_ok| |lia|exact Hp|exact Hm|].
  - intros i1 j1 i2 j2 H1. cbn in H1. by rewrite lookup_empty in H1.
  - exists half_past_six, deployed_cron. split; [reflexivity|]. split; [discriminate|]. split; [exact noon_fire|].
    split; [vm_compute; reflexivity|]. split; [|intros _; exists m; split; [reflexivity|exact Hplanned]].
    intros i j H1. cbn in H1. by rewrite lookup_empty in H1.
Defined.
