(* ===== verification/Routes.v ===== *)
(** * The queue and coverage routes ([api/ingest.py], [api/coverage.py])

    Enqueueing by hand behind the write guard, the job list with its filters and its page,
    the queue's summary, and the table counts. An answer is the route's body or the HTTP
    error it raises; any other exception is the [Raise] of a 500. *)
From S2P Require Import Prelude Pytext PyVal Json JobQueue Pytime Cron Schedule Ddl Ingest Coverage OpsCheck Config HttpMetrics Metrics Dashboard.

(** [tuple(SLOT_KIND.values())]. *)
Definition KINDS : list string := SLOT_KIND.*2.

(** [GET /flex/ingest/kinds]. *)
Definition list_kinds : list string * list string := (KINDS, SLOT_NAMES).

(** ** [POST /flex/ingest/enqueue] *)

Inductive enqueue_answer := Enqueued (r : slot_result) | UnknownKind (detail : string) | Unauthorized.

Section enqueue_job.
Context `{PyRepr, Sha256}.

(** [str(body.get("kind") or body.get("slot") or "").strip()]. *)
Definition requested_kind (body : pydict) : string :=
  strip (py_str (first_true [dict_get "kind" body; dict_get "slot" body] (PStr ""))).

(** The slot of a kind: its own name, or the first slot that enqueues it. *)
Definition slot_of (kind : string) : string :=
  if decide (kind ∈ SLOT_NAMES) then kind
  else default "" (((λ f, f.2.1)) <$> list_find (λ sk : string * string, sk.2 = kind) SLOT_KIND).

Definition enqueue_job (today : string) (t : Z) (schedule body : pydict) (q : queue) : res enqueue_answer * queue :=
  let kind := requested_kind body in
  if decide (kind ∉ KINDS ∧ kind ∉ SLOT_NAMES) then (Ok (UnknownKind ("unknown kind: " +:+ py_repr (PStr kind))), q)
  else
    match (scheduler_cfg ← dict_or_empty (dict_get "scheduler" schedule);
           payload ← dict_or_empty (dict_get "payload" body);
           enqueue_slot today t (slot_of kind) scheduler_cfg payload q) with
    | Ok (r, q') => (Ok (Enqueued r), q')
    | Raise ex => (Raise ex, q)
    end.

(** The route behind [Depends(require_write_token)]. *)
Definition enqueue_route (expected : string) (h : headers) (today : string) (t : Z) (schedule body : pydict) (q : queue)
    : res enqueue_answer * queue :=
  if require_write_token expected h then enqueue_job today t schedule body q else (Ok Unauthorized, q).
End enqueue_job.

(** ** [GET /flex/ingest/jobs] and [GET /flex/ingest/queue-summary] *)

(** [if status: clauses.append("status = %s")]. *)
Definition selects (wanted : option string) (value : string) : Prop :=
  match wanted with Some w => w = "" ∨ value = w | None => True end.
#[export] Instance selects_dec wanted value : Decision (selects wanted value).
Proof. unfold selects. destruct wanted; apply _. Defined.

(** [ORDER BY id DESC]. *)
Definition newer_row (a b : job) : Prop := j_id b ≤ j_id a.
#[export] Instance newer_row_dec : RelDecision newer_row.
Proof. intros a b. unfold newer_row. apply _. Defined.

Definition selected (status kind : option string) (q : queue) : list job :=
  filter (λ j, selects status (status_text (j_status j)) ∧ selects kind (j_kind j)) (map_to_list (q_rows q)).*2.

(** [None] is the 422 of a limit outside 1 to 200. *)
Definition list_jobs (status kind : option string) (limit : Z) (q : queue) : option (list job) :=
  if (1 <=? limit) && (limit <=? 200)
  then Some (take (Z.to_nat limit) (merge_sort newer_row (selected status kind q)))
  else None.

Definition queue_summary (q : queue) : list (string * Z) := status_counts q.

(** ** [GET /flex/coverage/db-summary] and [/freshness] *)

Definition TABLES : list (string * string * option string) :=
  [("executions_raw_flex", "raw_broker.executions_raw_flex", Some "exec_time");
   ("transactions", "raw_broker.transactions", Some "ts");
   ("settings_flex", "raw_broker.settings_flex", None);
   ("positions", "raw_broker.positions", Some "updated_at")].

Record table_row := mkTableRow { tr_name : string; tr_relation : string; tr_row_count : option Z; tr_latest_ts : option Z }.

(** [count] and [latest] are the two statements, either of which may fail on a table. *)
Definition db_summary (count : string → res Z) (latest_ts : string → string → res (option Z)) : list table_row :=
  (λ '(name, fq, ts_col),
     mkTableRow name fq
       (match count fq with Ok n => Some n | Raise _ => None end)
       (match ts_col with
        | Some col => match latest_ts fq col with Ok t => t | Raise _ => None end
        | None => None
        end)) <$> TABLES.

Definition freshness_route (rows : res (list (string * freshness))) : list (string * option Z * option Z * Z) :=
  match rows with
  | Ok l => (λ r, (r.1, f_latest_ts r.2, f_row_count r.2, f_updated_at r.2)) <$> l
  | Raise _ => []
  end.

(** ** What an enqueue by hand does *)

Section enqueue_theorems.
Context `{PyRepr, Sha256}.

Lemma slot_of_known kind : ¬ (kind ∉ KINDS ∧ kind ∉ SLOT_NAMES) → kind ∈ SLOT_NAMES ∧ slot_of kind = kind.
Proof.
  change KINDS with SLOT_NAMES. intros Hk. unfold slot_of.
  destruct (decide (kind ∈ SLOT_NAMES)); [done|]. by destruct Hk.
Qed.

(** An enqueue that answered went through [enqueue_slot] for the slot of its name. *)
Lemma enqueue_job_inv today t schedule body q r q' :
  enqueue_job today t schedule body q = (Ok (Enqueued r), q') →
  requested_kind body ∈ SLOT_NAMES ∧ ∃ cfg payload,
    dict_or_empty (dict_get "scheduler" schedule) = Ok cfg ∧ dict_or_empty (dict_get "payload" body) = Ok payload
    ∧ enqueue_slot today t (requested_kind body) cfg payload q = Ok (r, q').
Proof.
  unfold enqueue_job. cbn zeta. case_decide as Hk; [done|]. apply slot_of_known in Hk as [Hk ->].
  destruct (dict_or_empty (dict_get "scheduler" schedule)) as [cfg|]; [|done]. cbn [mbind res_bind].
  destruct (dict_or_empty (dict_get "payload" body)) as [payload|]; [|done]. cbn [mbind res_bind].
  destruct (enqueue_slot _ _ _ _ _ q) as [[r' q'']|] eqn:E; [|done]. intros [= -> ->]. eauto 6.
Qed.

(** C18. The route keeps the table well formed and touches it in one way only. Without the write
    identity, for a name that is no slot and on any error the table is as it was; an
    accepted request leaves the slot's job of that day active, and either it added exactly
    that one row, pending and never started, or it found it active already and changed no
    row. *)
Theorem enqueue_route_spec expected h today t schedule body q :
  queue_ok q →
  let '(answer, q') := enqueue_route expected h today t schedule body q in
  queue_ok q' ∧
  match answer with
  | Ok Unauthorized => require_write_token expected h = false ∧ q' = q
  | Ok (UnknownKind _) => requested_kind body ∉ SLOT_NAMES ∧ q' = q
  | Raise _ => q' = q
  | Ok (Enqueued r) =>
      require_write_token expected h = true ∧ sr_kind r = requested_kind body
      ∧ (∃ i j payload, dict_or_empty (dict_get "payload" body) = Ok payload ∧ q_rows q' !! i = Some j
           ∧ index_key j = Some (requested_kind body, slot_hash today payload))
      ∧ match sr_job_id r with
        | Some i => q_rows q !! i = None
                    ∧ ∃ j, q_rows q' = <[i := j]> (q_rows q) ∧ j_kind j = requested_kind body
                           ∧ j_status j = Pending ∧ j_attempts j = 0
        | None => q_rows q' = q_rows q
        end
  end.
Proof.
  intros Hok. unfold enqueue_route. destruct (require_write_token expected h) eqn:Hauth; [|done].
  destruct (enqueue_job today t schedule body q) as [[[r|detail|]|ex] q'] eqn:E.
  - apply enqueue_job_inv in E as (Hk & cfg & payload & _ & Hpayload & He).
    split; [by eapply enqueue_slot_ok|]. destruct (enqueue_slot_active _ _ _ _ _ _ _ _ He) as (i & j & Hj & Hkey).
    rewrite (slot_name_key _ Hk) in Hkey. apply enqueue_slot_inv in He as (_ & prio & maxa & Hi & _ & _ & Hr).
    rewrite (slot_name_key _ Hk) in Hi, Hr. split_and!; [done|by rewrite Hr|by exists i, j, payload|].
    destruct (slot_kind_name _ Hk) as (_ & Hstrip & _).
    apply insert_job_inv in Hi as [(-> & _ & ->)|(-> & _ & ->)]; [done|]. rewrite Hstrip. split; [|by eexists].
    destruct (q_rows q !! q_next q) as [j'|] eqn:Hj'; [|done]. apply (ok_seq _ Hok) in Hj'. lia.
  - unfold enqueue_job in E. cbn zeta in E. case_decide as Hk; [|by repeat case_match]. destruct Hk. by simplify_eq.
  - unfold enqueue_job in E. cbn zeta in E. case_decide; [done|by repeat case_match].
  - unfold enqueue_job in E. cbn zeta in E. case_decide; [done|]. repeat case_match; by simplify_eq.
Qed.

(** A request that is sent again is harmless: while the first one's job is active, the same
    body, on the same day or with a day of its own in the payload, adds no second job. *)
Theorem enqueue_retry_safe today today' t t' schedule schedule' body q r q1 r' q' payload :
  dict_or_empty (dict_get "payload" body) = Ok payload →
  today' = today ∨ dict_has "as_of" payload = true →
  enqueue_job today t schedule body q = (Ok (Enqueued r), q1) →
  enqueue_job today' t' schedule' body q1 = (Ok (Enqueued r'), q') →
  sr_enqueued r' = 0 ∧ sr_deduped r' = 1 ∧ sr_job_id r' = None ∧ q_rows q' = q_rows q1.
Proof.
  intros Hp Hday (Hk & cfg & p & _ & Hp1 & E1)%enqueue_job_inv (_ & cfg' & p' & _ & Hp2 & E2)%enqueue_job_inv.
  rewrite Hp in Hp1, Hp2. injection Hp1 as <-. injection Hp2 as <-.
  assert (slot_hash today' payload = slot_hash today payload) as Hhash.
  { destruct Hday as [->|Has]; [done|]. unfold slot_hash, with_as_of. by rewrite Has. }
  destruct (enqueue_slot_active _ _ _ _ _ _ _ _ E1) as (i & j & Hj & Hkey). rewrite <-Hhash in Hkey.
  destruct (enqueue_slot_dup _ _ _ _ _ _ _ _ _ _ E2 Hj Hkey) as (Hid & Hdup & Hrows).
  split_and!; try done. apply enqueue_slot_inv in E2 as (_ & prio & maxa & _ & _ & _ & Hr).
  rewrite Hid in Hr. by rewrite Hr.
Qed.
End enqueue_theorems.

(** ** What a page of jobs holds *)

#[export] Instance newer_row_total : Total newer_row.
Proof. intros a b. unfold newer_row. lia. Qed.
#[export] Instance newer_row_trans : Transitive newer_row.
Proof. intros a b c. unfold newer_row. lia. Qed.

(** A row of the table that the filters let through. *)
Definition shown_job (status kind : option string) (q : queue) (j : job) : Prop :=
  q_rows q !! j_id j = Some j ∧ selects status (status_text (j_status j)) ∧ selects kind (j_kind j).

Lemma selected_sorted status kind q :
  queue_ok q →
  let l := merge_sort newer_row (selected status kind q) in
  StronglySorted (λ a b, j_id b < j_id a) l ∧ ∀ j, j ∈ l ↔ shown_job status kind q j.
Proof.
  intros Hok l.
  assert (∀ j, j ∈ l ↔ shown_job status kind q j) as Hl.
  { intros j. unfold l, selected, shown_job. rewrite merge_sort_Permutation, list_elem_of_filter, elem_of_rows by done. tauto. }
  split; [|done].
  assert (NoDup l) as Hnd by (unfold l, selected; rewrite merge_sort_Permutation; apply NoDup_filter, rows_NoDup, Hok).
  assert (StronglySorted newer_row l) as Hs by (apply StronglySorted_merge_sort; apply _).
  assert (∀ j, j ∈ l → q_rows q !! j_id j = Some j) as Hrow by (intros j [? _]%Hl; done).
  clearbody l. clear Hl. induction Hs as [|a l Hs IH Ha]; constructor.
  - apply NoDup_cons in Hnd as [_ Hnd]. apply IH; [done|set_solver].
  - apply NoDup_cons in Hnd as [Hnot _]. rewrite Forall_forall in Ha |- *. intros b Hb.
    specialize (Ha b Hb). unfold newer_row in Ha. destruct (decide (j_id b = j_id a)) as [E|]; [|lia].
    assert (b = a) as ->; [|done]. pose proof (Hrow a ltac:(by left)). pose proof (Hrow b ltac:(by right)). congruence.
Qed.

(** A page is the newest jobs the filters let through, newest first and none twice: a job
    that would qualify is only missing from a full page all of whose jobs are newer. *)
Theorem list_jobs_spec status kind limit q :
  queue_ok q →
  match list_jobs status kind limit q with
  | None => limit < 1 ∨ 200 < limit
  | Some l => 1 ≤ limit ≤ 200 ∧ Z.of_nat (length l) ≤ limit
      ∧ StronglySorted (λ a b, j_id b < j_id a) l
      ∧ (∀ j, j ∈ l → shown_job status kind q j)
      ∧ ∀ j, shown_job status kind q j → j ∉ l → Z.of_nat (length l) = limit ∧ ∀ j', j' ∈ l → j_id j < j_id j'
  end.
Proof.
  intros Hok. unfold list_jobs. destruct ((1 <=? limit) && (limit <=? 200)) eqn:Hl; bool_hyps; [|apply andb_false_iff in Hl as [?|?]; bool_hyps; lia].
  destruct (selected_sorted status kind q Hok) as [Hs Hin]. set (l := merge_sort _ _) in *. clearbody l.
  set (n := Z.to_nat limit). rewrite <-(take_drop n l) in Hs. apply StronglySorted_app in Hs as (Hlt & Hs1 & _).
  split_and!; [lia..|rewrite length_take; lia|done| |].
  - intros j Hj. apply Hin. rewrite <-(take_drop n l). set_solver.
  - intros j Hj Hnot. assert (j ∈ drop n l) as Hd.
    { apply Hin in Hj. rewrite <-(take_drop n l) in Hj. set_solver. }
    split; [|intros j' Hj'; by apply Hlt]. assert (n < length l)%nat; [|rewrite length_take; lia].
    destruct (decide (n < length l)%nat); [done|]. rewrite drop_ge in Hd by lia. by apply not_elem_of_nil in Hd.
Qed.

(** ** At concrete inputs *)

Definition by_token : headers := mkHeaders (Some "write") None None.
Definition trades_request : pydict := [("slot", PStr " flex-trades "); ("payload", PDict [("as_of", PStr "2026-09-09")])].
Definition no_schedule : pydict := [("scheduler", PDict [])].

Lemma enqueue_route_spec_witness :
  ∃ r q', @enqueue_route sample_repr sample_sha "write" by_token "2026-09-10" 20 no_schedule trades_request empty_queue = (Ok (Enqueued r), q')
    ∧ sr_job_id r = Some 1 ∧ queue_ok q' ∧ q_rows empty_queue !! 1 = None.
Proof.
  pose proof (@enqueue_route_spec sample_repr sample_sha "write" by_token "2026-09-10" 20 no_schedule trades_request empty_queue
                empty_queue_ok) as H.
  destruct (@enqueue_route sample_repr sample_sha "write" by_token "2026-09-10" 20 no_schedule trades_request empty_queue)
    as [[[r|d|]|ex] q'] eqn:E; [|vm_compute in E; discriminate E..].
  exists r, q'. split; [reflexivity|]. destruct H as (Hok & _ & _ & _ & Hrow).
  assert (sr_job_id r = Some 1) as Hid by (vm_compute in E; injection E as <- _; reflexivity).
  rewrite Hid in Hrow. split; [exact Hid|]. split; [exact Hok|]. exact (proj1 Hrow).
Defined.

Lemma enqueue_retry_safe_witness :
  ∃ r q1 r' q', @enqueue_job sample_repr sample_sha "2026-09-10" 20 no_schedule trades_request empty_queue = (Ok (Enqueued r), q1)
    ∧ @enqueue_job sample_repr sample_sha "2026-09-11" 90 no_schedule trades_request q1 = (Ok (Enqueued r'), q')
    ∧ sr_enqueued r = 1 ∧ sr_enqueued r' = 0 ∧ q_rows q' = q_rows q1.
Proof.
  destruct (@enqueue_job sample_repr sample_sha "2026-09-10" 20 no_schedule trades_request empty_queue) as [[[r| |]|] q1] eqn:E1;
    [|vm_compute in E1; discriminate E1..].
  destruct (@enqueue_job sample_repr sample_sha "2026-09-11" 90 no_schedule trades_request q1) as [[[r'| |]|] q'] eqn:E2;
    [|vm_compute in E1; injection E1 as <- <-; vm_compute in E2; discriminate E2..].
  destruct (@enqueue_retry_safe sample_repr sample_sha "2026-09-10" "2026-09-11" 20 90 no_schedule no_schedule trades_request
              empty_queue r q1 r' q' [("as_of", PStr "2026-09-09")] eq_refl (or_intror eq_refl) E1 E2) as (Hn & _ & _ & Hrows).
  exists r, q1, r', q'. split; [reflexivity|]. split; [exact E2|].
  split; [vm_compute in E1; injection E1 as <- _; reflexivity|]. split; [exact Hn|exact Hrows].
Defined.

Lemma list_jobs_spec_witness :
  (∃ l, list_jobs (Some "pending") None 1 two_jobs = Some l ∧ length l = 1%nat
     ∧ ∀ j, j ∈ l → shown_job (Some "pending") None two_jobs j)
  ∧ list_jobs None None 500 two_jobs = None.
Proof.
  pose proof (list_jobs_spec (Some "pending") None 1 two_jobs two_jobs_ok) as H.
  destruct (list_jobs (Some "pending") None 1 two_jobs) as [l|] eqn:E; [|vm_compute in E; discriminate E].
  split; [|reflexivity]. exists l. split; [reflexivity|]. destruct H as (_ & _ & _ & Hin & _). split; [|exact Hin].
  vm_compute in E. injection E as <-. reflexivity.
Defined.
