(* ===== verification/RawPeek.v ===== *)
(** * The newest raw rows ([api/raw_peek.py])

    What the driver gives for a cell and a row, how a cell is turned into JSON, and the
    route that shows the newest rows of one of two tables. The statement is sent to the
    database as the text the code builds; [fetch] is the database's answer to it. *)
From stdpp Require Import sorting.
From S2P Require Import Prelude Pytext PyVal Pytime.
From Stdlib Require Import Ascii.

(** ** Bytes as text *)

(** U+FFFD. *)
Definition replacement : string :=
  String (ascii_of_N 239) (String (ascii_of_N 191) (String (ascii_of_N 189) "")).

(** What a lead byte announces: how many bytes follow, and the range of the first. *)
Definition lead_byte (b : Z) : option (nat * Z * Z) :=
  if b <? 194 then None
  else if b <? 224 then Some (1%nat, 128, 191)
  else if b =? 224 then Some (2%nat, 160, 191)
  else if b =? 237 then Some (2%nat, 128, 159)
  else if b <? 240 then Some (2%nat, 128, 191)
  else if b =? 240 then Some (3%nat, 144, 191)
  else if b <? 244 then Some (3%nat, 128, 191)
  else if b =? 244 then Some (3%nat, 128, 143)
  else None.

(** A byte where a character may begin: what is written at once, and what is awaited. *)
Definition start_byte (c : ascii) : string * string * nat * Z * Z :=
  let b := char_code c in
  if b <? 128 then (String c "", "", 0%nat, 0, 0)
  else match lead_byte b with
       | Some (n, lo, hi) => ("", String c "", n, lo, hi)
       | None => (replacement, "", 0%nat, 0, 0)
       end.

(** [decode("utf-8", errors="replace")]: [acc] is the character begun, [need] the bytes it
    lacks and [lo], [hi] the range of the next. A character that breaks off, and a byte
    that begins none, give one replacement each. *)
Fixpoint decode_from (acc : string) (need : nat) (lo hi : Z) (s : string) : string :=
  match s with
  | "" => match need with O => "" | S _ => replacement end
  | String c s' =>
      let restart (out : string) :=
        let '(now, acc', need', lo', hi') := start_byte c in out +:+ now +:+ decode_from acc' need' lo' hi' s' in
      match need with
      | O => restart ""
      | S n =>
          if (lo <=? char_code c) && (char_code c <=? hi) then
            match n with
            | O => (acc +:+ String c "") +:+ decode_from "" 0 0 0 s'
            | S _ => decode_from (acc +:+ String c "") n 128 191 s'
            end
          else restart replacement
      end
  end.

Definition decode_replace (s : string) : string := decode_from "" 0 0 0 s.

(** ** Cells *)

(** [dt.isoformat()] of the wall clock [w] in microseconds, [off] its distance from UTC in
    seconds where it is aware. *)
Definition micro_part (us : Z) : string :=
  if us =? 0 then "" else "." +:+ pad2 (us / 10000) +:+ pad2 (us / 100) +:+ pad2 us.
Definition offset_part (off : option Z) : string :=
  match off with
  | None => ""
  | Some o =>
      let a := Z.abs o in
      (if o <? 0 then "-" else "+") +:+ pad2 (a / 3600) +:+ ":" +:+ pad2 (a mod 3600 / 60)
      +:+ if a mod 60 =? 0 then "" else ":" +:+ pad2 (a mod 60)
  end.
Definition datetime_isoformat (w : Z) (off : option Z) : string :=
  isoformat (date_of w) +:+ "T" +:+ pad2 (wall_hour w) +:+ ":" +:+ pad2 (wall_minute w) +:+ ":" +:+ pad2 (wall_second w)
  +:+ micro_part (w mod 1000000) +:+ offset_part off.

(** A value of the driver. *)
Inductive cell :=
| CNone
| CDatetime (w : Z) (off : option Z)
| CDate (d : Z)
| CDecimal (f : pyfloat)
| CBytes (b : string)
| COther (v : pyval).

(** [_cell]. *)
Definition shown_cell (c : cell) : pyval :=
  match c with
  | CNone => PNone
  | CDatetime w off => PStr (datetime_isoformat w off)
  | CDate d => PStr (isoformat d)
  | CDecimal f => PFloat f
  | CBytes b => PStr (decode_replace b)
  | COther v => v
  end.

(** A row of the cursor: by column name, or by position. *)
Inductive fetched_row := RDict (d : list (string * cell)) | RTuple (l : list cell).

(** [rec.get(c)]. *)
Fixpoint rec_get (k : string) (d : list (string * cell)) : cell :=
  match d with
  | [] => CNone
  | (k', v) :: d' => if decide (k' = k) then v else rec_get k d'
  end.

Definition shown_row (columns : list string) (r : fetched_row) : list pyval :=
  match r with
  | RDict d => (λ c, shown_cell (rec_get c d)) <$> columns
  | RTuple l => shown_cell <$> l
  end.

(** ** The route *)

Record peek_spec := mkPeekSpec { ps_relation : string; ps_order : string; ps_columns : list string }.

Definition PEEK (table : string) : option peek_spec :=
  if decide (table = "executions_raw_flex") then
    Some (mkPeekSpec "raw_broker.executions_raw_flex" "exec_time"
            ["exec_time"; "account_id"; "contract_key"; "side"; "quantity"; "price"; "exec_id"; "source"])
  else if decide (table = "transactions") then
    Some (mkPeekSpec "raw_broker.transactions" "ts"
            ["ts"; "account_id"; "amount"; "type"; "description"; "currency"; "symbol"])
  else None.

Definition peek_sql (p : peek_spec) : string :=
  "SELECT " +:+ join ", " (ps_columns p) +:+ " FROM " +:+ ps_relation p +:+ " ORDER BY " +:+ ps_order p
  +:+ " DESC NULLS LAST LIMIT %s".

Inductive peek_answer :=
| Peeked (table : string) (row_count : Z) (columns : list string) (rows : list (list pyval))
| PeekFailed (detail : string)
| PeekInvalid.

(** [raw_peek], the parameters' checks included: [Literal] and [Query(ge=1, le=100)]. *)
Definition raw_peek (fetch : string → Z → res (list fetched_row)) (table : string) (limit : Z) : peek_answer :=
  if (1 <=? limit) && (limit <=? 100) then
    match PEEK table with
    | None => PeekInvalid
    | Some p =>
        match fetch (peek_sql p) limit with
        | Raise e => PeekFailed ("raw peek failed: " +:+ exn_str e)
        | Ok fetched =>
            let rows := shown_row (ps_columns p) <$> fetched in
            Peeked table (Z.of_nat (length rows)) (ps_columns p) rows
        end
    end
  else PeekInvalid.

(** ** What the decoder writes *)

(** Text the decoder leaves alone, whatever follows. *)
Definition whole (u : string) : Prop := ∀ t, decode_replace (u +:+ t) = u +:+ decode_replace t.

(** A character begun: reading [acc] leads to the state. *)
Definition begun (acc : string) (need : nat) (lo hi : Z) : Prop :=
  ∀ t, decode_replace (acc +:+ t) = decode_from acc need lo hi t.

Lemma replacement_whole : whole replacement.
Proof. intros t. reflexivity. Qed.

Lemma start_byte_begun c now acc need lo hi :
  start_byte c = (now, acc, need, lo, hi) → begun acc need lo hi ∧ whole now.
Proof.
  unfold start_byte. destruct (char_code c <? 128) eqn:Hc; [|destruct (lead_byte (char_code c)) as [[[n l] h]|] eqn:Hl].
  - intros [= <- <- <- <- <-]. split; intros t; [done|]. unfold decode_replace. rewrite append_cons.
    cbn [decode_from]. unfold start_byte. rewrite Hc. by rewrite !append_cons.
  - intros [= <- <- <- <- <-]. split; intros t; [|done]. unfold decode_replace. rewrite append_cons.
    cbn [decode_from]. unfold start_byte. by rewrite Hc, Hl.
  - intros [= <- <- <- <- <-]. split; intros t; [done|]. apply replacement_whole.
Qed.

Lemma begun_next acc n lo hi c :
  begun acc (S (S n)) lo hi → (lo <=? char_code c) && (char_code c <=? hi) = true → begun (acc +:+ String c "") (S n) 128 191.
Proof. intros Hb Hc t. rewrite append_assoc, append_cons, Hb. cbn [decode_from]. by rewrite Hc. Qed.

Lemma begun_last acc lo hi c :
  begun acc 1 lo hi → (lo <=? char_code c) && (char_code c <=? hi) = true → whole (acc +:+ String c "").
Proof.
  intros Hb Hc t. rewrite append_assoc, append_cons, Hb. cbn [decode_from]. rewrite Hc. reflexivity.
Qed.

Lemma decode_from_whole s : ∀ acc need lo hi,
  begun acc need lo hi → decode_replace (decode_from acc need lo hi s) = decode_from acc need lo hi s.
Proof.
  induction s as [|c s IH]; intros acc need lo hi Hb; cbn [decode_from].
  - by destruct need.
  - assert (∀ out, whole out →
      decode_replace (let '(now, acc', need', lo', hi') := start_byte c in out +:+ now +:+ decode_from acc' need' lo' hi' s)
      = (let '(now, acc', need', lo', hi') := start_byte c in out +:+ now +:+ decode_from acc' need' lo' hi' s)) as Hre.
    { intros out Hout. destruct (start_byte c) as [[[[now acc'] need'] lo'] hi'] eqn:Hs.
      apply start_byte_begun in Hs as [Hb' Hnow]. by rewrite Hout, Hnow, IH. }
    destruct need as [|n]; [by apply (Hre "")|].
    destruct (_ && _) eqn:Hc; [|by apply Hre, replacement_whole].
    destruct n as [|n]; [|by apply IH, (begun_next _ _ lo hi)].
    by rewrite (begun_last _ _ _ _ Hb Hc), IH.
Qed.

(** What the decoder writes is text: decoding it again changes nothing. *)
Lemma decode_replace_idem s : decode_replace (decode_replace s) = decode_replace s.
Proof. by apply decode_from_whole. Qed.

(** Text without bytes above 127 is left alone. *)
Lemma decode_ascii s : str_forallb (λ c, char_code c <? 128) s = true → decode_replace s = s.
Proof.
  induction s as [|c s IH]; [done|]. cbn [str_forallb]. intros [Hc Hs]%andb_true_iff. unfold decode_replace.
  cbn [decode_from]. unfold start_byte. rewrite Hc. change (String c (decode_replace s) = String c s). by rewrite IH.
Qed.

(** ** What the route shows *)

(** The moment of the order column; [None] where it holds none. *)
Definition cell_moment (c : cell) : option Z :=
  match c with CDatetime w off => Some (w - default 0 off * 1000000) | _ => None end.

(** The statements the route can send, as the database reads them: columns, table, the column
    of ORDER BY, whether it descends, where its nulls go, and whether the one parameter limits
    the rows. *)
Record select_query := mkSelect {
  sel_columns : list string; sel_relation : string; sel_order : option (string * bool * bool); sel_limited : bool }.

(** The words after the column names. *)
Fixpoint parse_columns (ws : list string) : option (list string * list string) :=
  match ws with
  | [] => None
  | w :: ws' => let name := String.substring 0 (String.length w - 1) w in
                if decide (w = name +:+ ",") then '(cs, rest) ← parse_columns ws'; Some (name :: cs, rest)
                else Some ([w], ws')
  end.

(** [ASC] is the default, and where nothing is said a null counts as larger than any value. *)
Definition parse_direction (ws : list string) : bool * list string :=
  match ws with "DESC" :: ws' => (true, ws') | "ASC" :: ws' => (false, ws') | _ => (false, ws) end.
Definition parse_nulls (desc : bool) (ws : list string) : bool * list string :=
  match ws with
  | "NULLS" :: "LAST" :: ws' => (true, ws')
  | "NULLS" :: "FIRST" :: ws' => (false, ws')
  | _ => (negb desc, ws)
  end.
Definition parse_order (ws : list string) : option (string * bool * bool) * list string :=
  match ws with
  | "ORDER" :: "BY" :: col :: ws' =>
      let '(desc, ws1) := parse_direction ws' in
      let '(nulls_last, ws2) := parse_nulls desc ws1 in (Some (col, desc, nulls_last), ws2)
  | _ => (None, ws)
  end.
Definition parse_limit (ws : list string) : option bool :=
  match ws with [] => Some false | ["LIMIT"; "%s"] => Some true | _ => None end.

(** The grammar
    [SELECT c, .. FROM r (ORDER BY c (ASC | DESC)? (NULLS FIRST | NULLS LAST)?)? (LIMIT %s)?]. *)
Definition parse_select (sql : string) : option select_query :=
  match split_ws sql with
  | "SELECT" :: ws =>
      '(cols, ws1) ← parse_columns ws;
      match ws1 with
      | "FROM" :: rel :: ws2 =>
          let '(order, ws3) := parse_order ws2 in
          limited ← parse_limit ws3; Some (mkSelect cols rel order limited)
      | _ => None
      end
  | _ => None
  end.

(** One stored row may come before another. *)
Definition in_order (o : option (string * bool * bool)) (a b : list (string * cell)) : Prop :=
  match o with
  | None => True
  | Some (col, desc, nulls_last) =>
      match cell_moment (rec_get col a), cell_moment (rec_get col b) with
      | Some x, Some y => if desc then y ≤ x else x ≤ y
      | Some _, None => nulls_last = true
      | None, Some _ => nulls_last = false
      | None, None => True
      end
  end.
#[export] Instance in_order_dec o : RelDecision (in_order o).
Proof. intros a b. unfold in_order. repeat case_match; apply _. Defined.
#[export] Instance in_order_trans o : Transitive (in_order o).
Proof. intros a b c. unfold in_order. repeat case_match; intros; try done; try lia; congruence. Qed.
#[export] Instance in_order_total o : Total (in_order o).
Proof.
  intros a b. unfold in_order. destruct o as [[[col []] []]|]; [..|by left];
    destruct (cell_moment (rec_get col a)), (cell_moment (rec_get col b)); auto; lia.
Qed.

(** A row of the answer: the selected columns of a stored one, by name or by position. *)
Definition projected (cols : list string) (d : list (string * cell)) (r : fetched_row) : Prop :=
  r = RDict ((λ c, (c, rec_get c d)) <$> cols) ∨ r = RTuple ((λ c, rec_get c d) <$> cols).

(** What the database promises of the rows of a SELECT: the rows of the table, all of them or as
    many as the limit allows, in the order asked for and none left out that has to come before. *)
Definition answers_select (q : select_query) (limit : Z) (stored : list (list (string * cell))) (rows : list fetched_row) : Prop :=
  ∃ top rest, Forall2 (projected (sel_columns q)) top rows ∧ stored ≡ₚ top ++ rest ∧ Sorted (in_order (sel_order q)) top
    ∧ length top = (if sel_limited q then Z.to_nat limit `min` length stored else length stored)%nat
    ∧ ∀ a b, a ∈ top → b ∈ rest → in_order (sel_order q) a b.

(** A database with those tables: it answers every SELECT it can read so, or fails. *)
Definition answers_selects (tables : string → list (list (string * cell))) (fetch : string → Z → res (list fetched_row)) : Prop :=
  ∀ sql q limit rows, parse_select sql = Some q → fetch sql limit = Ok rows → answers_select q limit (tables (sel_relation q)) rows.

(** One such database: it sorts the table and takes the head. *)
Definition rows_of_select (q : select_query) (limit : Z) (stored : list (list (string * cell))) : list fetched_row :=
  (λ d, RDict ((λ c, (c, rec_get c d)) <$> sel_columns q))
    <$> take (if sel_limited q then Z.to_nat limit else length stored) (merge_sort (in_order (sel_order q)) stored).
Definition sorting_database (tables : string → list (list (string * cell))) (sql : string) (limit : Z) : res (list fetched_row) :=
  match parse_select sql with
  | Some q => Ok (rows_of_select q limit (tables (sel_relation q)))
  | None => Raise (Exn DatabaseError "syntax error")
  end.

Lemma sorting_database_selects tables : answers_selects tables (sorting_database tables).
Proof.
  intros sql q limit rows Hq. unfold sorting_database. rewrite Hq. intros [= <-].
  set (stored := tables (sel_relation q)). unfold rows_of_select.
  set (n := if sel_limited q then _ else _). set (sorted := merge_sort (in_order (sel_order q)) stored).
  assert (Hs : StronglySorted (in_order (sel_order q)) sorted) by (apply StronglySorted_merge_sort; apply _).
  exists (take n sorted), (drop n sorted).
  rewrite <-(take_drop n sorted) in Hs. apply StronglySorted_app in Hs as (Hab & Ha & _).
  split_and!.
  - apply Forall2_fmap_r, Forall_Forall2_diag, Forall_true. by left.
  - rewrite take_drop. symmetry. apply merge_sort_Permutation.
  - by apply StronglySorted_Sorted.
  - rewrite length_take. subst sorted n. rewrite (Permutation_length (merge_sort_Permutation _ _)).
    destruct (sel_limited q); lia.
  - by apply Hab.
Qed.

(** Newest first, rows without a moment last. *)
Definition newest_first (order : string) (a b : list (string * cell)) : Prop :=
  match cell_moment (rec_get order a), cell_moment (rec_get order b) with
  | Some x, Some y => y ≤ x
  | None, Some _ => False
  | _, None => True
  end.

Lemma in_order_newest_first order a b : in_order (Some (order, true, true)) a b ↔ newest_first order a b.
Proof. unfold in_order, newest_first. repeat case_match; naive_solver. Qed.

(** The text of either table reads as the query it should be. *)
Lemma peek_sql_reads table p :
  PEEK table = Some p →
  parse_select (peek_sql p) = Some (mkSelect (ps_columns p) (ps_relation p) (Some (ps_order p, true, true)) true).
Proof. unfold PEEK. intros Hp. repeat case_decide; simplify_eq; reflexivity. Qed.

Lemma PEEK_columns table p : PEEK table = Some p → NoDup (ps_columns p).
Proof. unfold PEEK. intros Hp. repeat case_decide; simplify_eq; apply (bool_decide_unpack _); reflexivity. Qed.

Lemma rec_get_projected cols d c : c ∈ cols → rec_get c ((λ c, (c, rec_get c d)) <$> cols) = rec_get c d.
Proof.
  induction cols as [|c' cols IH]; [by intros ?%elem_of_nil|]. cbn. intros Hc.
  destruct (decide (c' = c)) as [->|]; [done|]. apply IH. set_solver.
Qed.

Lemma shown_projected cols d r : projected cols d r → shown_row cols r = (λ c, shown_cell (rec_get c d)) <$> cols.
Proof.
  intros [->| ->]; cbn.
  - apply list_fmap_ext. intros i c Hc. f_equal. apply rec_get_projected. by eapply list_elem_of_lookup_2.
  - by rewrite <-list_fmap_compose.
Qed.

Lemma shown_all_projected cols top rows :
  Forall2 (projected cols) top rows → shown_row cols <$> rows = (λ d, (λ c, shown_cell (rec_get c d)) <$> cols) <$> top.
Proof. induction 1 as [|d r top rows Hr _ IH]; [done|]. cbn. by rewrite (shown_projected _ _ _ Hr), IH. Qed.

Lemma raw_peek_invalid fetch table limit :
  raw_peek fetch table limit = PeekInvalid ↔ ¬ (1 ≤ limit ≤ 100 ∧ is_Some (PEEK table)).
Proof.
  unfold raw_peek. rewrite <-not_eq_None_Some.
  destruct ((1 <=? limit) && (limit <=? 100)) eqn:Hl; [|split; [intros _; lia|done]].
  destruct (PEEK table) as [p|]; [|split; [tauto|done]].
  destruct (fetch _ _); split; try done; intros []; split; by try lia.
Qed.

(** C40. The route shows the newest rows of the table: as many as there are up to the limit, newest
    first, none older than one it leaves out, each with one value per column; or it tells the
    database's error. The database is any that answers the SELECT texts it is sent as SQL says. *)
Theorem raw_peek_spec fetch tables table limit p :
  PEEK table = Some p → 1 ≤ limit ≤ 100 → answers_selects tables fetch →
  let stored := tables (ps_relation p) in
  match raw_peek fetch table limit with
  | Peeked table' n columns rows =>
      table' = table ∧ columns = ps_columns p ∧ n = Z.of_nat (length rows) ∧ n = limit `min` Z.of_nat (length stored)
      ∧ Forall (λ r, length r = length columns) rows
      ∧ ∃ top rest, stored ≡ₚ top ++ rest ∧ rows = (λ d, (λ c, shown_cell (rec_get c d)) <$> columns) <$> top
        ∧ StronglySorted (newest_first (ps_order p)) top ∧ ∀ a b, a ∈ top → b ∈ rest → newest_first (ps_order p) a b
  | PeekFailed detail => ∃ e, fetch (peek_sql p) limit = Raise e ∧ detail = "raw peek failed: " +:+ exn_str e
  | PeekInvalid => False
  end.
Proof.
  intros Hp Hl Hdb stored. unfold raw_peek. rewrite Hp. replace ((1 <=? limit) && (limit <=? 100)) with true by lia.
  destruct (fetch (peek_sql p) limit) as [rows|e] eqn:Hf; [|by eexists].
  destruct (Hdb _ _ _ _ (peek_sql_reads _ _ Hp) Hf) as (top & rest & Hrows & Hperm & Hsort & Hlen & Hnew).
  cbn [sel_columns sel_relation sel_order sel_limited] in *. fold stored in Hperm, Hlen.
  rewrite (shown_all_projected _ _ _ Hrows), length_fmap. split_and!; [done..| | |].
  - lia.
  - apply Forall_fmap, Forall_forall. intros r _. cbn. by rewrite length_fmap.
  - exists top, rest. split_and!; [done|done| |intros a b Ha Hb; by apply in_order_newest_first, Hnew].
    apply Sorted_StronglySorted in Hsort; [|apply _]. clear -Hsort.
    induction Hsort as [|d top _ IH Hd]; constructor; [done|]. apply (Forall_impl _ _ _ Hd). intros b. apply in_order_newest_first.
Qed.

(** ** Examples *)

Definition stored_cash : list (list (string * cell)) :=
  [[("ts", CNone); ("type", COther (PStr "FEE"))];
   [("ts", CDatetime (day_usec * 20681) (Some 0)); ("amount", CDecimal (FDec (-125) (-1)))];
   [("ts", CDatetime (day_usec * 20682 + 5) (Some (-14400))); ("symbol", CBytes (String (ascii_of_N 255) "A"))]].

Definition cash_database : string → list (list (string * cell)) :=
  λ rel, if decide (rel = "raw_broker.transactions") then stored_cash else [].

Example reads_ascending :
  parse_select "SELECT ts, amount FROM raw_broker.transactions ORDER BY ts ASC"
  = Some (mkSelect ["ts"; "amount"] "raw_broker.transactions" (Some ("ts", false, true)) false).
Proof. reflexivity. Qed.

Example shown_rows :
  raw_peek (sorting_database cash_database) "transactions" 2
  = Peeked "transactions" 2 ["ts"; "account_id"; "amount"; "type"; "description"; "currency"; "symbol"]
      [[PStr "2026-08-17T00:00:00.000005-04:00"; PNone; PNone; PNone; PNone; PNone; PStr (replacement +:+ "A")];
       [PStr "2026-08-16T00:00:00+00:00"; PNone; PFloat (FDec (-125) (-1)); PNone; PNone; PNone; PNone]].
Proof. vm_compute. reflexivity. Qed.

Lemma raw_peek_spec_witness :
  ∃ n rows, n = 2
    ∧ raw_peek (sorting_database cash_database) "transactions" 2
      = Peeked "transactions" n ["ts"; "account_id"; "amount"; "type"; "description"; "currency"; "symbol"] rows.
Proof.
  pose proof (raw_peek_spec (sorting_database cash_database) cash_database "transactions" 2 _ eq_refl ltac:(lia)
    (sorting_database_selects cash_database)) as H.
  destruct (raw_peek _ _ _) as [table n columns rows|d|].
  - destruct H as (-> & -> & _ & Hn & _). exists n, rows. split; [exact Hn|reflexivity].
  - destruct H as (e & He & _). discriminate He.
  - destruct H.
Defined.
