(* ===== verification/Worker.v ===== *)
(** * The worker ([worker/loop.py])

    The connection that is re-opened when Postgres goes away, the loop's two halves
    around the dispatch of a job, and the step relation of the whole system: one
    worker (the deployment runs a single replica, recreated), any number of API
    and scheduler clients, crashes and lost answers. *)
From S2P Require Import Prelude Pytext PyVal Json Retry JobQueue Pytime Ddl Handlers Cron Schedule.

(** ** [WorkerDb.call] *)

(** What happens to one try, besides what the operation itself does: the connection
    cannot be opened; it is lost before the operation commits; it is lost after,
    so that the effect stays and the answer does not come back. *)
Inductive fault := NoFault | ConnectFails (e : exn) | LostBefore (e : exn) | LostAfter (e : exn).

Definition RECONNECT_DELAYS : list Z := [5; 10; 20; 40; 60].

(** The connection: open or not, and how often it was re-opened. *)
Record wdb := mkWdb { db_open : bool; db_reconnects : Z }.

(** The classes the loop catches. *)
Definition lost (e : exn) : bool := bool_decide (exn_cls e = OperationalError ∨ exn_cls e = InterfaceError).

Section db_call.
Context {S A : Type} (op : S → res A * S).

(** One try: the answer, the state left behind. A fault to connect only strikes when
    there is no connection. *)
Definition db_try (f : fault) (i : Z) (c : wdb) (s : S) : res A * wdb * S :=
  let c' := if db_open c then c else mkWdb true (db_reconnects c + if 0 <? i then 1 else 0) in
  match f with
  | ConnectFails e => if db_open c then (let '(r, s') := op s in (r, c', s')) else (Raise e, c, s)
  | LostBefore e => (Raise e, c', s)
  | LostAfter e => (Raise e, c', (op s).2)
  | NoFault => let '(r, s') := op s in (r, c', s')
  end.

(** The loop over the delays: [faults i] strikes try [i]; the seconds slept are added up. *)
Fixpoint db_loop (faults : Z → fault) (delays : list Z) (i : Z) (last : option exn) (slept : Z) (c : wdb) (s : S)
    : res A * wdb * S * Z :=
  match delays with
  | [] =>
      (Raise (Exn RuntimeError ("postgres unavailable after 5 reconnects: "
                                +:+ match last with Some e => exn_str e | None => "None" end)), c, s, slept)
  | d :: delays' =>
      match db_try (faults i) i c s with
      | (Raise e, c', s') =>
          if lost e then db_loop faults delays' (i + 1) (Some e) (slept + d) (mkWdb false (db_reconnects c')) s'
          else (Raise e, c', s', slept + d)
      | (Ok a, c', s') => (Ok a, c', s', slept + d)
      end
  end.

Definition db_call (faults : Z → fault) (c : wdb) (s : S) : res A * wdb * S * Z :=
  db_loop faults (0 :: RECONNECT_DELAYS) 0 None 0 c s.

(** [n] applications of the operation. *)
Fixpoint apply_n (n : nat) (s : S) : S := match n with O => s | Datatypes.S n' => apply_n n' (op s).2 end.

Lemma db_try_spec f i c s r c' s' :
  db_try f i c s = (r, c', s') →
  (∃ k, (k ≤ 1)%nat ∧ s' = apply_n k s ∧ (is_ok r = true → k = 1%nat ∧ r = (op s).1)).
Proof.
  unfold db_try. destruct f as [|e|e|e]; [| destruct (db_open c)| |];
    try (destruct (op s) as [r0 s0] eqn:E); intros; simplify_eq;
    first [by (exists 1%nat; cbn; rewrite ?E; repeat split; auto with lia)
          | by (exists 0%nat; cbn; repeat split; auto with lia)].
Qed.

Lemma db_loop_spec faults delays i last slept c s r c' s' slept' :
  Forall (λ d, 0 ≤ d) delays →
  db_loop faults delays i last slept c s = (r, c', s', slept') →
  slept ≤ slept' ≤ slept + foldr Z.add 0 delays
  ∧ ∃ k, (k ≤ length delays)%nat ∧ s' = apply_n k s
    ∧ match r with
      | Ok a => ∃ j, k = Datatypes.S j ∧ (op (apply_n j s)).1 = Ok a
      | Raise e => lost e = false
      end.
Proof.
  revert i last slept c s. induction delays as [|d delays IH]; intros i last slept c s Hd; cbn [db_loop foldr length].
  - intros. simplify_eq. split; [lia|]. exists 0%nat. by repeat split.
  - apply Forall_cons in Hd as [Hd Hds].
    assert (0 ≤ foldr Z.add 0 delays) as Hsum by (clear -Hds; induction Hds; cbn in *; lia).
    destruct (db_try (faults i) i c s) as [[r1 c1] s1] eqn:Ht.
    apply db_try_spec in Ht as (k1 & Hk1 & -> & Hr1). destruct r1 as [a|e].
    + intros. simplify_eq. split; [lia|]. destruct (Hr1 eq_refl) as [-> Ha]. exists 1%nat.
      repeat split; [lia|]. exists 0%nat. by split.
    + destruct (lost e) eqn:He.
      * intros Hl. apply IH in Hl as (Hs & k & Hk & -> & Hr); [|done]. split; [lia|].
        exists (k1 + k)%nat. split; [lia|].
        assert (∀ a b s, apply_n (a + b) s = apply_n b (apply_n a s)) as Hadd.
        { induction a as [|a IHa]; intros b s0; [done|]. apply IHa. }
        split; [by rewrite Hadd|]. destruct r as [a|]; [|done]. destruct Hr as (j & -> & Ha).
        exists (k1 + j)%nat. split; [lia|]. by rewrite Hadd.
      * intros. simplify_eq. split; [lia|]. exists k1. repeat split; [lia|done].
Qed.
End db_call.

(** ** Configuration *)

Section config.
Context `{PyRepr}.

(** [_stale_after_sec]: the configuration, or the environment's text. *)
Definition stale_after_sec (worker_cfg : pydict) (env : pyval) : res Z :=
  let raw := py_or (dict_get "stale_running_sec" worker_cfg) env in
  if is_none raw || prints_blank raw then Ok DEFAULT_STALE_RUNNING_SEC
  else try_except [TypeError; ValueError] (Z.max 60 <$> py_int raw) (λ _, Ok DEFAULT_STALE_RUNNING_SEC).

Record worker_config := mkWorkerConfig {
  wc_stale_sec : Z;
  wc_requeue_sec : Z;
  wc_policy : RetryPolicy;
  wc_reclaim_every : Z;
  wc_grace_sec : Z;
  wc_schedule : pydict
}.

(** The settings [run_forever] reads: [worker_cfg] is the [worker] mapping of the
    configuration, [sched] the [scheduler] mapping of the schedule file. *)
Definition load_worker_config (worker_cfg sched : pydict) (env_stale : pyval) : res worker_config :=
  stale ← stale_after_sec worker_cfg env_stale;
  requeue ← py_int (py_or (dict_get "reclaim_requeue_sec" worker_cfg) (PInt DEFAULT_RECLAIM_REQUEUE_SEC));
  r1 ← dict_or_empty (dict_get "retry" sched);
  r2 ← dict_or_empty (dict_get "retry" worker_cfg);
  policy ← from_config (dict_merge r1 r2);
  every ← py_int (py_or (dict_get "reclaim_every_n_idle" worker_cfg) (PInt 12));
  grace ← catchup_grace_sec sched;
  Ok (mkWorkerConfig stale requeue policy (Z.max 1 every) grace sched).
End config.

(** ** What becomes of an attempt *)

Inductive verdict :=
| VDone (result : pydict)
| VRetry (error category : string) (delay cooldown : Z)
| VFailed (error category : string).

(** The [except] branch's plan, or the result. *)
Definition judge (p : RetryPolicy) (c : claimed) (r : res pydict) : verdict :=
  match r with
  | Ok result => VDone result
  | Raise e =>
      let msg := exn_str e in
      let plan := plan_retry (classify_flex_error msg) (c_attempts c) (c_max_attempts c) p in
      if retry plan then VRetry msg (category_value (category plan)) (delay_sec plan) (cooldown_all_sec plan)
      else VFailed msg (category_value (category plan))
  end.

(** [mark_done], [mark_retry] or [mark_failed]. *)
Definition mark (t jid : Z) (v : verdict) (q : queue) : res queue :=
  match v with
  | VDone result => mark_done t jid result q
  | VRetry error category delay _ => mark_retry t jid error category delay q
  | VFailed error category => mark_failed t jid error (Some category) q
  end.

(** [if plan.cooldown_all_sec]. *)
Definition cooldown (v : verdict) : option Z :=
  match v with VRetry _ _ _ d => if d =? 0 then None else Some d | _ => None end.

(** ** One round of the loop *)

Record worker := mkWorker {
  w_queue : queue;
  w_fresh : gmap string freshness;
  w_beats : gmap string heartbeat;
  w_idle : Z;
  w_counts : counters
}.

(** The clocks a round reads, what other transactions hold locked, and whether the outcome
    of a failed attempt, written on a connection of its own, gets to the freshness table
    ([record_ingest_outcome]; the loop only logs its failure). *)
Record tick_clock := mkTick {
  tk_select : Z; tk_claim : Z; tk_locked : gset Z;
  tk_now : Z; tk_today : string; tk_insert : nat → Z; tk_reclaim : Z;
  tk_mark : Z; tk_defer : Z; tk_fresh : Z; tk_beat : Z; tk_outcome : bool
}.

Section loop.
Context `{PyRepr, Sha256, ZoneDb} (cfg : worker_config) (catchup_enabled : bool) (pod version : string) (started_at : Z).

(** [heartbeat()]. *)
Definition beat (t : Z) (w : worker) : worker :=
  mkWorker (w_queue w) (w_fresh w) (record_heartbeat t (w_counts w) pod version started_at (w_beats w))
    (w_idle w) (w_counts w).

Definition add_reclaimed (n : Z) (c : counters) : counters :=
  mkCounters (n_done c) (n_failed c) (n_retried c) (n_catchups c) (n_reclaimed c + n) (n_reconnects c)
    (last_kind c) (last_claim_at c) (last_error c) (last_error_category c).
Definition add_catchups (n : Z) (c : counters) : counters :=
  mkCounters (n_done c) (n_failed c) (n_retried c) (n_catchups c + n) (n_reclaimed c) (n_reconnects c)
    (last_kind c) (last_claim_at c) (last_error c) (last_error_category c).

(** Start: the reclaim of what an earlier process left running. *)
Definition worker_start (t t_beat : Z) (q : queue) (fresh : gmap string freshness) (beats : gmap string heartbeat) : worker :=
  let '(ids, q1) := reclaim_stale_running t (wc_stale_sec cfg) (wc_requeue_sec cfg) q in
  beat t_beat (mkWorker q1 fresh beats 0 (add_reclaimed (Z.of_nat (length ids)) (mkCounters 0 0 0 0 0 0 None "" "" ""))).

(** Nothing to claim: every [reclaim_every] rounds, reclaim, catch up and beat. *)
Definition idle_round (k : tick_clock) (w : worker) : worker :=
  let idle := w_idle w + 1 in
  if idle <? wc_reclaim_every cfg then mkWorker (w_queue w) (w_fresh w) (w_beats w) idle (w_counts w)
  else
    let '(more, q1) := reclaim_stale_running (tk_reclaim k) (wc_stale_sec cfg) (wc_requeue_sec cfg) (w_queue w) in
    let c1 := add_reclaimed (Z.of_nat (length more)) (w_counts w) in
    let '(q2, c2) :=
      if catchup_enabled then
        match catchup_missed_slots (tk_today k) (tk_insert k) (wc_schedule cfg) (tk_now k) (wc_grace_sec cfg) q1 with
        | (Ok caught, q2) => (q2, add_catchups (Z.of_nat (length caught)) c1)
        | (Raise _, q2) => (q2, c1)
        end
      else (q1, c1) in
    beat (tk_beat k) (mkWorker q2 (w_fresh w) (w_beats w) 0 c2).

(** The first half of a round: claim, or be idle. *)
Definition begin_round (k : tick_clock) (w : worker) : res (option claimed * worker) :=
  '(job, q1) ← claim_next (tk_select k) (tk_claim k) (tk_locked k) (w_queue w);
  match job with
  | None => Ok (None, idle_round k (mkWorker q1 (w_fresh w) (w_beats w) (w_idle w) (w_counts w)))
  | Some c =>
      let n := w_counts w in
      Ok (Some c, mkWorker q1 (w_fresh w) (w_beats w) 0
            (mkCounters (n_done n) (n_failed n) (n_retried n) (n_catchups n) (n_reclaimed n) (n_reconnects n)
               (Some (c_kind c)) (iso_instant (tk_now k)) (last_error n) (last_error_category n)))
  end.

(** The counters after a verdict. *)
Definition count (v : verdict) (n : counters) : counters :=
  match v with
  | VDone _ =>
      mkCounters (n_done n + 1) (n_failed n) (n_retried n) (n_catchups n) (n_reclaimed n) (n_reconnects n)
        (last_kind n) (last_claim_at n) "" ""
  | VRetry e c _ _ =>
      mkCounters (n_done n) (n_failed n) (n_retried n + 1) (n_catchups n) (n_reclaimed n) (n_reconnects n)
        (last_kind n) (last_claim_at n) (utake 500 e) c
  | VFailed e c =>
      mkCounters (n_done n) (n_failed n + 1) (n_retried n) (n_catchups n) (n_reclaimed n) (n_reconnects n)
        (last_kind n) (last_claim_at n) (utake 500 e) c
  end.

(** The second half: the dispatch of [c] gave [r] (with the freshness table it left). *)
Definition finish_round (k : tick_clock) (c : claimed) (r : res (pydict * gmap string freshness)) (w : worker)
    : res worker :=
  let v := judge (wc_policy cfg) c (fst <$> r) in
  q1 ← mark (tk_mark k) (c_id c) v (w_queue w);
  let q2 := match cooldown v with
            | Some d => (defer_pending (tk_defer k) d (Some (c_id c)) q1).2
            | None => q1
            end in
  let fresh := match r, v with
               | Ok (_, tb), _ => tb
               | Raise _, (VRetry e cat _ _ | VFailed e cat) =>
                   if tk_outcome k then record_ingest_outcome (tk_fresh k) (c_kind c) false (Some (cat +:+ ": " +:+ e)) (Some (c_id c)) (w_fresh w)
                   else w_fresh w
               | Raise _, VDone _ => w_fresh w
               end in
  Ok (beat (tk_beat k) (mkWorker q2 fresh (w_beats w) (w_idle w) (count v (w_counts w)))).
End loop.

(** What the health server answers from the counters ([worker/health.py]); [None] is its
    404. *)
Definition health (path : string) (n : counters) : option pydict :=
  if decide (path ∈ ["/health"; "/healthz"; "/ready"]) then
    Some [("ok", PBool true); ("status", PStr "ok"); ("pool", PStr "flex"); ("jobs_done", PInt (n_done n));
          ("jobs_failed", PInt (n_failed n)); ("jobs_retried", PInt (n_retried n));
          ("last_kind", PStr (default "" (last_kind n))); ("last_claim_at", PStr (last_claim_at n));
          ("last_error", PStr (last_error n)); ("last_error_category", PStr (last_error_category n));
          ("stale_reclaimed", PInt (n_reclaimed n)); ("db_reconnects", PInt (n_reconnects n))]
  else None.

(** ** The system *)

(** Where the worker is. [Marking] is the retried [db.call] of the verdict: its effect
    may have been applied already. [Cooling] is the one of the deferral. *)
Inductive phase :=
| Idle
| Busy (c : claimed)
| Marking (c : claimed) (v : verdict)
| Cooling (c : claimed) (delay : Z).

Record sys := mkSys { s_queue : queue; s_phase : phase }.

Definition empty_sys : sys := mkSys empty_queue Idle.

(** A statement of a client: an enqueue (of the API, the scheduler or the catch-up), a
    manual run recorded, and its end marked (once, but maybe after a reclaim took the run
    for dead), a run-now, a trim. *)
Inductive client_step `{PyRepr, Sha256} : queue → queue → Prop :=
| client_insert t kind payload priority maxa hp q r q' :
    insert_job t kind payload priority maxa hp q = Ok (r, q') → client_step q q'
| client_manual t kind payload q i q' :
    insert_manual_job t kind payload q = Ok (i, q') → client_step q q'
| client_manual_end t i j v q q' :
    q_rows q !! i = Some j → j_hash j = None → j_status j ≠ Done → (∀ e c d x, v ≠ VRetry e c d x) →
    mark t i v q = Ok q' → client_step q q'
| client_run_now now t i force q : client_step q (run_job_now now t i force q).2
| client_trim t days keep q n q' : trim_old_jobs t days keep q = Ok (n, q') → client_step q q'.

Definition after_mark (c : claimed) (v : verdict) : phase :=
  match cooldown v with Some d => Cooling c d | None => Idle end.

Inductive sys_step `{PyRepr, Sha256} (p : RetryPolicy) : sys → sys → Prop :=
| sys_client q q' ph : client_step q q' → sys_step p (mkSys q ph) (mkSys q' ph)
| sys_claim t t' locked q c q' :
    claim_next t t' locked q = Ok (Some c, q') → sys_step p (mkSys q Idle) (mkSys q' (Busy c))
| sys_claim_lost t t' locked q c q' :
    claim_next t t' locked q = Ok (Some c, q') → sys_step p (mkSys q Idle) (mkSys q' Idle)
| sys_reclaim t stale_s delay q :
    sys_step p (mkSys q Idle) (mkSys (reclaim_stale_running t stale_s delay q).2 Idle)
| sys_judge q c r : sys_step p (mkSys q (Busy c)) (mkSys q (Marking c (judge p c r)))
| sys_mark_again t q c v q' :
    mark t (c_id c) v q = Ok q' → sys_step p (mkSys q (Marking c v)) (mkSys q' (Marking c v))
| sys_mark t q c v q' :
    mark t (c_id c) v q = Ok q' → sys_step p (mkSys q (Marking c v)) (mkSys q' (after_mark c v))
| sys_defer_again t q c d :
    sys_step p (mkSys q (Cooling c d)) (mkSys (defer_pending t d (Some (c_id c)) q).2 (Cooling c d))
| sys_defer t q c d :
    sys_step p (mkSys q (Cooling c d)) (mkSys (defer_pending t d (Some (c_id c)) q).2 Idle)
| sys_crash q ph : sys_step p (mkSys q ph) (mkSys q Idle).

(** ** The invariant *)

(** How many attempts a job may use up. *)
Definition budget (j : job) : Z := Z.max 1 (effective_max j).

Record row_ok (j : job) : Prop := mkRowOk {
  row_attempts : 0 ≤ j_attempts j ≤ budget j;
  row_pending : j_status j = Pending → j_attempts j < budget j ∧ is_Some (j_hash j);
  row_running : j_status j = Running → 1 ≤ j_attempts j;
  row_manual_max : j_hash j = None → j_max_attempts j = 1 ∧ j_attempts j = 1;
  row_max : fits_smallint (j_max_attempts j) = true
}.

(** The job the worker holds: its row is a queued one, at the attempt that was claimed. *)
Definition holds (c : claimed) (j : job) : Prop :=
  is_Some (j_hash j) ∧ j_attempts j = c_attempts c ∧ c_max_attempts c = effective_max j.

Definition target (v : verdict) : job_status :=
  match v with VDone _ => Done | VRetry _ _ _ _ => Pending | VFailed _ _ => Failed end.

Definition phase_ok (q : queue) (ph : phase) : Prop :=
  match ph with
  | Idle | Cooling _ _ => True
  | Busy c => ∃ j, q_rows q !! c_id c = Some j ∧ holds c j ∧ j_status j = Running
  | Marking c v =>
      c_id c < q_next q
      ∧ (target v = Pending → c_attempts c < c_max_attempts c)
      ∧ ∀ j, q_rows q !! c_id c = Some j → holds c j ∧ (j_status j = Running ∨ j_status j = target v)
  end.

Record sys_ok (s : sys) : Prop := mkSysOk {
  sys_queue_ok : queue_ok (s_queue s);
  sys_rows_ok : map_Forall (λ _, row_ok) (q_rows (s_queue s));
  sys_phase_ok : phase_ok (s_queue s) (s_phase s)
}.

(** ** Every row, across a step *)

(** What a step may do to a row, whoever does it. *)
Inductive row_step : option job → option job → Prop :=
| row_same o : row_step o o
| row_insert j :
    j_status j = Pending → j_attempts j = 0 → is_Some (j_hash j) → fits_smallint (j_max_attempts j) = true →
    row_step None (Some j)
| row_manual j :
    j_status j = Running → j_attempts j = 1 → j_max_attempts j = 1 → j_hash j = None → row_step None (Some j)
| row_touch j j' :
    j_status j' = j_status j → j_attempts j' = j_attempts j → j_hash j' = j_hash j → j_kind j' = j_kind j →
    j_max_attempts j' = j_max_attempts j → row_step (Some j) (Some j')
| row_manual_end j j' :
    j_hash j = None → j_status j ≠ Done →
    j_hash j' = None → j_attempts j' = j_attempts j → j_max_attempts j' = j_max_attempts j →
    (j_status j' = Done ∨ j_status j' = Failed) → row_step (Some j) (Some j')
| row_trim j : terminal j = true → row_step (Some j) None.

Lemma row_step_ok o o' : row_step o o' → (∀ j, o = Some j → row_ok j) → ∀ j, o' = Some j → row_ok j.
Proof.
  intros Hs Hok. destruct Hs as [o|j H1 H2 H3 H4|j H1 H2 H3 H4|j j' H1 H2 H3 H4 H5|j j' H1 Hnd H2 H3 H4 H5|j H1];
    intros j0 Hj0; simplify_eq; eauto.
  - split; unfold budget, effective_max in *; try congruence.
    + rewrite H2. lia.
    + intros _. rewrite H2. split; [lia|done].
    + intros E. rewrite E in H3. by destruct H3.
  - split; unfold budget, effective_max in *; rewrite ?H1, ?H2, ?H3; try done; lia.
  - destruct (Hok j eq_refl) as [Ha Hp Hr Hn Hm].
    split; unfold budget, effective_max in *; rewrite ?H1, ?H2, ?H3, ?H5; done.
  - destruct (Hok j eq_refl) as [Ha Hp Hr Hn Hm].
    split; unfold budget, effective_max in *; rewrite ?H3, ?H4; try done; try (by auto);
      destruct H5 as [E|E]; rewrite E; done.
Qed.

(** What became of a row that was there. *)
Lemma row_step_some j o' :
  row_step (Some j) o' →
  (∃ j', o' = Some j' ∧ j_status j' = j_status j ∧ j_attempts j' = j_attempts j ∧ j_hash j' = j_hash j
         ∧ j_kind j' = j_kind j ∧ j_max_attempts j' = j_max_attempts j)
  ∨ (j_hash j = None ∧ ∃ j', o' = Some j' ∧ j_hash j' = None)
  ∨ (terminal j = true ∧ o' = None).
Proof.
  intros Hs. remember (Some j) as o. destruct Hs; simplify_eq.
  - left. by exists j.
  - left. eexists. split; [reflexivity|]. by repeat split.
  - right. left. split; [done|]. by eexists.
  - by right; right.
Qed.

(** A row the step brought in. *)
Lemma row_step_none j' :
  row_step None (Some j') →
  (j_status j' = Pending ∧ j_attempts j' = 0 ∧ is_Some (j_hash j')) ∨ j_hash j' = None.
Proof.
  intros Hs. remember None as o. remember (Some j') as o'. destruct Hs; simplify_eq; [by left|by right].
Qed.

Lemma update_where_rows q cond f i :
  (∀ j, cond j = true → row_step (Some j) (Some (f j))) →
  row_step (q_rows q !! i) (q_rows (update_where q cond f).2 !! i).
Proof.
  intros Hf. rewrite update_where_lookup. destruct (q_rows q !! i) as [j|]; cbn; [|constructor].
  destruct (cond j) eqn:Hc; [by apply Hf|constructor].
Qed.

Lemma client_step_rows `{PyRepr, Sha256} q q' i :
  queue_ok q → client_step q q' → row_step (q_rows q !! i) (q_rows q' !! i).
Proof.
  intros Hok Hs.
  assert (q_rows q !! q_next q = None) as Hfresh.
  { destruct (q_rows q !! q_next q) eqn:E; [|done]. apply (ok_seq _ Hok) in E. lia. }
  destruct Hs as [t kind payload prio maxa hp qa r qb Hi|t kind payload qa i' qb Hi|t i' j v qa qb Hj Hh Hnd Hv Hm
                 |now t i' force qa|t days keep qa n qb Ht].
  - pose proof (insert_job_fits _ _ _ _ _ _ _ _ Hi) as [_ Hm].
    apply insert_job_inv in Hi as [(_ & _ & ->)|(_ & _ & ->)]; cbn; [constructor|].
    destruct (decide (q_next qa = i)) as [<-|Hne]; [|rewrite lookup_insert_ne by done; constructor].
    rewrite lookup_insert_eq, Hfresh. by constructor.
  - unfold insert_manual_job in Hi. case_decide; [done|]. simplify_eq. cbn.
    destruct (decide (q_next qa = i)) as [<-|Hne]; [|rewrite lookup_insert_ne by done; constructor].
    rewrite lookup_insert_eq, Hfresh. by apply row_manual.
  - assert (∃ f, update_row qa i' f = Ok qb ∧ (∀ j0, j_hash (f j0) = j_hash j0 ∧ j_attempts (f j0) = j_attempts j0
              ∧ j_max_attempts (f j0) = j_max_attempts j0 ∧ (j_status (f j0) = Done ∨ j_status (f j0) = Failed)))
      as (f & Hu & Hf).
    { destruct v as [res|e c d x|e c]; [|by destruct (Hv e c d x)|]; (eexists; split; [exact Hm|]); cbn; eauto. }
    apply update_row_inv in Hu as [[-> Hn]|(j0 & Hj0 & _ & ->)]; [constructor|]. cbn. simplify_eq.
    destruct (decide (i' = i)) as [<-|Hne]; [|rewrite lookup_insert_ne by done; constructor].
    rewrite lookup_insert_eq, Hj. destruct (Hf j) as (H1 & H2 & H3 & H4). apply row_manual_end; congruence || done.
  - unfold run_job_now. destruct (run_now_check _ _ _); [|constructor..].
    apply update_where_rows. intros j _. by apply row_touch.
  - destruct (trim_row _ _ _ _ _ _ i Hok Ht) as [->|(j & -> & Hterm & ->)]; [constructor|by constructor].
Qed.

(** A client keeps the table well-formed, and gives a new row a new id. *)
Lemma client_step_ok `{PyRepr, Sha256} q q' :
  client_step q q' → queue_ok q →
  queue_ok q' ∧ q_next q ≤ q_next q' ∧ ∀ i j, q_rows q' !! i = Some j → q_rows q !! i = None → q_next q ≤ i.
Proof.
  destruct 1 as [t kind payload prio maxa hp qa r qb Hi|t kind payload qa i' qb Hi|t i' j v qa qb Hj Hh Hnd Hv Hm
                 |now t i' force qa|t days keep qa n qb Ht]; intros Hok.
  - split; [by eapply insert_job_ok|]. apply insert_job_inv in Hi as [(_ & _ & ->)|(_ & _ & ->)]; cbn;
      (split; [lia|]); intros i j; [congruence|]. rewrite lookup_insert_Some. intros [[<- _]|[_ ?]]; [lia|congruence].
  - split; [by eapply insert_manual_job_ok|]. unfold insert_manual_job in Hi. case_decide; simplify_eq. cbn.
    split; [lia|]. intros i j. rewrite lookup_insert_Some. intros [[<- _]|[_ ?]]; [lia|congruence].
  - assert (∃ f, update_row qa i' f = Ok qb ∧ ∀ j, j_id (f j) = j_id j) as (f & Hu & Hf)
      by (destruct v; eexists; (split; [exact Hm|done])).
    split; [by eapply update_row_ok|]. apply update_row_inv in Hu as [[-> _]|(? & ? & ? & ->)]; cbn;
      (split; [lia|]); intros i j0; [congruence|]. rewrite lookup_insert_Some. intros [[<- _]|[_ ?]]; congruence.
  - split; [by apply run_job_now_ok|]. unfold run_job_now.
    destruct (run_now_check _ _ _); cbn; (split; [lia|]); intros i j; [|congruence..].
    rewrite lookup_fmap. intros Hj Hn. by rewrite Hn in Hj.
  - split; [by eapply trim_ok|]. split.
    + unfold trim_old_jobs in Ht. case_match; simplify_eq. cbn. lia.
    + intros i j Hj Hn. destruct (trim_row _ _ _ _ _ _ i Hok Ht) as [E|(? & ? & ? & ?)]; congruence.
Qed.

(** ** The invariant holds in every reachable state *)

Section invariant.
Context `{PyRepr, Sha256} (p : RetryPolicy).

Lemma empty_sys_ok : sys_ok empty_sys.
Proof. split; [apply empty_queue_ok|apply map_Forall_empty|done]. Qed.

(** A step of a client leaves the held job alone. *)
Lemma phase_ok_client q q' ph :
  (∀ i, row_step (q_rows q !! i) (q_rows q' !! i)) → q_next q ≤ q_next q' →
  (∀ i j, q_rows q' !! i = Some j → q_rows q !! i = None → q_next q ≤ i) →
  phase_ok q ph → phase_ok q' ph.
Proof.
  intros Hrow Hnext Hnew. destruct ph as [|c|c v|c d]; try done; cbn.
  - intros (j & Hj & (Hh & Ha & Hm) & Hst). specialize (Hrow (c_id c)). rewrite Hj in Hrow.
    apply row_step_some in Hrow as [(j' & -> & H1 & H2 & H3 & _ & H5)|[[Hn _]|[Ht _]]].
    + exists j'. unfold holds, effective_max in *. rewrite H1, H2, H3, H5. by repeat split.
    + rewrite Hn in Hh. by destruct Hh.
    + unfold terminal, active in Ht. by rewrite Hst in Ht.
  - intros (Hlt & Hp & Hall). split; [lia|]. split; [done|]. intros j Hj. specialize (Hrow (c_id c)).
    destruct (q_rows q !! c_id c) as [j0|] eqn:Hj0; [|specialize (Hnew _ _ Hj Hj0); lia].
    destruct (Hall j0 eq_refl) as [(Hh & Ha & Hm) Hst]. rewrite Hj in Hrow.
    apply row_step_some in Hrow as [(j' & E & H1 & H2 & H3 & _ & H5)|[[Hn _]|[_ ?]]]; [|by rewrite Hn in Hh; destruct Hh|done].
    simplify_eq. unfold holds, effective_max in *. rewrite H1, H2, H3, H5. by repeat split.
Qed.

Lemma rows_ok_step q q' :
  (∀ i, row_step (q_rows q !! i) (q_rows q' !! i)) →
  map_Forall (λ _, row_ok) (q_rows q) → map_Forall (λ _, row_ok) (q_rows q').
Proof. intros Hrow Hall i j Hj. eapply row_step_ok; [apply (Hrow i)| |done]. intros j' Hj'. by eapply Hall. Qed.

(** A claim that takes a job, in a well-formed state. *)
Lemma claim_some q t t' locked c q' :
  queue_ok q → claim_next t t' locked q = Ok (Some c, q') →
  ∃ j, q_rows q !! c_id c = Some j ∧ j_status j = Pending
    ∧ c = mkClaimed (j_id j) (j_kind j) (j_payload j) (j_attempts j + 1) (effective_max j)
    ∧ q' = mkQueue (<[c_id c := start_row t' j]> (q_rows q)) (q_next q).
Proof.
  intros Hok [(? & _)|(j & Hs & Hc & _ & Hu)]%claim_next_inv; [done|].
  apply (select_next_spec _ _ _ _ Hok) in Hs as (Hj & Hcl & _). simplify_eq. cbn.
  apply update_row_inv in Hu as [[_ Hu]|(j2 & Hj2 & _ & ->)]; [congruence|].
  rewrite Hj in Hj2. simplify_eq. exists j2. unfold claimable in Hcl. bool_hyps. done.
Qed.

Lemma start_row_ok t j : row_ok j → j_status j = Pending → row_ok (start_row t j).
Proof.
  intros [Ha Hp Hr Hn Hm] Hst. destruct (Hp Hst) as [Hb Hh].
  split; unfold budget, effective_max in *; cbn; try done; try lia.
  intros E. rewrite E in Hh. by destruct Hh.
Qed.

(** A marked row. *)
Lemma mark_row t i v : ∃ f, (∀ q, mark t i v q = update_row q i f)
  ∧ ∀ j, j_id (f j) = j_id j ∧ j_kind (f j) = j_kind j ∧ j_hash (f j) = j_hash j ∧ j_attempts (f j) = j_attempts j
         ∧ j_max_attempts (f j) = j_max_attempts j ∧ j_status (f j) = target v.
Proof. destruct v; cbn; eexists; (split; [intros q; unfold mark_done, mark_retry, mark_failed; reflexivity|done]). Qed.

Lemma claim_keeps q t t' locked c q' :
  sys_ok (mkSys q Idle) → claim_next t t' locked q = Ok (Some c, q') →
  sys_ok (mkSys q' Idle) ∧ phase_ok q' (Busy c).
Proof.
  intros [Hok Hrows _] Hc. destruct (claim_some _ _ _ _ _ _ Hok Hc) as (j & Hj & Hst & Ec & Eq').
  assert (queue_ok q') as Hok' by (by eapply claim_next_ok). cbn in *.
  assert (c_max_attempts c = effective_max j ∧ c_attempts c = j_attempts j + 1) as [Em Ea] by (by rewrite Ec).
  clear Ec. split; [split; [done| |done]|]; cbn.
  - rewrite Eq'. cbn. apply map_Forall_insert_2; [|done]. apply start_row_ok; [by eapply (Hrows _ _ Hj)|done].
  - exists (start_row t' j). rewrite Eq'. cbn. rewrite lookup_insert_eq. split; [done|].
    split; [|done]. split; [by apply (row_pending _ (Hrows _ _ Hj))|]. split; [cbn; lia|exact Em].
Qed.

Lemma mark_keeps q t c v q' :
  sys_ok (mkSys q (Marking c v)) → mark t (c_id c) v q = Ok q' → sys_ok (mkSys q' (Marking c v)).
Proof.
  intros [Hok Hrows (Hlt & Hp & Hall)] Hm. cbn in *.
  destruct (mark_row t (c_id c) v) as (f & Hf & Hrow). rewrite Hf in Hm.
  assert (queue_ok q') as Hok' by (eapply update_row_ok; [exact Hok| |exact Hm]; intros; apply Hrow).
  apply update_row_inv in Hm as [[-> Hn]|(j & Hj & _ & ->)]; [split; cbn; [done..|]; done|].
  destruct (Hall _ Hj) as [(Hh & Ha & Hmax) Hst]. destruct (Hrow j) as (_ & _ & Rh & Ra & Rm & Rs).
  destruct (Hrows _ _ Hj) as [Ra' Rp Rr Rn Rmax]. split; cbn; [done| |].
  - apply map_Forall_insert_2; [|done]. unfold budget, effective_max in *.
    split; unfold budget, effective_max; rewrite ?Rh, ?Ra, ?Rm, ?Rs; try done.
    + intros Ht. specialize (Hp Ht). split; [|done]. lia.
    + intros Ht. by destruct v.
  - split; [done|]. split; [done|]. intros j'. rewrite lookup_insert_eq. intros [= <-].
    unfold holds, effective_max in *. rewrite Rh, Ra, Rm. split; [done|by right].
Qed.

Lemma defer_keeps t q c d :
  sys_ok (mkSys q (Cooling c d)) →
  let q' := (defer_pending t d (Some (c_id c)) q).2 in
  queue_ok q' ∧ map_Forall (λ _, row_ok) (q_rows q').
Proof.
  intros [Hok Hrows _] q'. split; [by apply defer_ok|]. eapply rows_ok_step; [|exact Hrows].
  intros i. apply update_where_rows. intros j _. by apply row_touch.
Qed.

Lemma sys_step_ok s s' : sys_step p s s' → sys_ok s → sys_ok s'.
Proof.
  destruct 1 as [q q' ph Hc|t t' locked q c q' Hc|t t' locked q c q' Hc|t st d q|q c r|t q c v q' Hm|t q c v q' Hm
                |t q c d|t q c d|q ph]; intros Hs.
  - destruct Hs as [Hok Hrows Hph]. cbn in *. pose proof (client_step_ok _ _ Hc Hok) as (Hok' & Hn & Hnew).
    assert (∀ i, row_step (q_rows q !! i) (q_rows q' !! i)) as Hrow by (intros; by apply client_step_rows).
    split; [done|by eapply rows_ok_step|]. by eapply phase_ok_client.
  - destruct (claim_keeps _ _ _ _ _ _ Hs Hc) as [[Ha Hb _] Hd]. by split.
  - by destruct (claim_keeps _ _ _ _ _ _ Hs Hc).
  - destruct Hs as [Hok Hrows Hph]. cbn [s_queue] in *. split; cbn [s_queue s_phase]; [by apply reclaim_ok| |done].
    intros i j'. unfold reclaim_stale_running. rewrite update_where_lookup.
    destruct (q_rows q !! i) as [j|] eqn:Hj; cbn; [|done]. intros [= <-]. specialize (Hrows _ _ Hj).
    destruct (stale _ _ _) eqn:Hst; [|done]. unfold stale in Hst. bool_hyps.
    destruct Hrows as [Ha Hp Hr Hn Hm].
    split; unfold budget, effective_max in *; cbn; try done.
    + destruct (j_attempts j <? j_max_attempts j) eqn:Hlt; bool_hyps; [|done]. intros _. split.
      * destruct (j_max_attempts j =? 0) eqn:E; bool_hyps; lia.
      * destruct (j_hash j); [by eexists|]. destruct (Hn eq_refl). lia.
    + destruct (_ <? _); done.
  - destruct Hs as [Hok Hrows (j & Hj & Hh & Hst)]. cbn in *. split; cbn; [done..|].
    split; [by eapply ok_seq|]. split.
    + unfold judge. destruct r as [out|e]; [done|]. rewrite plan_retry_retry.
      destruct (bool_decide _ && _) eqn:E; [|done]. bool_hyps. done.
    + intros j' Hj'. simplify_eq. split; [done|by left].
  - by eapply mark_keeps.
  - destruct (mark_keeps _ _ _ _ _ Hs Hm) as [Ha Hb _]. split; [done..|]. unfold after_mark. by destruct (cooldown v).
  - destruct (defer_keeps t q c d Hs). by split.
  - destruct (defer_keeps t q c d Hs). by split.
  - destruct Hs as [Ha Hb _]. by split.
Qed.
End invariant.

(** ** The abstract life of a job *)

(** No row; a queued job with its status, the attempts used and the budget; a manual run,
    which has no hash and is never claimed, with its status. *)
Inductive life := Absent | Queued (st : job_status) (used budget : Z) | ManualRun (st : job_status).

(** The specification: a job is enqueued with nothing used; each claim uses one
    attempt of a budget that has one left; a running job ends, fails or goes back,
    the latter only while attempts remain. A manual run starts running and ends done or
    failed; taken for dead it is failed, and may still end done later. Only a finished
    job can be forgotten. *)
Inductive life_step : life → life → Prop :=
| life_enqueue b : 1 ≤ b → life_step Absent (Queued Pending 0 b)
| life_claim n b : n < b → life_step (Queued Pending n b) (Queued Running (n + 1) b)
| life_done n b : life_step (Queued Running n b) (Queued Done n b)
| life_failed n b : life_step (Queued Running n b) (Queued Failed n b)
| life_retry n b : n < b → life_step (Queued Running n b) (Queued Pending n b)
| life_forget st n b : st = Done ∨ st = Failed → life_step (Queued st n b) Absent
| life_manual : life_step Absent (ManualRun Running)
| life_manual_done st : st = Running ∨ st = Failed → life_step (ManualRun st) (ManualRun Done)
| life_manual_failed : life_step (ManualRun Running) (ManualRun Failed)
| life_manual_forget st : st = Done ∨ st = Failed → life_step (ManualRun st) Absent.

Definition life_of_row (j : job) : life :=
  if j_hash j then Queued (j_status j) (j_attempts j) (budget j) else ManualRun (j_status j).

(** The life of the row with an id. *)
Definition life_of (q : queue) (i : Z) : life := from_option life_of_row Absent (q_rows q !! i).

Section refinement.
Context `{PyRepr, Sha256} (p : RetryPolicy).

Lemma life_of_insert q i j n : life_of (mkQueue (<[i := j]> (q_rows q)) n) i = life_of_row j.
Proof. unfold life_of. cbn. by rewrite lookup_insert_eq. Qed.

Lemma life_of_insert_ne q i i' j n : i ≠ i' → life_of (mkQueue (<[i := j]> (q_rows q)) n) i' = life_of q i'.
Proof. intros. unfold life_of. cbn. by rewrite lookup_insert_ne. Qed.

(** A manual run is never waiting. *)
Lemma manual_not_pending j : row_ok j → j_hash j = None → j_status j ≠ Pending.
Proof. intros Hok Hh Hst. destruct (row_pending _ Hok Hst) as [_ [h Hh']]. congruence. Qed.

Lemma row_step_life o o' :
  row_step o o' → (∀ j, o = Some j → row_ok j) →
  let life := from_option life_of_row Absent in life o = life o' ∨ life_step (life o) (life o').
Proof.
  intros Hs Hok. destruct Hs as [o|j H1 H2 H3 H4|j H1 H2 H3 H4|j j' H1 H2 H3 H4 H5|j j' H1 Hnd H2 H3 H4 H5|j H1];
    cbn; unfold life_of_row.
  - by left.
  - right. destruct H3 as [h Hh]. rewrite Hh, H1, H2. constructor. unfold budget. lia.
  - right. rewrite H4, H1. constructor.
  - left. unfold budget, effective_max. by rewrite H1, H2, H3, H5.
  - rewrite H1, H2. pose proof (manual_not_pending j (Hok j eq_refl) H1).
    destruct H5 as [-> | ->], (j_status j); try done; [right..|by left]; constructor; auto.
  - unfold terminal, active in H1. destruct (j_hash j), (j_status j); try done; right; constructor; auto.
Qed.

Lemma claim_life q t t' locked c q' i :
  sys_ok (mkSys q Idle) → claim_next t t' locked q = Ok (Some c, q') →
  life_of q i = life_of q' i ∨ life_step (life_of q i) (life_of q' i).
Proof.
  intros [Hok Hrows _] Hc. cbn [s_queue] in *. destruct (claim_some _ _ _ _ _ _ Hok Hc) as (j & Hj & Hst & _ & ->).
  destruct (decide (c_id c = i)) as [<-|Hne]; [right|left; by rewrite life_of_insert_ne].
  rewrite life_of_insert. destruct (row_pending _ (Hrows _ _ Hj) Hst) as [Hb [h Hh]].
  unfold life_of, life_of_row. rewrite Hj. cbn. rewrite Hh, Hst. by constructor.
Qed.

Lemma mark_life q t c v q' i :
  sys_ok (mkSys q (Marking c v)) → mark t (c_id c) v q = Ok q' →
  life_of q i = life_of q' i ∨ life_step (life_of q i) (life_of q' i).
Proof.
  intros [Hok Hrows (Hlt & Hp & Hall)] Hm. cbn in *.
  destruct (mark_row t (c_id c) v) as (f & Hf & Hrow). rewrite Hf in Hm.
  apply update_row_inv in Hm as [[-> Hn]|(j & Hj & _ & ->)]; [by left|].
  destruct (decide (c_id c = i)) as [<-|Hne]; [|left; by rewrite life_of_insert_ne].
  destruct (Hall _ Hj) as [([h Hh] & Ha & Hmax) Hst]. destruct (Hrow j) as (_ & _ & Rh & Ra & Rm & Rs).
  rewrite life_of_insert. unfold life_of, life_of_row. rewrite Hj. cbn. unfold life_of_row. rewrite Rh, Hh, Ra, Rs.
  assert (budget (f j) = budget j) as -> by (unfold budget, effective_max; by rewrite Rm).
  destruct Hst as [->| ->]; [right|by left].
  destruct v; cbn in *; constructor. specialize (Hp eq_refl). unfold budget. lia.
Qed.

Lemma update_where_life q cond f i :
  map_Forall (λ _, row_ok) (q_rows q) →
  (∀ j, row_ok j → cond j = true → life_of_row (f j) = life_of_row j ∨ life_step (life_of_row j) (life_of_row (f j))) →
  life_of q i = life_of (update_where q cond f).2 i ∨ life_step (life_of q i) (life_of (update_where q cond f).2 i).
Proof.
  intros Hrows Hf. unfold life_of. rewrite update_where_lookup. destruct (q_rows q !! i) as [j|] eqn:Hj; cbn; [|by left].
  destruct (cond j) eqn:Hc; [|by left]. destruct (Hf j (Hrows _ _ Hj) Hc) as [E|Hl]; [by left|by right].
Qed.

Lemma sys_step_life s s' i :
  sys_ok s → sys_step p s s' →
  life_of (s_queue s) i = life_of (s_queue s') i ∨ life_step (life_of (s_queue s) i) (life_of (s_queue s') i).
Proof.
  intros Hs Hstep. destruct Hstep as [q q' ph Hc|t t' locked q c q' Hc|t t' locked q c q' Hc|t st d q|q c r
    |t q c v q' Hm|t q c v q' Hm|t q c d|t q c d|q ph]; cbn [s_queue].
  - apply row_step_life; [apply client_step_rows; [apply Hs|done]|]. intros j Hj. by eapply (sys_rows_ok _ Hs).
  - by eapply claim_life.
  - by eapply claim_life.
  - apply update_where_life; [apply Hs|]. intros j [Ha Hp Hr Hn Hm] Hst. right.
    unfold stale in Hst. bool_hyps. unfold life_of_row. match goal with H : j_status j = Running |- _ => rewrite H end.
    unfold reclaim_row, finish_row. cbn. change (budget (mkJob _ _ _ _ _ _ _ _ _ _ _ _ _ _ _)) with (budget j).
    destruct (j_hash j); [|destruct (Hn eq_refl) as [-> ->]; constructor].
    destruct (j_attempts j <? j_max_attempts j) eqn:Hlt; bool_hyps; constructor.
    unfold budget, effective_max. destruct (j_max_attempts j =? 0) eqn:E; bool_hyps; lia.
  - by left.
  - by eapply mark_life.
  - by eapply mark_life.
  - apply update_where_life; [apply Hs|]. intros j _ _. by left.
  - apply update_where_life; [apply Hs|]. intros j _ _. by left.
  - by left.
Qed.

(** Statements that cannot fail. *)
Lemma claim_total q t t' locked :
  queue_ok q → map_Forall (λ _, row_ok) (q_rows q) → is_ok (claim_next t t' locked q) = true.
Proof.
  intros Hok Hrows. unfold claim_next. destruct (select_next t locked q) as [j|] eqn:Hs; [|done].
  apply (select_next_spec _ _ _ _ Hok) in Hs as (Hj & Hcl & _). unfold claimable in Hcl. bool_hyps.
  destruct (Hrows _ _ Hj) as [Ha Hp Hr Hn Hm]. destruct Hp as [Hb Hh]; [done|].
  assert (fits_smallint (j_attempts j + 1) = true) as ->.
  { unfold fits_smallint, budget, effective_max in *. bool_hyps. apply andb_true_iff. rewrite !Z.leb_le.
    destruct (j_max_attempts j =? 0); lia. }
  cbn [negb]. unfold update_row. cbn [c_id row_to_job]. rewrite Hj.
  assert (index_conflict (q_rows q) (j_id j) (index_key (start_row t' j)) = false) as ->; [|done].
  apply index_conflict_false. intros k i' j' Hk Hj' Hk'. eapply (ok_unique _ Hok); [exact Hj'|exact Hj|exact Hk'|].
  unfold index_key, active in *. cbn in Hk. by match goal with H : j_status j = Pending |- _ => rewrite H end.
Qed.

Lemma mark_total q c v t : sys_ok (mkSys q (Marking c v)) → is_ok (mark t (c_id c) v q) = true.
Proof.
  intros [Hok Hrows (Hlt & Hp & Hall)]. cbn in *. destruct (mark_row t (c_id c) v) as (f & Hf & Hrow). rewrite Hf.
  unfold update_row. destruct (q_rows q !! c_id c) as [j|] eqn:Hj; [|done].
  assert (index_conflict (q_rows q) (c_id c) (index_key (f j)) = false) as ->; [|done].
  apply index_conflict_false. intros k i' j' Hk Hj' Hk'. eapply (ok_unique _ Hok); [exact Hj'|exact Hj|exact Hk'|].
  destruct (Hrow j) as (_ & Rk & Rh & _ & _ & Rs). destruct (Hall j eq_refl) as [_ Hst].
  unfold index_key, active in *. rewrite Rk, Rh, Rs in Hk. destruct Hst as [->| ->]; destruct v; cbn in *; done.
Qed.
End refinement.

(** ** Theorems *)

Section theorems.
Context `{PyRepr, Sha256}.

(** C3. In every state the system can reach, with any clients, crashes, lost answers and
    stale reclaims, no job has used more attempts than its budget, a job waiting to
    be claimed has one left, and the worker's statements cannot fail: no claim and
    no marking of the job it holds violates the unique index or overflows a
    column. *)
Theorem attempt_budget p s :
  rtc (sys_step p) empty_sys s →
  (∀ i j, q_rows (s_queue s) !! i = Some j →
     0 ≤ j_attempts j ≤ budget j ∧ (j_status j = Pending → j_attempts j < budget j))
  ∧ (∀ t t' locked, is_ok (claim_next t t' locked (s_queue s)) = true)
  ∧ (∀ c v t, s_phase s = Marking c v → is_ok (mark t (c_id c) v (s_queue s)) = true).
Proof.
  intros Hreach.
  assert (sys_ok s) as Hok by (eapply rtc_invariant; [exact (sys_step_ok p)|apply empty_sys_ok|exact Hreach]).
  destruct Hok as [Hq Hrows Hph] eqn:E. split_and!.
  - intros i j Hj. destruct (Hrows _ _ Hj) as [Ha Hp _ _ _]. split; [done|]. intros Hst. by apply Hp.
  - intros. by apply claim_total.
  - intros c v t Hs. destruct s as [q ph]. cbn in *. subst. by apply mark_total.
Qed.

(** C6. Refinement: seen from any job, every step of the system is a step of the
    abstract life of a job, or none. A finished queued job is never run again, an attempt
    is only counted by a claim, and a job goes back to the queue only while attempts
    remain; a manual run is never queued, and once done it stays so. *)
Theorem lifecycle_refinement p s s' i :
  rtc (sys_step p) empty_sys s → sys_step p s s' →
  life_of (s_queue s) i = life_of (s_queue s') i ∨ life_step (life_of (s_queue s) i) (life_of (s_queue s') i).
Proof.
  intros Hreach. apply sys_step_life. eapply rtc_invariant; [exact (sys_step_ok p)|apply empty_sys_ok|exact Hreach].
Qed.

Context `{ZoneDb}.

Lemma enqueue_missed_steps today clock sched ms n q r q' :
  enqueue_missed today clock sched ms n q = (r, q') → rtc client_step q q'.
Proof.
  revert n q r q'. induction ms as [|m ms IH]; intros n q r q'; cbn [enqueue_missed]; [by intros [= _ <-]|].
  destruct (enqueue_slot _ _ _ _ _ q) as [[r1 q1]|] eqn:He; [|by intros [= _ <-]].
  destruct (enqueue_missed _ _ _ ms (S n) q1) as [rest q2] eqn:Hrest. intros [= _ <-].
  eapply rtc_l; [|by eapply IH]. apply enqueue_slot_inv in He as (_ & prio & maxa & Hi & _). by eapply client_insert.
Qed.

Lemma client_steps p q q' ph : rtc client_step q q' → rtc (sys_step p) (mkSys q ph) (mkSys q' ph).
Proof. induction 1; [done|]. eapply rtc_l; [by constructor|done]. Qed.

Lemma beat_queue pod version started t w : w_queue (beat pod version started t w) = w_queue w.
Proof. done. Qed.

(** The loop of [run_forever] is the system's worker: its start is a reclaim, a
    round that finds nothing to claim is a run of reclaim and enqueue steps that
    ends idle, a round that claims is one claim step, and its second half, whatever
    the dispatch answered, is a judgement, a marking and, after a throttle, a
    deferral. *)
Theorem rounds_refine_system cfg on pod version started k w :
  let p := wc_policy cfg in
  let at_ ph w := mkSys (w_queue w) ph in
  (∀ t t' q fresh beats,
     rtc (sys_step p) (mkSys q Idle) (at_ Idle (worker_start cfg pod version started t t' q fresh beats)))
  ∧ (∀ job w', begin_round cfg on pod version started k w = Ok (job, w') →
       rtc (sys_step p) (at_ Idle w) (at_ (match job with Some c => Busy c | None => Idle end) w'))
  ∧ (∀ c r w', finish_round cfg pod version started k c r w = Ok w' →
       rtc (sys_step p) (at_ (Busy c) w) (at_ Idle w')).
Proof.
  cbn zeta. split_and!.
  - intros t t' q fresh beats. unfold worker_start.
    destruct (reclaim_stale_running t (wc_stale_sec cfg) (wc_requeue_sec cfg) q) as [ids q1] eqn:Er. cbn.
    apply rtc_once. change q1 with (ids, q1).2. rewrite <-Er. apply sys_reclaim.
  - intros job w'. unfold begin_round. intros ([r q1] & Hc & Hr)%res_bind_ok. destruct r as [c|]; injection Hr as <- <-.
    + apply rtc_once. by eapply sys_claim.
    + apply claim_next_inv in Hc as [(_ & -> & _)|(? & _ & ? & _)]; [|done].
      unfold idle_round. cbn [w_queue w_idle w_counts w_fresh w_beats]. destruct (_ <? _); [done|].
      destruct (reclaim_stale_running (tk_reclaim k) (wc_stale_sec cfg) (wc_requeue_sec cfg) (w_queue w))
        as [more q2] eqn:Er.
      eapply rtc_l; [apply sys_reclaim|]. erewrite Er. cbn [snd].
      destruct on; [|cbn; apply rtc_refl]. unfold catchup_missed_slots.
      destruct (missed_slots _ _ _ _) as [ms|e]; [|cbn; apply rtc_refl].
      destruct (enqueue_missed _ _ _ ms 0 q2) as [[caught|e] q3] eqn:Em; cbn;
        (apply client_steps; by eapply enqueue_missed_steps).
  - intros c r w'. unfold finish_round. set (v := judge _ _ _).
    intros (q1 & Hm & Hw)%res_bind_ok. simplify_eq. rewrite beat_queue. cbn [w_queue].
    eapply rtc_l; [apply (sys_judge _ _ _ (fst <$> r))|]. fold v. eapply rtc_l; [by eapply sys_mark|].
    unfold after_mark. destruct (cooldown v) as [d|]; [|done]. apply rtc_once. apply sys_defer.
Qed.

(** C39. Losing Postgres: [WorkerDb.call] gives up within 135 seconds of waiting and six
    tries, whatever goes wrong; it never lets a lost-connection error through; an
    answer it returns is the operation's own, and the operation has then been
    applied at least once, and never more than six times (each try whose commit
    went through while its answer was lost counts). *)
Theorem db_call_spec {S A} (op : S → res A * S) faults c s :
  let '(r, _, s', slept) := db_call op faults c s in
  0 ≤ slept ≤ 135
  ∧ ∃ k, (k ≤ 6)%nat ∧ s' = apply_n op k s
    ∧ match r with
      | Ok a => ∃ j, k = Datatypes.S j ∧ (op (apply_n op j s)).1 = Ok a
      | Raise e => lost e = false
      end.
Proof.
  destruct (db_call op faults c s) as [[[r c'] s'] slept] eqn:E. unfold db_call in E.
  apply db_loop_spec in E as (Hs & k & Hk & Hs' & Hr); [|repeat constructor; done].
  split; [cbn in Hs; lia|]. by exists k.
Qed.
(** What the policy makes of a failed attempt. *)
Lemma judge_raise p c e :
  judge p c (Raise e) =
    let cat := classify_flex_error (exn_str e) in
    if bool_decide (cat ≠ CONFIG) && (c_attempts c <? c_max_attempts c)
    then VRetry (exn_str e) (category_value cat) (policy_delay p cat)
           (if decide (cat = THROTTLED) then throttled_delay_sec p else 0)
    else VFailed (exn_str e) (category_value cat).
Proof. unfold judge. cbn zeta. rewrite plan_retry_fields. by destruct (_ && _). Qed.

(** The last success a freshness table shows for a kind. *)
Definition last_success (tb : gmap string freshness) (d : string) : option Z := tb !! d ≫= f_latest_ts.

(** A failed attempt is tried again. *)
Definition retried (c : claimed) (e : exn) : bool :=
  bool_decide (classify_flex_error (exn_str e) ≠ CONFIG) && (c_attempts c <? c_max_attempts c).

(** The seconds all waiting jobs are kept back after an attempt; none after most. *)
Definition holdback (p : RetryPolicy) (c : claimed) {A} (r : res A) : Z :=
  match r with
  | Raise e => if retried c e && bool_decide (classify_flex_error (exn_str e) = THROTTLED) then throttled_delay_sec p else 0
  | Ok _ => 0
  end.

(** A waiting job kept back at [t] until [until] at least. *)
Definition kept_back (t until : Z) (j j' : job) : Prop :=
  j' = mkJob (j_id j) (j_kind j) (j_payload j) (j_hash j) (j_priority j) (j_status j) (j_attempts j) (j_max_attempts j)
         (j_result j) (j_category j) (Some (Z.max (default t (j_not_before j)) until)) (j_created j) t (j_started j) (j_finished j).

Lemma judge_cooldown p c (r : res pydict) :
  cooldown (judge p c r) = if holdback p c r =? 0 then None else Some (holdback p c r).
Proof.
  destruct r as [out|e]; [done|]. rewrite judge_raise. cbn zeta. unfold holdback, retried.
  destruct (_ && _); cbn [andb cooldown]; [|done]. by case_decide; case_bool_decide.
Qed.

(** What a verdict writes to the row of its job. *)
Lemma mark_update t i v q :
  ∃ f, mark t i v q = update_row q i f
    ∧ f = match v with
          | VDone out => done_row t out
          | VRetry e cat d _ => retry_row t e cat d
          | VFailed e cat => failed_row t e (Some cat)
          end.
Proof. destruct v; by eexists. Qed.

(** The rows after a marking and the deferral, if any, that follows it. *)
Lemma defer_after_mark t d i f q j :
  queue_ok q → q_rows q !! i = Some j → j_id (f j) = i →
  let q1 := mkQueue (<[i := f j]> (q_rows q)) (q_next q) in
  let q2 := if d =? 0 then q1 else (defer_pending t d (Some i) q1).2 in
  q_rows q2 !! i = Some (f j) ∧ q_next q2 = q_next q
  ∧ ∀ i', i' ≠ i →
      match q_rows q !! i' with
      | Some j' => ∃ j2, q_rows q2 !! i' = Some j2
          ∧ if bool_decide (j_status j' = Pending) && negb (d =? 0) then kept_back t (t + secs d) j' j2 else j2 = j'
      | None => q_rows q2 !! i' = None
      end.
Proof.
  intros Hok Hj Hid q1 q2. subst q2. destruct (d =? 0); cbn [negb].
  - cbn. split_and!; [apply lookup_insert_eq|done|]. intros i' Hi. rewrite lookup_insert_ne by done.
    destruct (q_rows q !! i') as [j'|]; [|done]. exists j'. split; [done|]. by rewrite andb_false_r.
  - unfold defer_pending. split_and!; [|done|intros i' Hi]; rewrite update_where_lookup; cbn [q1 q_rows].
    + rewrite lookup_insert_eq. cbn. rewrite Hid, (bool_decide_eq_false_2 (Some i ≠ Some i)) by (by intros []).
      by rewrite andb_false_r.
    + rewrite lookup_insert_ne by done. destruct (q_rows q !! i') as [j'|] eqn:Hj'; [|done]. cbn [fmap option_fmap option_map].
      eexists. split; [reflexivity|]. apply (ok_id _ Hok) in Hj' as <-.
      rewrite (bool_decide_eq_true_2 (Some i ≠ _)) by congruence. rewrite andb_true_r. by case_bool_decide.
Qed.

(** What a failed attempt leaves in the freshness table, when it gets there. *)
Lemma failure_recorded t kind err jid tb :
  let tb' := record_ingest_outcome t kind false err jid tb in
  (∀ d, last_success tb' d = last_success tb d) ∧ (f_last_ok <$> tb' !! strip kind) = Some false
  ∧ ∀ d, d ≠ strip kind → tb' !! d = tb !! d.
Proof.
  unfold record_ingest_outcome, record_freshness, last_success. cbn [a_ok a_time]. cbn zeta. split_and!.
  - intros d. destruct (decide (strip kind = d)) as [<-|Hne]; [rewrite lookup_insert_eq|by rewrite lookup_insert_ne].
    by destruct (tb !! strip kind).
  - rewrite lookup_insert_eq. by destruct (tb !! strip kind).
  - intros d Hd. by rewrite lookup_insert_ne.
Qed.

(** C11. The end of an attempt: the round never fails, and the job is done with its result,
    waiting for the delay of its error's category, or failed, the latter exactly when the
    error is a configuration error or no attempt is left; the counter of that outcome goes
    up by one and the others stay. Every other row stays as it is, but for those that wait
    while an attempt to be repeated was throttled: they wait until the end of the throttle's
    delay at least. A failed attempt keeps every kind's last success and shows as not ok,
    if its outcome could be written; otherwise the freshness table stays as it was. *)
Theorem finish_round_spec cfg pod version started k c r w :
  sys_ok (mkSys (w_queue w) (Busy c)) →
  let p := wc_policy cfg in
  let n := w_counts w in
  let cool := holdback p c r in
  ∃ w' j', finish_round cfg pod version started k c r w = Ok w'
    ∧ q_rows (w_queue w') !! c_id c = Some j' ∧ j_attempts j' = c_attempts c
    ∧ match r with
      | Ok (out, tb) =>
          j_status j' = Done ∧ j_result j' = Some out ∧ w_fresh w' = tb
          ∧ w_counts w' = mkCounters (n_done n + 1) (n_failed n) (n_retried n) (n_catchups n) (n_reclaimed n)
                            (n_reconnects n) (last_kind n) (last_claim_at n) "" ""
      | Raise e =>
          let cat := classify_flex_error (exn_str e) in
          (if retried c e
           then j_status j' = Pending ∧ j_not_before j' = Some (tk_mark k + secs (policy_delay p cat))
           else j_status j' = Failed)
          ∧ w_counts w' = mkCounters (n_done n) (n_failed n + if retried c e then 0 else 1)
                            (n_retried n + if retried c e then 1 else 0) (n_catchups n) (n_reclaimed n)
                            (n_reconnects n) (last_kind n) (last_claim_at n) (utake 500 (exn_str e)) (category_value cat)
          ∧ j_category j' = Some (category_value cat)
          ∧ (∀ d, last_success (w_fresh w') d = last_success (w_fresh w) d)
          ∧ (if tk_outcome k
             then (f_last_ok <$> w_fresh w' !! strip (c_kind c)) = Some false
                  ∧ ∀ d, d ≠ strip (c_kind c) → w_fresh w' !! d = w_fresh w !! d
             else w_fresh w' = w_fresh w)
      end
    ∧ q_next (w_queue w') = q_next (w_queue w)
    ∧ ∀ i, i ≠ c_id c →
        match q_rows (w_queue w) !! i with
        | Some j => ∃ j2, q_rows (w_queue w') !! i = Some j2
            ∧ if bool_decide (j_status j = Pending) && negb (cool =? 0)
              then kept_back (tk_defer k) (tk_defer k + secs cool) j j2 else j2 = j
        | None => q_rows (w_queue w') !! i = None
        end.
Proof.
  intros Hok p n cool. set (v := judge p c (fst <$> r)).
  assert (sys_ok (mkSys (w_queue w) (Marking c v))) as Hmark by (eapply sys_step_ok; [apply (sys_judge p)|exact Hok]).
  pose proof (mark_total _ _ _ (tk_mark k) Hmark) as Htot.
  destruct (mark_update (tk_mark k) (c_id c) v (w_queue w)) as (f & Hf & Ef). rewrite Hf in Htot.
  destruct Hok as [Hq _ (j & Hj & (_ & Hatt & _) & _)]. cbn in Hj, Hq.
  assert (j_id (f j) = c_id c ∧ j_attempts (f j) = c_attempts c) as [Hid Hatt'].
  { rewrite Ef, <-Hatt, <-(ok_id _ Hq _ _ Hj). by destruct v. }
  assert (holdback p c (fst <$> r) = cool) as Hcool by (by destruct r).
  pose proof (judge_cooldown p c (fst <$> r)) as Hc. fold v in Hc. rewrite Hcool in Hc.
  destruct (defer_after_mark (tk_defer k) cool (c_id c) f _ j Hq Hj Hid) as (Hrow & Hnext & Hothers).
  assert (finish_round cfg pod version started k c r w
    = Ok (beat pod version started (tk_beat k) (mkWorker
        (if cool =? 0 then mkQueue (<[c_id c := f j]> (q_rows (w_queue w))) (q_next (w_queue w))
         else (defer_pending (tk_defer k) cool (Some (c_id c)) (mkQueue (<[c_id c := f j]> (q_rows (w_queue w))) (q_next (w_queue w)))).2)
        (match r, v with
         | Ok (_, tb), _ => tb
         | Raise _, (VRetry e cat _ _ | VFailed e cat) =>
             if tk_outcome k then record_ingest_outcome (tk_fresh k) (c_kind c) false (Some (cat +:+ ": " +:+ e)) (Some (c_id c)) (w_fresh w)
             else w_fresh w
         | Raise _, VDone _ => w_fresh w
         end) (w_beats w) (w_idle w) (count v n)))) as Hfin.
  { unfold finish_round. fold p v. rewrite Hf. unfold update_row in Htot |- *. rewrite Hj in Htot |- *.
    destruct (index_conflict _ _ _); [done|]. cbn [mbind res_bind]. rewrite Hc. by destruct (cool =? 0). }
  eexists _, (f j). split; [exact Hfin|]. rewrite beat_queue. cbn [w_queue beat w_counts w_fresh].
  split; [exact Hrow|]. split; [exact Hatt'|]. split; [|by split].
  clear Hfin Hothers Hrow Hnext Hc Hcool Hmark Htot Hf. destruct r as [[out tb]|e]; [by rewrite Ef|].
  cbn [fmap res_fmap] in v. rewrite Ef. clear Ef Hid Hatt'. subst v. rewrite judge_raise. cbn zeta. fold (retried c e).
  destruct (failure_recorded (tk_fresh k) (c_kind c)
    (Some (category_value (classify_flex_error (exn_str e)) +:+ ": " +:+ exn_str e)) (Some (c_id c)) (w_fresh w)) as (Hsucc & Hlast & Hrest).
  destruct (retried c e); cbn [count j_status j_not_before j_category finish_row retry_row failed_row];
    rewrite ?Z.add_0_r; (destruct (tk_outcome k); split_and!; done).
Qed.
End theorems.

(** ** Examples *)

(** The two morning jobs, the trades job claimed. *)
Definition sample_claim : claimed := mkClaimed 1 "flex-trades" (day_payload "2026-09-08") 1 8.
Definition busy_sys : sys := mkSys crashed_queue (Busy sample_claim).

Lemma sample_claim_next : claim_next 10 11 ∅ two_jobs = Ok (Some sample_claim, crashed_queue).
Proof. vm_compute. reflexivity. Qed.

Lemma two_jobs_sys : rtc (@sys_step sample_repr sample_sha default_policy) empty_sys (mkSys two_jobs Idle).
Proof.
  eapply rtc_l; [|eapply rtc_once].
  - apply sys_client.
    by eapply (client_insert 1 "flex-trades" (day_payload "2026-09-08") 5 8 (Some [("as_of", PStr "2026-09-08")])).
  - apply sys_client.
    by eapply (client_insert 2 "flex-transactions" (day_payload "2026-09-08") 4 8 (Some [("as_of", PStr "2026-09-08")])).
Qed.

Lemma busy_sys_reachable : rtc (@sys_step sample_repr sample_sha default_policy) empty_sys busy_sys.
Proof. eapply rtc_r; [exact two_jobs_sys|]. exact (sys_claim _ 10 11 ∅ _ _ _ sample_claim_next). Qed.

Lemma attempt_budget_witness :
  (∀ i j, q_rows crashed_queue !! i = Some j →
     0 ≤ j_attempts j ≤ budget j ∧ (j_status j = Pending → j_attempts j < budget j))
  ∧ ∀ t t' locked, is_ok (claim_next t t' locked crashed_queue) = true.
Proof.
  destruct (@attempt_budget sample_repr sample_sha default_policy busy_sys busy_sys_reachable) as (H1 & H2 & _).
  exact (conj H1 H2).
Defined.

Lemma lifecycle_refinement_witness :
  life_of two_jobs 1 = life_of crashed_queue 1 ∨ life_step (life_of two_jobs 1) (life_of crashed_queue 1).
Proof.
  exact (@lifecycle_refinement sample_repr sample_sha default_policy (mkSys two_jobs Idle) busy_sys 1
           two_jobs_sys (sys_claim _ 10 11 ∅ _ _ _ sample_claim_next)).
Defined.

(** IB throttles the token at the first attempt. *)
Definition throttle_error : exn := Exn RuntimeError "Flex request failed: [1018] Too many requests".
Definition sample_config : worker_config := mkWorkerConfig 7200 600 default_policy 12 2700 [].
Definition sample_tick : tick_clock :=
  mkTick 10 11 ∅ 12 "2026-09-08" (λ _, 13) 14 (secs 20) (secs 21) (secs 22) (secs 23) true.
Definition busy_worker : worker :=
  mkWorker crashed_queue ∅ ∅ 0 (mkCounters 0 0 0 0 0 0 None "" "" "").

Lemma finish_round_spec_witness :
  ∃ w' j', finish_round sample_config "pod" "v" 0 sample_tick sample_claim (Raise throttle_error) busy_worker = Ok w'
    ∧ q_rows (w_queue w') !! 1 = Some j' ∧ j_status j' = Pending ∧ j_not_before j' = Some (secs 20 + secs 1800).
Proof.
  assert (sys_ok busy_sys) as Hok.
  { eapply rtc_invariant; [exact (@sys_step_ok sample_repr sample_sha default_policy)|apply empty_sys_ok
      |exact busy_sys_reachable]. }
  destruct (@finish_round_spec sample_repr sample_sha sample_config "pod" "v" 0 sample_tick sample_claim (Raise throttle_error)
              busy_worker Hok) as (w' & j' & Hw & Hj & _ & ((Hst & Hnb) & _) & _).
  exists w', j'. exact (conj Hw (conj Hj (conj Hst Hnb))).
Defined.
