(* ===== verification/Health.v ===== *)
(** * The worker's health server ([worker/health.py])

    What [do_GET] sends: the status, the headers and the body made of the counters. *)
From S2P Require Import Prelude Pytext PyVal Json Ddl Worker.
From Stdlib Require Import Ascii.

Section dumps.
Context `{PyRepr}.

(** [json.dumps(v)]. *)
Fixpoint json_dumps (v : pyval) : string :=
  match v with
  | PNone => "null"
  | PBool true => "true"
  | PBool false => "false"
  | PInt n => str_of_Z n
  | PFloat _ => py_repr v
  | PStr s => json_string s
  | PList l => "[" +:+ join ", " (List.map json_dumps l) +:+ "]"
  | PDict d => "{" +:+ join ", " (List.map (λ '(k, v), json_string k +:+ ": " +:+ json_dumps v) d) +:+ "}"
  end.

Record http_response := mkHttpResponse { hr_status : Z; hr_headers : list (string * string); hr_body : string }.

Definition do_GET (path : string) (state : counters) : http_response :=
  match health path state with
  | None => mkHttpResponse 404 [] ""
  | Some d =>
      let body := json_dumps (PDict d) in
      mkHttpResponse 200
        [("Content-Type", "application/json"); ("Content-Length", str_of_Z (Z.of_nat (String.length body)))] body
  end.
End dumps.

(** ** The body is one line of printable ASCII *)

Definition plain_char (c : ascii) : bool := (32 <=? char_code c) && (char_code c <? 128).
Notation plain := (str_forallb plain_char).

Lemma plain_hex_digit n : plain_char (hex_digit n) = true.
Proof.
  unfold hex_digit. assert (0 <= n mod 16 < 16) as Hn by (apply Z.mod_pos_bound; lia).
  set (d := n mod 16) in *. clearbody d.
  assert (d ∈ [0;1;2;3;4;5;6;7;8;9;10;11;12;13;14;15]) as Hd by (rewrite !elem_of_cons; lia).
  repeat (apply elem_of_cons in Hd as [->|Hd]; [reflexivity|]). by apply elem_of_nil in Hd.
Qed.

Lemma plain_u16 n : plain (u16 n) = true.
Proof. unfold u16. cbn [str_forallb]. by rewrite !plain_hex_digit. Qed.

Lemma plain_u_escape n : plain (u_escape n) = true.
Proof. unfold u_escape. case_match; [apply plain_u16|]. by rewrite str_forallb_app, !plain_u16. Qed.

Lemma plain_escape_ascii c : char_code c <? 128 = true → plain (escape_ascii c) = true.
Proof. by destruct c as [[] [] [] [] [] [] [] []]. Qed.

Lemma plain_escape s : plain (json_escape s) = true.
Proof.
  remember (String.length s) as n eqn:Hn. revert s Hn. induction n as [n IH] using lt_wf_ind. intros s ->.
  destruct s as [|c s]; [done|]. cbn [json_escape].
  destruct (char_code c <? 128) eqn:Hc; [rewrite str_forallb_app, plain_escape_ascii by done; eapply IH; [|reflexivity]; cbn; lia|].
  destruct s as [|c1 s1]; [done|]. destruct (char_code c <? 224).
  { rewrite str_forallb_app, plain_u_escape. eapply IH; [|reflexivity]. cbn. lia. }
  destruct s1 as [|c2 s2]; [done|]. destruct (char_code c <? 240).
  { rewrite str_forallb_app, plain_u_escape. eapply IH; [|reflexivity]. cbn. lia. }
  destruct s2 as [|c3 s3]; [done|]. rewrite str_forallb_app, plain_u_escape. eapply IH; [|reflexivity]. cbn. lia.
Qed.

Lemma plain_json_string s : plain (json_string s) = true.
Proof. unfold json_string. cbn [str_forallb]. by rewrite str_forallb_app, plain_escape. Qed.

Lemma plain_digit c : is_digit c = true → plain_char c = true.
Proof. by destruct c as [[] [] [] [] [] [] [] []]. Qed.

Lemma plain_str_of_Z n : plain (str_of_Z n) = true.
Proof.
  destruct (decide (0 <= n)) as [Hn|Hn].
  - destruct (str_of_nonneg n Hn) as (Hd & _). by eapply str_forallb_mono, Hd; apply plain_digit.
  - destruct n as [|p|p]; [lia..|]. change (str_of_Z (Z.neg p)) with (String "-" (str_of_Z (Z.pos p))).
    cbn [str_forallb]. destruct (str_of_nonneg (Z.pos p)) as (Hd & _); [lia|].
    apply andb_true_iff. split; [done|]. by eapply str_forallb_mono, Hd; apply plain_digit.
Qed.

Lemma plain_join sep l : plain sep = true → Forall (λ s, plain s = true) l → plain (join sep l) = true.
Proof.
  intros Hsep. induction 1 as [|s l Hs Hl IH]; [done|]. destruct l as [|s' l]; [done|].
  change (join sep (s :: s' :: l)) with (s +:+ sep +:+ join sep (s' :: l)). by rewrite !str_forallb_app, Hs, Hsep, IH.
Qed.

(** A dict of texts, numbers and truth values. *)
Definition scalar (v : pyval) : bool := match v with PBool _ | PInt _ | PStr _ => true | _ => false end.

Lemma plain_scalar `{PyRepr} v : scalar v = true → plain (json_dumps v) = true.
Proof. destruct v as [|[]|n| |s| |]; try done; intros _; [apply plain_str_of_Z|apply plain_json_string]. Qed.

Lemma plain_flat `{PyRepr} d : Forall (λ kv, scalar kv.2 = true) d → plain (json_dumps (PDict d)) = true.
Proof.
  intros Hd. cbn [json_dumps]. rewrite !str_forallb_app. apply andb_true_iff. split; [done|]. apply andb_true_iff. split; [|done].
  apply plain_join; [done|]. apply Forall_map, (Forall_impl _ _ _ Hd). intros [k v] Hv. cbn [snd compose] in *.
  by rewrite !str_forallb_app, plain_json_string, plain_scalar.
Qed.

(** The health answer is well formed whatever the counters hold, the text of the last error
    included: for its three paths it is one line of printable ASCII whose number of bytes is
    the one announced, and for any other path a 404 without a body. *)
Theorem health_response_spec `{PyRepr} path state :
  let r := do_GET path state in
  (path ∈ ["/health"; "/healthz"; "/ready"] →
     hr_status r = 200 ∧ plain (hr_body r) = true
     ∧ hr_headers r = [("Content-Type", "application/json");
                       ("Content-Length", str_of_Z (Z.of_nat (String.length (hr_body r))))])
  ∧ (path ∉ ["/health"; "/healthz"; "/ready"] → r = mkHttpResponse 404 [] "").
Proof.
  intros r. unfold r, do_GET, health. split; intros Hp; [rewrite decide_True by done|by rewrite decide_False].
  cbn [hr_status hr_headers hr_body]. split_and!; [done| |done]. apply plain_flat. repeat constructor.
Qed.
