(* ===== verification/Progress.v ===== *)
(** * The worker makes progress ([worker/loop.py])

    The whole loop, round after round, and what it achieves: whatever the handlers answer
    and whatever a crash left behind, every job of a queue nobody adds to ends. *)
From S2P Require Import Prelude Pytext PyVal Json Retry JobQueue Pytime Ddl Handlers Cron Schedule Worker.

(** ** The loop *)

Section loop.
Context `{PyRepr, Sha256, ZoneDb} (cfg : worker_config) (catchup_enabled : bool) (pod version : string) (started_at : Z).

(** One turn of [while]: claim, and either stay idle or dispatch and mark. [answer] is what
    the dispatch of a claimed job gives. *)
Definition round (k : tick_clock) (answer : claimed → res (pydict * gmap string freshness)) (w : worker) : res worker :=
  '(c, w1) ← begin_round cfg catchup_enabled pod version started_at k w;
  match c with
  | None => Ok w1
  | Some c => finish_round cfg pod version started_at k c (answer c) w1
  end.

(** [d] turns from the [n]-th on, with their clocks and answers. *)
Fixpoint rounds (ticks : nat → tick_clock) (answers : nat → claimed → res (pydict * gmap string freshness)) (n d : nat)
    (w : worker) : res worker :=
  match d with
  | O => Ok w
  | S d' => w' ← round (ticks n) (answers n) w; rounds ticks answers (S n) d' w'
  end.

Lemma rounds_app ticks answers n a b w :
  rounds ticks answers n (a + b) w = rounds ticks answers n a w ≫= rounds ticks answers (n + a) b.
Proof.
  revert n w. induction a as [|a IH]; intros n w; cbn [rounds Nat.add mbind res_bind]; [by rewrite Nat.add_0_r|].
  destruct (round (ticks n) (answers n) w) as [w'|]; [|done]. cbn [mbind res_bind]. by rewrite IH, Nat.add_succ_r.
Qed.
End loop.

(** ** How much work there is *)

(** The steps a job can still take: a try for each attempt left of a pending one, and
    the reclaim of a running one besides. *)
Definition chances (j : job) : nat :=
  match j_status j with
  | Pending => Z.to_nat (budget j - j_attempts j)
  | Running => S (Z.to_nat (budget j - j_attempts j))
  | Done | Failed => 0
  end.

Definition total (m : gmap Z nat) : nat := sum_list (map_to_list m).*2.
Definition work (q : queue) : nat := total (chances <$> q_rows q).

Lemma sum_list_perm (l1 l2 : list nat) : l1 ≡ₚ l2 → sum_list l1 = sum_list l2.
Proof. induction 1; cbn; lia. Qed.

Lemma total_delete m i x : m !! i = Some x → total m = (x + total (delete i m))%nat.
Proof.
  intros Hi. unfold total. rewrite (sum_list_perm _ ((i, x) :: map_to_list (delete i m)).*2); [done|].
  apply fmap_Permutation. by rewrite map_to_list_delete.
Qed.

Lemma total_le m1 m2 : (∀ i x2, m2 !! i = Some x2 → ∃ x1, m1 !! i = Some x1 ∧ (x2 ≤ x1)%nat) → (total m2 ≤ total m1)%nat.
Proof.
  revert m1. induction m2 as [|i x m2 Hi IH] using map_ind; intros m1 Hle.
  - unfold total. rewrite map_to_list_empty. cbn. lia.
  - destruct (Hle i x) as (x1 & Hx1 & Hx); [apply lookup_insert_eq|].
    rewrite (total_delete _ i x) by apply lookup_insert_eq. rewrite (total_delete m1 i x1) by done.
    rewrite delete_insert_id by done. assert (total m2 ≤ total (delete i m1))%nat; [|lia].
    apply IH. intros i' x2 Hx2. assert (i' ≠ i) by congruence. destruct (Hle i' x2) as (x1' & Hx1' & ?); [by rewrite lookup_insert_ne|].
    exists x1'. by rewrite lookup_delete_ne.
Qed.

(** No row gains a step, none appears, none disappears. *)
Definition advances (q q' : queue) : Prop :=
  ∀ i, option_Forall2 (λ j j', chances j' ≤ chances j)%nat (q_rows q !! i) (q_rows q' !! i).

#[export] Instance advances_preorder : PreOrder advances.
Proof.
  split.
  - intros q i. destruct (q_rows q !! i); by constructor.
  - intros q1 q2 q3 H12 H23 i. specialize (H12 i). specialize (H23 i).
    destruct (q_rows q1 !! i), (q_rows q2 !! i), (q_rows q3 !! i); inversion H12; inversion H23; constructor; lia.
Qed.

Lemma advances_rows q q' : q_rows q' = q_rows q → advances q q'.
Proof. intros E i. rewrite E. destruct (q_rows q !! i); by constructor. Qed.

Lemma advances_some q q' i j' :
  advances q q' → q_rows q' !! i = Some j' → ∃ j, q_rows q !! i = Some j ∧ (chances j' ≤ chances j)%nat.
Proof. intros Ha Hj. specialize (Ha i). rewrite Hj in Ha. inversion Ha; subst. by eexists. Qed.

Lemma advances_work q q' : advances q q' → (work q' ≤ work q)%nat.
Proof.
  intros Ha. apply total_le. intros i x2. rewrite !lookup_fmap. intros (j' & Hj' & ->)%fmap_Some_1.
  destruct (advances_some _ _ _ _ Ha Hj') as (j & -> & Hle). by exists (chances j).
Qed.

Lemma advances_less q q' i j j' :
  advances q q' → q_rows q !! i = Some j → q_rows q' !! i = Some j' → (chances j' < chances j)%nat → (work q' < work q)%nat.
Proof.
  intros Ha Hj Hj' Hless. unfold work.
  rewrite (total_delete (chances <$> q_rows q) i (chances j)), (total_delete (chances <$> q_rows q') i (chances j'))
    by (by rewrite lookup_fmap, ?Hj, ?Hj').
  assert (total (delete i (chances <$> q_rows q')) ≤ total (delete i (chances <$> q_rows q)))%nat; [|lia].
  apply total_le. intros i' x2 [Hne Hx2]%lookup_delete_Some. rewrite lookup_fmap in Hx2. apply fmap_Some_1 in Hx2 as (a' & Ha' & ->).
  destruct (advances_some _ _ _ _ Ha Ha') as (a & Hra & Hle). exists (chances a). by rewrite lookup_delete_ne, lookup_fmap, Hra.
Qed.

Lemma chances_pending j : row_ok j → j_status j = Pending → (0 < chances j)%nat.
Proof. intros Hok Hst. unfold chances. rewrite Hst. destruct (row_pending _ Hok Hst) as [? _]. lia. Qed.

(** ** What a turn does *)

Section turns.
Context `{PyRepr, Sha256, ZoneDb} (cfg : worker_config) (pod version : string) (started_at : Z).
Notation round on := (round cfg on pod version started_at).
Notation idle_ok w := (sys_ok (mkSys (w_queue w) Idle)).

(** The end of a round marks the job it held; a deferral changes nobody's steps. *)
Lemma finish_advances k c r w j :
  sys_ok (mkSys (w_queue w) (Busy c)) → q_rows (w_queue w) !! c_id c = Some j →
  ∃ w', finish_round cfg pod version started_at k c r w = Ok w' ∧ idle_ok w'
    ∧ (∀ i, i ≠ c_id c → chances <$> q_rows (w_queue w') !! i = chances <$> q_rows (w_queue w) !! i)
    ∧ ∃ j', q_rows (w_queue w') !! c_id c = Some j' ∧ (chances j' ≤ Z.to_nat (budget j - j_attempts j))%nat.
Proof.
  intros Hsys Hj. set (v := judge (wc_policy cfg) c (fst <$> r)).
  assert (sys_ok (mkSys (w_queue w) (Marking c v))) as Hmarking.
  { eapply sys_step_ok; [apply (sys_judge (wc_policy cfg))|exact Hsys]. }
  pose proof (mark_total _ _ _ (tk_mark k) Hmarking) as Htot. unfold finish_round. fold v.
  destruct (mark (tk_mark k) (c_id c) v (w_queue w)) as [q1|] eqn:Hm; [|done]. cbn [mbind res_bind].
  assert (sys_ok (mkSys q1 (Marking c v))) as [Hok1 Hrows1 _] by (by eapply mark_keeps). cbn [s_queue] in Hok1, Hrows1.
  set (q2 := match cooldown v with Some d => (defer_pending (tk_defer k) d (Some (c_id c)) q1).2 | None => q1 end).
  eexists. split; [reflexivity|]. unfold beat. cbn [w_queue].
  assert (∀ i, ∃ g, q_rows q2 !! i = g <$> q_rows q1 !! i ∧ ∀ a, chances (g a) = chances a) as Hdefer.
  { intros i. unfold q2. destruct (cooldown v) as [d|].
    - unfold defer_pending. rewrite update_where_lookup. eexists. split; [reflexivity|]. intros a. cbv beta.
      by destruct (bool_decide _ && bool_decide _).
    - exists id. by rewrite option_fmap_id. }
  split; [|split].
  - unfold q2. destruct (cooldown v) as [d|]; [|by split].
    by destruct (defer_keeps (tk_defer k) q1 c d) as [Ha Hb]; [split|split].
  - intros i Hne. destruct (Hdefer i) as (g & -> & Hg). destruct (mark_row (tk_mark k) (c_id c) v) as (f & Hf & _).
    rewrite Hf in Hm. apply update_row_inv in Hm as [[-> _]|(j1 & _ & _ & ->)]; cbn [q_rows];
      rewrite ?lookup_insert_ne by done; destruct (q_rows (w_queue w) !! i); cbn; by rewrite ?Hg.
  - destruct (mark_row (tk_mark k) (c_id c) v) as (f & Hf & Hrow). rewrite Hf in Hm.
    apply update_row_inv in Hm as [[_ Hm]|(j1 & Hj1 & _ & ->)]; [congruence|]. rewrite Hj in Hj1. injection Hj1 as <-.
    destruct (Hdefer (c_id c)) as (g & -> & Hg). cbn [q_rows]. rewrite lookup_insert_eq. eexists. split; [reflexivity|].
    destruct (Hrow j) as (_ & _ & _ & Fa & Fm & Fs). rewrite Hg. unfold chances, budget, effective_max. rewrite Fa, Fm, Fs.
    destruct v; cbn; lia.
Qed.

(** A turn that claims a job takes a step of it. *)
Lemma busy_round on k answer w c q1 :
  idle_ok w → claim_next (tk_select k) (tk_claim k) (tk_locked k) (w_queue w) = Ok (Some c, q1) →
  ∃ w', round on k answer w = Ok w' ∧ idle_ok w' ∧ advances (w_queue w) (w_queue w') ∧ (work (w_queue w') < work (w_queue w))%nat
    ∧ ∃ j j', q_rows (w_queue w) !! c_id c = Some j ∧ q_rows (w_queue w') !! c_id c = Some j' ∧ (chances j' < chances j)%nat.
Proof.
  intros Hw Hc. destruct (claim_keeps _ _ _ _ _ _ Hw Hc) as [[Hok1 Hrows1 _] Hbusy]. cbn [s_queue] in *.
  pose proof Hw as [Hok Hrows _]. cbn [s_queue] in *. destruct (claim_some _ _ _ _ _ _ Hok Hc) as (j & Hj & Hst & _ & Hq1).
  unfold Progress.round, begin_round. rewrite Hc. cbn [mbind res_bind].
  match goal with |- ∃ w', finish_round _ _ _ _ _ _ _ ?w1 = Ok w' ∧ _ => set (wc := w1) end.
  assert (q_rows (w_queue wc) !! c_id c = Some (start_row (tk_claim k) j)) as Hrow.
  { cbn [wc w_queue]. rewrite Hq1. apply lookup_insert_eq. }
  destruct (finish_advances k c (answer c) wc (start_row (tk_claim k) j)) as (w' & Hf & Hidle & Hothers & j' & Hj' & Hle);
    [by split|done|].
  exists w'. split; [done|]. split; [done|].
  assert (chances j' < chances j)%nat as Hless.
  { pose proof (chances_pending j (Hrows _ _ Hj) Hst) as Hpos.
    assert (chances j = Z.to_nat (budget j - j_attempts j)) as E by (unfold chances; by rewrite Hst).
    change (budget (start_row (tk_claim k) j)) with (budget j) in Hle. cbn [start_row j_attempts] in Hle. lia. }
  assert (advances (w_queue w) (w_queue w')) as Hadv.
  { intros i. destruct (decide (i = c_id c)) as [->|Hne]; [rewrite Hj, Hj'; constructor; lia|].
    specialize (Hothers i Hne). cbn [wc w_queue] in Hothers. rewrite Hq1 in Hothers. cbn [q_rows] in Hothers.
    rewrite lookup_insert_ne in Hothers by done.
    destruct (q_rows (w_queue w') !! i), (q_rows (w_queue w) !! i); try done; constructor. by injection Hothers as ->. }
  split_and!; [done|by eapply advances_less|by exists j, j'].
Qed.

(** A reclaimed row has one step less. *)
Lemma reclaim_row_chances t sec delay j : stale t sec j = true → (chances (reclaim_row t sec delay j) < chances j)%nat.
Proof.
  intros Hs. unfold stale in Hs. bool_hyps. unfold chances, reclaim_row.
  change (budget (finish_row _ _ _ _ _ _ j)) with (budget j). cbn [finish_row j_status j_attempts].
  match goal with H : j_status j = Running |- _ => rewrite H end. destruct (_ <? _); lia.
Qed.

(** A turn with nothing to claim: the count of idle turns goes up, or the stale rows are
    reclaimed. *)
Lemma reclaim_advances t stale_s delay q :
  let q' := (reclaim_stale_running t stale_s delay q).2 in
  advances q q'
  ∧ ((∀ i j, q_rows q !! i = Some j → stale t (Z.max 60 stale_s) j = false) → q_rows q' = q_rows q)
  ∧ (∀ i j, q_rows q !! i = Some j → stale t (Z.max 60 stale_s) j = true → (work q' < work q)%nat).
Proof.
  intros q'. unfold q', reclaim_stale_running. set (sec := Z.max 60 stale_s). set (f := reclaim_row t sec (Z.max 0 delay)).
  assert (∀ j, stale t sec j = true → (chances (f j) < chances j)%nat) as Hless by apply reclaim_row_chances.
  assert (advances q (update_where q (stale t sec) f).2) as Hadv.
  { intros i. rewrite update_where_lookup. destruct (q_rows q !! i) as [j|]; cbn; constructor.
    destruct (stale t sec j) eqn:Hs; [|done]. specialize (Hless j Hs). lia. }
  split; [exact Hadv|]. split.
  - intros Hnone. apply map_eq. intros i. rewrite update_where_lookup. destruct (q_rows q !! i) as [j|] eqn:Hj; [|done].
    cbn. by rewrite (Hnone i j Hj).
  - intros i j Hj Hs. eapply advances_less; [exact Hadv|exact Hj| |by apply Hless].
    rewrite update_where_lookup, Hj. cbn. by rewrite Hs.
Qed.

Lemma idle_round_effect k w :
  idle_ok w →
  let w' := idle_round cfg false pod version started_at k w in
  idle_ok w' ∧ advances (w_queue w) (w_queue w')
  ∧ ((work (w_queue w') < work (w_queue w))%nat
     ∨ q_rows (w_queue w') = q_rows (w_queue w)
       ∧ (w_idle w' = w_idle w + 1 ∧ w_idle w + 1 < wc_reclaim_every cfg
          ∨ ∀ i j, q_rows (w_queue w) !! i = Some j → stale (tk_reclaim k) (Z.max 60 (wc_stale_sec cfg)) j = false)).
Proof.
  intros Hw w'. unfold w', idle_round. cbn zeta. destruct (w_idle w + 1 <? wc_reclaim_every cfg) eqn:Hi; bool_hyps.
  - cbn [w_queue w_idle]. split; [done|]. split; [reflexivity|]. right. split; [done|]. by left.
  - pose proof (reclaim_advances (tk_reclaim k) (wc_stale_sec cfg) (wc_requeue_sec cfg) (w_queue w)) as (Hadv & Hsame & Hless).
    pose proof (sys_reclaim default_policy (tk_reclaim k) (wc_stale_sec cfg) (wc_requeue_sec cfg) (w_queue w)) as Hstep.
    apply sys_step_ok in Hstep; [|done].
    destruct (reclaim_stale_running _ _ _ (w_queue w)) as [ids q1]. cbn [snd] in *. unfold beat. cbn [w_queue w_idle].
    split; [done|]. split; [done|].
    destruct (decide (map_Exists (λ _ j, stale (tk_reclaim k) (Z.max 60 (wc_stale_sec cfg)) j = true) (q_rows (w_queue w))))
      as [(i & j & Hj & Hs)|Hnone]; [left; by eapply Hless|right].
    assert (∀ i j, q_rows (w_queue w) !! i = Some j → stale (tk_reclaim k) (Z.max 60 (wc_stale_sec cfg)) j = false) as Hall.
    { intros i j Hj. destruct (stale _ _ j) eqn:Hs; [|done]. destruct Hnone. by exists i, j. }
    split; [by apply Hsame|by right].
Qed.

(** Every turn returns, keeps the invariant, and takes a step of some job, or finds nothing
    to claim and nothing to reclaim. *)
Lemma round_effect k answer w :
  idle_ok w →
  ∃ w', round false k answer w = Ok w' ∧ idle_ok w' ∧ advances (w_queue w) (w_queue w')
    ∧ ((work (w_queue w') < work (w_queue w))%nat
       ∨ q_rows (w_queue w') = q_rows (w_queue w) ∧ select_next (tk_select k) (tk_locked k) (w_queue w) = None
         ∧ (w_idle w' = w_idle w + 1 ∧ w_idle w + 1 < wc_reclaim_every cfg
            ∨ ∀ i j, q_rows (w_queue w) !! i = Some j → stale (tk_reclaim k) (Z.max 60 (wc_stale_sec cfg)) j = false)).
Proof.
  intros Hw. pose proof Hw as [Hok Hrows _]. cbn [s_queue] in *.
  pose proof (claim_total (w_queue w) (tk_select k) (tk_claim k) (tk_locked k) Hok Hrows) as Htot.
  destruct (claim_next _ _ _ (w_queue w)) as [[[c|] q1]|] eqn:Hc; [| |done].
  - destruct (busy_round false k answer w c q1 Hw Hc) as (w' & ? & ? & ? & ? & _). exists w'. split_and!; try done. by left.
  - unfold Progress.round, begin_round. rewrite Hc. cbn [mbind res_bind].
    apply claim_next_inv in Hc as [(_ & -> & Hnone)|(? & _ & ? & _)]; [|done].
    eexists. split; [reflexivity|].
    destruct (idle_round_effect k (mkWorker (w_queue w) (w_fresh w) (w_beats w) (w_idle w) (w_counts w)) Hw) as (? & ? & Heff).
    cbn [w_queue w_idle] in *. split_and!; [done..|]. destruct Heff as [?|[? ?]]; [by left|right]. by split_and!.
Qed.
End turns.

(** ** Every job ends *)

(** The clocks go on: every moment is passed for good. *)
Definition diverging (ticks : nat → tick_clock) : Prop :=
  ∀ t, ∃ n0, ∀ n, (n0 ≤ n)%nat → t ≤ tk_select (ticks n) ∧ t ≤ tk_reclaim (ticks n).

(** Nothing is left to do for a job. *)
Definition ended (j : job) : Prop := j_status j = Done ∨ j_status j = Failed.
#[export] Instance ended_dec j : Decision (ended j).
Proof. unfold ended. apply _. Defined.

(** From which moment on a row can be claimed or reclaimed. *)
Definition due (sec : Z) (j : job) : Z :=
  Z.max (default 0 (j_not_before j)) (default (j_created j) (j_started j) + secs sec + 1).

Lemma due_bound sec (rows : gmap Z job) : ∃ t, ∀ i j, rows !! i = Some j → due sec j ≤ t.
Proof.
  induction rows as [|i j rows Hi [t IH]] using map_ind; [by exists 0|].
  exists (Z.max t (due sec j)). intros i' j'. rewrite lookup_insert_Some. intros [[_ <-]|[_ Hj']]; [lia|].
  specialize (IH _ _ Hj'). lia.
Qed.

(** A due row that waits would be claimed, a due row that runs would be reclaimed. *)
Lemma due_claimed t q i j sec locked :
  queue_ok q → q_rows q !! i = Some j → due sec j ≤ t → locked = ∅ → j_status j = Pending → select_next t locked q ≠ None.
Proof.
  intros Hok Hj Hdue -> Hst Hnone. unfold select_next in Hnone. apply min_by_None in Hnone.
  apply (not_elem_of_nil j). rewrite <-Hnone. pose proof (ok_id _ Hok _ _ Hj) as Hid. subst i.
  apply list_elem_of_filter. split; [split; [|set_solver]|by apply elem_of_rows].
  unfold claimable. rewrite bool_decide_eq_true_2 by done. cbn [andb]. unfold due in Hdue.
  destruct (j_not_before j) as [nb|]; [apply Z.leb_le; cbn in Hdue; lia|done].
Qed.

Lemma due_stale t j sec : due sec j ≤ t → j_status j = Running → stale t sec j = true.
Proof.
  intros Hdue Hst. unfold stale, due in *. rewrite bool_decide_eq_true_2 by done. cbn [andb]. apply Z.ltb_lt.
  unfold secs in *. lia.
Qed.

Section ends.
Context `{PyRepr, Sha256, ZoneDb} (cfg : worker_config) (pod version : string) (started_at : Z).
Context (ticks : nat → tick_clock) (answers : nat → claimed → res (pydict * gmap string freshness)).
Context (unlocked : ∀ n, tk_locked (ticks n) = ∅) (going_on : diverging ticks).
Notation rounds := (rounds cfg false pod version started_at ticks answers).
Notation idle_ok w := (sys_ok (mkSys (w_queue w) Idle)).

(** A run that took a step. *)
Definition progress (n : nat) (w : worker) : Prop :=
  ∃ d w', rounds n d w = Ok w' ∧ idle_ok w' ∧ advances (w_queue w) (w_queue w') ∧ (work (w_queue w') < work (w_queue w))%nat.

Lemma progress_later n d w w' :
  rounds n d w = Ok w' → q_rows (w_queue w') = q_rows (w_queue w) → progress (n + d) w' → progress n w.
Proof.
  intros Hr Hrows (d' & w'' & Hr' & Hok & Hadv & Hless). exists (d + d')%nat, w''. rewrite rounds_app, Hr.
  assert (work (w_queue w') = work (w_queue w)) as E by (unfold work; by rewrite Hrows).
  split_and!; [done|done| |lia]. etrans; [by apply advances_rows|done].
Qed.

(** Any number of turns either takes a step or changes no row. *)
Lemma walk n d w :
  idle_ok w → progress n w ∨ ∃ w', rounds n d w = Ok w' ∧ idle_ok w' ∧ q_rows (w_queue w') = q_rows (w_queue w).
Proof.
  revert n w. induction d as [|d IH]; intros n w Hw; [right; by exists w|].
  destruct (round_effect cfg pod version started_at (ticks n) (answers n) w Hw) as (w1 & Hr & Hw1 & Hadv & Heff).
  assert (rounds n 1 w = Ok w1) as Hr1 by (cbn [Progress.rounds]; by rewrite Hr).
  destruct Heff as [Hless|(Hrows & _ & _)]; [left; by exists 1%nat, w1|].
  destruct (IH (S n) w1 Hw1) as [Hp|(w' & Hr' & Hw' & Hrows')].
  - left. eapply progress_later; [exact Hr1|done|]. by rewrite Nat.add_1_r.
  - right. exists w'. split_and!; [|done|congruence]. change (S d) with (1 + d)%nat. rewrite rounds_app, Hr1. cbn [mbind res_bind].
    by rewrite Nat.add_1_r.
Qed.

(** Once every row is due, a turn with a row that has not ended takes a step, or brings the
    next reclaim nearer. *)
Lemma due_turn t n w i j :
  t ≤ tk_select (ticks n) → t ≤ tk_reclaim (ticks n) → idle_ok w →
  (∀ i j, q_rows (w_queue w) !! i = Some j → due (Z.max 60 (wc_stale_sec cfg)) j ≤ t) →
  q_rows (w_queue w) !! i = Some j → ¬ ended j →
  progress n w ∨ ∃ w', rounds n 1 w = Ok w' ∧ idle_ok w' ∧ q_rows (w_queue w') = q_rows (w_queue w)
                       ∧ w_idle w' = w_idle w + 1 ∧ w_idle w + 1 < wc_reclaim_every cfg.
Proof.
  intros Hsel Hrec Hw Hdue Hj Hended. pose proof (Hdue i j Hj) as Hd.
  destruct (round_effect cfg pod version started_at (ticks n) (answers n) w Hw) as (w' & Hr & Hw' & Hadv & Heff).
  assert (rounds n 1 w = Ok w') as Hr1 by (cbn [Progress.rounds]; by rewrite Hr).
  destruct Heff as [Hless|(Hrows & Hnone & Heff)]; [left; by exists 1%nat, w'|]. right. exists w'. split_and!; [done..| |];
    (destruct Heff as [[? ?]|Hstale]; [done|]); destruct (j_status j) eqn:Hst; exfalso.
  all: try (destruct Hended; unfold ended; rewrite Hst; by auto).
  all: try (specialize (Hstale i j Hj); rewrite due_stale in Hstale; [done|lia|done]).
  all: eapply (due_claimed (tk_select (ticks n))); [apply Hw|exact Hj|etrans; [exact Hd|exact Hsel]|apply unlocked|exact Hst|exact Hnone].
Qed.

(** Enough such turns reach the reclaim. *)
Lemma due_progress t n0 :
  (∀ n, (n0 ≤ n)%nat → t ≤ tk_select (ticks n) ∧ t ≤ tk_reclaim (ticks n)) →
  ∀ fuel n w i j, (Z.to_nat (wc_reclaim_every cfg - w_idle w) ≤ fuel)%nat → (n0 ≤ n)%nat → idle_ok w →
  (∀ i j, q_rows (w_queue w) !! i = Some j → due (Z.max 60 (wc_stale_sec cfg)) j ≤ t) →
  q_rows (w_queue w) !! i = Some j → ¬ ended j → progress n w.
Proof.
  intros Hlate. induction fuel as [|fuel IH]; intros n w i j Hfuel Hn Hw Hdue Hj Hended;
    (destruct (due_turn t n w i j) as [Hp|(w' & Hr & Hw' & Hrows & Hidle & Hless)]; [by apply Hlate..|done| |done|done|done|]);
    try done; [lia|].
  eapply progress_later; [exact Hr|done|]. apply (IH (n + 1)%nat w' i j); [lia|lia|done|by rewrite Hrows|by rewrite Hrows|done].
Qed.

(** As long as a row has not ended, a step will be taken. *)
Lemma eventually_progress n w i j :
  idle_ok w → q_rows (w_queue w) !! i = Some j → ¬ ended j → progress n w.
Proof.
  intros Hw Hj Hended. destruct (due_bound (Z.max 60 (wc_stale_sec cfg)) (q_rows (w_queue w))) as [t Ht].
  destruct (going_on t) as [n0 Hlate]. destruct (walk n n0 w Hw) as [Hp|(w' & Hr & Hw' & Hrows)]; [done|].
  eapply progress_later; [exact Hr|done|].
  apply (due_progress t n0 Hlate _ (n + n0)%nat w' i j (le_n _)); [lia|done|by rewrite Hrows|by rewrite Hrows|done].
Qed.

(** Liveness: as long as time goes on and nobody adds a job or holds a lock, every job ends.
    Whatever the handlers answer, turn after turn, success or any error, and whatever
    running rows a crash left behind, no turn fails, and after some number of them each
    row of the table, and no other, is there and is done or failed. *)
Theorem every_job_ends n w :
  idle_ok w →
  ∃ d w', rounds n d w = Ok w'
    ∧ (∀ i, is_Some (q_rows (w_queue w') !! i) ↔ is_Some (q_rows (w_queue w) !! i))
    ∧ ∀ i j, q_rows (w_queue w') !! i = Some j → ended j.
Proof.
  revert n. induction w as [w IH] using (induction_ltof1 _ (λ w, work (w_queue w))). intros n Hw.
  destruct (decide (map_Exists (λ _ j, ¬ ended j) (q_rows (w_queue w)))) as [(i & j & Hj & Hended)|Hall].
  - destruct (eventually_progress n w i j Hw Hj Hended) as (d & w1 & Hr & Hw1 & Hadv & Hless).
    destruct (IH w1 Hless (n + d)%nat Hw1) as (d' & w' & Hr' & Hdom & Hends).
    exists (d + d')%nat, w'. rewrite rounds_app, Hr. split_and!; [done| |done].
    intros i'. rewrite Hdom. specialize (Hadv i'). by destruct Hadv.
  - exists 0%nat, w. split_and!; [done|done|]. intros i j Hj. destruct (decide (ended j)); [done|]. destruct Hall. by exists i, j.
Qed.
End ends.

(** Two jobs wait, a turn comes each hour, and the first answer is a throttle. *)
Definition waiting_worker : worker := mkWorker two_jobs ∅ ∅ 0 (mkCounters 0 0 0 0 0 0 None "" "" "").
Definition hourly (n : nat) : tick_clock :=
  let t := secs (3600 * (Z.of_nat n + 1)) in mkTick t t ∅ t "2026-09-08" (λ _, t) t t t t t true.
Definition throttled_once (n : nat) (c : claimed) : res (pydict * gmap string freshness) :=
  match n with O => Raise throttle_error | _ => Ok ([], ∅) end.

Lemma hourly_diverging : diverging hourly.
Proof. intros t. exists (Z.to_nat t). intros n Hn. cbn [hourly tk_select tk_reclaim]. unfold secs. lia. Qed.

Lemma two_jobs_idle : sys_ok (mkSys two_jobs Idle).
Proof. eapply rtc_invariant; [exact (@sys_step_ok sample_repr sample_sha default_policy)|apply empty_sys_ok|exact two_jobs_sys]. Qed.

Lemma every_job_ends_witness :
  ∃ d w',
    @rounds sample_repr sample_sha sample_zones sample_config false "pod" "v" 0 hourly throttled_once 0 d waiting_worker = Ok w'
    ∧ ∃ j', q_rows (w_queue w') !! 1 = Some j' ∧ (j_status j' = Done ∨ j_status j' = Failed).
Proof.
  destruct (@every_job_ends sample_repr sample_sha sample_zones sample_config "pod" "v" 0 hourly throttled_once
              (λ _, eq_refl) hourly_diverging 0 waiting_worker two_jobs_idle) as (d & w' & Hr & Hdom & Hall).
  exists d, w'. split; [exact Hr|].
  destruct (q_rows (w_queue w') !! 1) as [j'|] eqn:Hj'.
  - exists j'. split; [reflexivity|exact (Hall 1 j' Hj')].
  - exfalso. destruct (proj2 (Hdom 1)) as [j' Hj]; [|congruence].
    cbn [waiting_worker w_queue]. vm_compute. eexists. reflexivity.
Defined.
