(* ===== verification/Steady.v ===== *)
(** * The worker with the catch-up on ([worker/loop.py], [worker/catchup.py])

    The catch-up adds a job for every planned fire that found none, so the work never runs
    out; still each job ends, once IB stops throttling: the catch-up only runs when nothing
    can be claimed, so a job that waits for nothing is claimed after finitely many others. *)
From S2P Require Import Prelude Pytext PyVal Json Retry JobQueue Pytime Ddl Handlers Cron Schedule Worker Progress.

(** Rows are kept and gain no step; rows may be added. *)
Definition grows (q q' : queue) : Prop :=
  ∀ i j, q_rows q !! i = Some j → ∃ j', q_rows q' !! i = Some j' ∧ (chances j' ≤ chances j)%nat.

#[export] Instance grows_preorder : PreOrder grows.
Proof.
  split; [by intros q i j; exists j|]. intros q1 q2 q3 H12 H23 i j Hj.
  destruct (H12 i j Hj) as (j2 & Hj2 & ?). destruct (H23 i j2 Hj2) as (j3 & ? & ?). exists j3. split; [done|lia].
Qed.

Lemma advances_grows q q' : advances q q' → grows q q'.
Proof. intros Ha i j Hj. specialize (Ha i). rewrite Hj in Ha. inversion Ha; subst. by eexists. Qed.

Lemma chances_ended j : row_ok j → chances j = 0%nat ↔ ended j.
Proof.
  intros Hok. unfold ended. destruct (j_status j) eqn:Hst; [pose proof (chances_pending j Hok Hst)| |split; auto..].
  - split; [lia|by intros []].
  - unfold chances. rewrite Hst. by split; [|intros []].
  - unfold chances. by rewrite Hst.
  - unfold chances. by rewrite Hst.
Qed.

Section enqueue.
Context `{PyRepr, Sha256}.

(** The catch-up adds rows and leaves the others alone. *)
Lemma enqueue_missed_keeps today clock sched ms n q r q' :
  queue_ok q → enqueue_missed today clock sched ms n q = (r, q') →
  ∀ i j, q_rows q !! i = Some j → q_rows q' !! i = Some j.
Proof.
  revert n q r q'. induction ms as [|m ms IH]; intros n q r q' Hok; cbn [enqueue_missed]; [by intros [= _ <-]|].
  destruct (enqueue_slot _ _ _ _ _ q) as [[r1 q1]|] eqn:He; [|by intros [= _ <-]].
  destruct (enqueue_missed _ _ _ ms (S n) q1) as [rest q2] eqn:Hrest. intros [= _ <-] i j Hj.
  apply enqueue_slot_inv in He as (_ & prio & maxa & Hi & _). eapply IH; [by eapply insert_job_ok|exact Hrest|].
  apply insert_job_inv in Hi as [(_ & _ & ->)|(_ & _ & ->)]; cbn [q_rows]; [done|].
  pose proof (ok_seq _ Hok _ _ Hj). rewrite lookup_insert_ne by lia. done.
Qed.
End enqueue.

(** ** What a turn does to one job *)

Section turns.
Context `{PyRepr, Sha256, ZoneDb} (cfg : worker_config) (on : bool) (pod version : string) (started_at : Z).
Notation round := (round cfg on pod version started_at).
Notation idle_ok w := (sys_ok (mkSys (w_queue w) Idle)).

(** A claim of the turn whose answer is not a throttle. *)
Definition calm_turn (k : tick_clock) (answer : claimed → res (pydict * gmap string freshness)) (w : worker) : Prop :=
  ∀ c w1 e, begin_round cfg on pod version started_at k w = Ok (Some c, w1) → answer c = Raise e →
    classify_flex_error (exn_str e) ≠ THROTTLED.

Lemma finish_others k c r w w' i :
  (∀ e, r = Raise e → classify_flex_error (exn_str e) ≠ THROTTLED) →
  finish_round cfg pod version started_at k c r w = Ok w' → i ≠ c_id c → q_rows (w_queue w') !! i = q_rows (w_queue w) !! i.
Proof.
  intros Hcalm. unfold finish_round. set (v := judge (wc_policy cfg) c (fst <$> r)). intros (q1 & Hm & Hw')%res_bind_ok Hne.
  assert (cooldown v = None) as Hcool.
  { unfold v. destruct r as [[out tb]|e]; [done|]. cbn [fmap res_fmap]. rewrite judge_raise. cbn zeta.
    rewrite decide_False by by apply Hcalm. by destruct (_ && _). }
  rewrite Hcool in Hw'. injection Hw' as <-. cbn [beat w_queue].
  destruct (mark_row (tk_mark k) (c_id c) v) as (f & Hf & _). rewrite Hf in Hm.
  apply update_row_inv in Hm as [[-> _]|(j & _ & _ & ->)]; [done|]. cbn [q_rows]. by rewrite lookup_insert_ne.
Qed.

(** A turn with nothing to claim: one more idle turn, or the reclaim and the catch-up. *)
Lemma idle_tick k w :
  idle_ok w →
  let w' := idle_round cfg on pod version started_at k w in
  let is_stale := stale (tk_reclaim k) (Z.max 60 (wc_stale_sec cfg)) in
  grows (w_queue w) (w_queue w')
  ∧ (∀ i j, q_rows (w_queue w) !! i = Some j → is_stale j = false → q_rows (w_queue w') !! i = Some j)
  ∧ (w_idle w + 1 < wc_reclaim_every cfg ∧ w_idle w' = w_idle w + 1 ∧ w_queue w' = w_queue w
     ∨ ∀ i j, q_rows (w_queue w) !! i = Some j → is_stale j = true →
         ∃ j', q_rows (w_queue w') !! i = Some j' ∧ (chances j' < chances j)%nat).
Proof.
  intros Hw w' is_stale. unfold w', idle_round. cbn zeta. destruct (w_idle w + 1 <? wc_reclaim_every cfg) eqn:Hi; bool_hyps.
  { cbn [w_queue w_idle]. split_and!; [done|done|by left]. }
  pose proof (reclaim_ok (tk_reclaim k) (wc_stale_sec cfg) (wc_requeue_sec cfg) (w_queue w) ltac:(by destruct Hw)) as Hok1.
  assert (∀ i j, q_rows (w_queue w) !! i = Some j →
    q_rows (reclaim_stale_running (tk_reclaim k) (wc_stale_sec cfg) (wc_requeue_sec cfg) (w_queue w)).2 !! i
    = Some (if is_stale j then reclaim_row (tk_reclaim k) (Z.max 60 (wc_stale_sec cfg)) (Z.max 0 (wc_requeue_sec cfg)) j else j)) as Hrow.
  { intros i j Hj. unfold reclaim_stale_running. by rewrite update_where_lookup, Hj. }
  destruct (reclaim_stale_running _ _ _ (w_queue w)) as [ids q1]. cbn [snd] in *.
  match goal with |- context [let '(_, _) := ?x in _] => destruct x as [q2 c2] eqn:Hcatch end.
  assert (∀ i j, q_rows q1 !! i = Some j → q_rows q2 !! i = Some j) as Hkeep.
  { destruct on; [|by injection Hcatch as <- _]. unfold catchup_missed_slots in Hcatch.
    destruct (missed_slots _ _ _ _) as [ms|]; [|by injection Hcatch as <- _].
    destruct (enqueue_missed _ _ _ ms _ q1) as [r q3] eqn:He. destruct r; injection Hcatch as <- _;
      by eapply enqueue_missed_keeps. }
  cbn [beat w_queue].
  assert (∀ j, is_stale j = true →
    (chances (reclaim_row (tk_reclaim k) (Z.max 60 (wc_stale_sec cfg)) (Z.max 0 (wc_requeue_sec cfg)) j) < chances j)%nat) as Hless
    by (intros j; apply reclaim_row_chances).
  split_and!; [| |right]; intros i j Hj; specialize (Hkeep _ _ (Hrow _ _ Hj)); destruct (is_stale j) eqn:Hs; try done.
  - eexists. split; [exact Hkeep|]. specialize (Hless j Hs). lia.
  - by exists j.
  - intros _. eexists. split; [exact Hkeep|by apply Hless].
Qed.

(** A turn claims a job and ends it, or finds nothing to claim. *)
Lemma round_cases k answer w :
  idle_ok w →
  (∃ c w1 w', begin_round cfg on pod version started_at k w = Ok (Some c, w1)
     ∧ finish_round cfg pod version started_at k c (answer c) w1 = Ok w' ∧ round k answer w = Ok w'
     ∧ claim_next (tk_select k) (tk_claim k) (tk_locked k) (w_queue w) = Ok (Some c, w_queue w1)
     ∧ idle_ok w' ∧ advances (w_queue w) (w_queue w') ∧ (work (w_queue w') < work (w_queue w))%nat
     ∧ ∃ j j', q_rows (w_queue w) !! c_id c = Some j ∧ q_rows (w_queue w') !! c_id c = Some j' ∧ (chances j' < chances j)%nat)
  ∨ (let w' := idle_round cfg on pod version started_at k w in
     select_next (tk_select k) (tk_locked k) (w_queue w) = None ∧ round k answer w = Ok w' ∧ idle_ok w').
Proof.
  intros Hw. pose proof Hw as [Hok Hrows _]. cbn [s_queue] in *.
  pose proof (claim_total (w_queue w) (tk_select k) (tk_claim k) (tk_locked k) Hok Hrows) as Htot.
  pose proof (proj1 (proj2 (rounds_refine_system cfg on pod version started_at k w))) as Href. cbv zeta in Href.
  unfold Progress.round. destruct (begin_round cfg on pod version started_at k w) as [[job w1]|] eqn:Hb; unfold begin_round in Hb.
  - destruct (claim_next _ _ _ (w_queue w)) as [[[c|] q1]|] eqn:Hc; [| |done]; injection Hb as <- Hw1.
    + left. destruct (busy_round cfg pod version started_at on k answer w c q1 Hw Hc) as (w' & Hr & ? & ? & ? & ?).
      exists c, w1, w'. unfold Progress.round, begin_round in Hr. rewrite Hc in Hr. cbn [mbind res_bind] in Hr |- *.
      rewrite Hw1 in Hr. split_and!; try done. by rewrite <-Hw1.
    + right. apply claim_next_inv in Hc as [(_ & -> & Hnone)|(? & _ & ? & _)]; [|done].
      assert (w1 = idle_round cfg on pod version started_at k w) as -> by (rewrite <-Hw1; by destruct w).
      cbn zeta. split_and!; [done|done|]. specialize (Href None _ eq_refl). cbn in Href.
      exact (rtc_invariant _ _ _ _ (sys_step_ok (wc_policy cfg)) Hw Href).
  - exfalso. destruct (claim_next _ _ _ (w_queue w)) as [[[c|] q1]|]; done.
Qed.

Lemma round_returns k answer w : idle_ok w → ∃ w', round k answer w = Ok w' ∧ idle_ok w' ∧ grows (w_queue w) (w_queue w').
Proof.
  intros Hw. destruct (round_cases k answer w Hw) as [(c & w1 & w' & _ & _ & ? & _ & ? & ? & _)|(_ & ? & ?)].
  - exists w'. by split_and!; [| |apply advances_grows].
  - eexists. split_and!; [done|done|by apply idle_tick].
Qed.

(** What becomes of one job in a calm turn: it takes a step; or it stays as it is and another
    is claimed, or nothing can be claimed and one idle turn more has passed, or the reclaim
    has left the job alone. *)
Lemma job_turn k answer w i j :
  idle_ok w → calm_turn k answer w → q_rows (w_queue w) !! i = Some j →
  ∃ w', round k answer w = Ok w' ∧ idle_ok w'
    ∧ ((∃ j', q_rows (w_queue w') !! i = Some j' ∧ (chances j' < chances j)%nat)
       ∨ q_rows (w_queue w') !! i = Some j
         ∧ ((work (w_queue w') < work (w_queue w))%nat
            ∨ select_next (tk_select k) (tk_locked k) (w_queue w) = None
              ∧ (w_idle w + 1 < wc_reclaim_every cfg ∧ w_idle w' = w_idle w + 1 ∧ w_queue w' = w_queue w
                 ∨ stale (tk_reclaim k) (Z.max 60 (wc_stale_sec cfg)) j = false))).
Proof.
  intros Hw Hcalm Hj. destruct (round_cases k answer w Hw) as
    [(c & w1 & w' & Hb & Hf & Hr & Hc & Hw' & _ & Hwork & j0 & j1 & Hj0 & Hj1 & Hless)|(Hnone & Hr & Hw')].
  - exists w'. split_and!; [done|done|]. destruct (decide (i = c_id c)) as [->|Hne].
    + left. exists j1. rewrite Hj in Hj0. by injection Hj0 as <-.
    + right. split; [|by left]. rewrite (finish_others k c _ _ _ i (λ e, Hcalm c w1 e Hb) Hf Hne).
      destruct (claim_some _ _ _ _ _ _ ltac:(by destruct Hw) Hc) as (? & _ & _ & _ & ->). cbn [q_rows]. by rewrite lookup_insert_ne.
  - destruct (idle_tick k w Hw) as (_ & Hkeep & Htick). eexists. split_and!; [exact Hr|exact Hw'|].
    destruct (stale (tk_reclaim k) (Z.max 60 (wc_stale_sec cfg)) j) eqn:Hs.
    + destruct Htick as [(? & ? & Hq)|Htick]; [right|left; by eapply Htick].
      split; [by rewrite Hq|]. right. split; [done|by left].
    + right. split; [by apply Hkeep|]. right. split; [done|by right].
Qed.
End turns.

(** ** Every job ends *)

Section ends.
Context `{PyRepr, Sha256, ZoneDb} (cfg : worker_config) (on : bool) (pod version : string) (started_at : Z).
Context (ticks : nat → tick_clock) (answers : nat → claimed → res (pydict * gmap string freshness)).
Context (unlocked : ∀ n, tk_locked (ticks n) = ∅) (going_on : diverging ticks).
Notation rounds := (rounds cfg on pod version started_at ticks answers).
Notation idle_ok w := (sys_ok (mkSys (w_queue w) Idle)).

(** From here on no claimed job is answered with a throttle. *)
Definition calm (n : nat) (w : worker) : Prop :=
  ∀ d w1, rounds n d w = Ok w1 → calm_turn cfg on pod version started_at (ticks (n + d)) (answers (n + d)) w1.

Lemma calm_later n d w w' : rounds n d w = Ok w' → calm n w → calm (n + d) w'.
Proof. intros Hr Hcalm e w1 Hr1. rewrite <-Nat.add_assoc. apply Hcalm. by rewrite rounds_app, Hr. Qed.

Lemma rounds_return n d w : idle_ok w → ∃ w', rounds n d w = Ok w' ∧ idle_ok w' ∧ grows (w_queue w) (w_queue w').
Proof.
  revert n w. induction d as [|d IH]; intros n w Hw; [by exists w|].
  destruct (round_returns cfg on pod version started_at (ticks n) (answers n) w Hw) as (w1 & Hr & Hw1 & Hg).
  destruct (IH (S n) w1 Hw1) as (w2 & Hr2 & Hw2 & Hg2). exists w2.
  split_and!; [cbn [Progress.rounds]; by rewrite Hr|done|by etrans].
Qed.

(** The run takes a step of the job. *)
Definition job_step (n : nat) (w : worker) (i : Z) (j : job) : Prop :=
  ∃ d w' j', rounds n d w = Ok w' ∧ idle_ok w' ∧ q_rows (w_queue w') !! i = Some j' ∧ (chances j' < chances j)%nat.

Lemma job_step_later n d w w' i j : rounds n d w = Ok w' → job_step (n + d) w' i j → job_step n w i j.
Proof. intros Hr (d' & w2 & j' & Hr2 & ?). exists (d + d')%nat, w2, j'. by rewrite rounds_app, Hr. Qed.

Lemma one_round n w w' : round cfg on pod version started_at (ticks n) (answers n) w = Ok w' → rounds n 1 w = Ok w'.
Proof. intros Hr. cbn [Progress.rounds]. by rewrite Hr. Qed.

Lemma job_walk n d w i j :
  idle_ok w → calm n w → q_rows (w_queue w) !! i = Some j →
  job_step n w i j ∨ ∃ w', rounds n d w = Ok w' ∧ idle_ok w' ∧ q_rows (w_queue w') !! i = Some j.
Proof.
  intros Hw Hcalm Hj. induction d as [|d [Hp|(w1 & Hr & Hw1 & Hj1)]]; [right; by exists w|by left|].
  destruct (job_turn cfg on pod version started_at (ticks (n + d)) (answers (n + d)) w1 i j) as (w2 & Hr2%one_round & Hw2 & Heff);
    [done|by apply Hcalm|done|].
  destruct Heff as [(j' & Hj' & Hless)|[Hj2 _]].
  - left. eapply job_step_later; [exact Hr|]. by exists 1%nat, w2, j'.
  - right. exists w2. replace (S d) with (d + 1)%nat by lia. by rewrite rounds_app, Hr.
Qed.

(** Once the job is due, the others cannot hold it up for ever. *)
Lemma due_step t n w i j :
  (∀ m, (n ≤ m)%nat → t ≤ tk_select (ticks m) ∧ t ≤ tk_reclaim (ticks m)) →
  idle_ok w → calm n w → q_rows (w_queue w) !! i = Some j → due (Z.max 60 (wc_stale_sec cfg)) j ≤ t → ¬ ended j →
  job_step n w i j.
Proof.
  intros Hlate Hw Hcalm Hj Hdue Hended.
  remember (work (w_queue w)) as total eqn:Htotal. revert n w Hlate Hw Hcalm Hj Htotal.
  induction total as [total IHwork] using lt_wf_ind. intros n w.
  remember (Z.to_nat (wc_reclaim_every cfg - w_idle w)) as fuel eqn:Hfuel. revert n w Hfuel.
  induction fuel as [fuel IHfuel] using lt_wf_ind. intros n w Hfuel Hlate Hw Hcalm Hj Htotal.
  destruct (job_turn cfg on pod version started_at (ticks n) (answers n) w i j) as (w' & Hr%one_round & Hw' & Heff);
    [done|rewrite <-(Nat.add_0_r n); by apply (Hcalm 0%nat)|done|].
  pose proof (calm_later _ _ _ _ Hr Hcalm) as Hcalm'.
  assert (∀ m, (n + 1 ≤ m)%nat → t ≤ tk_select (ticks m) ∧ t ≤ tk_reclaim (ticks m)) as Hlate' by (intros; apply Hlate; lia).
  destruct Heff as [(j' & Hj' & Hless)|(Hj' & [Hwork|[Hnone Hidle]])].
  - by exists 1%nat, w', j'.
  - eapply job_step_later; [exact Hr|]. eapply IHwork; [|done..]. lia.
  - pose proof (Hlate n (le_n _)) as [Hsel Hrec]. destruct (j_status j) eqn:Hst; [exfalso| |by destruct Hended; unfold ended; rewrite Hst; auto..].
    { eapply (due_claimed (tk_select (ticks n))); [apply Hw|exact Hj|etrans; [exact Hdue|exact Hsel]|apply unlocked|exact Hst|exact Hnone]. }
    destruct Hidle as [(Hi & Hi' & Hq)|Hstale].
    + eapply job_step_later; [exact Hr|]. eapply IHfuel; [|reflexivity|done..|by rewrite Hq]. lia.
    + exfalso. rewrite due_stale in Hstale; [done|lia|done].
Qed.

Lemma job_ends n w i j :
  idle_ok w → calm n w → q_rows (w_queue w) !! i = Some j →
  ∃ d w' j', rounds n d w = Ok w' ∧ idle_ok w' ∧ q_rows (w_queue w') !! i = Some j' ∧ ended j'.
Proof.
  remember (chances j) as left eqn:Hleft. revert n w j Hleft.
  induction left as [left IH] using lt_wf_ind. intros n w j Hleft Hw Hcalm Hj.
  destruct (decide (ended j)) as [Hended|Hended]; [by exists 0%nat, w, j|].
  assert (job_step n w i j) as (d & w1 & j1 & Hr & Hw1 & Hj1 & Hless).
  { destruct (going_on (due (Z.max 60 (wc_stale_sec cfg)) j)) as [n0 Hlate].
    destruct (job_walk n n0 w i j Hw Hcalm Hj) as [?|(w' & Hr & Hw' & Hj')]; [done|].
    eapply job_step_later; [exact Hr|]. eapply due_step; [|done|by eapply calm_later|done|done|done].
    intros m Hm. apply Hlate. lia. }
  destruct (IH (chances j1) ltac:(lia) (n + d)%nat w1 j1 eq_refl Hw1 (calm_later _ _ _ _ Hr Hcalm) Hj1)
    as (d' & w2 & j2 & Hr2 & ?).
  exists (d + d')%nat, w2, j2. by rewrite rounds_app, Hr.
Qed.

Lemma ended_stays w w' i j :
  idle_ok w → idle_ok w' → grows (w_queue w) (w_queue w') → q_rows (w_queue w) !! i = Some j → ended j →
  ∃ j', q_rows (w_queue w') !! i = Some j' ∧ ended j'.
Proof.
  intros [_ Hrows _] [_ Hrows' _] Hg Hj Hended. destruct (Hg i j Hj) as (j' & Hj' & Hle). exists j'. split; [done|].
  apply chances_ended; [by eapply (Hrows' i)|]. apply (chances_ended j) in Hended; [lia|by eapply (Hrows i)].
Qed.

Lemma listed_end n w (l : list Z) :
  idle_ok w → calm n w → (∀ i, i ∈ l → is_Some (q_rows (w_queue w) !! i)) →
  ∃ d w', rounds n d w = Ok w' ∧ idle_ok w' ∧ ∀ i, i ∈ l → ∃ j', q_rows (w_queue w') !! i = Some j' ∧ ended j'.
Proof.
  intros Hw Hcalm. induction l as [|i l IH]; intros Hl; [exists 0%nat, w; split_and!; [done|done|]; by intros i ?%elem_of_nil|].
  destruct IH as (d & w1 & Hr & Hw1 & Hend); [intros; apply Hl; by right|].
  destruct (rounds_return n d w Hw) as (w1' & Hr' & _ & Hg). rewrite Hr in Hr'. injection Hr' as <-.
  destruct (Hl i) as [j Hj]; [by left|]. destruct (Hg i j Hj) as (j1 & Hj1 & _).
  destruct (job_ends (n + d) w1 i j1 Hw1 (calm_later _ _ _ _ Hr Hcalm) Hj1) as (d2 & w2 & j2 & Hr2 & Hw2 & Hj2 & He2).
  destruct (rounds_return (n + d) d2 w1 Hw1) as (w2' & Hr2' & _ & Hg2). rewrite Hr2 in Hr2'. injection Hr2' as <-.
  exists (d + d2)%nat, w2. split_and!; [by rewrite rounds_app, Hr|done|]. intros i' [->|Hi']%elem_of_cons; [by exists j2|].
  destruct (Hend i' Hi') as (j' & Hj' & He'). by eapply (ended_stays w1 w2).
Qed.

(** Every job the table holds ends, once IB stops throttling: from any turn on there is a
    later one after which each of them is done or failed, whatever other errors the
    handlers meet and however many jobs the catch-up adds meanwhile. *)
Lemma jobs_end_steady n w calm_after :
  idle_ok w →
  (∀ d w1, (calm_after ≤ d)%nat → rounds n d w = Ok w1 →
     calm_turn cfg on pod version started_at (ticks (n + d)) (answers (n + d)) w1) →
  ∃ d w', rounds n d w = Ok w' ∧ idle_ok w'
    ∧ ∀ i, is_Some (q_rows (w_queue w) !! i) → ∃ j', q_rows (w_queue w') !! i = Some j' ∧ ended j'.
Proof.
  intros Hw Hcalm. destruct (rounds_return n calm_after w Hw) as (w1 & Hr & Hw1 & Hg).
  assert (calm (n + calm_after) w1) as Hcalm1.
  { intros d w2 Hr2. rewrite <-Nat.add_assoc. apply Hcalm; [lia|]. by rewrite rounds_app, Hr. }
  destruct (listed_end (n + calm_after) w1 (map_to_list (q_rows (w_queue w))).*1 Hw1 Hcalm1) as (d & w2 & Hr2 & Hw2 & Hend).
  { intros i ([i' j] & -> & Hij%elem_of_map_to_list)%list_elem_of_fmap. destruct (Hg i' j Hij) as (j1 & Hj1 & _). by eexists. }
  exists (calm_after + d)%nat, w2. split_and!; [by rewrite rounds_app, Hr|done|]. intros i [j Hj]. apply Hend.
  apply list_elem_of_fmap. exists (i, j). split; [done|]. by apply elem_of_map_to_list.
Qed.
End ends.
