(* ===== verification/Outage.v ===== *)
(** * The worker process when Postgres goes away ([worker/loop.py], [schema/ddl.py])

    [run_forever] with every statement behind [WorkerDb.call]: each try of each call may find
    no database, or lose the connection before or after its commit; a call that gives up, or
    any other exception a swallowing handler does not catch, ends the process, and a new one
    starts. The process may be killed between two calls, and before each try others may have
    changed the database. Tries read their own clocks. *)
From S2P Require Import Prelude Pytext PyVal Json Retry JobQueue Pytime Ddl Handlers Cron Schedule Worker Progress Steady.

(** ** Calls *)

(** An operation told which of its tries it is. *)
Definition counted {S A} (op : Z → S → res A * S) (x : Z * S) : res A * (Z * S) :=
  let '(r, s') := op x.1 x.2 in (r, (x.1 + 1, s')).

(** [db.call(fn)]: the answer, the connection and the state left behind. *)
Definition call {S A} (op : Z → S → res A * S) (faults : Z → fault) (c : wdb) (s : S) : res A * wdb * S :=
  let '(r, c', x, _) := db_call (counted op) faults c (0, s) in (r, c', x.2).

(** An operation that changes nothing when it raises. *)
Definition lift_op {S A} (f : S → res (A * S)) (s : S) : res A * S :=
  match f s with Ok (a, s') => (Ok a, s') | Raise e => (Raise e, s) end.

(** ** The schema a statement needs *)

Definition has_columns (s : schema) (table : string) (cols : list string) : bool :=
  match s !! table with Some c => bool_decide (Forall (λ x, x ∈ c) cols) | None => false end.

(** The columns the queue's statements use that an older table lacks. *)
Definition jobs_ready (s : schema) : bool := has_columns s JOB_TABLE ["not_before"; "error_category"].
Definition beats_ready (s : schema) : bool := has_columns s HEARTBEAT_TABLE [].

Definition undefined_error : exn := Exn DatabaseError "relation or column does not exist".
Definition in_failed_transaction : exn :=
  Exn DatabaseError "current transaction is aborted, commands ignored until end of transaction block".

Definition guarded {S A} (ready : bool) (op : Z → S → res A * S) (i : Z) (s : S) : res A * S :=
  if ready then op i s else (Raise undefined_error, s).

(** [ensure_flex_ops_schema] as the worker calls it: the tables, and the process's [_migrated].
    The flag is set before the commit, so that a commit that does not get through
    ([commit_lost]) leaves it set and the tables as they were. *)
Definition ensure_op (commit_lost : Z → option exn) (i : Z) (x : schema * bool) : res () * (schema * bool) :=
  match ensure_flex_ops_schema true x.1 x.2 with
  | Ok (s', migrated') =>
      match commit_lost i with
      | Some e => (Raise e, (x.1, migrated'))
      | None => (Ok (), (s', migrated'))
      end
  | Raise e => (Raise e, x)
  end.

(** ** The process *)

(** What the database holds. *)
Record tables := mkTables {
  tb_queue : queue; tb_fresh : gmap string freshness; tb_beats : gmap string heartbeat; tb_schema : schema
}.
Definition set_queue (q : queue) (tb : tables) : tables := mkTables q (tb_fresh tb) (tb_beats tb) (tb_schema tb).
Definition set_fresh (fresh : gmap string freshness) (tb : tables) : tables :=
  mkTables (tb_queue tb) fresh (tb_beats tb) (tb_schema tb).
Definition set_beats (beats : gmap string heartbeat) (tb : tables) : tables :=
  mkTables (tb_queue tb) (tb_fresh tb) beats (tb_schema tb).
Definition set_schema (sc : schema) (tb : tables) : tables := mkTables (tb_queue tb) (tb_fresh tb) (tb_beats tb) sc.

(** Where others may step in or the process be killed: before each call, and before the
    dispatch. *)
Inductive stage := AtEnsure | AtClaim | AtReclaim | AtCatchup | AtDispatch | AtMark | AtDefer | AtBeat.
#[export] Instance stage_eq_dec : EqDecision stage.
Proof. solve_decision. Defined.

Section process.
(** [E] is what there is besides the tables, and is shared like them. *)
Context {E : Type}.

Notation shared := (tables * E)%type.

(** A running process: what it shares, its connection, and its own variables. [p_aborted]: a
    statement failed on the open connection and nobody rolled back. *)
Record process := mkProcess {
  p_shared : shared; p_db : wdb; p_aborted : bool; p_idle : Z; p_counts : counters; p_started : Z
}.

(** What befalls one turn: the tries of each call; an inner loss of the catch-up, between two
    of its inserts, and of the migration, at its commit; whether the outcome of a failed
    attempt gets written; what the others do at a stage before the [i]-th try; a kill. *)
Record outages := mkOutages {
  o_ensure : Z → fault; o_commit : Z → option exn;
  o_claim : Z → fault; o_reclaim : Z → fault; o_catchup : Z → fault; o_cut : Z → option (nat * exn);
  o_mark : Z → fault; o_defer : Z → fault; o_beat : Z → fault;
  o_meanwhile : stage → Z → shared → shared; o_kill : option stage
}.

(** A dispatch: what it answers and does to what is not in the tables, and what is left of
    that when it is killed half way. *)
Record dispatcher := mkDispatcher {
  di_run : claimed → gmap string freshness → E → res (pydict * gmap string freshness) * E;
  di_half : claimed → E → E
}.

(** No outage: with the others at work, and without. *)
Definition in_company (meanwhile : stage → Z → shared → shared) : outages :=
  let ok (_ : Z) := NoFault in
  mkOutages ok (λ _, None) ok ok ok (λ _, None) ok ok ok meanwhile None.
Definition fine : outages := in_company (λ _ _ s, s).

(** A loss has one of the classes the call catches. *)
Definition as_loss (f : fault) : fault :=
  let e0 e := Exn OperationalError (exn_str e) in
  match f with
  | NoFault => NoFault
  | ConnectFails e => ConnectFails (e0 e)
  | LostBefore e => LostBefore (e0 e)
  | LostAfter e => LostAfter (e0 e)
  end.

(** It strikes an open connection. *)
Definition strikes (f : fault) : bool := match f with LostBefore _ | LostAfter _ => true | _ => false end.

(** A computation of the process: what it did stays done when it raises. *)
Definition proc (A : Type) : Type := process → res A * process.
#[export] Instance proc_ret : MRet proc := λ _ a p, (Ok a, p).
#[export] Instance proc_bind : MBind proc := λ _ _ f m p,
  match m p with (Ok a, p') => f a p' | (Raise e, p') => (Raise e, p') end.

Definition share (s : shared) (p : process) : process :=
  mkProcess s (p_db p) (p_aborted p) (p_idle p) (p_counts p) (p_started p).
Definition set_idle (n : Z) (p : process) : process :=
  mkProcess (p_shared p) (p_db p) (p_aborted p) n (p_counts p) (p_started p).
Definition on_counts (f : counters → counters) (p : process) : process :=
  mkProcess (p_shared p) (p_db p) (p_aborted p) (p_idle p) (f (p_counts p)) (p_started p).
Definition get_process : proc process := λ p, (Ok p, p).
Definition modify (f : process → process) : proc () := λ p, (Ok (), f p).

(** [try: ... except Exception: log]. *)
Definition swallow {A} (m : proc A) : proc (option A) := λ p,
  match m p with (Ok a, p') => (Ok (Some a), p') | (Raise _, p') => (Ok None, p') end.

(** A statement on the job table; one on the heartbeats. *)
Definition on_queue {A} (op : Z → queue → res A * queue) (i : Z) (tb : tables) : res A * tables :=
  let '(r, q) := guarded (jobs_ready (tb_schema tb)) op i (tb_queue tb) in (r, set_queue q tb).
Definition on_beats (op : Z → gmap string heartbeat → res () * gmap string heartbeat) (i : Z) (tb : tables) : res () * tables :=
  let '(r, beats) := guarded (beats_ready (tb_schema tb)) op i (tb_beats tb) in (r, set_beats beats tb).

Definition killed : exn := Exn OtherError "killed".

Section turn.
Context `{PyRepr, Sha256, ZoneDb} (cfg : worker_config) (catchup_enabled : bool) (pod version : string).
Context (ks : Z → tick_clock) (o : outages).
Context (dispatch : dispatcher).

(** An operation on the tables as the others left them. *)
Definition among {A} (st : stage) (op : Z → tables → res A * tables) (i : Z) (s : shared) : res A * shared :=
  let '(tb, e) := o_meanwhile o st i s in
  let '(r, tb') := op i tb in (r, (tb', e)).

(** [db.call]. *)
Definition db {A} (st : stage) (op : Z → tables → res A * tables) (faults : Z → fault) : proc A := λ p,
  let '(r, c, s) := call (among st op) (λ i, as_loss (faults i)) (p_db p) (p_shared p) in
  (r, mkProcess s c (p_aborted p) (p_idle p) (p_counts p) (p_started p)).

(** The operations, their clocks those of the try. *)
Definition claim_op (i : Z) : queue → res (option claimed) * queue :=
  lift_op (claim_next (tk_select (ks i)) (tk_claim (ks i)) (tk_locked (ks i))).
Definition reclaim_op (i : Z) (q : queue) : res (list Z) * queue :=
  let '(ids, q') := reclaim_stale_running (tk_reclaim (ks i)) (wc_stale_sec cfg) (wc_requeue_sec cfg) q in (Ok ids, q').
Definition mark_op (jid : Z) (v : verdict) (i : Z) : queue → res () * queue :=
  lift_op (λ q, (λ q', ((), q')) <$> mark (tk_mark (ks i)) jid v q).
Definition defer_op (jid d : Z) (i : Z) (q : queue) : res () * queue :=
  (Ok (), (defer_pending (tk_defer (ks i)) d (Some jid) q).2).
Definition catchup_op (i : Z) (q : queue) : res (list (missed * Z)) * queue :=
  let k := ks i in
  match missed_slots (wc_schedule cfg) (tk_now k) (wc_grace_sec cfg) (newest_job_per_kind q) with
  | Raise e => (Raise e, q)
  | Ok ms =>
      match o_cut o i with
      | None => enqueue_missed (tk_today k) (tk_insert k) (wc_schedule cfg) ms 0 q
      | Some (n, e) =>
          let '(r, q') := enqueue_missed (tk_today k) (tk_insert k) (wc_schedule cfg) (take n ms) 0 q in
          (match r with Ok _ => Raise (Exn OperationalError (exn_str e)) | Raise e' => Raise e' end, q')
      end
  end.
Definition beat_op (counts : counters) (started_at : Z) (i : Z) (beats : gmap string heartbeat)
    : res () * gmap string heartbeat :=
  (Ok (), record_heartbeat (tk_beat (ks i)) counts pod version started_at beats).

Definition kill (s : stage) : proc () := λ p, if decide (o_kill o = Some s) then (Raise killed, p) else (Ok (), p).

(** [heartbeat()]: its failure is logged, and leaves the transaction aborted if the connection
    still stands. *)
Definition heartbeat_call : proc () := λ p,
  let '(r, p') := db AtBeat (on_beats (beat_op (p_counts p) (p_started p))) (o_beat o) p in
  (Ok (), mkProcess (p_shared p') (p_db p') (match r with Raise _ => db_open (p_db p') | Ok _ => false end)
            (p_idle p') (p_counts p') (p_started p')).

(** [db.call(claim_next)]: the first statement after a heartbeat meets what it left. *)
Definition claim_call : proc (option claimed) := λ p,
  if p_aborted p && db_open (p_db p) && negb (strikes (o_claim o 0)) then (Raise in_failed_transaction, p)
  else db AtClaim (on_queue claim_op) (o_claim o)
         (mkProcess (p_shared p) (p_db p) false (p_idle p) (p_counts p) (p_started p)).

(** [state["db_reconnects"] = db.reconnects]. *)
Definition note_reconnects : proc () := λ p,
  modify (on_counts (λ n, mkCounters (n_done n) (n_failed n) (n_retried n) (n_catchups n) (n_reclaimed n)
    (db_reconnects (p_db p)) (last_kind n) (last_claim_at n) (last_error n) (last_error_category n))) p.

(** Nothing to claim. *)
Definition idle_turn : proc () :=
  p ← get_process;
  if p_idle p + 1 <? wc_reclaim_every cfg then modify (set_idle (p_idle p + 1))
  else
    _ ← modify (set_idle 0);
    _ ← kill AtReclaim;
    more ← db AtReclaim (on_queue reclaim_op) (o_reclaim o);
    _ ← modify (on_counts (add_reclaimed (Z.of_nat (length more))));
    _ ← (if catchup_enabled then
           _ ← kill AtCatchup;
           caught ← swallow (db AtCatchup (on_queue catchup_op) (o_catchup o));
           modify (on_counts (add_catchups (Z.of_nat (length (default [] caught)))))
         else mret ());
    _ ← kill AtBeat;
    heartbeat_call.

(** [dispatch(kind, payload, cfg, None, jid)]: its effects are its own transactions. *)
Definition dispatch_call (c : claimed) : proc (res pydict) := λ p,
  let '(tb, e) := o_meanwhile o AtDispatch 0 (p_shared p) in
  if decide (o_kill o = Some AtDispatch) then (Raise killed, share (tb, di_half dispatch c e) p)
  else
    let '(r, e') := di_run dispatch c (tb_fresh tb) e in
    (Ok (fst <$> r), share (match r with Ok (_, fresh) => set_fresh fresh tb | Raise _ => tb end, e') p).

(** The outcome of a failed attempt, on a connection of its own. *)
Definition record_outcome (c : claimed) (v : verdict) (p : process) : process :=
  match v with
  | VRetry e cat _ _ | VFailed e cat =>
      if tk_outcome (ks 0) then
        share (set_fresh (record_ingest_outcome (tk_fresh (ks 0)) (c_kind c) false (Some (cat +:+ ": " +:+ e)) (Some (c_id c))
                 (tb_fresh (p_shared p).1)) (p_shared p).1, (p_shared p).2) p
      else p
  | VDone _ => p
  end.

(** The end of a dispatched job. *)
Definition finish_turn (c : claimed) (r : res pydict) : proc () :=
  let v := judge (wc_policy cfg) c r in
  _ ← kill AtMark;
  _ ← db AtMark (on_queue (mark_op (c_id c) v)) (o_mark o);
  _ ← match cooldown v with
      | Some d => _ ← kill AtDefer; db AtDefer (on_queue (defer_op (c_id c) d)) (o_defer o)
      | None => mret ()
      end;
  _ ← modify (on_counts (count v));
  _ ← modify (record_outcome c v);
  _ ← kill AtBeat;
  heartbeat_call.

(** A claimed job. *)
Definition busy_turn (c : claimed) : proc () :=
  _ ← modify (λ p, on_counts (λ n,
        mkCounters (n_done n) (n_failed n) (n_retried n) (n_catchups n) (n_reclaimed n) (n_reconnects n)
          (Some (c_kind c)) (iso_instant (tk_now (ks 0))) (last_error n) (last_error_category n)) (set_idle 0 p));
  r ← dispatch_call c;
  finish_turn c r.

(** One turn of [while True]. *)
Definition turn : proc () :=
  _ ← kill AtClaim;
  job ← claim_call;
  _ ← note_reconnects;
  match job with None => idle_turn | Some c => busy_turn c end.

(** The job this turn dispatches, if it comes to that, and what it finds. *)
Definition at_dispatch (p : process) : option (claimed * shared) :=
  match (_ ← kill AtClaim; claim_call) p with
  | (Ok (Some c), p') =>
      if decide (o_kill o = Some AtDispatch) then None else Some (c, o_meanwhile o AtDispatch 0 (p_shared p'))
  | _ => None
  end.

(** What [run_forever] does before the loop. *)
Definition ensure_call : proc () := λ p,
  let op i (x : shared * bool) :=
    let '(tb, e) := o_meanwhile o AtEnsure i x.1 in
    let '(r, (sc, migrated)) := ensure_op (o_commit o) i (tb_schema tb, x.2) in
    (r, ((set_schema sc tb, e), migrated)) in
  let '(r, c, x) := call op (λ i, as_loss (o_ensure o i)) (p_db p) (p_shared p, false) in
  (r, mkProcess x.1 c (p_aborted p) (p_idle p) (p_counts p) (p_started p)).
Definition startup : proc () :=
  _ ← ensure_call;
  _ ← kill AtReclaim;
  reclaimed ← db AtReclaim (on_queue reclaim_op) (o_reclaim o);
  _ ← modify (on_counts (add_reclaimed (Z.of_nat (length reclaimed))));
  _ ← kill AtBeat;
  heartbeat_call.

Definition new_process (s : shared) : process :=
  mkProcess s (mkWdb false 0) false 0 (mkCounters 0 0 0 0 0 0 None "" "" "") (tk_now (ks 0)).
End turn.

(** ** The life of the worker *)

(** A process runs, or none does and what is shared is all there is. *)
Inductive life := Up (p : process) | Down (s : shared).
Definition shared_in (x : life) : shared := match x with Up p => p_shared p | Down s => s end.
Definition queue_in (x : life) : queue := tb_queue (shared_in x).1.

(** The same of a turn or a start. *)
Definition dispatched (ks : Z → tick_clock) (o : outages) (x : life) : option (claimed * shared) :=
  match x with Up p => at_dispatch ks o p | Down _ => None end.

Section life.
Context `{PyRepr, Sha256, ZoneDb} (cfg : worker_config) (catchup_enabled : bool) (pod version : string).

(** A turn of the process, or the start of the next one; an exception ends it. *)
Definition live (ks : Z → tick_clock) (o : outages)
    (dispatch : dispatcher) (x : life) : life :=
  let '(r, p) := match x with
                 | Up p => turn cfg catchup_enabled pod version ks o dispatch p
                 | Down s => startup cfg pod version ks o (new_process ks s)
                 end in
  match r with Ok _ => Up p | Raise _ => Down (p_shared p) end.

Fixpoint lives (kss : nat → Z → tick_clock) (os : nat → outages) (ds : nat → dispatcher) (n d : nat) (x : life) : life :=
  match d with
  | O => x
  | S d' => lives kss os ds (S n) d' (live (kss n) (os n) (ds n) x)
  end.
End life.
End process.
Arguments process : clear implicits.
Arguments outages : clear implicits.
Arguments dispatcher : clear implicits.
Arguments life : clear implicits.
Arguments proc : clear implicits.

(** ** Calls, summed up *)

Lemma rtc_absorbed {A} (R : relation A) `{!PreOrder R} x y : rtc R x y → R x y.
Proof. induction 1; [done|by etrans]. Qed.

(** A call applies its operation some number of times; its answer is that of the last. *)
Lemma call_spec {S A} (R : relation S) (op : Z → S → res A * S) faults c s r c' s' :
  (∀ i s, R s (op i s).2) → call op faults c s = (r, c', s') →
  ∃ s1, rtc R s s1 ∧ match r with Ok a => ∃ i, op i s1 = (Ok a, s') | Raise _ => s' = s1 end.
Proof.
  intros HR. unfold call. destruct (db_call (counted op) faults c (0, s)) as [[[r0 c0] x] slept] eqn:Hcall.
  intros [= <- <- <-]. unfold db_call in Hcall. apply db_loop_spec in Hcall as (_ & k & _ & -> & Hr); [|repeat constructor; done].
  assert (∀ k x, rtc R x.2 (apply_n (counted op) k x).2) as Happly.
  { clear -HR. induction k as [|k IH]; intros x; [done|]. cbn [apply_n]. eapply rtc_l; [|apply IH].
    unfold counted. specialize (HR x.1 x.2). by destruct (op x.1 x.2). }
  destruct r0 as [a|e]; [|eexists; split; [apply (Happly k (0, s))|done]].
  destruct Hr as (j & -> & Ha). exists (apply_n (counted op) j (0, s)).2. split; [apply (Happly j (0, s))|].
  assert (∀ j x, apply_n (counted op) (Datatypes.S j) x = (counted op (apply_n (counted op) j x)).2) as Hlast.
  { clear. induction j as [|j IH]; intros x; [done|]. change (apply_n (counted op) (Datatypes.S (Datatypes.S j)) x)
      with (apply_n (counted op) (Datatypes.S j) (counted op x).2). by rewrite IH. }
  rewrite Hlast. unfold counted in Ha |- *. eexists. destruct (op _ _) as [r1 s1] eqn:Hop. cbn in Ha. subst r1. exact Hop.
Qed.

(** What every application keeps the call keeps. *)
Lemma call_keeps {S A} (R : relation S) `{!PreOrder R} (op : Z → S → res A * S) faults c s r c' s' :
  (∀ i s, R s (op i s).2) → call op faults c s = (r, c', s') → R s s'.
Proof.
  intros HR Hcall. apply (call_spec R) in Hcall as (s1 & Hsteps & Hend); [|done].
  apply rtc_absorbed in Hsteps; [|done].
  destruct r; [|by subst]. destruct Hend as [i Hi]. specialize (HR i s1). rewrite Hi in HR. by etrans.
Qed.

(** Without faults it applies it once. *)
Lemma call_fine {S A} (op : Z → S → res A * S) c s r s' :
  op 0 s = (r, s') → (∀ e, r = Raise e → lost e = false) →
  call op (λ _, as_loss NoFault) c s = (r, mkWdb true (db_reconnects c), s').
Proof.
  intros Hop Hr. unfold call, db_call. cbn [db_loop as_loss db_try]. unfold counted. cbn [fst snd]. rewrite Hop.
  assert ((if db_open c then c else mkWdb true (db_reconnects c + if 0 <? 0 then 1 else 0)) = mkWdb true (db_reconnects c)) as ->.
  { destruct c as [[] n]; cbn; [done|]. by rewrite Z.add_0_r. }
  destruct r as [a|e]; [done|]. by rewrite (Hr e eq_refl).
Qed.

(** ** Every life is a run of the system *)

(** The others change the job table as clients may. *)
Definition orderly `{PyRepr, Sha256} {E} (o : outages E) : Prop :=
  ∀ st i s, rtc client_step (tb_queue s.1) (tb_queue (o_meanwhile o st i s).1).

Lemma fine_orderly `{PyRepr, Sha256} {E} : orderly (E := E) fine.
Proof. intros st i s. apply rtc_refl. Qed.

Section refinement.
Context `{PyRepr, Sha256, ZoneDb} {E : Type} (cfg : worker_config) (on : bool) (pod version : string).
Notation queue_of p := (tb_queue (p_shared p).1).
Notation "s ⇝ s'" := (rtc (sys_step (wc_policy cfg)) s s') (at level 70).

(** Run in phase [ph], [m] is a run of the system to phase [Q a], or to an idle worker if it
    raises: the process is gone. *)
Definition runs {A} (ph : phase) (m : proc E A) (Q : A → phase) : Prop :=
  ∀ p r p', m p = (r, p') →
    mkSys (queue_of p) ph ⇝ mkSys (queue_of p') (match r with Ok a => Q a | Raise _ => Idle end).

Lemma crash q ph : mkSys q ph ⇝ mkSys q Idle.
Proof. apply rtc_once. apply sys_crash. Qed.

Lemma runs_ret {A} (a : A) Q : runs (Q a) (mret a) Q.
Proof. by intros p r p' [= <- <-]. Qed.

Lemma runs_bind {A B} ph (m : proc E A) Q (f : A → proc E B) Q' :
  runs ph m Q → (∀ a, runs (Q a) (f a) Q') → runs ph (m ≫= f) Q'.
Proof.
  intros Hm Hf p r p'. unfold mbind, proc_bind. destruct (m p) as [[a|e] p1] eqn:Em; specialize (Hm _ _ _ Em).
  - intros Hr. etrans; [exact Hm|by eapply Hf].
  - intros [= <- <-]. done.
Qed.

Lemma runs_modify ph f : (∀ p, queue_of (f p) = queue_of p) → runs ph (modify f) (λ _, ph).
Proof. intros Hf p r p' [= <- <-]. by rewrite Hf. Qed.

Lemma runs_get ph : runs ph get_process (λ _, ph).
Proof. by intros p r p' [= <- <-]. Qed.

Lemma runs_note ph : runs ph note_reconnects (λ _, ph).
Proof. by intros p r p' [= <- <-]. Qed.

Lemma runs_swallow {A} (m : proc E A) : runs Idle m (λ _, Idle) → runs Idle (swallow m) (λ _, Idle).
Proof.
  intros Hm p r p'. unfold swallow. destruct (m p) as [[a|e] p1] eqn:Em; specialize (Hm _ _ _ Em); by intros [= <- <-].
Qed.

Section turn.
Context (ks : Z → tick_clock) (o : outages E) (Ho : orderly o).
Context (dispatch : dispatcher E).

Lemma runs_kill ph s : runs ph (kill o s) (λ _, ph).
Proof. intros p r p'. unfold kill. case_decide; intros [= <- <-]; [apply crash|done]. Qed.

Lemma among_steps {A} ph st (op : Z → tables → res A * tables) i s r tb' e' :
  among o st op i s = (r, (tb', e')) →
  ∃ tb, mkSys (tb_queue s.1) ph ⇝ mkSys (tb_queue tb) ph ∧ op i tb = (r, tb').
Proof.
  unfold among. pose proof (Ho st i s) as Hs. destruct (o_meanwhile o st i s) as [tb e]. cbn [fst] in Hs.
  destruct (op i tb) as [r0 tb0] eqn:Hop. intros [= <- <- <-]. exists tb. split; [by apply client_steps|done].
Qed.

(** A call keeps to the phase however often it is applied, and its answer leads to the next. *)
Lemma runs_db {A} ph st (op : Z → tables → res A * tables) faults Q :
  (∀ i tb, mkSys (tb_queue tb) ph ⇝ mkSys (tb_queue (op i tb).2) ph) →
  (∀ i tb a tb', op i tb = (Ok a, tb') → mkSys (tb_queue tb) ph ⇝ mkSys (tb_queue tb') (Q a)) →
  runs ph (db o st op faults) Q.
Proof.
  intros Hkeep Hlast p r p'. unfold db. destruct (call _ _ _ _) as [[r1 c1] s1] eqn:Hcall. intros [= <- <-]. cbn [p_shared].
  apply (call_spec (λ s s', mkSys (tb_queue s.1) ph ⇝ mkSys (tb_queue s'.1) ph)) in Hcall as (s2 & Hsteps & Hend).
  - assert (mkSys (queue_of p) ph ⇝ mkSys (tb_queue s2.1) ph) as Hr by (clear Hend; induction Hsteps; [done|by etrans]).
    etrans; [exact Hr|]. destruct r1 as [a|e]; [|subst; apply crash]. destruct Hend as [i Hop]. destruct s1 as [tb1 e1].
    apply (among_steps ph) in Hop as (tb & Hs & Hop). etrans; [exact Hs|]. by eapply Hlast.
  - intros i s. destruct (among o st op i s) as [r0 [tb0 e0]] eqn:Hop. apply (among_steps ph) in Hop as (tb & Hs & Hop).
    etrans; [exact Hs|]. specialize (Hkeep i tb). by rewrite Hop in Hkeep.
Qed.

Lemma runs_queue {A} ph st (op : Z → queue → res A * queue) faults Q :
  (∀ i q, mkSys q ph ⇝ mkSys (op i q).2 ph) →
  (∀ i q a q', op i q = (Ok a, q') → mkSys q ph ⇝ mkSys q' (Q a)) →
  runs ph (db o st (on_queue op) faults) Q.
Proof.
  intros Hkeep Hlast. apply runs_db; intros i tb; unfold on_queue, guarded; destruct (jobs_ready _); try done.
  - specialize (Hkeep i (tb_queue tb)). by destruct (op i (tb_queue tb)).
  - intros a tb'. destruct (op i (tb_queue tb)) as [r q] eqn:Hop. intros [= -> <-]. by eapply Hlast.
Qed.

(** Whatever is done in the phase without touching the table but through the others. *)
Definition stays (ph : phase) : relation (tables * E) := λ s s', mkSys (tb_queue s.1) ph ⇝ mkSys (tb_queue s'.1) ph.
#[local] Instance stays_preorder ph : PreOrder (stays ph).
Proof. split; [intros s; apply rtc_refl|]. intros s1 s2 s3. unfold stays. apply transitivity. Qed.

Lemma runs_heartbeat ph : runs ph (heartbeat_call pod version ks o) (λ _, ph).
Proof.
  intros p r p'. unfold heartbeat_call. destruct (db _ _ _ _ p) as [r1 p1] eqn:Hdb. intros [= <- <-]. cbn [p_shared].
  revert Hdb. unfold db. destruct (call _ _ _ _) as [[r2 c2] s2] eqn:Hcall. intros [= _ <-]. cbn [p_shared].
  apply (call_keeps (stays ph)) in Hcall; [exact Hcall|]. intros i s. unfold among, stays.
  pose proof (client_steps (wc_policy cfg) _ _ ph (Ho AtBeat i s)) as Hs.
  destruct (o_meanwhile o AtBeat i s) as [tb e]. cbn [fst] in Hs. unfold on_beats. by destruct (guarded _ _ _ _).
Qed.

Lemma reclaim_steps i q : mkSys q Idle ⇝ mkSys (reclaim_op cfg ks i q).2 Idle.
Proof.
  unfold reclaim_op. pose proof (sys_reclaim (wc_policy cfg) (tk_reclaim (ks i)) (wc_stale_sec cfg) (wc_requeue_sec cfg) q) as Hs.
  destruct (reclaim_stale_running _ _ _ q). by apply rtc_once.
Qed.

Lemma runs_reclaim faults : runs Idle (db o AtReclaim (on_queue (reclaim_op cfg ks)) faults) (λ _, Idle).
Proof.
  apply runs_queue; [apply reclaim_steps|]. intros i q a q' Hop. pose proof (reclaim_steps i q) as Hs. by rewrite Hop in Hs.
Qed.

Lemma catchup_steps i q : mkSys q Idle ⇝ mkSys (catchup_op cfg ks o i q).2 Idle.
Proof.
  unfold catchup_op. cbn zeta. destruct (missed_slots _ _ _ _) as [ms|]; [|done].
  destruct (o_cut o i) as [[n e]|]; destruct (enqueue_missed _ _ _ _ 0 q) as [r q'] eqn:He;
    apply client_steps; by eapply enqueue_missed_steps.
Qed.

Lemma runs_claim : runs Idle (claim_call ks o) (λ job, match job with Some c => Busy c | None => Idle end).
Proof.
  assert (∀ i q, let '(r, q') := claim_op ks i q in
    mkSys q Idle ⇝ mkSys q' Idle ∧ ∀ job, r = Ok job → mkSys q Idle ⇝ mkSys q' (match job with Some c => Busy c | None => Idle end))
    as Hclaim.
  { intros i q. unfold claim_op, lift_op. destruct (claim_next _ _ _ q) as [[[c|] q']|] eqn:Hc; [| |done].
    - split; [|intros job [= <-]]; apply rtc_once; [by eapply sys_claim_lost|by eapply sys_claim].
    - apply claim_next_inv in Hc as [(_ & -> & _)|(? & _ & ? & _)]; [|done]. split; [done|]. by intros job [= <-]. }
  intros p r p'. unfold claim_call. destruct (_ && _); [by intros [= <- <-]|]. intros Hr.
  eapply (runs_queue Idle AtClaim (claim_op ks)) in Hr; [exact Hr|..]; intros i q.
  - specialize (Hclaim i q). destruct (claim_op ks i q). by apply Hclaim.
  - intros a q' Hop. specialize (Hclaim i q). rewrite Hop in Hclaim. by apply Hclaim.
Qed.

Lemma runs_mark faults c v : runs (Marking c v) (db o AtMark (on_queue (mark_op ks (c_id c) v)) faults) (λ _, after_mark c v).
Proof.
  apply runs_queue; intros i q; unfold mark_op, lift_op; destruct (mark _ _ _ q) as [q1|] eqn:Hm; cbn [fmap res_fmap]; try done.
  - apply rtc_once. by eapply sys_mark_again.
  - intros a q' [= <- <-]. apply rtc_once. by eapply sys_mark.
Qed.

Lemma runs_defer faults c d : runs (Cooling c d) (db o AtDefer (on_queue (defer_op ks (c_id c) d)) faults) (λ _, Idle).
Proof.
  apply runs_queue; intros i q; [apply rtc_once, sys_defer_again|]. intros a q' [= _ <-]. apply rtc_once, sys_defer.
Qed.

Lemma runs_idle : runs Idle (idle_turn cfg on pod version ks o) (λ _, Idle).
Proof.
  unfold idle_turn. eapply runs_bind; [apply runs_get|intros p0]. destruct (_ <? _); [by apply runs_modify|].
  eapply runs_bind; [by apply runs_modify|intros ?]. eapply runs_bind; [apply runs_kill|intros ?].
  eapply runs_bind; [apply runs_reclaim|intros more]. eapply runs_bind; [by apply runs_modify|intros ?].
  eapply (runs_bind _ _ (λ _, Idle)).
  - destruct on; [|apply (runs_ret _ (λ _, Idle))].
    eapply runs_bind; [apply runs_kill|intros ?]. eapply runs_bind; [apply runs_swallow, runs_queue|intros caught; by apply runs_modify].
    + apply catchup_steps.
    + intros i q l q' Hop. pose proof (catchup_steps i q) as Hs. by rewrite Hop in Hs.
  - intros ?. eapply runs_bind; [apply runs_kill|intros ?]. apply runs_heartbeat.
Qed.

Lemma runs_judge {A} c r (m : proc E A) Q : runs (Marking c (judge (wc_policy cfg) c r)) m Q → runs (Busy c) m Q.
Proof. intros Hm p r0 p' Hr. eapply rtc_l; [apply sys_judge|by eapply Hm]. Qed.

Lemma runs_dispatch c : runs (Busy c) (dispatch_call o dispatch c) (λ _, Busy c).
Proof.
  intros p r p'. unfold dispatch_call. pose proof (client_steps (wc_policy cfg) _ _ (Busy c) (Ho AtDispatch 0 (p_shared p))) as Hs.
  destruct (o_meanwhile o AtDispatch 0 (p_shared p)) as [tb e]. cbn [fst] in Hs. case_decide.
  - intros [= <- <-]. etrans; [exact Hs|apply crash].
  - destruct (di_run dispatch c (tb_fresh tb) e) as [r0 e0]. intros [= <- <-]. destruct r0 as [[? ?]|]; exact Hs.
Qed.

Lemma record_outcome_queue c v (p : process E) : queue_of (record_outcome ks c v p) = queue_of p.
Proof. unfold record_outcome. destruct v; [done|by destruct (tk_outcome (ks 0))..]. Qed.

Lemma runs_finish c r : runs (Busy c) (finish_turn cfg pod version ks o c r) (λ _, Idle).
Proof.
  unfold finish_turn. apply (runs_judge c r). set (v := judge (wc_policy cfg) c r). cbn zeta.
  eapply runs_bind; [apply runs_kill|intros ?]. eapply runs_bind; [apply runs_mark|intros ?].
  eapply (runs_bind _ _ (λ _, Idle)).
  - unfold after_mark. destruct (cooldown v) as [d|]; [|apply (runs_ret _ (λ _, Idle))].
    eapply runs_bind; [apply runs_kill|intros ?]. apply runs_defer.
  - intros ?. eapply runs_bind; [by apply runs_modify|intros ?].
    eapply runs_bind; [apply runs_modify, record_outcome_queue|intros ?].
    eapply runs_bind; [apply runs_kill|intros ?]. apply runs_heartbeat.
Qed.

Lemma runs_busy c : runs (Busy c) (busy_turn cfg pod version ks o dispatch c) (λ _, Idle).
Proof.
  unfold busy_turn. eapply runs_bind; [by apply runs_modify|intros ?].
  eapply runs_bind; [apply runs_dispatch|intros r]. apply runs_finish.
Qed.

Lemma runs_turn : runs Idle (turn cfg on pod version ks o dispatch) (λ _, Idle).
Proof.
  unfold turn. eapply runs_bind; [apply runs_kill|intros ?]. eapply runs_bind; [apply runs_claim|intros job].
  eapply runs_bind; [apply runs_note|intros ?]. destruct job as [c|]; [apply runs_busy|apply runs_idle].
Qed.

Lemma runs_ensure : runs Idle (ensure_call o) (λ _, Idle).
Proof.
  intros p r p'. unfold ensure_call. destruct (call _ _ _ _) as [[r1 c1] x] eqn:Hcall. intros [= <- <-]. cbn [p_shared].
  assert (PreOrder (λ x x' : tables * E * bool, stays Idle x.1 x'.1)) as HR.
  { split; [intros [s b]; reflexivity|]. intros [s1 ?] [s2 ?] [s3 ?]. apply transitivity. }
  apply (call_keeps (λ x x', stays Idle x.1 x'.1)) in Hcall; [by destruct r1|].
  intros i [s b]. cbn [fst snd]. pose proof (client_steps (wc_policy cfg) _ _ Idle (Ho AtEnsure i s)) as Hs.
  unfold stays. destruct (o_meanwhile o AtEnsure i s) as [tb e]. by destruct (ensure_op _ _ _) as [r0 [sc mig]].
Qed.

Lemma runs_startup : runs Idle (startup cfg pod version ks o) (λ _, Idle).
Proof.
  unfold startup. eapply runs_bind; [apply runs_ensure|intros ?].
  eapply runs_bind; [apply runs_kill|intros ?]. eapply runs_bind; [apply runs_reclaim|intros reclaimed].
  eapply runs_bind; [by apply runs_modify|intros ?]. eapply runs_bind; [apply runs_kill|intros ?]. apply runs_heartbeat.
Qed.

Lemma live_refines x : mkSys (queue_in x) Idle ⇝ mkSys (queue_in (live cfg on pod version ks o dispatch x)) Idle.
Proof.
  unfold live, queue_in. destruct x as [p|s].
  - destruct (turn _ _ _ _ _ _ _ p) as [r p'] eqn:Hr. apply runs_turn in Hr. by destruct r.
  - destruct (startup _ _ _ _ _ _) as [r p'] eqn:Hr. apply runs_startup in Hr. by destruct r.
Qed.
End turn.
End refinement.

(** A life in orderly company is a run of the system. *)
Lemma lives_refine `{PyRepr, Sha256, ZoneDb} {E : Type} cfg on pod version kss (os : nat → outages E) ds n d x :
  (∀ m, orderly (os m)) →
  rtc (sys_step (wc_policy cfg)) (mkSys (queue_in x) Idle) (mkSys (queue_in (lives cfg on pod version kss os ds n d x)) Idle).
Proof.
  intros Ho. revert n x. induction d as [|d IH]; intros n x; [done|]. cbn [lives]. etrans; [by apply live_refines|apply IH].
Qed.
