(* ===== verification/Recovery.v ===== *)
(** * After the outages ([worker/loop.py])

    Once Postgres stays up and the others leave the jobs alone, a turn of the process is a
    turn of the loop of [Progress], the process that comes up has the whole schema, and every
    job of the table ends. *)
From S2P Require Import Prelude Pytext PyVal Json Retry JobQueue Pytime Ddl Handlers Cron Schedule Worker Progress Steady Outage.

(** ** Which exceptions are losses of the connection *)

(** [m] raises nothing that [db.call] would take for a lost connection. *)
Definition no_loss {A} (m : res A) : Prop := ∀ e, m = Raise e → lost e = false.

Create HintDb no_loss.

Lemma no_loss_ok {A} (a : A) : no_loss (Ok a).
Proof. done. Qed.
Lemma no_loss_raise {A} e : lost e = false → no_loss (A := A) (Raise e).
Proof. by intros He e' [= <-]. Qed.
Lemma no_loss_bind {A B} (m : res A) (f : A → res B) : no_loss m → (∀ a, no_loss (f a)) → no_loss (m ≫= f).
Proof. intros Hm Hf e. destruct m as [a|e0]; [apply Hf|]. intros [= <-]. by apply Hm. Qed.
Lemma no_loss_fmap {A B} (f : A → B) (m : res A) : no_loss m → no_loss (f <$> m).
Proof. intros Hm e. destruct m as [a|e0]; [done|]. intros [= <-]. by apply Hm. Qed.
Lemma no_loss_fold {A T} (f : T → A → res T) l s : (∀ s a, no_loss (f s a)) → no_loss (fold_res f s l).
Proof.
  intros Hf. revert s. induction l as [|a l IH]; intros s; cbn [fold_res]; [done|].
  destruct (f s a) as [s'|e] eqn:E; [apply IH|]. intros e' [= <-]. by eapply Hf.
Qed.
Lemma no_loss_if {A} (b : bool) (m1 m2 : res A) : no_loss m1 → no_loss m2 → no_loss (if b then m1 else m2).
Proof. by destruct b. Qed.
Lemma no_loss_decide {A} (P : Prop) `{Decision P} (m1 m2 : res A) :
  no_loss m1 → no_loss m2 → no_loss (if decide P then m1 else m2).
Proof. by destruct (decide P). Qed.

#[export] Hint Resolve no_loss_ok no_loss_bind no_loss_fmap no_loss_fold no_loss_if no_loss_decide : no_loss.
#[export] Hint Extern 1 (no_loss (Raise _)) => (apply no_loss_raise; reflexivity) : no_loss.

Ltac no_loss :=
  cbv zeta;
  repeat first
    [ match goal with |- forall _, _ => intros ? end
    | apply no_loss_bind | apply no_loss_fmap | apply no_loss_fold | progress (eauto with no_loss) | case_match ].

Lemma no_loss_py_int v : no_loss (py_int v).
Proof. unfold py_int, float_trunc. no_loss. Qed.
Lemma no_loss_dict v : no_loss (dict_or_empty v).
Proof. unfold dict_or_empty. no_loss. Qed.
Lemma no_loss_int_or_raise s : no_loss (int_or_raise s).
Proof. unfold int_or_raise. no_loss. Qed.
Lemma no_loss_zone `{ZoneDb} tz : no_loss (get_zone tz).
Proof. unfold get_zone. no_loss. Qed.
#[export] Hint Resolve no_loss_py_int no_loss_dict no_loss_int_or_raise no_loss_zone : no_loss.

Lemma no_loss_parse_part part lo hi : no_loss (parse_part part lo hi).
Proof. unfold parse_part. no_loss. Qed.
#[export] Hint Resolve no_loss_parse_part : no_loss.
Lemma no_loss_parse_field f lo hi : no_loss (parse_field f lo hi).
Proof. unfold parse_field. no_loss. Qed.
#[export] Hint Resolve no_loss_parse_field : no_loss.
Lemma no_loss_parse_cron expr : no_loss (parse_cron expr).
Proof. unfold parse_cron. no_loss. Qed.
#[export] Hint Resolve no_loss_parse_cron : no_loss.
Lemma no_loss_previous_fire `{ZoneDb} expr before days tz : no_loss (previous_fire expr before days tz).
Proof. unfold previous_fire, iter_cron_fires. no_loss. Qed.
#[export] Hint Resolve no_loss_previous_fire : no_loss.

Section schedule.
Context `{PyRepr, Sha256, ZoneDb}.

Lemma no_loss_missed_slots sched now grace since : no_loss (missed_slots sched now grace since).
Proof. unfold missed_slots, missed_slot. no_loss. Qed.

Lemma no_loss_enqueue_slot today t slot sched payload q : no_loss (enqueue_slot today t slot sched payload q).
Proof. unfold enqueue_slot, insert_job. no_loss. Qed.

Lemma no_loss_enqueue_missed today clock sched ms n q : no_loss (enqueue_missed today clock sched ms n q).1.
Proof.
  revert n q. induction ms as [|m ms IH]; intros n q; cbn [enqueue_missed]; [done|].
  destruct (enqueue_slot _ _ _ _ _ q) as [[r1 q1]|e] eqn:He.
  - specialize (IH (S n) q1). destruct (enqueue_missed _ _ _ ms (S n) q1) as [rest q2]. cbn in IH |- *.
    destruct (sr_job_id r1); [by apply no_loss_fmap|done].
  - intros e' [= <-]. by eapply no_loss_enqueue_slot.
Qed.
End schedule.

(** ** A turn without faults is a turn of the loop *)

(** The others leave the jobs alone, and add to the schema at most. *)
Definition gentle {E} (meanwhile : stage → Z → tables * E → tables * E) : Prop :=
  ∀ st i s, tb_queue (meanwhile st i s).1 = tb_queue s.1 ∧ schema_le (tb_schema s.1) (tb_schema (meanwhile st i s).1).

Lemma has_columns_le s s' table cols : schema_le s s' → has_columns s table cols = true → has_columns s' table cols = true.
Proof.
  intros Hle. unfold has_columns. destruct (s !! table) as [c|] eqn:Hc; [|done]. destruct (Hle table c Hc) as (c' & -> & Hsub).
  rewrite !bool_decide_eq_true, !Forall_forall. intros Hall x Hx. apply Hsub. by apply Hall.
Qed.

Section turns.
Context `{PyRepr, Sha256, ZoneDb} {E : Type} (cfg : worker_config) (on : bool) (pod version : string).
Context (meanwhile : stage → Z → tables * E → tables * E) (Hgentle : gentle meanwhile).
Notation company := (in_company meanwhile).
Notation round := (round cfg on pod version 0).
Notation tables_of p := (p_shared p).1.
Notation queue_of p := (tb_queue (tables_of p)).
Notation schema_of p := (tb_schema (tables_of p)).

(** The process and the worker of [Progress] have the same table and idle count; counters,
    heartbeats and freshness rows do not decide what happens to the jobs. *)
Definition same_jobs (p : process E) (w : worker) : Prop := queue_of p = w_queue w ∧ p_idle p = w_idle w.

Lemma bind_ok {A B} (m : proc E A) (f : A → proc E B) p a p' : m p = (Ok a, p') → (m ≫= f) p = f a p'.
Proof. unfold mbind, proc_bind. by intros ->. Qed.

Lemma kill_fine s (p : process E) : kill company s p = (Ok (), p).
Proof. done. Qed.

Lemma modify_ok f (p : process E) : modify f p = (Ok (), f p).
Proof. done. Qed.

(** The process as the others leave it for a call. *)
Definition meets (st : stage) (p : process E) : process E := share (meanwhile st 0 (p_shared p)) p.

Lemma meets_queue st p : queue_of (meets st p) = queue_of p.
Proof. apply Hgentle. Qed.
Lemma meets_schema st p : schema_le (schema_of p) (schema_of (meets st p)).
Proof. apply Hgentle. Qed.
Lemma meets_ready st p : jobs_ready (schema_of p) = true → jobs_ready (schema_of (meets st p)) = true.
Proof. apply has_columns_le, meets_schema. Qed.

Lemma db_fine {A} st (op : Z → tables → res A * tables) (p : process E) r tb :
  op 0 (tables_of (meets st p)) = (r, tb) → no_loss r →
  db company st op (λ _, NoFault) p
  = (r, mkProcess (tb, (p_shared (meets st p)).2) (mkWdb true (db_reconnects (p_db p))) (p_aborted p) (p_idle p) (p_counts p) (p_started p)).
Proof.
  intros Hop Hr. unfold db. rewrite (call_fine _ _ _ r (tb, (p_shared (meets st p)).2)); [done| |done].
  unfold among. cbn [o_meanwhile in_company]. cbn [meets share p_shared] in *. destruct (meanwhile st 0 (p_shared p)) as [tb0 e].
  cbn [fst snd] in *. by rewrite Hop.
Qed.

(** The process after a call on the job table that left [q]. *)
Definition after_call (q : queue) (p : process E) : process E :=
  mkProcess (set_queue q (tables_of p), (p_shared p).2) (mkWdb true (db_reconnects (p_db p))) (p_aborted p) (p_idle p)
    (p_counts p) (p_started p).

Lemma queue_fine {A} st (op : Z → queue → res A * queue) (p : process E) r q :
  jobs_ready (schema_of (meets st p)) = true → op 0 (queue_of p) = (r, q) → no_loss r →
  db company st (on_queue op) (λ _, NoFault) p = (r, after_call q (meets st p)).
Proof.
  intros Hready Hop Hr. refine (db_fine st (on_queue op) p r (set_queue q (tables_of (meets st p))) _ Hr).
  unfold on_queue, guarded. by rewrite Hready, meets_queue, Hop.
Qed.

Lemma heartbeat_same ks (p : process E) :
  ∃ p', heartbeat_call pod version ks company p = (Ok (), p') ∧ queue_of p' = queue_of p ∧ p_idle p' = p_idle p
    ∧ schema_le (schema_of p) (schema_of p') ∧ (beats_ready (schema_of p) = true → p_aborted p' = false).
Proof.
  unfold heartbeat_call. destruct (db _ _ _ _ p) as [r p'] eqn:Hdb. eexists. split; [reflexivity|]. cbn [p_shared p_idle p_aborted].
  cbn [o_beat in_company] in Hdb. set (op := on_beats _) in Hdb.
  assert (∀ tb, tb_queue (op 0 tb).2 = tb_queue tb ∧ tb_schema (op 0 tb).2 = tb_schema tb) as Hop.
  { intros tb. subst op. unfold on_beats. by destruct (guarded _ _ _ _). }
  assert (no_loss (op 0 (tables_of (meets AtBeat p))).1) as Hr.
  { subst op. unfold on_beats, guarded, beat_op. by destruct (beats_ready _); [|intros e [= <-]]. }
  destruct (op 0 (tables_of (meets AtBeat p))) as [r0 tb0] eqn:Hop0. rewrite (db_fine _ _ _ _ _ Hop0 Hr) in Hdb. injection Hdb as <- <-.
  cbn [p_shared p_idle p_db db_open fst]. destruct (Hop (tables_of (meets AtBeat p))) as [Hq Hs]. rewrite Hop0 in Hq, Hs. cbn [snd] in Hq, Hs.
  rewrite Hq, Hs. split_and!; [apply meets_queue|done|apply meets_schema|]. intros Hb.
  apply (has_columns_le _ _ _ _ (meets_schema AtBeat p)) in Hb. subst op. unfold on_beats, guarded in Hop0.
  unfold beats_ready in Hop0. rewrite Hb in Hop0. by injection Hop0 as <- _.
Qed.

(** The end of a turn: its heartbeat. *)
Definition goes_to (p : process E) (out : res () * process E) (w' : worker) : Prop :=
  ∃ p', out = (Ok (), p') ∧ same_jobs p' w' ∧ schema_le (schema_of p) (schema_of p')
    ∧ (beats_ready (schema_of p) = true → p_aborted p' = false).

Lemma goes_to_schema (p p1 : process E) out w' : schema_le (schema_of p) (schema_of p1) → goes_to p1 out w' → goes_to p out w'.
Proof.
  intros Hs (p' & ? & ? & Hs' & Hab). exists p'. split_and!; [done|done|by etrans|]. intros Hb. apply Hab.
  by eapply has_columns_le.
Qed.

Lemma ends_with_heartbeat ks (p p1 : process E) w' :
  schema_le (schema_of p) (schema_of p1) → same_jobs p1 w' → goes_to p (heartbeat_call pod version ks company p1) w'.
Proof.
  intros Hs [Hq Hi]. apply (goes_to_schema p p1 _ _ Hs). destruct (heartbeat_same ks p1) as (p' & Hh & Hq' & Hi' & Hschema & Hab).
  exists p'. split_and!; [done|by split; congruence|done|done].
Qed.

Lemma catchup_op_fine ks q :
  catchup_op cfg ks company 0 q
  = catchup_missed_slots (tk_today (ks 0)) (tk_insert (ks 0)) (wc_schedule cfg) (tk_now (ks 0)) (wc_grace_sec cfg) q
  ∧ no_loss (catchup_op cfg ks company 0 q).1.
Proof.
  unfold catchup_op, catchup_missed_slots. cbn [o_cut in_company]. cbn zeta. destruct (missed_slots _ _ _ _) as [ms|e] eqn:Hm.
  - split; [done|]. apply no_loss_enqueue_missed.
  - split; [done|]. intros e' [= <-]. by eapply no_loss_missed_slots.
Qed.

Lemma catchup_fine ks (p : process E) :
  jobs_ready (schema_of p) = true →
  ∃ p', (_ ← kill company AtCatchup;
         caught ← swallow (db company AtCatchup (on_queue (catchup_op cfg ks company)) (o_catchup company));
         modify (on_counts (add_catchups (Z.of_nat (length (default [] caught)))))) p = (Ok (), p')
    ∧ queue_of p'
      = (catchup_missed_slots (tk_today (ks 0)) (tk_insert (ks 0)) (wc_schedule cfg) (tk_now (ks 0)) (wc_grace_sec cfg) (queue_of p)).2
    ∧ p_idle p' = p_idle p ∧ schema_le (schema_of p) (schema_of p').
Proof.
  intros Hready. destruct (catchup_op_fine ks (queue_of p)) as [<- Hloss].
  destruct (catchup_op cfg ks company 0 (queue_of p)) as [r q'] eqn:Hop.
  pose proof (queue_fine AtCatchup (catchup_op cfg ks company) p r q' (meets_ready _ _ Hready) Hop Hloss) as Hcall.
  rewrite (bind_ok _ _ _ () _ (kill_fine _ _)). unfold mbind, proc_bind, swallow. cbn [o_catchup in_company]. rewrite Hcall.
  destruct r as [caught|e]; (eexists; split_and!; [reflexivity|done|done|apply (meets_schema AtCatchup)]).
Qed.

Lemma idle_turn_round ks (p : process E) w :
  jobs_ready (schema_of p) = true → p_aborted p = false → same_jobs p w →
  goes_to p (idle_turn cfg on pod version ks company p) (idle_round cfg on pod version 0 (ks 0) w).
Proof.
  intros Hready Hab [Hq Hi]. unfold idle_turn, idle_round. cbn zeta. rewrite (bind_ok _ _ p p p) by done. rewrite Hi.
  destruct (w_idle w + 1 <? wc_reclaim_every cfg); [by eexists; split_and!|].
  rewrite (bind_ok _ _ _ () (Outage.set_idle 0 p)) by done. rewrite (bind_ok _ _ _ () _ (kill_fine _ _)).
  destruct (reclaim_stale_running (tk_reclaim (ks 0)) (wc_stale_sec cfg) (wc_requeue_sec cfg) (w_queue w)) as [ids q1] eqn:Hrec.
  pose proof (meets_schema AtReclaim (Outage.set_idle 0 p)) as Hs1. pose proof (meets_ready AtReclaim (Outage.set_idle 0 p) Hready) as Hready1.
  erewrite (bind_ok (db _ AtReclaim _ _)); [|apply queue_fine; [exact Hready1| |apply no_loss_ok]].
  2: { unfold reclaim_op. cbn [p_shared Outage.set_idle]. rewrite Hq, Hrec. reflexivity. }
  rewrite (bind_ok _ _ _ () _ (modify_ok _ _)).
  match goal with |- goes_to _ ((_ ≫= _) ?q) _ => set (p1 := q) end.
  apply (goes_to_schema p p1 _ _ Hs1). destruct on.
  - destruct (catchup_fine ks p1 Hready1) as (p2 & Hm & Hq2 & Hi2 & Hs2).
    rewrite (bind_ok _ _ _ () _ Hm), (bind_ok _ _ _ () _ (kill_fine _ _)).
    apply ends_with_heartbeat; [done|]. change (queue_of p1) with q1 in Hq2. change (p_idle p1) with 0 in Hi2.
    destruct (catchup_missed_slots _ _ _ _ _ q1) as [[caught|e] q2]; by split.
  - rewrite (bind_ok (mret ()) _ _ () _ eq_refl), (bind_ok _ _ _ () _ (kill_fine _ _)). by apply ends_with_heartbeat.
Qed.

Lemma record_outcome_same ks c v (p : process E) :
  queue_of (record_outcome ks c v p) = queue_of p ∧ p_idle (record_outcome ks c v p) = p_idle p
  ∧ schema_of (record_outcome ks c v p) = schema_of p.
Proof. unfold record_outcome. destruct v; [done|by destruct (tk_outcome (ks 0))..]. Qed.

Lemma finish_turn_round ks (p : process E) w c r w' :
  jobs_ready (schema_of p) = true → same_jobs p w →
  finish_round cfg pod version 0 (ks 0) c r w = Ok w' →
  goes_to p (finish_turn cfg pod version ks company c (fst <$> r) p) w'.
Proof.
  intros Hready [Hq Hi]. unfold finish_round, finish_turn. set (v := judge (wc_policy cfg) c (fst <$> r)). cbn zeta.
  intros (q1 & Hm & [= <-])%res_bind_ok. rewrite (bind_ok _ _ _ () _ (kill_fine _ _)).
  assert (mark_op ks (c_id c) v 0 (queue_of p) = (Ok (), q1)) as Hmark by (unfold mark_op, lift_op; by rewrite Hq, Hm).
  rewrite (bind_ok _ _ _ () _ (queue_fine AtMark (mark_op ks (c_id c) v) p _ _ (meets_ready _ _ Hready) Hmark (no_loss_ok _))).
  set (p1 := after_call q1 (meets AtMark p)). pose proof (meets_schema AtMark p) as Hs1. pose proof (meets_ready AtMark p Hready) as Hready1.
  apply (goes_to_schema p p1 _ _ Hs1).
  assert (∃ p3, (match cooldown v with
                 | Some d => _ ← kill company AtDefer; db company AtDefer (on_queue (defer_op ks (c_id c) d)) (o_defer company)
                 | None => mret ()
                 end) p1 = (Ok (), p3) ∧ schema_le (schema_of p1) (schema_of p3) ∧ p_idle p3 = w_idle w
            ∧ queue_of p3 = match cooldown v with
                | Some d => (defer_pending (tk_defer (ks 0)) d (Some (c_id c)) q1).2 | None => q1 end) as (p3 & Hd & Hs3 & Hi3 & Hq3).
  { destruct (cooldown v) as [d|]; [|by exists p1]. rewrite (bind_ok _ _ _ () _ (kill_fine _ _)). cbn [o_defer in_company].
    pose proof (meets_schema AtDefer p1) as Hs2.
    rewrite (queue_fine AtDefer (defer_op ks (c_id c) d) p1 (Ok ()) _ (meets_ready _ p1 Hready1) eq_refl (no_loss_ok _)). by eexists. }
  rewrite (bind_ok _ _ _ () _ Hd), (bind_ok _ _ _ () _ (modify_ok _ _)), (bind_ok _ _ _ () _ (modify_ok _ _)),
    (bind_ok _ _ _ () _ (kill_fine _ _)).
  match goal with |- goes_to _ (heartbeat_call _ _ _ _ (record_outcome _ _ _ ?q)) _ =>
    destruct (record_outcome_same ks c v q) as (Hq4 & Hi4 & Hs4) end.
  apply ends_with_heartbeat; [by rewrite Hs4|]. split; [rewrite Hq4|rewrite Hi4]; clearbody v; destruct v; done.
Qed.

(** A turn without faults, on a schema the queue's statements can use. *)
Lemma fine_turn_round ks dispatch answer (p : process E) w w' :
  jobs_ready (schema_of (meets AtClaim p)) = true → p_aborted p && db_open (p_db p) = false → same_jobs p w →
  (∀ c tb e, at_dispatch ks company p = Some (c, (tb, e)) → answer c = (di_run dispatch c (tb_fresh tb) e).1) →
  round (ks 0) answer w = Ok w' →
  goes_to (meets AtClaim p) (turn cfg on pod version ks company dispatch p) w'.
Proof.
  intros Hready Hab Hsame Hans Hr. unfold Progress.round in Hr. apply res_bind_ok in Hr as ([job w1] & Hb & Hr).
  unfold begin_round in Hb. apply res_bind_ok in Hb as ([job' q1] & Hc & Hb). pose proof Hsame as [Hq Hi].
  unfold turn. rewrite (bind_ok _ _ _ () _ (kill_fine _ _)).
  set (p0 := mkProcess (p_shared p) (p_db p) false (p_idle p) (p_counts p) (p_started p)).
  assert (claim_call ks company p = (Ok job', after_call q1 (meets AtClaim p0))) as Hcall.
  { unfold claim_call. rewrite Hab. cbn [andb o_claim in_company].
    apply (queue_fine AtClaim (claim_op ks) p0); [done| |apply no_loss_ok].
    unfold claim_op, lift_op. subst p0. cbn [p_shared]. by rewrite Hq, Hc. }
  unfold at_dispatch in Hans. rewrite (bind_ok _ _ _ () _ (kill_fine _ _)), Hcall in Hans.
  rewrite (bind_ok _ _ _ _ _ Hcall). rewrite (bind_ok note_reconnects _ _ () _ eq_refl).
  match goal with |- goes_to _ (_ ?q) _ => set (p1 := q) end.
  assert (jobs_ready (schema_of p1) = true) as Hready1 by done. assert (queue_of p1 = q1) as Hq1 by done.
  assert (p_idle p1 = w_idle w) as Hi1 by done. assert (p_aborted p1 = false) as Hab1 by done.
  apply (goes_to_schema _ p1); [done|]. cbn [o_kill o_meanwhile in_company] in Hans.
  change (p_shared (after_call q1 (meets AtClaim p0))) with (p_shared p1) in Hans. clearbody p1. clear Hcall p0.
  destruct job' as [c|]; injection Hb as <- <-.
  - unfold busy_turn. rewrite (bind_ok _ _ _ () _ (modify_ok _ _)).
    match goal with |- goes_to _ ((_ ≫= _) ?q) _ => set (p2 := q) end.
    unfold mbind, proc_bind, dispatch_call. cbn [o_meanwhile o_kill in_company]. change (p_shared p2) with (p_shared p1).
    pose proof (meets_schema AtDispatch p1) as Hs. pose proof (meets_queue AtDispatch p1) as Hq2.
    cbn [meets share p_shared] in Hs, Hq2. destruct (meanwhile AtDispatch 0 (p_shared p1)) as [tb e]. cbn [fst] in Hs, Hq2.
    rewrite decide_False by done. rewrite (Hans c tb e) in Hr by (by rewrite decide_False by done).
    destruct (di_run dispatch c (tb_fresh tb) e) as [r e'] eqn:Hd.
    match goal with |- goes_to _ (_ ?q) _ => set (p3 := q) end.
    assert (queue_of p3 = q1 ∧ p_idle p3 = 0 ∧ schema_of p3 = tb_schema tb) as (Hq3 & Hi3 & Hs3)
      by (subst p3; destruct r as [[? ?]|]; cbn; split_and!; congruence).
    cbn [fst] in Hr. apply (goes_to_schema p1 p3); [by rewrite Hs3|].
    eapply finish_turn_round; [rewrite Hs3; by eapply has_columns_le| |exact Hr]. by split.
  - injection Hr as <-. by apply idle_turn_round.
Qed.

(** ** A start without faults *)

Lemma satisfied_ready s : Forall (satisfied s) MIGRATIONS → (∀ tb, tb ∈ [JOB_TABLE; HEARTBEAT_TABLE] → is_Some (s !! tb)) →
  jobs_ready s = true ∧ beats_ready s = true.
Proof.
  intros Hall Htb. unfold MIGRATIONS in Hall. rewrite !Forall_cons in Hall. destruct Hall as (Hn & He & _).
  unfold jobs_ready, beats_ready, has_columns. cbn [satisfied] in Hn, He.
  destruct (Htb JOB_TABLE ltac:(set_solver)) as [c Hc]. destruct (Htb HEARTBEAT_TABLE ltac:(set_solver)) as [c' Hc'].
  rewrite Hc, Hc' in *. split; apply bool_decide_eq_true; repeat constructor; set_solver.
Qed.

(** The process that comes up has the whole schema, and what an earlier one left running for
    too long is reclaimed. *)
Lemma startup_fine ks (s : tables * E) :
  ∃ p, startup cfg pod version ks company (new_process ks s) = (Ok (), p)
    ∧ queue_of p = (reclaim_stale_running (tk_reclaim (ks 0)) (wc_stale_sec cfg) (wc_requeue_sec cfg) (tb_queue s.1)).2
    ∧ p_aborted p = false ∧ jobs_ready (schema_of p) = true ∧ beats_ready (schema_of p) = true.
Proof.
  pose proof (Hgentle AtEnsure 0 s) as [Hq0 _]. destruct (meanwhile AtEnsure 0 s) as [tb e] eqn:Hmw. cbn [fst] in Hq0.
  destruct (ensure_schema_spec (tb_schema tb)) as (s' & Hens & _ & Hall & Htables & _).
  destruct (satisfied_ready s' Hall) as [Hjobs Hbeats]; [intros t Ht; apply Htables; set_solver|].
  unfold startup. erewrite (bind_ok (ensure_call company)).
  2: { unfold ensure_call. cbn [o_ensure o_commit in_company]. erewrite (call_fine _ _ _ (Ok ()));
         [reflexivity| |done]. cbn [o_meanwhile in_company new_process p_shared fst].
       rewrite Hmw. unfold ensure_op. cbn [fst snd]. rewrite Hens. reflexivity. }
  rewrite (bind_ok _ _ _ () _ (kill_fine _ _)).
  match goal with |- context [(_ ≫= _) ?q] => set (p1 := q) end.
  assert (jobs_ready (schema_of p1) = true) as Hjobs1 by exact Hjobs. assert (beats_ready (schema_of p1) = true) as Hbeats1 by exact Hbeats.
  assert (queue_of p1 = tb_queue s.1) as Hq1 by exact Hq0. clearbody p1.
  destruct (reclaim_stale_running (tk_reclaim (ks 0)) (wc_stale_sec cfg) (wc_requeue_sec cfg) (tb_queue s.1)) as [ids q1] eqn:Hrec.
  assert (reclaim_op cfg ks 0 (queue_of p1) = (Ok ids, q1)) as Hop by (unfold reclaim_op; by rewrite Hq1, Hrec).
  pose proof (meets_schema AtReclaim p1) as Hs1.
  rewrite (bind_ok _ _ _ _ _ (queue_fine AtReclaim (reclaim_op cfg ks) p1 _ _ (meets_ready _ _ Hjobs1) Hop (no_loss_ok _))).
  rewrite (bind_ok _ _ _ () _ (modify_ok _ _)), (bind_ok _ _ _ () _ (kill_fine _ _)).
  match goal with |- ∃ p, heartbeat_call _ _ _ _ ?q = _ ∧ _ =>
    destruct (heartbeat_same ks q) as (p' & Hh & Hq & _ & Hs & Hab) end.
  assert (schema_le (schema_of p1) (schema_of p')) as Hs2 by (etrans; [exact Hs1|exact Hs]).
  exists p'. split_and!; [exact Hh|exact Hq| |by eapply has_columns_le..]. apply Hab. by eapply has_columns_le.
Qed.
End turns.

(** ** The life after the outages *)

Section recovery.
Context `{PyRepr, Sha256, ZoneDb} {E : Type} (cfg : worker_config) (on : bool) (pod version : string).
Context (kss : nat → Z → tick_clock) (os : nat → outages E) (ds : nat → dispatcher E) (x : life E).
Notation after d := (lives cfg on pod version kss os ds 0 d x).
Notation idle_ok q := (sys_ok (mkSys q Idle)).

Lemma lives_snoc n d : lives cfg on pod version kss os ds n (S d) x
  = live cfg on pod version (kss (n + d)%nat) (os (n + d)%nat) (ds (n + d)%nat) (lives cfg on pod version kss os ds n d x).
Proof.
  clear. revert n x. induction d as [|d IH]; intros n x; [cbn [lives]; by rewrite Nat.add_0_r|].
  change (lives cfg on pod version kss os ds n (S (S d)) x)
    with (lives cfg on pod version kss os ds (S n) (S d) (live cfg on pod version (kss n) (os n) (ds n) x)).
  rewrite IH. cbn [lives]. by rewrite Nat.add_succ_r.
Qed.

Lemma after_snoc d :
  after (S d) = live cfg on pod version (kss d) (os d) (ds d) (after d).
Proof. apply lives_snoc. Qed.

Lemma lives_ok d : (∀ m, orderly (os m)) → idle_ok (queue_in x) → idle_ok (queue_in (after d)).
Proof.
  intros Ho Hx. exact (rtc_invariant _ _ _ _ (sys_step_ok (wc_policy cfg)) Hx (lives_refine cfg on pod version _ _ _ 0 d x Ho)).
Qed.

(** What the dispatches of this life answer. *)
Definition life_answers (m : nat) (c : claimed) : res (pydict * gmap string freshness) :=
  match dispatched (kss m) (os m) (after m) with
  | Some (_, (tb, e)) => (di_run (ds m) c (tb_fresh tb) e).1
  | None => Ok ([], ∅)
  end.
Notation rounds := (rounds cfg on pod version 0 (λ m, kss m 0) life_answers).

(** No outage from [n] on, and gentle company. *)
Definition fine_from (n : nat) : Prop := ∀ m, (n ≤ m)%nat → ∃ mw, gentle mw ∧ os m = in_company mw.

Lemma fine_later n m : (n ≤ m)%nat → fine_from n → fine_from m.
Proof. intros Hle Hfine m' Hm. apply Hfine. lia. Qed.

(** A process whose turns cannot fail. *)
Definition healthy (y : life E) (w : worker) : Prop :=
  ∃ p, y = Up p ∧ p_aborted p = false ∧ jobs_ready (tb_schema (p_shared p).1) = true ∧ beats_ready (tb_schema (p_shared p).1) = true
    ∧ same_jobs p w.

Lemma fine_turn_after n mw p w w' :
  gentle mw → os n = in_company mw → after n = Up p →
  jobs_ready (tb_schema (p_shared (meets mw AtClaim p)).1) = true → p_aborted p && db_open (p_db p) = false →
  same_jobs p w → rounds n 1 w = Ok w' →
  ∃ p', after (S n) = Up p' ∧ same_jobs p' w' ∧ schema_le (tb_schema (p_shared p).1) (tb_schema (p_shared p').1)
    ∧ (beats_ready (tb_schema (p_shared p).1) = true → p_aborted p' = false).
Proof.
  intros Hmw Hn Hp Hjobs Hab Hsame (w1 & Hr & [= <-])%res_bind_ok. rewrite after_snoc, Hp, Hn.
  destruct (fine_turn_round cfg on pod version mw Hmw (kss n) (ds n) (life_answers n) p w w1 Hjobs Hab Hsame) as (p' & Ht & Hsame' & Hs & Hab').
  - intros c tb e Hc. unfold life_answers. rewrite Hp, Hn. cbn [dispatched]. by rewrite Hc.
  - exact Hr.
  - pose proof (meets_schema mw Hmw AtClaim p) as Hs0. exists p'. unfold live. rewrite Ht. split_and!; [done|done|by etrans|].
    intros Hb. apply Hab'. by eapply has_columns_le.
Qed.

Lemma rounds_cons n d w w' : rounds n (S d) w = Ok w' → ∃ w1, rounds n 1 w = Ok w1 ∧ rounds (S n) d w1 = Ok w'.
Proof. intros (w1 & Hr & Hr')%res_bind_ok. exists w1. cbn [Progress.rounds]. by rewrite Hr. Qed.

Lemma lives_healthy n d w w' :
  fine_from n → healthy (after n) w → rounds n d w = Ok w' → healthy (after (n + d)) w'.
Proof.
  revert n w. induction d as [|d IH]; intros n w Hfine Hx; [intros [= <-]; by rewrite Nat.add_0_r|].
  intros (w1 & Hr & Hr')%rounds_cons. rewrite <-Nat.add_succ_comm. eapply IH; [eapply fine_later; [|exact Hfine]; lia| |exact Hr'].
  destruct Hx as (p & Hp & Hab & Hjobs & Hbeats & Hsame). destruct (Hfine n) as (mw & Hmw & Hn); [done|].
  destruct (fine_turn_after n mw p w w1) as (p' & Hp' & ? & Hs & Hab'); [done..|by apply meets_ready|by rewrite Hab|done|done|].
  exists p'. split_and!; [done|by apply Hab'|by eapply has_columns_le..|done].
Qed.

(** A turn the process does not survive leaves the jobs alone. *)
Lemma turn_crashes mw ks dispatch (p : process E) :
  gentle mw → jobs_ready (tb_schema (p_shared (meets mw AtClaim p)).1) && negb (p_aborted p && db_open (p_db p)) = false →
  ∃ e p', turn cfg on pod version ks (in_company mw) dispatch p = (Raise e, p') ∧ tb_queue (p_shared p').1 = tb_queue (p_shared p).1.
Proof.
  intros Hmw Hbad. unfold turn. rewrite (bind_ok _ _ _ () _ (kill_fine _ _ _)). unfold mbind at 1, proc_bind at 1, claim_call.
  cbn [o_claim in_company strikes negb]. destruct (p_aborted p && db_open (p_db p)); [by eexists _, _|].
  rewrite andb_true_r in Hbad. cbn [andb].
  match goal with |- context [db _ _ _ _ ?q] => set (p0 := q) end. change (meets mw AtClaim p) with (share (p_shared (meets mw AtClaim p0)) p) in Hbad.
  rewrite (db_fine mw _ _ p0 (Raise undefined_error) (set_queue (tb_queue (p_shared p).1) (p_shared (meets mw AtClaim p0)).1));
    [by eexists _, _| |by intros e [= <-]].
  unfold on_queue, guarded. cbn [share p_shared] in Hbad. rewrite Hbad. by rewrite (meets_queue mw Hmw).
Qed.

(** A process that runs when the outages end either lives on, or dies once of what they left
    on its connection or kept from the schema. *)
Lemma lives_or_crash n d p w w' :
  fine_from n → after n = Up p → same_jobs p w → rounds n d w = Ok w' →
  (∃ p', after (n + d) = Up p' ∧ same_jobs p' w')
  ∨ ∃ e w1 s, rounds n e w = Ok w1 ∧ after (n + S e) = Down s ∧ tb_queue s.1 = w_queue w1.
Proof.
  revert n p w. induction d as [|d IH]; intros n p w Hfine Hp Hsame Hr.
  { injection Hr as <-. left. exists p. by rewrite Nat.add_0_r. }
  destruct (Hfine n) as (mw & Hmw & Hn); [done|].
  destruct (jobs_ready (tb_schema (p_shared (meets mw AtClaim p)).1) && negb (p_aborted p && db_open (p_db p))) eqn:Hgood.
  - apply andb_true_iff in Hgood as [Hready Hab%negb_true_iff]. apply rounds_cons in Hr as (w1 & Hr1 & Hr).
    destruct (fine_turn_after n mw p w w1) as (p1 & Hp1 & Hsame1 & _); [done..|].
    destruct (IH (S n) p1 w1) as [(p' & Hl & Hs)|(e & w2 & s & Hr2 & Hl & Hq)];
      [eapply fine_later; [|exact Hfine]; lia|done..| |].
    + left. exists p'. by rewrite <-Nat.add_succ_comm.
    + right. exists (S e), w2, s. rewrite <-Nat.add_succ_comm. split_and!; [|done|done].
      cbn [Progress.rounds] in *. apply res_bind_ok in Hr1 as (w3 & -> & [= ->]). exact Hr2.
  - right. destruct (turn_crashes mw (kss n) (ds n) p Hmw Hgood) as (e & p' & Ht & Hq). exists 0%nat, w, (p_shared p').
    split_and!; [done| |by rewrite Hq; destruct Hsame as [<- _]]. rewrite Nat.add_1_r, after_snoc, Hp, Hn. unfold live. by rewrite Ht.
Qed.

Context (unlocked : ∀ m, tk_locked (kss m 0) = ∅) (going_on : diverging (λ m, kss m 0)).
Notation every_row_ended q q' :=
  (∀ i, is_Some (q_rows q !! i) → ∃ j', q_rows q' !! i = Some j' ∧ ended j').

(** From [n] on no job is answered with a throttle. *)
Definition never_throttled (n : nat) : Prop :=
  ∀ m c e, (n ≤ m)%nat → life_answers m c = Raise e → classify_flex_error (exn_str e) ≠ THROTTLED.

(** The loop of [Progress] and [Steady] ends the jobs. *)
Lemma rounds_end n w :
  idle_ok (w_queue w) → on = false ∨ never_throttled n →
  ∃ d w', rounds n d w = Ok w' ∧ every_row_ended (w_queue w) (w_queue w').
Proof.
  intros Hw [->|Hcalm].
  - destruct (every_job_ends cfg pod version 0 (λ m, kss m 0) life_answers unlocked going_on n w Hw) as (d & w' & Hr & Hdom & Hall).
    exists d, w'. split; [done|]. intros i Hi. apply Hdom in Hi as [j' Hj']. exists j'. split; [done|by eapply Hall].
  - destruct (jobs_end_steady cfg on pod version 0 (λ m, kss m 0) life_answers unlocked going_on n w 0 Hw) as (d & w' & Hr & _ & Hall).
    + intros d w1 _ _ c w2 e _. apply Hcalm. lia.
    + by exists d, w'.
Qed.

Lemma from_healthy n w :
  fine_from n → on = false ∨ never_throttled n → idle_ok (w_queue w) → healthy (after n) w →
  ∃ d p, after (n + d) = Up p ∧ every_row_ended (w_queue w) (tb_queue (p_shared p).1).
Proof.
  intros Hfine Hcalm Hw Hx. destruct (rounds_end n w Hw Hcalm) as (d & w' & Hr & Hall).
  destruct (lives_healthy n d w w' Hfine Hx Hr) as (p & Hl & _ & _ & _ & [Hq _]). exists d, p. by rewrite Hq.
Qed.

Lemma never_throttled_later n m : (n ≤ m)%nat → on = false ∨ never_throttled n → on = false ∨ never_throttled m.
Proof. intros Hle [?|Hcalm]; [by left|right]. intros m' c e Hm'. apply Hcalm. lia. Qed.

(** The worker of [Progress] with the process's jobs. *)
Definition worker_of (p : process E) : worker :=
  mkWorker (tb_queue (p_shared p).1) (tb_fresh (p_shared p).1) (tb_beats (p_shared p).1) (p_idle p) (p_counts p).

Lemma from_down n s :
  fine_from n → on = false ∨ never_throttled n → after n = Down s → idle_ok (tb_queue s.1) →
  ∃ d p, after (n + d) = Up p ∧ every_row_ended (tb_queue s.1) (tb_queue (p_shared p).1).
Proof.
  intros Hfine Hcalm Hdown Hok. destruct (Hfine n) as (mw & Hmw & Hn); [done|].
  destruct (startup_fine cfg pod version mw Hmw (kss n) s) as (p & Hs & Hq & Hab & Hjobs & Hbeats).
  assert (after (S n) = Up p) as Hlive by (rewrite after_snoc; unfold live; by rewrite Hdown, Hn, Hs).
  destruct (reclaim_advances (tk_reclaim (kss n 0)) (wc_stale_sec cfg) (wc_requeue_sec cfg) (tb_queue s.1)) as (Hadv%advances_grows & _).
  assert (idle_ok (w_queue (worker_of p))) as Hok1.
  { cbn [worker_of w_queue]. rewrite Hq. eapply (sys_step_ok (wc_policy cfg)); [apply sys_reclaim|exact Hok]. }
  destruct (from_healthy (S n) (worker_of p)) as (d & p' & Hl & Hall);
    [eapply fine_later; [|exact Hfine]; lia|eapply never_throttled_later; [|exact Hcalm]; lia|exact Hok1|by exists p|].
  exists (S d), p'. rewrite <-Nat.add_succ_comm. split; [exact Hl|]. intros i [j Hj]. apply Hall. cbn [worker_of w_queue]. rewrite Hq.
  destruct (Hadv i j Hj) as (j' & Hj' & _). by eexists.
Qed.

(** However long the database was away, however often the worker was killed meanwhile, and
    whatever that left in the tables, on the connection or undone in the schema: once
    Postgres stays up and the others leave the jobs alone, from any point of the worker's
    life on there is a later one at which the process runs and every job the table then held
    is done or failed. The process may have to die once more and start again for it. *)
Theorem outages_recovered n :
  (∀ m, orderly (os m)) → fine_from n → on = false ∨ never_throttled n → idle_ok (queue_in x) →
  ∃ d p, after (n + d) = Up p ∧ every_row_ended (queue_in (after n)) (tb_queue (p_shared p).1).
Proof.
  intros Ho Hfine Hcalm Hx. pose proof (lives_ok n Ho Hx) as Hy. unfold queue_in in *.
  destruct (after n) as [p|s] eqn:Hn; cbn [shared_in] in *; [|by apply from_down].
  destruct (rounds_end n (worker_of p) Hy Hcalm) as (d1 & w' & Hr & Hall).
  destruct (lives_or_crash n d1 p (worker_of p) w' Hfine Hn) as [(p' & Hl & [Hq _])|(e & w1 & s & Hr1 & Hl & Hq)];
    [by split|done|exists d1, p'; by rewrite Hq|].
  destruct (rounds_return cfg on pod version 0 (λ m, kss m 0) life_answers n e (worker_of p) Hy) as (w1' & Hr1' & Hok1 & Hg).
  rewrite Hr1 in Hr1'. injection Hr1' as <-. rewrite <-Hq in Hok1.
  destruct (from_down (n + S e) s) as (d2 & p2 & Hl2 & Hall2);
    [eapply fine_later; [|exact Hfine]; lia|eapply never_throttled_later; [|exact Hcalm]; lia|done|exact Hok1|].
  exists (S e + d2)%nat, p2. rewrite Nat.add_assoc. split; [exact Hl2|]. intros i [j Hj]. apply Hall2. rewrite Hq.
  destruct (Hg i j Hj) as (j1 & Hj1 & _). by eexists.
Qed.
End recovery.

(** ** A commit that is lost *)

(** The flag that the migrations have run is set before they are committed: when that commit
    is lost, the call's next try finds the flag set, runs none of them and answers success,
    and the tables are as old as before. *)
Lemma lost_commit_skips_migrations commit_lost e c s :
  present s = 2 → commit_lost 0 = Some e → commit_lost 1 = None → lost e = true →
  ∃ c', call (ensure_op commit_lost) (λ _, NoFault) c (s, false) = (Ok (), c', (s, true)).
Proof.
  intros Hp Hlost Hgot He. destruct (ensure_schema_spec s) as (s' & Hens & _).
  assert (ensure_op commit_lost 0 (s, false) = (Raise e, (s, true))) as H0 by (unfold ensure_op; cbn [fst snd]; by rewrite Hens, Hlost).
  assert (ensure_op commit_lost 1 (s, true) = (Ok (), (s, true))) as H1.
  { unfold ensure_op, ensure_flex_ops_schema. cbn [fst snd]. rewrite Hp, Hgot. reflexivity. }
  unfold call, db_call. cbn [db_loop db_try]. unfold counted. cbn [fst snd]. rewrite H0, He. cbn [db_open fst snd].
  change (0 + 1) with 1. cbn [db_loop RECONNECT_DELAYS db_try db_open fst snd]. rewrite H1. by eexists.
Qed.

(** ** Examples *)

(** A database from before the heartbeat. *)
Definition old_schema : schema :=
  {[ JOB_TABLE := list_to_set ["id"; "status"; "not_before"; "error_category"]; FRESHNESS_TABLE := ∅ ]}.
Definition old_tables : tables := mkTables two_jobs ∅ ∅ old_schema.

(** The commit of the first start is lost; later the outcome of a job cannot be written, the
    next start finds no database, and a kill hits a job that runs. *)
Definition rough_start {E} (n : nat) : outages E :=
  let ok (_ : Z) := NoFault in
  let gone (_ : Z) := ConnectFails (Exn OperationalError "connection refused") in
  let lost (_ : Z) := LostBefore (Exn OperationalError "server closed the connection") in
  let out ensure commit mark kill :=
    mkOutages ensure commit ok ok ok (λ _, None) mark ok ok (λ _ _ s, s) kill in
  match n with
  | 0%nat => out ok (λ i, if i =? 0 then Some (Exn OperationalError "server closed the connection") else None) ok None
  | 3%nat => out ok (λ _, None) lost None
  | 4%nat => out gone (λ _, None) ok None
  | 6%nat => out ok (λ _, None) ok (Some AtDispatch)
  | _ => fine
  end.

Definition rough_life (d : nat) : life () :=
  @lives () sample_repr sample_sha sample_zones sample_config false "pod" "v" (λ n _, hourly n) rough_start
    (λ n, mkDispatcher (λ c _ e, (throttled_once n c, e)) (λ _ e, e)) 0 d (Down (old_tables, ())).

(** A running process: whether it has the heartbeat table, and a failed transaction. *)
Definition running {E} (x : life E) : option (bool * bool) :=
  match x with Up p => Some (beats_ready (tb_schema (p_shared p).1), p_aborted p) | Down _ => None end.

(** The start succeeds without its migrations, the next statement dies of the heartbeat that
    could not be written, and the second start makes up for both. *)
Example lost_commit_costs_a_start :
  map (λ d, running (rough_life d)) [1; 2; 3; 4; 5; 6]%nat
  = [Some (false, true); None; Some (true, false); None; None; Some (true, false)].
Proof. vm_compute. reflexivity. Qed.
