(* ===== verification/System.v ===== *)
(** * The worker and its fetches together

    The loop of [worker/loop.py] with the dispatch of [worker/handlers.py] and the two
    orchestrations plugged in: the state is the worker's tables and the world the fetches
    act on. What a job marked done means, and what a whole run of the worker achieves. *)
From S2P Require Import Prelude Pytext PyVal Json Retry JobQueue Pytime Ddl Handlers ConfigRw Ingest Transactions Trades.
From S2P Require Import Cron Schedule Worker Progress Steady.

Record node := mkNode { n_worker : worker; n_world : world }.

(** What a job meets besides the two states: the session's zone, the writers loaded or not,
    the secrets and the configuration read, the day, and what its own connection answers. *)
Record surroundings := mkSurroundings {
  su_session : option string; su_ready : bool; su_env : env; su_golden : golden; su_today : Z;
  su_db : run_db
}.

Section system.
Context `{PyRepr, Sha256, Reports, CoreWriters, RunContext, ZoneDb}.

(** The world after the handler of a kind. *)
Definition world_after (s : surroundings) (kind : string) (payload : pydict) (w : world) : world :=
  if decide (kind = "flex-trades") then
    (fetch_flex_trades_and_upsert_executions (su_ready s) (su_env s) (su_golden s) (su_today s) payload w).2
  else if decide (kind = "flex-transactions") then
    (fetch_cash_transactions_from_flex (su_session s) (su_ready s) (su_env s) (su_golden s) (su_today s) payload w).2
  else w.

(** [dispatch] and its effects: the fetch only runs once the job's connection is open. *)
Definition run_job (s : surroundings) (c : claimed) (fresh : gmap string freshness) (w : world)
    : res (pydict * gmap string freshness) * world :=
  let orch := flex_orchestrations (su_session s) (su_ready s) (su_env s) (su_golden s) (su_today s) w in
  (dispatch (H0 := orch) (su_db s) (c_kind c) (c_payload c) (Some (c_id c)) fresh,
   match rd_connect (su_db s) with Some _ => w | None => world_after s (strip (c_kind c)) (c_payload c) w end).

Section loop.
Context (cfg : worker_config) (catchup_enabled : bool) (pod version : string) (started_at : Z).

(** One turn of the loop. *)
Definition full_round (k : tick_clock) (s : surroundings) (x : node) : res node :=
  '(c, w1) ← begin_round cfg catchup_enabled pod version started_at k (n_worker x);
  match c with
  | None => Ok (mkNode w1 (n_world x))
  | Some c =>
      let '(r, world') := run_job s c (w_fresh w1) (n_world x) in
      w2 ← finish_round cfg pod version started_at k c r w1;
      Ok (mkNode w2 world')
  end.

(** [d] turns from the [n]-th on. *)
Fixpoint full_rounds (ticks : nat → tick_clock) (srs : nat → surroundings) (n d : nat) (x : node) : res node :=
  match d with
  | O => Ok x
  | S d' => x' ← full_round (ticks n) (srs n) x; full_rounds ticks srs (S n) d' x'
  end.
End loop.

(** ** What a job marked done means *)

(** A complete trades run, which counted [count] rows. *)
Definition trades_landed (s : surroundings) (payload : pydict) (w w' : world) (count : Z) : Prop :=
  let qs := queries (get_flex_config_purpose (su_env s) (su_golden s) "trades") in
  ∃ from_date to_date w1 rows,
    qs ≠ [] ∧ all_fetched from_date to_date (fallback_arg payload) w qs w1 rows ∧ w_requests w' = w_requests w1
    ∧ (is_Some from_date ∨ is_Some to_date)
    ∧ ((rows = [] ∧ w_executions w' = w_executions w ∧ count = 0)
       ∨ (rows ≠ [] ∧ write_account_executions_to_db rows (w_executions w) = (Ok true, w_executions w')
          ∧ count = Z.of_nat (length rows))).

(** A complete cash run, which wrote [count] rows. *)
Definition cash_landed (s : surroundings) (payload : pydict) (w w' : world) (count : Z) : Prop :=
  let entries := usable (get_flex_config_purpose (su_env s) (su_golden s) "cash_transactions") in
  ∃ from_date to_date chunks rows,
    entries ≠ [] ∧ chunks_of from_date to_date = Ok chunks
    ∧ fetched (fallback_arg payload && (Z.of_nat (length chunks) =? 1))
        (w_requests w) (work_list entries chunks) (w_requests w') rows
    ∧ ((rows = [] ∧ w_transactions w' = w_transactions w ∧ count = 0)
       ∨ ∃ skipped, rows ≠ [] ∧ count ≠ 0
           ∧ upsert_account_transactions rows (w_transactions w) = (Ok (count, skipped), w_transactions w'))
    ∧ match date_arg "from_date" payload, date_arg "to_date" payload with
      | Ok None, Ok None =>
          ∃ start stop mode days,
            transactions_window (read_last_transaction_dates (su_session s) w) (fst (get_flex_range_days (su_golden s)))
              (snd (get_flex_range_days (su_golden s))) (su_today s) = Ok (start, stop, mode, days)
            ∧ from_date = Some (strftime_ymd start) ∧ to_date = Some (strftime_ymd stop)
      | f, t => f = Ok from_date ∧ t = Ok to_date
      end.

(** The fetch behind the result of a job of that kind is complete. *)
Definition landed (s : surroundings) (kind : string) (payload : pydict) (w w' : world) (out : pydict) : Prop :=
  ∃ count, dict_get "inserted" out = PInt count
    ∧ (kind = "flex-trades" ∧ trades_landed s payload w w' count
       ∨ kind = "flex-transactions" ∧ cash_landed s payload w w' count).

(** A dispatch that returns landed its rows. *)
Lemma run_job_landed s c fresh w out tb w' :
  errors_named → run_job s c fresh w = (Ok (out, tb), w') → landed s (strip (c_kind c)) (c_payload c) w w' out.
Proof.
  intros Hnamed. unfold run_job. set (orch := flex_orchestrations _ _ _ _ _ w).
  destruct (dispatch _ _ _ _ _) as [[out0 tb0]|e] eqn:Hd; [|done].
  apply (dispatch_accepts (H0 := orch)) in Hd as (Hconn & _ & summary & n & Hfetch & Hsum & -> & _).
  assert (∀ label, require_ok summary label = Ok [("inserted", PInt n); ("ok", PBool true); ("result", PDict summary)]) as Hreq
    by (intros label; apply require_ok_Ok; by exists n).
  rewrite Hconn. intros [= <- <- <-].
  exists n. split; [done|]. unfold world_after.
  destruct Hfetch as [[-> Hf]|[-> Hf]]; cbn [decide] in *; [left|right]; (split; [done|]); cbn in Hf.
  - rewrite decide_True by done.
    destruct (fetch_flex_trades_and_upsert_executions _ _ _ _ _ w) as [r w1] eqn:Hrun. cbn in Hf. subst r.
    destruct (accepted_trades_complete _ _ _ _ _ _ _ _ _ Hrun (Hreq _)) as (f & t & w2 & rows & Hq & Hall & Hlog & Hdates & Hw).
    exists f, t, w2, rows. split_and!; try done.
    destruct Hw as [(? & ? & [= ->])|(? & ? & [= ->])]; [by left|by right].
  - rewrite decide_False, decide_True by done.
    destruct (fetch_cash_transactions_from_flex _ _ _ _ _ _ w) as [r w1] eqn:Hrun. cbn in Hf. subst r.
    destruct (accepted_run_complete _ _ _ _ _ _ _ _ _ _ Hnamed Hrun (Hreq _)) as (f & t & ch & rows & Hq & Hch & Hall & Hw & Hwin).
    exists f, t, ch, rows. split_and!; try done.
    destruct Hw as [(? & ? & [= ->])|(wr & sk & ? & ? & ? & [= ->])]; [by left|right; by exists sk].
Qed.

(** ** Which rows a turn marks done *)

(** Rows done afterwards were there before. *)
Definition kept_done (q q' : queue) : Prop :=
  ∀ i j', q_rows q' !! i = Some j' → j_status j' = Done → q_rows q !! i = Some j'.
#[export] Instance kept_done_preorder : PreOrder kept_done.
Proof. split; [by intros q i j'|]. intros q1 q2 q3 H12 H23 i j' Hj' Hst. apply H12; [by apply H23|done]. Qed.

Lemma update_where_kept q cond f : (∀ j, j_status (f j) = Done → f j = j) → kept_done q (update_where q cond f).2.
Proof.
  intros Hf i j'. rewrite update_where_lookup. intros (j & -> & ->)%fmap_Some Hst. destruct (cond j); [by rewrite Hf|done].
Qed.

Lemma defer_kept t d ex q : kept_done q (defer_pending t d ex q).2.
Proof.
  unfold defer_pending. intros i j'. rewrite update_where_lookup. intros (j & -> & ->)%fmap_Some.
  destruct (bool_decide (j_status j = Pending)) eqn:Hp; cbn [andb]; [|done].
  apply bool_decide_eq_true in Hp. destruct (bool_decide _); cbn; by rewrite Hp.
Qed.

Lemma reclaim_kept t stale_s delay q : kept_done q (reclaim_stale_running t stale_s delay q).2.
Proof. apply update_where_kept. intros j. cbn. by destruct (_ <? _). Qed.

Lemma enqueue_missed_kept today clock sched ms n q r q' : enqueue_missed today clock sched ms n q = (r, q') → kept_done q q'.
Proof.
  revert n q r q'. induction ms as [|m ms IH]; intros n q r q'; cbn [enqueue_missed]; [by intros [= _ <-]|].
  destruct (enqueue_slot _ _ _ _ _ q) as [[r1 q1]|] eqn:He; [|by intros [= _ <-]].
  destruct (enqueue_missed _ _ _ ms (S n) q1) as [rest q2] eqn:Hrest. intros [= _ <-].
  etrans; [|by eapply IH]. apply enqueue_slot_inv in He as (_ & prio & maxa & Hi & _).
  apply insert_job_inv in Hi as [(_ & _ & ->)|(_ & _ & ->)]; intros i j'; cbn [q_rows]; [done|].
  intros [[_ <-]|[_ Hj]]%lookup_insert_Some; [|done]. by cbn.
Qed.

Lemma idle_round_kept cfg on pod version started k w :
  kept_done (w_queue w) (w_queue (idle_round cfg on pod version started k w)).
Proof.
  unfold idle_round. cbn zeta. destruct (_ <? _); [done|].
  destruct (reclaim_stale_running _ _ _ _) as [ids q1] eqn:Hr.
  assert (kept_done (w_queue w) q1) as Hq1 by (pose proof (reclaim_kept (tk_reclaim k) (wc_stale_sec cfg) (wc_requeue_sec cfg) (w_queue w)) as Hk; by rewrite Hr in Hk).
  destruct on; [|done]. unfold catchup_missed_slots.
  destruct (missed_slots _ _ _ _) as [ms|]; [|done].
  destruct (enqueue_missed _ _ _ ms _ q1) as [[r|] q2] eqn:He; (etrans; [exact Hq1|by eapply enqueue_missed_kept]).
Qed.

(** What the verdict on a job's answer writes to its row. *)
Lemma mark_judged (p : RetryPolicy) t jid c (r : res (pydict * gmap string freshness)) q q1 :
  mark t jid (judge p c (fst <$> r)) q = Ok q1 →
  ∃ f, update_row q jid f = Ok q1 ∧ (∀ j, j_kind (f j) = j_kind j ∧ j_payload (f j) = j_payload j)
    ∧ ∀ j, j_status (f j) = Done → ∃ out tb, r = Ok (out, tb) ∧ f = done_row t out.
Proof.
  destruct r as [[out tb]|e]; cbn [fmap res_fmap]; [intros Hm; exists (done_row t out); split_and!; [done|done|intros _ _; by exists out, tb]|].
  rewrite judge_raise. cbn zeta. case_match; intros Hm; by eexists.
Qed.

Lemma finish_round_done cfg pod version started k c r w w' i j' :
  finish_round cfg pod version started k c r w = Ok w' → q_rows (w_queue w') !! i = Some j' → j_status j' = Done →
  q_rows (w_queue w) !! i = Some j'
  ∨ i = c_id c ∧ ∃ out tb j, r = Ok (out, tb) ∧ j_result j' = Some out
      ∧ q_rows (w_queue w) !! i = Some j ∧ j_kind j' = j_kind j ∧ j_payload j' = j_payload j.
Proof.
  unfold finish_round. set (v := judge (wc_policy cfg) c (fst <$> r)). intros (q1 & Hm & Hw')%res_bind_ok Hj' Hst.
  assert (kept_done q1 (w_queue w')) as Hk.
  { injection Hw' as <-. cbn [beat w_queue]. destruct (cooldown v); [apply defer_kept|done]. }
  pose proof (Hk _ _ Hj' Hst) as Hj1. clear Hk Hw' Hj'. rename Hj1 into Hj'.
  destruct (mark_judged _ _ _ _ _ _ _ Hm) as (f & Hf & _ & Hdone).
  apply update_row_inv in Hf as [[-> _]|(j & Hj & _ & ->)]; [by left|]. cbn [q_rows] in Hj'.
  apply lookup_insert_Some in Hj' as [[<- <-]|[_ Hj']]; [right|by left]. split; [done|].
  destruct (Hdone j Hst) as (out & tb & -> & ->). by exists out, tb, j.
Qed.

Section turns.
Context (cfg : worker_config) (catchup_enabled : bool) (pod version : string) (started_at : Z).
Notation turn := (full_round cfg catchup_enabled pod version started_at).

(** A row a turn marks done is that of the job it ran. *)
Lemma full_round_done k s x x' i j' :
  queue_ok (w_queue (n_worker x)) → turn k s x = Ok x' →
  q_rows (w_queue (n_worker x')) !! i = Some j' → j_status j' = Done →
  q_rows (w_queue (n_worker x)) !! i = Some j'
  ∨ ∃ c fresh out tb, run_job s c fresh (n_world x) = (Ok (out, tb), n_world x')
    ∧ c_kind c = j_kind j' ∧ c_payload c = j_payload j' ∧ j_result j' = Some out.
Proof.
  intros Hok Hr Hj' Hst. unfold full_round in Hr. apply res_bind_ok in Hr as ([job w1] & Hb & Hr).
  unfold begin_round in Hb. apply res_bind_ok in Hb as ([job' q1] & Hc & Hb).
  destruct job' as [c|]; injection Hb as <- <-.
  - destruct (run_job s c _ _) as [r world'] eqn:Hrun. apply res_bind_ok in Hr as (w2 & Hf & [= <-]). cbn [n_worker n_world] in *.
    destruct (claim_some _ _ _ _ _ _ Hok Hc) as (j & Hj & _ & Ec & ->).
    destruct (finish_round_done _ _ _ _ _ _ _ _ _ _ _ Hf Hj' Hst) as [Hsame|(-> & out & tb & j1 & -> & Hres & Hj1 & Hkind & Hpay)];
      cbn [w_queue q_rows w_fresh] in *.
    + left. apply lookup_insert_Some in Hsame as [[_ <-]|[_ Hsame]]; [discriminate Hst|done].
    + right. rewrite lookup_insert_eq in Hj1. injection Hj1 as <-. exists c, (w_fresh (n_worker x)), out, tb.
      rewrite Ec in Hrun |- *. cbn [start_row finish_row j_kind j_payload c_kind c_payload] in *. by split_and!.
  - injection Hr as <-. cbn [n_worker] in *. left.
    apply claim_next_inv in Hc as [(_ & -> & _)|(? & _ & ? & _)]; [|done].
    by apply (idle_round_kept _ _ _ _ _ _ _ _ _ Hj' Hst).
Qed.

(** A job is marked done only by the turn that ran its fetch to the end: a trades job when
    every query's report was got, a cash job when every chunk's was for every credential,
    and all the rows of all of them went to the writer, which wrote them, or there were
    none. The row's result carries their number. It does not matter what the earlier
    turns did, whether the connection of the job fails, or whether the catch-up is on. *)
Theorem done_job_landed k s x x' i j' :
  queue_ok (w_queue (n_worker x)) → errors_named → turn k s x = Ok x' →
  q_rows (w_queue (n_worker x')) !! i = Some j' → j_status j' = Done → q_rows (w_queue (n_worker x)) !! i ≠ Some j' →
  ∃ out, j_result j' = Some out ∧ landed s (strip (j_kind j')) (j_payload j') (n_world x) (n_world x') out.
Proof.
  intros Hok Hnamed Hr Hj' Hst Hnew.
  destruct (full_round_done _ _ _ _ _ _ Hok Hr Hj' Hst) as [?|(c & fresh & out & tb & Hrun & <- & <- & Hout)]; [done|].
  exists out. split; [done|by eapply run_job_landed].
Qed.
End turns.

(** ** A whole run *)

Section runs.
Context (cfg : worker_config) (on : bool) (pod version : string) (started_at : Z).
Context (ticks : nat → tick_clock) (srs : nat → surroundings).
Notation turn := (full_round cfg on pod version started_at).
Notation turns := (full_rounds cfg on pod version started_at ticks srs).
Notation idle_ok x := (sys_ok (mkSys (w_queue (n_worker x)) Idle)).

(** The worker's half of a turn is one of [Progress], with the fetch's answer. *)
Lemma turn_round k s x :
  n_worker <$> turn k s x
  = round cfg on pod version started_at k (λ c, (run_job s c (w_fresh (n_worker x)) (n_world x)).1) (n_worker x).
Proof.
  unfold full_round, round, begin_round. destruct (claim_next _ _ _ _) as [[[c|] q1]|]; cbn [mbind res_bind]; [|done..].
  cbn [w_fresh]. destruct (run_job s c _ _) as [r world']. cbn [fst]. by destruct (finish_round _ _ _ _ _ _ _ _).
Qed.

Lemma turns_app n a b x : turns n (a + b) x = turns n a x ≫= turns (n + a) b.
Proof.
  revert n x. induction a as [|a IH]; intros n x; cbn [full_rounds Nat.add mbind res_bind]; [by rewrite Nat.add_0_r|].
  destruct (turn (ticks n) (srs n) x) as [x1|]; [|done]. cbn [mbind res_bind]. by rewrite IH, Nat.add_succ_r.
Qed.

Lemma turns_snoc n d x : turns n (S d) x = turns n d x ≫= turn (ticks (n + d)) (srs (n + d)).
Proof.
  replace (S d) with (d + 1)%nat by lia. rewrite turns_app. destruct (turns n d x) as [x1|]; [|done].
  cbn [mbind res_bind full_rounds]. by destruct (turn _ _ x1).
Qed.

(** What the fetches answer in the run from [x]. *)
Definition run_answers (n : nat) (x : node) (m : nat) (c : claimed) : res (pydict * gmap string freshness) :=
  x1 ← turns n (m - n) x; (run_job (srs m) c (w_fresh (n_worker x1)) (n_world x1)).1.

Lemma turns_rounds n d x :
  n_worker <$> turns n d x = rounds cfg on pod version started_at ticks (run_answers n x) n d (n_worker x).
Proof.
  induction d as [|d IH]; [done|]. rewrite turns_snoc. replace (S d) with (d + 1)%nat by lia. rewrite rounds_app, <-IH.
  destruct (turns n d x) as [x1|e] eqn:Hx1; [|done]. cbn [mbind res_bind fmap res_fmap rounds]. rewrite turn_round.
  assert (∀ c, run_answers n x (n + d) c = (run_job (srs (n + d)) c (w_fresh (n_worker x1)) (n_world x1)).1) as Hans.
  { intros c. unfold run_answers. replace (n + d - n)%nat with d by lia. by rewrite Hx1. }
  unfold round. destruct (begin_round _ _ _ _ _ _ _) as [[[c|] w1]|]; cbn [mbind res_bind]; [|done..].
  rewrite Hans. by destruct (finish_round _ _ _ _ _ _ _ _).
Qed.

Lemma turn_ok k s x x' : idle_ok x → turn k s x = Ok x' → idle_ok x'.
Proof.
  intros Hx Hr. pose proof (turn_round k s x) as Hw. rewrite Hr in Hw. cbn [fmap res_fmap] in Hw.
  edestruct (round_returns cfg on pod version started_at k) as (w' & Hw' & Hok & _); [exact Hx|].
  rewrite Hw' in Hw. by injection Hw as ->.
Qed.

Lemma turns_ok n d x x' : idle_ok x → turns n d x = Ok x' → idle_ok x'.
Proof.
  intros Hx. revert x'. induction d as [|d IH]; intros x' Hr; [by injection Hr as <-|].
  rewrite turns_snoc in Hr. apply res_bind_ok in Hr as (x0 & Hr & Ht). by eapply turn_ok; [apply IH|].
Qed.

(** A job done at the end of a run was done at its start, or some turn ran its fetch. *)
Lemma turns_landed n d x x' i j' :
  idle_ok x → errors_named → turns n d x = Ok x' → q_rows (w_queue (n_worker x')) !! i = Some j' → j_status j' = Done →
  q_rows (w_queue (n_worker x)) !! i = Some j'
  ∨ ∃ m x1 x2 out, (m < d)%nat ∧ turns n m x = Ok x1 ∧ turn (ticks (n + m)) (srs (n + m)) x1 = Ok x2
      ∧ j_result j' = Some out
      ∧ landed (srs (n + m)) (strip (j_kind j')) (j_payload j') (n_world x1) (n_world x2) out.
Proof.
  intros Hx Hnamed Hr Hj' Hst. revert x' Hr Hj'. induction d as [|d IH]; intros x' Hr Hj'; [injection Hr as <-; by left|].
  rewrite turns_snoc in Hr. apply res_bind_ok in Hr as (x1 & Hr & Ht).
  pose proof (turns_ok _ _ _ _ Hx Hr) as Hx1.
  pose proof Hx1 as [Hok _ _]. cbn [s_queue] in Hok.
  destruct (full_round_done _ _ _ _ _ _ _ _ _ _ _ Hok Ht Hj' Hst) as [Hold|(c & fresh & out & tb & Hrun & <- & <- & Hout)].
  - destruct (IH x1 Hr Hold) as [?|(m & y1 & y2 & out & Hm & ?)]; [by left|right]. exists m, y1, y2, out. split; [lia|done].
  - right. exists d, x1, x', out. split_and!; [lia|done|done|done|]. by eapply run_job_landed.
Qed.

(** The worker's rows after a run, found from its rounds. *)
Lemma turns_of_rounds n d x w' :
  rounds cfg on pod version started_at ticks (run_answers n x) n d (n_worker x) = Ok w' →
  ∃ x', turns n d x = Ok x' ∧ n_worker x' = w'.
Proof. rewrite <-turns_rounds. destruct (turns n d x) as [x'|]; [|done]. intros [= <-]. by exists x'. Qed.


(** A turn of the run claims a job and its dispatch fails with a throttle. *)
Definition throttled (k : tick_clock) (s : surroundings) (x : node) : Prop :=
  ∃ c w1 e w', begin_round cfg on pod version started_at k (n_worker x) = Ok (Some c, w1)
    ∧ run_job s c (w_fresh w1) (n_world x) = (Raise e, w') ∧ classify_flex_error (exn_str e) = THROTTLED.

Lemma calm_answers n d x x1 :
  turns n d x = Ok x1 → ¬ throttled (ticks (n + d)) (srs (n + d)) x1 →
  calm_turn cfg on pod version started_at (ticks (n + d)) (run_answers n x (n + d)) (n_worker x1).
Proof.
  intros Hr Hcalm c w1 e Hb. unfold run_answers. replace (n + d - n)%nat with d by lia. rewrite Hr. cbn [mbind res_bind].
  destruct (run_job _ c _ (n_world x1)) as [r w'] eqn:Hrun. cbn [fst]. intros -> Hcls. apply Hcalm.
  exists c, w1, e, w'. split_and!; [done| |done]. rewrite <-Hrun. f_equal.
  unfold begin_round in Hb. apply res_bind_ok in Hb as ([job q1] & _ & Hb). destruct job; [|done]. by injection Hb as _ <-.
Qed.

(** C7. The whole worker with the catch-up on: as long as time goes on, nobody holds a lock and
    IB's throttling ends some day, at every point of the run there is a later one at which
    each job the table then held, those the catch-up added included, is done or failed; and
    one that became done in between had its fetch run to the end in one of the turns. *)
Theorem steady_run n x calm_after :
  (∀ m, tk_locked (ticks m) = ∅) → diverging ticks → errors_named → idle_ok x →
  (∀ d x1, (calm_after ≤ d)%nat → turns n d x = Ok x1 → ¬ throttled (ticks (n + d)) (srs (n + d)) x1) →
  ∀ d, ∃ y, turns n d x = Ok y ∧ ∃ d' z, turns (n + d) d' y = Ok z
    ∧ ∀ i, is_Some (q_rows (w_queue (n_worker y)) !! i) →
        ∃ j, q_rows (w_queue (n_worker z)) !! i = Some j ∧ (j_status j = Done ∨ j_status j = Failed)
          ∧ (j_status j = Done →
             q_rows (w_queue (n_worker y)) !! i = Some j
             ∨ ∃ m x1 x2 out, (m < d')%nat ∧ turns (n + d) m y = Ok x1
                 ∧ turn (ticks (n + d + m)) (srs (n + d + m)) x1 = Ok x2 ∧ j_result j = Some out
                 ∧ landed (srs (n + d + m)) (strip (j_kind j)) (j_payload j) (n_world x1) (n_world x2) out).
Proof.
  intros Hunlocked Hticks Hnamed Hx Hcalm d.
  destruct (rounds_return cfg on pod version started_at ticks (run_answers n x) n d (n_worker x) Hx) as (w1 & Hr & Hw1 & _).
  apply turns_of_rounds in Hr as (y & Hy & <-). exists y. split; [done|].
  destruct (jobs_end_steady cfg on pod version started_at ticks (run_answers (n + d) y) Hunlocked Hticks (n + d) (n_worker y)
    calm_after Hw1) as (d' & w2 & Hr2 & _ & Hends).
  { intros e w2 He Hr2. apply turns_of_rounds in Hr2 as (z & Hz & <-). eapply calm_answers; [done|].
    rewrite <-Nat.add_assoc. apply Hcalm; [lia|]. by rewrite turns_app, Hy. }
  apply turns_of_rounds in Hr2 as (z & Hz & <-). exists d', z. split; [done|]. intros i Hi.
  destruct (Hends i Hi) as (j & Hj & Hended). exists j. split_and!; [done|done|]. intros Hst. by eapply turns_landed.
Qed.
End runs.

(** The whole worker: as long as time goes on and nobody adds a job or holds a lock, no turn
    fails and every job of the table ends, done or failed, whatever IB, the writers and the
    jobs' own connections do and whatever a crash left running. And a job that is done was
    done before, or its fetch was run to the end in one of the turns: all reports it asks
    for were got in that turn and all their rows landed. *)
Theorem whole_run cfg pod version started_at ticks srs n x :
  let turn := full_round cfg false pod version started_at in
  let turns := full_rounds cfg false pod version started_at ticks srs in
  (∀ m, tk_locked (ticks m) = ∅) → diverging ticks → errors_named →
  sys_ok (mkSys (w_queue (n_worker x)) Idle) →
  ∃ d x', turns n d x = Ok x'
    ∧ (∀ i, is_Some (q_rows (w_queue (n_worker x')) !! i) ↔ is_Some (q_rows (w_queue (n_worker x)) !! i))
    ∧ ∀ i j', q_rows (w_queue (n_worker x')) !! i = Some j' →
        (j_status j' = Done ∨ j_status j' = Failed)
        ∧ (j_status j' = Done →
           q_rows (w_queue (n_worker x)) !! i = Some j'
           ∨ ∃ m x1 x2 out, (m < d)%nat ∧ turns n m x = Ok x1 ∧ turn (ticks (n + m)%nat) (srs (n + m)%nat) x1 = Ok x2
               ∧ j_result j' = Some out
               ∧ landed (srs (n + m)%nat) (strip (j_kind j')) (j_payload j') (n_world x1) (n_world x2) out).
Proof.
  intros turn turns Hunlocked Hticks Hnamed Hx.
  destruct (every_job_ends cfg pod version started_at ticks (run_answers cfg false pod version started_at ticks srs n x)
    Hunlocked Hticks n (n_worker x) Hx) as (d & w' & Hr & Hdom & Hends).
  apply turns_of_rounds in Hr as (x' & Ht & <-).
  exists d, x'. split_and!; [done|done|]. intros i j' Hj'. split; [by apply (Hends i)|].
  intros Hst. by eapply turns_landed.
Qed.
End system.

(** ** Examples *)

(** The first turn of the morning, with two jobs waiting: the trades job runs. *)
Definition sample_surroundings : surroundings :=
  mkSurroundings None true sample_env sample_golden 20601 (mkRunDb (Some 0) (Some 1) 0 None None).
Definition morning : node := mkNode waiting_worker recent_world.
Definition first_turn : res node :=
  @full_round sample_repr sample_sha sample_reports sample_writers sample_faults sample_zones
    sample_config false "pod" "v" 0 sample_tick sample_surroundings morning.
Definition after_first_turn : node := match first_turn with Ok x => x | Raise _ => morning end.

Lemma first_turn_ok : first_turn = Ok after_first_turn.
Proof. vm_compute. reflexivity. Qed.

Lemma first_turn_done : ∃ j', q_rows (w_queue (n_worker after_first_turn)) !! 1 = Some j'
  ∧ j_status j' = Done ∧ j_kind j' = "flex-trades" ∧ dict_get "inserted" (default [] (j_result j')) = PInt 1.
Proof. eexists. split; [vm_compute; reflexivity|]. vm_compute. split_and!; reflexivity. Qed.

Lemma whole_run_witness :
  ∃ d x', @full_rounds sample_repr sample_sha sample_reports sample_writers sample_faults sample_zones
            sample_config false "pod" "v" 0 hourly (λ _, sample_surroundings) 0 d morning = Ok x'
    ∧ ∃ j', q_rows (w_queue (n_worker x')) !! 1 = Some j' ∧ (j_status j' = Done ∨ j_status j' = Failed).
Proof.
  destruct (@whole_run sample_repr sample_sha sample_reports sample_writers sample_faults sample_zones
              sample_config "pod" "v" 0 hourly (λ _, sample_surroundings) 0 morning (λ _, eq_refl) hourly_diverging
              sample_named two_jobs_idle) as (d & x' & Hr & Hdom & Hall).
  exists d, x'. split; [exact Hr|].
  destruct (q_rows (w_queue (n_worker x')) !! 1) as [j'|] eqn:Hj'.
  - exists j'. split; [reflexivity|exact (proj1 (Hall 1 j' Hj'))].
  - exfalso. destruct (proj2 (Hdom 1)) as [j' Hj]; [|congruence].
    cbn [morning n_worker waiting_worker w_queue]. vm_compute. eexists. reflexivity.
Defined.

Lemma done_job_landed_witness :
  ∃ j' out, q_rows (w_queue (n_worker after_first_turn)) !! 1 = Some j' ∧ j_result j' = Some out
    ∧ @landed sample_reports sample_writers sample_zones sample_surroundings (strip (j_kind j')) (j_payload j')
        recent_world (n_world after_first_turn) out.
Proof.
  destruct first_turn_done as (j' & Hj' & Hst & _).
  destruct (@done_job_landed sample_repr sample_sha sample_reports sample_writers sample_faults sample_zones
              sample_config false "pod" "v" 0 sample_tick sample_surroundings morning after_first_turn 1 j'
              two_jobs_ok sample_named first_turn_ok Hj' Hst) as (out & Hout & Hl).
  - cbn [morning n_worker waiting_worker w_queue]. intros Hj. revert Hst.
    vm_compute in Hj. injection Hj as <-. discriminate.
  - exists j', out. exact (conj Hj' (conj Hout Hl)).
Defined.

(** The jobs' own connection is refused, turn after turn. *)
Definition refused_surroundings : surroundings :=
  mkSurroundings None true sample_env sample_golden 20601 (mkRunDb None None 0 (Some (Exn OperationalError "connection refused")) None).
Definition scheduled_config : worker_config := mkWorkerConfig 7200 600 default_policy 12 2700 deployed_schedule.

Lemma refused_never_throttled k x :
  ¬ @throttled sample_repr sample_sha sample_reports sample_writers sample_faults sample_zones
      scheduled_config true "pod" "v" 0 k refused_surroundings x.
Proof.
  intros (c & w1 & e & w' & _ & Hrun & Hcls). unfold run_job in Hrun. cbn [refused_surroundings su_db rd_connect] in Hrun.
  unfold dispatch in Hrun. destruct (handler _); cbn [unless] in Hrun;
    injection Hrun as <- _; vm_compute in Hcls; discriminate Hcls.
Qed.

Lemma steady_run_witness :
  ∃ y, @full_rounds sample_repr sample_sha sample_reports sample_writers sample_faults sample_zones
         scheduled_config true "pod" "v" 0 hourly (λ _, refused_surroundings) 0 5 morning = Ok y
    ∧ ∃ d' z, @full_rounds sample_repr sample_sha sample_reports sample_writers sample_faults sample_zones
         scheduled_config true "pod" "v" 0 hourly (λ _, refused_surroundings) 5 d' y = Ok z
    ∧ ∀ i, is_Some (q_rows (w_queue (n_worker y)) !! i) →
        ∃ j, q_rows (w_queue (n_worker z)) !! i = Some j ∧ (j_status j = Done ∨ j_status j = Failed).
Proof.
  destruct (@steady_run sample_repr sample_sha sample_reports sample_writers sample_faults sample_zones
              scheduled_config true "pod" "v" 0 hourly (λ _, refused_surroundings) 0 morning 0
              (λ _, eq_refl) hourly_diverging sample_named two_jobs_idle (λ _ _ _ _, refused_never_throttled _ _) 5)
    as (y & Hy & d' & z & Hz & Hall).
  exists y. split; [exact Hy|]. exists d', z. split; [exact Hz|]. intros i Hi.
  destruct (Hall i Hi) as (j & Hj & Hst & _). exists j. exact (conj Hj Hst).
Defined.
