(* ===== verification/Life.v ===== *)
(** * Which jobs a life of the worker marks done

    The process of [Outage], others at work around it: a row that becomes done in a turn is
    that of the job the turn dispatched, and holds what the dispatch answered. *)
From S2P Require Import Prelude Pytext PyVal Json Retry JobQueue Pytime Ddl Handlers Cron Schedule Worker Progress.
From S2P Require Import Steady Outage System.

(** ** What may happen to the rows *)

(** Rows keep their kind and payload and their ids, and a queued row is done only if it was,
    or [own] allows it. *)
Record to_rows (own : Z → job → Prop) (q q' : queue) : Prop := mkToRows {
  to_ok : queue_ok q';
  to_next : q_next q ≤ q_next q';
  to_same : ∀ i j', q_rows q' !! i = Some j' →
    q_next q ≤ i ∨ ∃ j, q_rows q !! i = Some j ∧ j_kind j' = j_kind j ∧ j_payload j' = j_payload j;
  to_done : ∀ i j', q_rows q' !! i = Some j' → j_status j' = Done → is_Some (j_hash j') → q_rows q !! i = Some j' ∨ own i j'
}.
Definition moved (own : Z → job → Prop) (q q' : queue) : Prop := queue_ok q → to_rows own q q'.
#[export] Instance moved_preorder own : PreOrder (moved own).
Proof.
  split; [intros q Hq; by split; [|done|right; eexists|left]|].
  intros q1 q2 q3 H12 H23 Hq1. destruct (H12 Hq1) as [Hq2 Hn Hs Hd]. destruct (H23 Hq2) as [Hq3 Hn' Hs' Hd']. split; [done|lia|..].
  - intros i j3 Hj3. destruct (Hs' i j3 Hj3) as [?|(j2 & Hj2 & -> & ->)]; [left; lia|]. by apply Hs.
  - intros i j3 Hj3 Hst Hh. destruct (Hd' i j3 Hj3 Hst Hh) as [Hj2|?]; [by apply Hd|by right].
Qed.

Lemma moved_weaken (own own' : Z → job → Prop) q q' : (∀ i j, own i j → own' i j) → moved own q q' → moved own' q q'.
Proof. intros Hown Hm Hq. destruct (Hm Hq) as [? ? ? Hd]. split; [done..|]. intros i j' Hj' Hst Hh. destruct (Hd i j' Hj' Hst Hh); auto. Qed.

(** Nothing becomes done. *)
Notation none_done := (λ (_ : Z) (_ : job), False).

Lemma moved_kept own q q' :
  (queue_ok q → queue_ok q') → q_next q' = q_next q →
  (∀ i j', q_rows q' !! i = Some j' → ∃ j, q_rows q !! i = Some j ∧ j_kind j' = j_kind j ∧ j_payload j' = j_payload j) →
  kept_done q q' → moved own q q'.
Proof. intros Hok Hn Hs Hk Hq. split; [by apply Hok|by rewrite Hn|intros i j' Hj'; right; by apply Hs|intros i j' Hj' Hst _; left; by apply Hk]. Qed.

Lemma moved_where own q cond f :
  (queue_ok q → queue_ok (update_where q cond f).2) → (∀ j, j_kind (f j) = j_kind j ∧ j_payload (f j) = j_payload j) →
  kept_done q (update_where q cond f).2 → moved own q (update_where q cond f).2.
Proof.
  intros Hok Hf Hk. apply moved_kept; [done|done| |done]. intros i j'. rewrite update_where_lookup.
  intros (j & Hj & ->)%fmap_Some. exists j. split; [done|]. destruct (cond j); [apply Hf|done].
Qed.

(** A row updated. *)
Lemma moved_update own q k f q' :
  (queue_ok q → queue_ok q') → update_row q k f = Ok q' → (∀ j, j_kind (f j) = j_kind j ∧ j_payload (f j) = j_payload j) →
  (∀ j, q_rows q !! k = Some j → j_status (f j) = Done → is_Some (j_hash (f j)) → own k (f j)) → moved own q q'.
Proof.
  intros Hok Hu Hf Hown. apply update_row_inv in Hu as [[-> _]|(j & Hj & _ & ->)]; [reflexivity|].
  intros Hq. split; [by apply Hok|done|..]; cbn [q_rows]; intros i j' [[<- <-]|[_ Hj']]%lookup_insert_Some.
  - right. exists j. by split; [|apply Hf].
  - right. by exists j'.
  - intros Hst Hh. right. by apply Hown.
  - by left.
Qed.

(** A row inserted, under a new id. *)
Lemma moved_insert own q j n :
  (queue_ok q → queue_ok (mkQueue (<[q_next q := j]> (q_rows q)) n)) → q_next q ≤ n → j_status j ≠ Done →
  moved own q (mkQueue (<[q_next q := j]> (q_rows q)) n).
Proof.
  intros Hok Hn Hst Hq. split; [by apply Hok|done|..]; cbn [q_rows]; intros i j' [[<- <-]|[_ Hj']]%lookup_insert_Some.
  - by left.
  - right. by exists j'.
  - done.
  - by left.
Qed.

(** Rows gone. *)
Lemma moved_subset own q q' : (queue_ok q → queue_ok q') → q_next q ≤ q_next q' → q_rows q' ⊆ q_rows q → moved own q q'.
Proof.
  intros Hok Hn Hsub Hq. split; [by apply Hok|done|..]; intros i j' Hj'; pose proof (lookup_weaken _ _ _ _ Hj' Hsub); [right|left; done].
  by exists j'.
Qed.

(** No client makes a queued job done, or changes what one asks for. *)
Lemma client_step_moved `{PyRepr, Sha256} own q q' : client_step q q' → moved own q q'.
Proof.
  intros Hstep. pose proof (λ Hq, proj1 (client_step_ok q q' Hstep Hq)) as Hok.
  destruct Hstep as [t kind payload prio maxa hp q r q' Hi|t kind payload q k q' Hi
    |t k j v q q' Hj Hnone Hv Hm|now t k force q|t days keep q n q' Ht].
  - apply insert_job_inv in Hi as [(_ & _ & ->)|(_ & _ & ->)]; [|by apply moved_insert; [|lia|]].
    apply moved_subset; [done|cbn; lia|done].
  - unfold insert_manual_job in Hi. case_decide; [done|]. injection Hi as _ <-. by apply moved_insert; [|lia|].
  - assert (∃ f, update_row q k f = Ok q'
      ∧ ∀ j, j_kind (f j) = j_kind j ∧ j_payload (f j) = j_payload j ∧ j_hash (f j) = j_hash j) as (f & Hf & Hsame)
      by (destruct v; by eexists).
    eapply moved_update; [done|exact Hf| |]; intros j0; destruct (Hsame j0) as (? & ? & Hh); [done|].
    rewrite Hj. intros [= <-] _ [? Hs]. congruence.
  - revert Hok. unfold run_job_now. destruct (run_now_check _ _ _); [|done..]. cbn [snd]. intros Hok.
    apply moved_where; [done|done|]. intros i j'. rewrite update_where_lookup. intros (j & -> & ->)%fmap_Some.
    destruct (bool_decide (j_status j = Pending)) eqn:Hp; [|by rewrite andb_false_r].
    apply bool_decide_eq_true in Hp. destruct (_ && _); cbn; by rewrite Hp.
  - apply moved_subset; [done|..]; unfold trim_old_jobs in Ht; case_match; try done; injection Ht as _ <-; cbn; [lia|].
    etrans; [apply delete_ids_subset|apply map_filter_subseteq].
Qed.

Lemma clients_moved `{PyRepr, Sha256} own q q' : rtc client_step q q' → moved own q q'.
Proof. intros Hsteps. induction Hsteps as [q|q q1 q2 Hs _ IH]; [reflexivity|]. etrans; [by apply client_step_moved|exact IH]. Qed.

(** ** What a computation of the process does to the rows *)

Section holds.
Context `{PyRepr, Sha256} {E : Type} (own : Z → job → Prop) (o : outages E) (Ho : orderly o).
Notation queue_of p := (tb_queue (p_shared p).1).

(** Every run of [m] relates the job table before to the one after. *)
Definition holds {A} (m : proc E A) : Prop := ∀ p r p', m p = (r, p') → moved own (queue_of p) (queue_of p').

Lemma holds_ret {A} (a : A) : holds (mret a).
Proof. intros p r p' [= _ <-]. reflexivity. Qed.
Lemma holds_bind {A B} (m : proc E A) (f : A → proc E B) : holds m → (∀ a, holds (f a)) → holds (m ≫= f).
Proof.
  intros Hm Hf p r p'. unfold mbind, proc_bind. destruct (m p) as [[a|e] p1] eqn:Em; specialize (Hm _ _ _ Em).
  - intros Hr. etrans; [exact Hm|by eapply Hf].
  - by intros [= _ <-].
Qed.
Lemma holds_modify f : (∀ p, queue_of (f p) = queue_of p) → holds (modify f).
Proof. intros Hf p r p' [= _ <-]. rewrite Hf. reflexivity. Qed.
Lemma holds_get : holds get_process.
Proof. intros p r p' [= _ <-]. reflexivity. Qed.
Lemma holds_kill s : holds (kill o s).
Proof. intros p r p'. unfold kill. case_decide; intros [= _ <-]; reflexivity. Qed.
Lemma holds_swallow {A} (m : proc E A) : holds m → holds (swallow m).
Proof. intros Hm p r p'. unfold swallow. destruct (m p) as [[a|e] p1] eqn:Em; specialize (Hm _ _ _ Em); by intros [= _ <-]. Qed.
Lemma holds_if {A} (b : bool) (m1 m2 : proc E A) : holds m1 → holds m2 → holds (if b then m1 else m2).
Proof. by destruct b. Qed.

Lemma meanwhile_moved st i s : moved own (tb_queue s.1) (tb_queue (o_meanwhile o st i s).1).
Proof. apply clients_moved, Ho. Qed.

Lemma among_moved {A} st (op : Z → tables → res A * tables) i s r tb' e' :
  among o st op i s = (r, (tb', e')) → ∃ tb, moved own (tb_queue s.1) (tb_queue tb) ∧ op i tb = (r, tb').
Proof.
  unfold among. pose proof (meanwhile_moved st i s) as Hs. destruct (o_meanwhile o st i s) as [tb e].
  destruct (op i tb) as [r0 tb0] eqn:Hop. intros [= <- <- <-]. by exists tb.
Qed.

(** The same of all that is shared. *)
Definition table_moved (s s' : tables * E) : Prop := moved own (tb_queue s.1) (tb_queue s'.1).
#[local] Instance table_moved_preorder : PreOrder table_moved.
Proof. split; [intros s; unfold table_moved; reflexivity|]. intros s1 s2 s3. unfold table_moved. apply transitivity. Qed.

(** However often the call is tried, and whatever the others do between its tries; an answer
    is that of the last try. *)
Lemma db_moved {A} st (op : Z → tables → res A * tables) faults p r p' :
  (∀ i tb, moved own (tb_queue tb) (tb_queue (op i tb).2)) → db o st op faults p = (r, p') →
  moved own (queue_of p) (queue_of p')
  ∧ ∀ a, r = Ok a → ∃ i tb, moved own (queue_of p) (tb_queue tb) ∧ op i tb = (Ok a, (p_shared p').1).
Proof.
  intros Hop. unfold db. destruct (call _ _ _ _) as [[r1 c1] s1] eqn:Hcall. intros [= -> <-]. cbn [p_shared].
  assert (∀ i s, table_moved s (among o st op i s).2) as Hkeep.
  { intros i s. destruct (among o st op i s) as [r0 [tb0 e0]] eqn:Ha. apply among_moved in Ha as (tb & Hs & Ha).
    unfold table_moved. cbn [snd fst]. etrans; [exact Hs|]. specialize (Hop i tb). by rewrite Ha in Hop. }
  split; [by eapply (call_keeps table_moved) in Hcall|]. intros a ->. apply (call_spec table_moved) in Hcall as (s2 & Hsteps & i & Ha); [|done].
  apply rtc_absorbed in Hsteps; [|apply _].
  destruct s1 as [tb1 e1]. apply among_moved in Ha as (tb & Hs & Ha). exists i, tb. split; [|done]. etrans; [exact Hsteps|exact Hs].
Qed.

Lemma holds_db {A} st (op : Z → tables → res A * tables) faults :
  (∀ i tb, moved own (tb_queue tb) (tb_queue (op i tb).2)) → holds (db o st op faults).
Proof. intros Hop p r p' Hr. by eapply db_moved. Qed.

Lemma on_queue_moved {A} (op : Z → queue → res A * queue) i tb :
  (∀ i q, moved own q (op i q).2) → moved own (tb_queue tb) (tb_queue (on_queue op i tb).2).
Proof.
  intros Hop. unfold on_queue, guarded. destruct (jobs_ready _); [|reflexivity].
  specialize (Hop i (tb_queue tb)). by destruct (op i (tb_queue tb)).
Qed.

Lemma holds_queue {A} st (op : Z → queue → res A * queue) faults :
  (∀ i q, moved own q (op i q).2) → holds (db o st (on_queue op) faults).
Proof.
  intros Hop. apply holds_db. intros i tb. by apply on_queue_moved.
Qed.

Lemma holds_heartbeat `{ZoneDb} pod version ks : holds (heartbeat_call pod version ks o).
Proof.
  intros p r p'. unfold heartbeat_call. destruct (db _ _ _ _ p) as [r1 p1] eqn:Hdb. intros [= _ <-]. cbn [p_shared].
  eapply holds_db; [|exact Hdb]. intros i tb. unfold on_beats. destruct (guarded _ _ _ _). reflexivity.
Qed.
End holds.

Create HintDb holds.

Ltac holds :=
  repeat first
    [ match goal with |- forall _, _ => intros ? end
    | apply holds_bind | apply holds_get | apply holds_kill | apply holds_swallow | apply holds_if
    | (apply holds_heartbeat; assumption) | apply holds_ret | (apply holds_modify; done) | solve [eauto with holds] ].

(** ** Which rows a turn marks done *)

Section done.
Context `{PyRepr, Sha256, ZoneDb} {E : Type} (cfg : worker_config) (on : bool) (pod version : string).
Context (ks : Z → tick_clock) (o : outages E) (Ho : orderly o) (dispatch : dispatcher E).
Notation queue_of p := (tb_queue (p_shared p).1).

Lemma holds_reclaim own faults : holds own (db o AtReclaim (on_queue (reclaim_op cfg ks)) faults).
Proof.
  apply holds_queue; [done|]. intros i q. unfold reclaim_op.
  assert (moved own q (reclaim_stale_running (tk_reclaim (ks i)) (wc_stale_sec cfg) (wc_requeue_sec cfg) q).2) as Hm.
  { apply moved_where; [apply reclaim_ok| |apply reclaim_kept]. done. }
  by destruct (reclaim_stale_running _ _ _ q).
Qed.

Lemma holds_catchup own faults : holds own (db o AtCatchup (on_queue (catchup_op cfg ks o)) faults).
Proof.
  apply holds_queue; [done|]. intros i q. unfold catchup_op. cbn zeta. destruct (missed_slots _ _ _ _) as [ms|]; [|reflexivity].
  destruct (o_cut o i) as [[n e]|]; destruct (enqueue_missed _ _ _ _ 0 q) as [r q'] eqn:He;
    apply clients_moved; by eapply enqueue_missed_steps.
Qed.

#[local] Hint Resolve holds_reclaim holds_catchup : holds.

Lemma holds_idle own : holds own (idle_turn cfg on pod version ks o).
Proof. unfold idle_turn. holds. Qed.

(** The row of [c], holding its answer [r]. *)
Definition row_of (c : claimed) (r : res (pydict * gmap string freshness)) (i : Z) (j' : job) : Prop :=
  i = c_id c ∧ ∃ out fresh, r = Ok (out, fresh) ∧ j_result j' = Some out.

Lemma holds_mark c r faults :
  holds (row_of c r) (db o AtMark (on_queue (mark_op ks (c_id c) (judge (wc_policy cfg) c (fst <$> r)))) faults).
Proof.
  apply holds_queue; [done|]. intros i q. unfold mark_op, lift_op.
  destruct (mark _ _ _ q) as [q1|] eqn:Hm; cbn [fmap res_fmap snd]; [|reflexivity].
  assert (queue_ok q → queue_ok q1) as Hok.
  { intros Hq. destruct (mark_row (tk_mark (ks i)) (c_id c) (judge (wc_policy cfg) c (fst <$> r))) as (f & Hf & Hid). rewrite Hf in Hm.
    eapply update_row_ok; [exact Hq| |exact Hm]. apply Hid. }
  apply mark_judged in Hm as (f & Hf & Hsame & Hdone). eapply moved_update; [exact Hok|exact Hf|exact Hsame|].
  intros j _ Hst _. destruct (Hdone j Hst) as (out & fresh & -> & ->). split; [done|]. by exists out, fresh.
Qed.

Lemma holds_defer own jid d faults : holds own (db o AtDefer (on_queue (defer_op ks jid d)) faults).
Proof.
  apply holds_queue; [done|]. intros i q. unfold defer_op. cbn [snd].
  apply moved_where; [apply defer_ok|done|apply defer_kept].
Qed.

#[local] Hint Resolve holds_mark holds_defer : holds.

Lemma holds_finish c r : holds (row_of c r) (finish_turn cfg pod version ks o c (fst <$> r)).
Proof.
  unfold finish_turn. cbn zeta. holds.
  - destruct (cooldown _) as [d|]; holds.
  - apply holds_modify. intros p. apply record_outcome_queue.
Qed.

(** A claim, however often it is tried: nothing becomes done, and the row holds what it asks
    for. *)
Definition claimed_row (q : queue) (c : claimed) : Prop :=
  c_id c < q_next q ∧ ∀ j, q_rows q !! c_id c = Some j → j_kind j = c_kind c ∧ j_payload j = c_payload c.

Lemma claim_op_moved own i q : moved own q (claim_op ks i q).2 ∧
  (queue_ok q → ∀ c, (claim_op ks i q).1 = Ok (Some c) → claimed_row (claim_op ks i q).2 c).
Proof.
  unfold claim_op, lift_op. destruct (claim_next _ _ _ q) as [[job q']|] eqn:Hc; [|by split; [reflexivity|]]. cbn [fst snd].
  pose proof (λ Hq, claim_next_ok _ _ _ _ _ _ Hq Hc) as Hok. pose proof Hc as [(-> & -> & _)|(j & _ & -> & _ & Hu)]%claim_next_inv;
    [by split; [reflexivity|]|].
  split; [eapply moved_update; [exact Hok|exact Hu|done|done]|]. intros Hq c [= <-].
  apply (claim_some _ _ _ _ _ _ Hq) in Hc as (j0 & Hj0 & _ & Ec & ->). cbn [c_id] in *. split; cbn [q_next q_rows].
  - by eapply (ok_seq _ Hq).
  - intros j'. rewrite lookup_insert_eq. intros [= <-]. by injection Ec.
Qed.

Lemma claim_call_spec own p r p' :
  claim_call ks o p = (r, p') →
  moved own (queue_of p) (queue_of p') ∧ (queue_ok (queue_of p) → ∀ c, r = Ok (Some c) → claimed_row (queue_of p') c).
Proof.
  unfold claim_call. destruct (_ && _); [intros [= <- <-]; by split; [reflexivity|]|]. intros Hr.
  apply (db_moved own) in Hr as [Hm Hans]; [|done|intros i tb; apply on_queue_moved; intros i' q; apply claim_op_moved].
  split; [exact Hm|]. intros Hq c ->. destruct (Hans _ eq_refl) as (i & tb & Htb & Hop). destruct (Htb Hq) as [Hok _ _ _].
  unfold on_queue, guarded in Hop. destruct (jobs_ready _); [|done].
  destruct (claim_op_moved own i (tb_queue tb)) as [_ Hc]. destruct (claim_op ks i (tb_queue tb)) as [r1 q1]. injection Hop as -> Htb1.
  rewrite <-Htb1. by apply Hc.
Qed.

Lemma busy_done c p r p' i j' :
  queue_ok (queue_of p) → claimed_row (queue_of p) c → busy_turn cfg pod version ks o dispatch c p = (r, p') →
  q_rows (queue_of p') !! i = Some j' → j_status j' = Done → is_Some (j_hash j') →
  q_rows (queue_of p) !! i = Some j'
  ∨ o_kill o ≠ Some AtDispatch ∧ ∃ tb e out fresh e',
      o_meanwhile o AtDispatch 0 (p_shared p) = (tb, e) ∧ di_run dispatch c (tb_fresh tb) e = (Ok (out, fresh), e')
      ∧ j_result j' = Some out ∧ j_kind j' = c_kind c ∧ j_payload j' = c_payload c.
Proof.
  intros Hp [Hlt Hrow]. unfold busy_turn, mbind, proc_bind, modify, dispatch_call. cbn [p_shared on_counts Outage.set_idle].
  pose proof (meanwhile_moved (row_of c (Raise killed)) o Ho AtDispatch 0 (p_shared p)) as Hs.
  destruct (o_meanwhile o AtDispatch 0 (p_shared p)) as [tb e] eqn:Ho1. cbn [fst] in Hs. case_decide as Hk.
  { intros [= <- <-] Hj' Hst Hh. left. cbn [share p_shared fst] in Hj'.
    by destruct (to_done _ _ _ (Hs Hp) i j' Hj' Hst Hh) as [?|(_ & ? & ? & ? & _)]. }
  destruct (di_run dispatch c (tb_fresh tb) e) as [r0 e0] eqn:Hd. intros Hr Hj' Hst Hh.
  assert (moved (row_of c r0) (queue_of p) (queue_of p')) as Hm.
  { apply holds_finish in Hr. etrans; [apply (moved_weaken (row_of c (Raise killed))); [|exact Hs]|].
    - by intros ? ? (_ & ? & ? & ? & _).
    - cbn [share p_shared] in Hr. by destruct r0 as [[? ?]|]. }
  destruct (Hm Hp) as [_ _ Hsame Hdone]. destruct (Hdone i j' Hj' Hst Hh) as [?|(-> & out & fresh & -> & Hres)]; [by left|right].
  split; [done|]. exists tb, e, out, fresh, e0. destruct (Hsame _ _ Hj') as [?|(j & Hj & -> & ->)]; [lia|].
  destruct (Hrow j Hj) as [-> ->]. by split_and!.
Qed.

(** A row one turn makes done is that of the job it dispatched, and the dispatch got to a
    result. *)
Lemma turn_done p r p' i j' :
  queue_ok (queue_of p) → turn cfg on pod version ks o dispatch p = (r, p') →
  q_rows (queue_of p') !! i = Some j' → j_status j' = Done → is_Some (j_hash j') →
  q_rows (queue_of p) !! i = Some j'
  ∨ ∃ c tb e out fresh e', at_dispatch ks o p = Some (c, (tb, e)) ∧ di_run dispatch c (tb_fresh tb) e = (Ok (out, fresh), e')
      ∧ j_result j' = Some out ∧ j_kind j' = c_kind c ∧ j_payload j' = c_payload c.
Proof.
  intros Hp. unfold turn, at_dispatch. unfold mbind, proc_bind. unfold kill at 1 2. case_decide as Hk; [intros [= <- <-]; by left|].
  destruct (claim_call ks o p) as [[job|e] p1] eqn:Hc; destruct (claim_call_spec none_done _ _ _ Hc) as (Hm & Hrow);
    destruct (Hm Hp) as [Hp1 _ _ Hkept]; [|intros [= <- <-] Hj' Hst Hh; left; by destruct (Hkept i j' Hj' Hst Hh)].
  cbn. destruct job as [c|]; intros Hr Hj' Hst Hh.
  - apply (busy_done c _ _ _ i j') in Hr as [Hold|(Hnk & tb & e & out & fresh & e' & Hat & Hrun & Hrest)];
      [left; by destruct (Hkept i j' Hold Hst Hh)| |done|by apply Hrow|done..].
    right. rewrite decide_False by done. exists c, tb, e, out, fresh, e'. cbn [p_shared on_counts] in Hat. by rewrite Hat.
  - left. apply (holds_idle none_done) in Hr. destruct (Hr Hp1) as [_ _ _ Hdone].
    destruct (Hdone i j' Hj' Hst Hh) as [Hold|[]]. by destruct (Hkept i j' Hold Hst Hh).
Qed.

Lemma startup_moved own s r p : startup cfg pod version ks o (new_process ks s) = (r, p) → moved own (tb_queue s.1) (queue_of p).
Proof.
  intros Hr. assert (holds own (startup cfg pod version ks o)) as Hs; [|by apply Hs in Hr].
  unfold startup. holds. intros p1 r1 p2. unfold ensure_call. destruct (call _ _ _ _) as [[r0 c] x] eqn:Hcall. intros [= _ <-].
  cbn [p_shared]. assert (PreOrder (λ x x' : tables * E * bool, table_moved own x.1 x'.1)) as HR.
  { split; [intros [? ?]; unfold table_moved; reflexivity|]. intros [? ?] [? ?] [? ?]. unfold table_moved. apply transitivity. }
  apply (call_keeps (λ x x', table_moved own x.1 x'.1)) in Hcall; [exact Hcall|]. intros i [s0 b]. cbn [fst snd].
  pose proof (meanwhile_moved own o Ho AtEnsure i s0) as Hm. destruct (o_meanwhile o AtEnsure i s0) as [tb e].
  by destruct (ensure_op _ _ _) as [r2 [sc mig]].
Qed.

(** The same of a turn or a start. *)
Lemma live_done x i j' :
  let x' := live cfg on pod version ks o dispatch x in
  queue_ok (queue_in x) → q_rows (queue_in x') !! i = Some j' → j_status j' = Done → is_Some (j_hash j') →
  q_rows (queue_in x) !! i = Some j'
  ∨ ∃ c tb e out fresh e', dispatched ks o x = Some (c, (tb, e)) ∧ di_run dispatch c (tb_fresh tb) e = (Ok (out, fresh), e')
      ∧ j_result j' = Some out ∧ j_kind j' = c_kind c ∧ j_payload j' = c_payload c.
Proof.
  cbn zeta. unfold live, queue_in. intros Hx Hj' Hst Hh. destruct x as [p|s]; cbn [shared_in dispatched] in *.
  - destruct (turn _ _ _ _ _ _ _ p) as [r p'] eqn:Hr. eapply turn_done; [exact Hx|exact Hr| |done|done]. by destruct r.
  - left. destruct (startup _ _ _ _ _ _) as [r p'] eqn:Hr. apply (startup_moved none_done) in Hr.
    destruct (Hr Hx) as [_ _ _ Hd]. by destruct r; destruct (Hd i j' Hj' Hst Hh).
Qed.
End done.
