(* ===== verification/App.v ===== *)
(** * The API as a whole ([api/app.py], [api/deps.py])

    Every route of the application behind its guard and its connection, as a step from what
    the service keeps to the next: the database, and in the API's process the migration flag
    and the request metrics. A request is its validated parameters. *)
From S2P Require Import Prelude Pytext PyVal Json Retry JobQueue Pytime Ddl FlexClient Handlers ConfigRw Summary Ingest Coverage.
From S2P Require Import Transactions Trades Cron Schedule Diagnose OpsCheck HttpMetrics Config SlotCli Manual Metrics Dashboard Routes RawPeek.
From S2P Require Import Worker Outage System.

(** What the service keeps. *)
Record site := mkSite {
  si_tables : tables; si_golden : golden; si_world : world; si_migrated : bool; si_http : HttpMetrics
}.

Definition site_queue (s : site) : queue := tb_queue (si_tables s).
Definition with_tables (f : tables → tables) (s : site) : site :=
  mkSite (f (si_tables s)) (si_golden s) (si_world s) (si_migrated s) (si_http s).
Definition with_queue (q : queue) : site → site := with_tables (set_queue q).
Definition with_trail (st : trail) : site → site :=
  with_tables (λ tb, set_queue (tr_queue st) (set_fresh (tr_fresh st) tb)).
Definition with_schema (x : schema * bool) (s : site) : site :=
  mkSite (set_schema x.1 (si_tables s)) (si_golden s) (si_world s) x.2 (si_http s).
Definition with_golden (g : golden) (s : site) : site := mkSite (si_tables s) g (si_world s) (si_migrated s) (si_http s).
Definition with_world (w : world) (s : site) : site := mkSite (si_tables s) (si_golden s) w (si_migrated s) (si_http s).
Definition with_http (m : HttpMetrics) (s : site) : site := mkSite (si_tables s) (si_golden s) (si_world s) (si_migrated s) m.

(** What a request meets: the process's files and environment, how the connection, the
    migrations, their commit and the route's own statements go, the clocks of the API
    ([mo_now], [mo_clock]) and of the database ([mo_t0] to [mo_t2]), the day, the
    surroundings of a fetch, and what else the routes read. *)
Record moment := mkMoment {
  mo_process : Process; mo_connect : option exn; mo_migrate : option exn; mo_commit : option exn; mo_statement : option exn;
  mo_now : Z; mo_clock : nat → Z; mo_t0 : Z; mo_t1 : Z; mo_t2 : Z; mo_today : string;
  mo_around : surroundings; mo_parse : string → res (list row); mo_trail : TrailFaults; mo_open : res (); mo_write : res ();
  mo_exec_time : res (option Z); mo_ts : res (option Z); mo_coverage : option exn;
  mo_count : string → res Z; mo_latest : string → string → res (option Z);
  mo_executions : res (option Z * Z); mo_transactions : res (option Z * Z);
  mo_settings : option exn; mo_rows : option exn; mo_peek : string → Z → res (list fetched_row); mo_elapsed : float
}.

(** ** Requests and routes *)

Inductive request :=
| GetHealth | GetKinds
| PostEnqueue (body : pydict)
| GetJobs (status kind : option string) (limit : Z)
| GetQueueSummary
| PostRunNow (job_id : Z) (force : bool)
| GetQueueDashboard | GetDbSummary | GetFreshness | GetFreshnessKpis | GetConfigSummary
| PostConfigWrite (body : option pydict)
| GetRawPeek (table : string) (limit : Z)
| PostTrigger (body : option pydict)
| PostUpload (body : pydict)
| GetMetrics | GetCheck.

(** Method and path of a route, as [create_app] registers it. *)
Definition route (rq : request) : string * string :=
  match rq with
  | GetHealth => ("GET", "/health")
  | GetKinds => ("GET", "/flex/ingest/kinds")
  | PostEnqueue _ => ("POST", "/flex/ingest/enqueue")
  | GetJobs _ _ _ => ("GET", "/flex/ingest/jobs")
  | GetQueueSummary => ("GET", "/flex/ingest/queue-summary")
  | PostRunNow _ _ => ("POST", "/flex/ingest/jobs/{job_id}/run-now")
  | GetQueueDashboard => ("GET", "/flex/ingest/queue-dashboard")
  | GetDbSummary => ("GET", "/flex/coverage/db-summary")
  | GetFreshness => ("GET", "/flex/coverage/freshness")
  | GetFreshnessKpis => ("GET", "/flex/dashboard/freshness-kpis")
  | GetConfigSummary => ("GET", "/flex/config/summary")
  | PostConfigWrite _ => ("POST", "/flex/config/write")
  | GetRawPeek _ _ => ("GET", "/flex/coverage/raw-peek")
  | PostTrigger _ => ("POST", "/flex/ingest/trigger")
  | PostUpload _ => ("POST", "/flex/ingest/upload-xml")
  | GetMetrics => ("GET", "/metrics")
  | GetCheck => ("GET", "/flex/ops/check")
  end.

(** [dependencies=[Depends(..)]]. *)
Inductive guard := Open | WriteToken | ConfigIdentity.
#[export] Instance guard_eq_dec : EqDecision guard.
Proof. solve_decision. Defined.
Definition guard_of (rq : request) : guard :=
  match rq with
  | PostEnqueue _ | PostRunNow _ _ | PostTrigger _ | PostUpload _ => WriteToken
  | PostConfigWrite _ => ConfigIdentity
  | _ => Open
  end.

(** [conn: Any = Depends(db_conn)]. *)
Definition needs_db (rq : request) : bool :=
  match rq with GetHealth | GetKinds | PostConfigWrite _ => false | _ => true end.

(** What a route answers with a 200. *)
Inductive body :=
| BHealth (service : string) | BKinds (kinds slots : list string) | BEnqueued (r : slot_result) | BJobs (jobs : list job)
| BCounts (counts : list (string * Z)) | BRunNow (job_id : Z) (kind : string) (was_not_before : option string)
| BBoard (b : queue_board) | BTables (l : list table_row) | BDimensions (l : list (string * option Z * option Z * Z))
| BKpis (k : kpis) | BConfig (s : summary)
| BWritten (accounts : option (list account)) (default_days init_days : option Z)
| BPeek (table : string) (row_count : Z) (columns : list string) (rows : list (list pyval))
| BRun (result : pydict) | BText (text : string) | BCheck (d : diagnosis).

(** Why a route does not: an [HTTPException], a validation error of the framework (422), or an
    exception that escapes it (500). *)
Inductive halt := HttpError (status : Z) (detail : string) | Invalid | Escaped (e : exn).

(** ** Computations of a route *)

Definition web (A : Type) : Type := site → (halt + A) * site.
#[export] Instance web_ret : MRet web := λ _ a s, (inr a, s).
#[export] Instance web_bind : MBind web := λ _ _ f m s,
  match m s with (inr a, s') => f a s' | (inl h, s') => (inl h, s') end.

Definition halt_with {A} (h : halt) : web A := λ s, (inl h, s).
Definition http_error {A} (status : Z) (detail : string) : web A := halt_with (HttpError status detail).
Definition attempt {A} (r : res A) : web A := λ s, (match r with Ok a => inr a | Raise e => inl (Escaped e) end, s).
Definition view {A} (f : site → A) : web A := λ s, (inr (f s), s).
Definition update (f : site → site) : web () := λ s, (inr (), f s).

(** ** Dependencies *)

Section app.
Context `{PyRepr, Sha256, ZoneDb, ZoneNames, ExnNames, Collation, FloatRepr, Reports, CoreWriters, RunContext}.
Context (version : string) (m : moment).

Definition config : res pydict := load_config (H := mo_process m) None.
Definition schedule : res pydict := load_schedule (H := mo_process m) None.
Definition connect_args : res connect_kwargs := config ≫= postgres_connect_kwargs (H := mo_process m).
Definition write_token : res string := get_write_token (H := mo_process m).

(** Whether the guard of the route lets these headers through. *)
Definition admitted (h : headers) (rq : request) : res bool :=
  match guard_of rq with
  | Open => Ok true
  | WriteToken => expected ← write_token; Ok (require_write_token expected h)
  | ConfigIdentity => expected ← write_token; Ok (require_config_write_identity expected h)
  end.
Definition authorise (h : headers) (rq : request) : web () :=
  ok ← attempt (admitted h rq);
  if ok : bool then mret () else http_error 401 "invalid write token".

(** [db_conn]: only an [OperationalError] is a 503. *)
Definition db_conn : web () :=
  _ ← attempt connect_args;
  match mo_connect m with
  | None => mret ()
  | Some e =>
      if decide (exn_cls e = OperationalError) then http_error 503 ("database unavailable: " +:+ exn_str e)
      else halt_with (Escaped e)
  end.

(** [ensure_flex_ops_schema(conn)]: a statement of it fails, or its commit does, which leaves
    the process's flag set. *)
Definition ensure_schema : web () := λ s,
  match mo_migrate m with
  | Some e => (inl (Escaped e), s)
  | None =>
      let '(r, x) := ensure_op (λ _, mo_commit m) 0 (tb_schema (si_tables s), si_migrated s) in
      (match r with Ok _ => inr () | Raise e => inl (Escaped e) end, with_schema x s)
  end.

(** A statement of the route that nothing catches, on the job table. *)
Definition statement : web () :=
  ready ← view (λ s, jobs_ready (tb_schema (si_tables s)));
  match mo_statement m with
  | Some e => halt_with (Escaped e)
  | None => if ready : bool then mret () else halt_with (Escaped undefined_error)
  end.

(** The tables, as the self-check and the metrics read them. *)
Definition store_of (s : site) : store :=
  let tb := si_tables s in
  mkStore (tb_queue tb) (tb_fresh tb) (tb_beats tb) (w_executions (si_world s)) (w_transactions (si_world s))
    (mo_exec_time m) (mo_ts m) (mo_coverage m).

(** ** The routes *)

Definition enqueue : pydict → web body := λ body,
  if decide (requested_kind body ∉ KINDS ∧ requested_kind body ∉ SLOT_NAMES)
  then http_error 400 ("unknown kind: " +:+ py_repr (PStr (requested_kind body)))
  else
    _ ← ensure_schema;
    sched ← attempt schedule;
    _ ← statement;
    q ← view site_queue;
    let '(r, q') := enqueue_job (mo_today m) (mo_t0 m) sched body q in
    _ ← update (with_queue q');
    a ← attempt r;
    match a with
    | Enqueued r => mret (BEnqueued r)
    | UnknownKind detail => http_error 400 detail
    | Unauthorized => http_error 401 "invalid write token"
    end.

Definition jobs (status kind : option string) (limit : Z) : web body :=
  q ← view site_queue;
  match list_jobs status kind limit q with
  | None => halt_with Invalid
  | Some l => _ ← statement; mret (BJobs l)
  end.

Definition scheduler_section : web pydict :=
  sched ← attempt schedule; attempt (dict_or_empty (dict_get "scheduler" sched)).

Definition run_now (job_id : Z) (force : bool) : web body :=
  _ ← statement;
  q ← view site_queue;
  match q_rows q !! job_id with
  | None => http_error 404 ("job " +:+ str_of_Z job_id +:+ " not found")
  | Some j =>
      if decide (j_status j ≠ Pending)
      then http_error 409 ("job " +:+ str_of_Z job_id +:+ " is " +:+ status_text (j_status j) +:+ ", only a pending job can run now")
      else
        cfg ← scheduler_section;
        let tz := schedule_timezone cfg in
        match run_job_now (mo_now m) (mo_t0 m) job_id force q with
        | (RunNowThrottled, _) =>
            until ← attempt (fmt_local (j_not_before j) tz);
            http_error 409 ("IB throttled this token; a request before " +:+ until +:+ " fails again (force=true overrides)")
        | (_, q') =>
            _ ← update (with_queue q');
            mret (BRunNow job_id (j_kind j) (iso_z (j_not_before j)))
        end
  end.

Definition dashboard : web body :=
  sched ← attempt schedule;
  _ ← statement;
  q ← view site_queue;
  b ← attempt (queue_dashboard sched (mo_now m) q);
  mret (BBoard b).

(** A read that fails, or whose table is missing, shows nothing. *)
Definition freshness_page : web body :=
  tb ← view si_tables;
  mret (BDimensions (freshness_route (
    match mo_statement m with
    | Some e => Raise e
    | None => if has_columns (tb_schema tb) FRESHNESS_TABLE [] then Ok (freshness_rows (tb_fresh tb)) else Raise undefined_error
    end))).

Definition kpis_page : web body :=
  _ ← ensure_schema;
  _ ← statement;
  tb ← view si_tables;
  sched ← attempt schedule;
  k ← attempt (freshness_kpis sched (mo_now m) (mo_clock m) (tb_fresh tb) (tb_queue tb) (mo_executions m) (mo_transactions m));
  mret (BKpis k).

Definition failing {A} (fault : option exn) (a : A) : res A := match fault with Some e => Raise e | None => Ok a end.

Definition config_page : web body :=
  g ← view si_golden;
  match config_summary (su_env (mo_around m)) (mo_now m) (failing (mo_settings m) (get_flex_range_days g))
          (failing (mo_rows m) (select_rows g)) with
  | Summary s => mret (BConfig s)
  | SettingsUnreadable detail => http_error 503 detail
  end.

(** How the transaction of a configuration write goes, apart from its own statements: the
    connection, the migrations if range days are written, the commit. *)
Definition write_session (ranges : bool) : web (res ()) := λ s,
  match mo_open m with
  | Raise e => (inr (Raise e), s)
  | Ok _ =>
      if ranges
      then match ensure_schema s with
           | (inl (Escaped e), s') => (inr (Raise e), s')
           | (_, s') => (inr (mo_write m), s')
           end
      else (inr (mo_write m), s)
  end.

Definition config_write (payload : option pydict) : web body :=
  g ← view si_golden;
  let write session := write_flex_config_endpoint (su_ready (mo_around m)) session (default [] payload) g in
  checked ← attempt (write (Ok ())).1;
  match checked with
  | WriteTokens =>
      http_error 409 ("Flex tokens are not stored by this endpoint. "
                      +:+ "Set them in the K8s Secret bifrost-flex-tokens (make sync-flex-tokens).")
  | WriteEmpty => http_error 400 "empty flex config write"
  | WriteNoAccounts => http_error 400 "accounts must include at least one query_host_id"
  | WriteFailed =>
      _ ← attempt (config ≫= core_config (H := mo_process m));
      http_error 500 "failed to write flex config"
  | WriteOk accounts dd di =>
      _ ← attempt (config ≫= core_config (H := mo_process m));
      session ← write_session (bool_decide (is_Some dd ∨ is_Some di));
      let '(r, g') := write session in
      a ← attempt r;
      match a with
      | WriteOk _ _ _ => _ ← update (with_golden g'); mret (BWritten accounts dd di)
      | _ => http_error 500 "failed to write flex config"
      end
  end.

Definition peek (table : string) (limit : Z) : web body :=
  match raw_peek (mo_peek m) table limit with
  | Peeked table n columns rows => mret (BPeek table n columns rows)
  | PeekFailed detail => http_error 503 detail
  | PeekInvalid => halt_with Invalid
  end.

Definition metrics_page : web body :=
  _ ← ensure_schema;
  _ ← statement;
  sched ← attempt schedule;
  st ← view store_of;
  http ← view si_http;
  text ← attempt (metrics_route version sched (su_env (mo_around m)) (mo_now m) (mo_t0 m) st http);
  mret (BText text).

Definition check_page : web body :=
  _ ← ensure_schema;
  _ ← statement;
  sched ← attempt schedule;
  st ← view store_of;
  d ← attempt (check_route sched config (su_env (mo_around m)) (default "" (environ (Process := mo_process m) "FLEX_CATCHUP_DISABLED"))
                 (mo_now m) (mo_t0 m) st);
  mret (BCheck d).

(** *** The manual runs *)

(** The trail's faults; a failure of the migrations is one of starting it. *)
Definition start_trail : web TrailFaults := λ s,
  match ensure_schema s with
  | (inl (Escaped e), s') => (inr (Build_TrailFaults (Some e) (mark_fault (TrailFaults := mo_trail m)) (fresh_fault (TrailFaults := mo_trail m))), s')
  | (_, s') => (inr (mo_trail m), s')
  end.

Definition trail_in (s : site) : trail := mkTrail (tb_queue (si_tables s)) (tb_fresh (si_tables s)).

(** What the manual route answers, and the trail it left. *)
Definition answered (r : answer * trail) : web body :=
  _ ← update (with_trail r.2);
  match r.1 with
  | Reply d => mret (BRun d)
  | Refused status detail => http_error status detail
  | Crashed e => halt_with (Escaped e)
  end.

Definition core : res pydict := config ≫= core_config (H := mo_process m).

Definition trigger (payload : option pydict) : web body :=
  s ← view id;
  let su := mo_around m in
  let '(raw_kind, rest) := dict_pop "kind" (PStr "trades") (default [] payload) in
  let orch := flex_orchestrations (su_session su) (su_ready su) (su_env su) (si_golden s) (su_today su) (si_world s) in
  match job_kind_of (strip (py_str raw_kind)), core with
  | Some job_kind, Ok _ =>
      faults ← start_trail;
      _ ← update (with_world (world_after (mkSurroundings (su_session su) (su_ready su) (su_env su) (si_golden s)
             (su_today su) (su_db su)) job_kind (dict_setdefault "fallback" (PBool false) rest) (si_world s)));
      st ← view trail_in;
      answered (trigger_flex_fetch (H0 := orch) (H2 := faults) core (mo_t0 m) (mo_t1 m) (mo_t2 m) payload st)
  | _, _ =>
      st ← view trail_in;
      answered (trigger_flex_fetch (H0 := orch) (H2 := mo_trail m) core (mo_t0 m) (mo_t1 m) (mo_t2 m) payload st)
  end.

Definition upload (payload : pydict) : web body :=
  s ← view id;
  let run xml := upsert_executions_from_uploaded_flex_xml (su_ready (mo_around m)) (mo_parse m) xml (si_world s) in
  let xml := strip (py_str (py_or (dict_get "xml" payload) (PStr ""))) in
  let answer faults := upload_flex_xml (H1 := λ xml, (run xml).1) (H2 := faults) core (mo_t0 m) (mo_t1 m) (mo_t2 m) payload in
  match bool_decide (xml = ""), core with
  | false, Ok _ =>
      faults ← start_trail;
      _ ← update (with_world (run xml).2);
      st ← view trail_in;
      answered (answer faults st)
  | _, _ => st ← view trail_in; answered (answer (mo_trail m) st)
  end.

(** ** The application *)

Definition endpoint (rq : request) : web body :=
  match rq with
  | GetHealth => mret (BHealth "flex-query")
  | GetKinds => mret (BKinds list_kinds.1 list_kinds.2)
  | PostEnqueue payload => enqueue payload
  | GetJobs status kind limit => jobs status kind limit
  | GetQueueSummary => _ ← statement; q ← view site_queue; mret (BCounts (queue_summary q))
  | PostRunNow job_id force => run_now job_id force
  | GetQueueDashboard => dashboard
  | GetDbSummary => mret (BTables (db_summary (mo_count m) (mo_latest m)))
  | GetFreshness => freshness_page
  | GetFreshnessKpis => kpis_page
  | GetConfigSummary => config_page
  | PostConfigWrite payload => config_write payload
  | GetRawPeek table limit => peek table limit
  | PostTrigger payload => trigger payload
  | PostUpload payload => upload payload
  | GetMetrics => metrics_page
  | GetCheck => check_page
  end.

(** The guard, the connection, the route: FastAPI solves the decorator's dependencies first. *)
Definition handle (h : headers) (rq : request) : web body :=
  _ ← authorise h rq;
  _ ← (if needs_db rq then db_conn else mret ());
  endpoint rq.

(** The status a client sees. *)
Definition status_of (r : halt + body) : Z :=
  match r with
  | inr _ => 200
  | inl (HttpError status _) => status
  | inl Invalid => 422
  | inl (Escaped _) => 500
  end.

(** The middleware around it: an [HTTPException] is a response when it gets there. *)
Definition serve (h : headers) (rq : request) (s : site) : (halt + body) * site :=
  let '(r, s') := handle h rq s in
  let '(method, path) := route rq in
  let sent := match r with
              | inl (Escaped _) => []
              | _ => [mkMessage "http.response.start" (status_of r) (Some path) (mo_elapsed m);
                      mkMessage "http.response.body" 0 (Some path) (mo_elapsed m)]
              end in
  let out := match r with inl (Escaped _) => Raised (Some path) (mo_elapsed m) | _ => Returned end in
  (r, with_http (middleware "http" method sent out (si_http s')) s').
End app.

(** ** What a request does to the rows *)

(** Every run of [c] relates the site before to the one after. *)
Definition moves (R : relation site) {A} (c : web A) : Prop := ∀ s r s', c s = (r, s') → R s s'.

Section moves.
Context (R : relation site) `{!PreOrder R}.

Lemma moves_ret {A} (a : A) : moves R (mret a).
Proof. by intros s r s' [= _ <-]. Qed.
Lemma moves_bind {A B} (c : web A) (f : A → web B) : moves R c → (∀ a, moves R (f a)) → moves R (c ≫= f).
Proof.
  intros Hc Hf s r s'. unfold mbind, web_bind. destruct (c s) as [[h|a] s1] eqn:E; specialize (Hc _ _ _ E).
  - by intros [= _ <-].
  - intros Hr. etrans; [exact Hc|by eapply Hf].
Qed.
Lemma moves_halt {A} h : moves R (A := A) (halt_with h).
Proof. by intros s r s' [= _ <-]. Qed.
Lemma moves_attempt {A} (r : res A) : moves R (attempt r).
Proof. by intros s r' s' [= _ <-]. Qed.
Lemma moves_view {A} (f : site → A) : moves R (view f).
Proof. by intros s r s' [= _ <-]. Qed.
Lemma moves_if {A} (b : bool) (c1 c2 : web A) : moves R c1 → moves R c2 → moves R (if b then c1 else c2).
Proof. by destruct b. Qed.
Lemma moves_decide {A} (P : Prop) `{Decision P} (c1 c2 : web A) : moves R c1 → moves R c2 → moves R (if decide P then c1 else c2).
Proof. by destruct (decide P). Qed.
End moves.

(** Only the schema may have grown, and the process's flag been set. *)
Record rows_same (s s' : site) : Prop := mkRowsSame {
  same_queue : site_queue s' = site_queue s;
  same_fresh : tb_fresh (si_tables s') = tb_fresh (si_tables s);
  same_beats : tb_beats (si_tables s') = tb_beats (si_tables s);
  same_golden : si_golden s' = si_golden s;
  same_world : si_world s' = si_world s;
  same_http : si_http s' = si_http s;
  more_schema : schema_le (tb_schema (si_tables s)) (tb_schema (si_tables s'))
}.
#[export] Instance rows_same_preorder : PreOrder rows_same.
Proof.
  split; [by intros s; split|]. intros s1 s2 s3 [] []. split; try congruence. by etrans.
Qed.

Create HintDb moves.
Ltac moves :=
  repeat first
    [ match goal with |- forall _, _ => intros ? | |- PreOrder _ => apply _ end
    | apply moves_bind | apply moves_ret | apply moves_halt | apply moves_attempt | apply moves_view
    | apply moves_if | apply moves_decide | solve [eauto with moves]
    | match goal with |- moves _ (match ?x with _ => _ end) => destruct x end ].

Lemma ensure_op_le e i s b r s' b' : ensure_op e i (s, b) = (r, (s', b')) → schema_le s s'.
Proof.
  unfold ensure_op, ensure_flex_ops_schema. cbn [fst snd].
  assert (∀ s1, (if present s <? 2 then fold_res run_ddl s CREATE else Ok s) = Ok s1 → schema_le s s1) as H1.
  { intros s1. destruct (present s <? 2); [by intros [? _]%fold_ddl_spec|by intros [= <-]]. }
  destruct (if present s <? 2 then _ else _) as [s1|]; [|by intros [= _ <- _]]. specialize (H1 _ eq_refl). cbn [mbind res_bind].
  destruct (true && negb b).
  - destruct (fold_res run_ddl s1 MIGRATIONS) as [s2|] eqn:E2; [|by intros [= _ <- _]]. cbn [mbind res_bind].
    apply fold_ddl_spec in E2 as [H2 _]. destruct (e i); intros [= _ <- _]; [done|by etrans].
  - destruct (e i); by intros [= _ <- _].
Qed.

Section rows.
Context `{PyRepr, Sha256, ZoneDb, ZoneNames, ExnNames, Collation, FloatRepr, Reports, CoreWriters, RunContext}.
Context (version : string) (m : moment).

Lemma ensure_moves : moves rows_same (ensure_schema m).
Proof.
  intros s r s'. unfold ensure_schema. destruct (mo_migrate m); [by intros [= _ <-]|].
  destruct (ensure_op _ _ _) as [r0 [sc b]] eqn:E. intros [= _ <-]. by split; try done; eapply ensure_op_le.
Qed.
Lemma statement_moves : moves rows_same (statement m).
Proof. unfold statement. moves. Qed.
Hint Resolve ensure_moves statement_moves : moves.
Lemma section_moves : moves rows_same (scheduler_section m).
Proof. unfold scheduler_section. moves. Qed.
Hint Resolve section_moves : moves.
Lemma authorise_moves h rq : moves rows_same (authorise m h rq).
Proof. unfold authorise, http_error. moves. Qed.
Lemma db_moves : moves rows_same (db_conn m).
Proof. unfold db_conn, http_error. moves. Qed.
Lemma start_trail_moves : moves rows_same (start_trail m).
Proof.
  intros s r s'. unfold start_trail. destruct (ensure_schema m s) as [[[]|] s1] eqn:E; intros [= _ <-]; by eapply ensure_moves.
Qed.
Hint Resolve authorise_moves db_moves start_trail_moves : moves.

(** The routes that change rows. *)
Definition writes (rq : request) : bool := bool_decide (guard_of rq ≠ Open).

Lemma read_moves rq : writes rq = false → moves rows_same (endpoint version m rq).
Proof.
  unfold writes. destruct rq; cbn [guard_of endpoint]; intros Hw; try (by exfalso; revert Hw; rewrite bool_decide_eq_false; auto);
    unfold jobs, dashboard, freshness_page, kpis_page, config_page, peek, metrics_page, check_page, http_error; cbv zeta; moves.
Qed.
End rows.

(** From one site. *)
Definition moves_at (R : relation site) {A} (s : site) (c : web A) : Prop := ∀ r s', c s = (r, s') → R s s'.

Section moves_at.
Context (R : relation site) `{!PreOrder R}.

Lemma at_moves {A} s (c : web A) : moves R c → moves_at R s c.
Proof. intros Hc r s'. apply Hc. Qed.
Lemma at_bind (R0 : relation site) {A B} s (c : web A) (f : A → web B) :
  (∀ s s', R0 s s' → R s s') → moves R0 c → (∀ a s', R0 s s' → moves_at R s' (f a)) → moves_at R s (c ≫= f).
Proof.
  intros H0 Hc Hf r s'. unfold mbind, web_bind. destruct (c s) as [[h|a] s1] eqn:E; specialize (Hc _ _ _ E).
  - intros [= _ <-]. by apply H0.
  - intros Hr. etrans; [by apply H0|by eapply Hf].
Qed.
Lemma at_view {A B} s (f : site → A) (k : A → web B) : moves_at R s (k (f s)) → moves_at R s (view f ≫= k).
Proof. done. Qed.
Lemma at_update {B} s (f : site → site) (k : () → web B) : R s (f s) → moves R (k ()) → moves_at R s (update f ≫= k).
Proof. intros Hf Hk r s' Hr. etrans; [exact Hf|]. by eapply Hk. Qed.
Lemma moves_weaken {A} (R' : relation site) (c : web A) : (∀ s s', R s s' → R' s s') → moves R c → moves R' c.
Proof. intros HR Hc s r s' Hr. by eapply HR, Hc. Qed.
End moves_at.

Section clients.
Context `{PyRepr, Sha256, ZoneDb, ZoneNames, ExnNames, Collation, FloatRepr, Reports, CoreWriters, RunContext}.
Context (version : string) (m : moment).

(** The job table changes as the step relation lets a client change it, the worker's heartbeat
    not at all, and the schema only grows. *)
Record clients (s s' : site) : Prop := mkClients {
  client_steps_to : rtc client_step (site_queue s) (site_queue s');
  client_beats : tb_beats (si_tables s') = tb_beats (si_tables s);
  client_http : si_http s' = si_http s;
  client_schema : schema_le (tb_schema (si_tables s)) (tb_schema (si_tables s'))
}.
#[export] Instance clients_preorder : PreOrder clients.
Proof. split; [by intros s; split; [apply rtc_refl|..]|]. intros s1 s2 s3 [] []. split; try congruence; by etrans. Qed.

Lemma same_clients s s' : rows_same s s' → clients s s'.
Proof. intros [Hq]. split; [by rewrite Hq|done..]. Qed.

Lemma queue_clients q s : rtc client_step (site_queue s) q → clients s (with_queue q s).
Proof. by split. Qed.
Hint Resolve ensure_moves statement_moves section_moves authorise_moves db_moves start_trail_moves : moves.
Lemma weak_moves {A} (c : web A) : moves rows_same c → moves clients c.
Proof. apply moves_weaken, same_clients. Qed.

Lemma enqueue_job_clients today t sched payload q r q' :
  enqueue_job today t sched payload q = (r, q') → rtc client_step q q'.
Proof.
  unfold enqueue_job. cbn zeta. case_decide; [by intros [= _ <-]|].
  destruct (_ ≫= _) as [[r0 q0]|] eqn:E; [|by intros [= _ <-]]. intros [= _ <-].
  apply res_bind_ok in E as (cfg & _ & E). apply res_bind_ok in E as (pl & _ & E).
  apply enqueue_slot_inv in E as (_ & prio & maxa & Hi & _). apply rtc_once. by eapply client_insert.
Qed.

Lemma enqueue_clients payload : moves clients (enqueue m payload).
Proof.
  unfold enqueue, http_error. apply moves_decide; [moves|].
  apply moves_bind; [apply _|apply weak_moves; moves|intros _]. apply moves_bind; [apply _|moves|intros sched].
  apply moves_bind; [apply _|apply weak_moves; moves|intros _].
  intros s. apply at_view. destruct (enqueue_job _ _ _ _ _) as [r q'] eqn:Hr. apply at_update; [apply _| |moves].
  by eapply queue_clients, enqueue_job_clients.
Qed.

Lemma run_now_clients job_id force : moves clients (run_now m job_id force).
Proof.
  unfold run_now, http_error. apply moves_bind; [apply _|apply weak_moves; moves|intros _].
  intros s. apply at_view. destruct (q_rows (site_queue s) !! job_id) as [j|]; [|apply at_moves; moves].
  case_decide; [apply at_moves; moves|]. apply (at_bind _ rows_same); [apply same_clients|moves|].
  intros cfg s' Hs'. destruct (run_job_now (mo_now m) (mo_t0 m) job_id force (site_queue s)) as [a q'] eqn:Hr.
  assert (clients s' (with_queue q' s')) as Hq.
  { apply queue_clients. rewrite (same_queue _ _ Hs').
    pose proof (client_run_now (mo_now m) (mo_t0 m) job_id force (site_queue s)) as Hstep. rewrite Hr in Hstep. by apply rtc_once. }
  destruct a; [apply at_update; [apply _|exact Hq|moves]..|apply at_moves; moves].
Qed.

(** The manual runs: a row recorded, and its end marked. *)
Lemma audit_start_clients `{TrailFaults} t kind payload st jid st1 :
  audit_start t kind payload st = (jid, st1) →
  rtc client_step (tr_queue st) (tr_queue st1)
  ∧ ∀ i, jid = Some i → ∃ j, q_rows (tr_queue st1) !! i = Some j ∧ j_hash j = None ∧ j_status j = Running.
Proof.
  unfold audit_start. destruct start_fault; [by intros [= <- <-]|].
  destruct (insert_manual_job t kind payload (tr_queue st)) as [[i q]|] eqn:Hi; [|by intros [= <- <-]].
  intros [= <- <-]. split; [apply rtc_once; by eapply client_manual|]. intros i' [= <-].
  unfold insert_manual_job in Hi. case_decide; [done|]. injection Hi as <- <-. cbn [tr_queue q_rows].
  eexists. by rewrite lookup_insert_eq.
Qed.

Lemma finish_run_clients `{TrailFaults} t1 t2 kind jid run st a st' :
  (∀ i, jid = Some i → ∃ j, q_rows (tr_queue st) !! i = Some j ∧ j_hash j = None ∧ j_status j = Running) →
  finish_run t1 t2 kind jid run st = (a, st') → rtc client_step (tr_queue st) (tr_queue st').
Proof.
  intros Hrow. unfold finish_run. destruct run as [result|e]; [|by intros [= _ <-]].
  destruct (audit_finish t1 t2 kind jid result st) as [st1|e] eqn:Hf; [|by intros [= _ <-]]. intros [= _ <-].
  unfold audit_finish in Hf. apply res_bind_ok in Hf as (raw & _ & Hf). cbv zeta in Hf. apply res_bind_ok in Hf as (n & _ & Hf).
  injection Hf as <-. destruct jid as [i|]; [|done]. destruct (Hrow i eq_refl) as (j & Hj & Hh & Hst).
  assert (j_status j ≠ Done) by (by rewrite Hst). destruct mark_fault; [done|].
  match goal with |- context [match (if ?b then ?x else ?y) with _ => _ end] => destruct (if b then x else y) as [q|] eqn:Hm; [|done] end.
  cbn [tr_queue]. apply rtc_once. case_match.
  - by eapply (client_manual_end _ _ _ (VDone _)).
  - by eapply (client_manual_end _ _ _ (VFailed _ _)).
Qed.

Lemma trigger_flex_clients `{Orchestrations, TrailFaults} config t0 t1 t2 payload st a st' :
  trigger_flex_fetch config t0 t1 t2 payload st = (a, st') → rtc client_step (tr_queue st) (tr_queue st').
Proof.
  unfold trigger_flex_fetch. destruct (dict_pop _ _ _) as [raw rest]. cbv zeta.
  destruct (job_kind_of _) as [kind|]; [|by intros [= _ <-]]. destruct config; [|by intros [= _ <-]].
  destruct (audit_start _ _ _ st) as [jid st1] eqn:Hs. apply audit_start_clients in Hs as [Hs Hrow]. intros Hf.
  etrans; [exact Hs|by eapply finish_run_clients].
Qed.

Lemma upload_flex_clients `{Uploads, TrailFaults} config t0 t1 t2 payload st a st' :
  upload_flex_xml config t0 t1 t2 payload st = (a, st') → rtc client_step (tr_queue st) (tr_queue st').
Proof.
  unfold upload_flex_xml. cbv zeta. case_decide; [by intros [= _ <-]|]. destruct config; [|by intros [= _ <-]].
  destruct (audit_start _ _ _ st) as [jid st1] eqn:Hs. apply audit_start_clients in Hs as [Hs Hrow]. intros Hf.
  etrans; [exact Hs|by eapply finish_run_clients].
Qed.

Lemma answered_clients s r : rtc client_step (site_queue s) (tr_queue r.2) → moves_at clients s (answered r).
Proof. intros Hr. unfold answered, http_error. apply at_update; [apply _|by split|moves]. Qed.

Lemma with_world_clients w : moves clients (update (with_world w)).
Proof. intros s r s' [= _ <-]. by split; [apply rtc_refl|..]. Qed.
Hint Resolve with_world_clients : moves.

Lemma trigger_clients payload : moves clients (trigger m payload).
Proof.
  intros s. unfold trigger. apply at_view. cbv zeta. destruct (dict_pop _ _ _) as [raw rest].
  assert (∀ s' (orch : Orchestrations) (faults : TrailFaults),
    moves_at clients s' (st ← view trail_in; answered (trigger_flex_fetch (core m) (mo_t0 m) (mo_t1 m) (mo_t2 m) payload st))) as Htail.
  { intros s' orch faults. apply at_view, answered_clients. destruct (trigger_flex_fetch _ _ _ _ _ _) as [a st'] eqn:Hr.
    by apply trigger_flex_clients in Hr. }
  destruct (job_kind_of _) as [kind|]; [destruct (core m) eqn:Hcore|]; [|apply Htail..].
  apply at_moves. apply moves_bind; [apply _|apply weak_moves; moves|intros faults]. apply moves_bind; [apply _|moves|intros _].
  intros s'. apply Htail.
Qed.

Lemma upload_clients payload : moves clients (upload m payload).
Proof.
  intros s. unfold upload. apply at_view. cbv zeta.
  assert (∀ s' (run : Uploads) (faults : TrailFaults),
    moves_at clients s' (st ← view trail_in; answered (upload_flex_xml (core m) (mo_t0 m) (mo_t1 m) (mo_t2 m) payload st))) as Htail.
  { intros s' run faults. apply at_view, answered_clients. destruct (upload_flex_xml _ _ _ _ _ _) as [a st'] eqn:Hr.
    by apply upload_flex_clients in Hr. }
  destruct (bool_decide _); [apply Htail|]. destruct (core m) eqn:Hcore; [|apply Htail].
  apply at_moves. apply moves_bind; [apply _|apply weak_moves; moves|intros faults]. apply moves_bind; [apply _|moves|intros _].
  intros s'. apply Htail.
Qed.

Lemma write_session_moves ranges : moves rows_same (write_session m ranges).
Proof.
  intros s r s'. unfold write_session. destruct (mo_open m); [|by intros [= _ <-]]. destruct ranges; [|by intros [= _ <-]].
  destruct (ensure_schema m s) as [[[]|] s1] eqn:E; intros [= _ <-]; by eapply ensure_moves.
Qed.
Hint Resolve write_session_moves : moves.

Lemma with_golden_clients g : moves clients (update (with_golden g)).
Proof. intros s r s' [= _ <-]. by split; [apply rtc_refl|..]. Qed.

Lemma config_write_moves (R : relation site) `{!PreOrder R} payload :
  (∀ s s', rows_same s s' → R s s') → (∀ g, moves R (update (with_golden g))) → moves R (config_write m payload).
Proof.
  intros Hsame Hgolden. assert (∀ A (c : web A), moves rows_same c → moves R c) as Hweak by (intros A c; by apply moves_weaken).
  unfold config_write, http_error. apply moves_bind; [apply _|moves|intros g]. cbv zeta.
  apply moves_bind; [apply _|moves|intros checked]. destruct checked; moves.
Qed.

Lemma config_write_clients payload : moves clients (config_write m payload).
Proof. apply (config_write_moves clients); [apply same_clients|apply with_golden_clients]. Qed.

(** The jobs stay as they are, and the schema only grows. *)
Record jobs_kept (s s' : site) : Prop := mkJobsKept {
  kept_queue : site_queue s' = site_queue s;
  kept_schema : schema_le (tb_schema (si_tables s)) (tb_schema (si_tables s'))
}.
#[export] Instance jobs_kept_preorder : PreOrder jobs_kept.
Proof. split; [by intros s; split|]. intros s1 s2 s3 [] []. split; [congruence|by etrans]. Qed.

(** Only the routes behind the write token touch the jobs. *)
Lemma handle_jobs_kept h rq : guard_of rq ≠ WriteToken → moves jobs_kept (handle version m h rq).
Proof.
  intros Hg. assert (∀ s s', rows_same s s' → jobs_kept s s') as Hsame by (intros s s' []; by split).
  assert (∀ A (c : web A), moves rows_same c → moves jobs_kept c) as Hweak by (intros A c; by apply moves_weaken).
  unfold handle. apply moves_bind; [apply _|apply Hweak; moves|intros _].
  apply moves_bind; [apply _|apply Hweak; moves|intros _].
  destruct (writes rq) eqn:Hw; [|by apply Hweak, read_moves]. destruct rq; try done. cbn [endpoint].
  apply (config_write_moves jobs_kept); [done|]. by intros g s r s' [= _ <-].
Qed.

Lemma endpoint_clients rq : moves clients (endpoint version m rq).
Proof.
  destruct (writes rq) eqn:Hw; [|by apply weak_moves, read_moves].
  destruct rq; try discriminate; cbn [endpoint];
    [apply enqueue_clients|apply run_now_clients|apply config_write_clients|apply trigger_clients|apply upload_clients].
Qed.

Lemma handle_clients h rq : moves clients (handle version m h rq).
Proof.
  unfold handle. apply moves_bind; [apply _|apply weak_moves; moves|intros _].
  apply moves_bind; [apply _|apply weak_moves; moves|intros _]. apply endpoint_clients.
Qed.

(** What the route's path, method and status add to the metrics. *)
Definition seen (rq : request) (r : halt + body) : observation :=
  mkObservation (route rq).2 (route rq).1 (status_of r) (mo_elapsed m).

Lemma serve_handle h rq s r s1 :
  handle version m h rq s = (r, s1) →
  serve version m h rq s = (r, with_http (observe (si_http s) (seen rq r)) s1).
Proof.
  intros Hh. pose proof (client_http _ _ (handle_clients _ _ _ _ _ Hh)) as Hhttp. unfold serve. rewrite Hh.
  unfold seen. destruct (route rq) as [method path]. f_equal. f_equal. rewrite Hhttp. by destruct r as [[]|].
Qed.

(** Who may write: the gateway, whoever presents the configured token, and, on the routes
    behind [require_write_token], anybody as long as none is configured. *)
Definition entitled (h : headers) (rq : request) : Prop :=
  ∃ expected, write_token m = Ok expected
    ∧ (from_gateway h = true ∨ (expected ≠ "" ∧ presents h expected) ∨ (expected = "" ∧ guard_of rq = WriteToken)).

Lemma admitted_entitled h rq : writes rq = true → admitted m h rq = Ok true ↔ entitled h rq.
Proof.
  unfold writes, admitted, entitled. rewrite bool_decide_eq_true. intros Hw. destruct (write_token m) as [expected|e]; cbn [mbind res_bind].
  2: { split; [by destruct (guard_of rq)|by intros (? & [=] & _)]. }
  destruct (decide (expected = "")) as [->|Hne].
  - destruct (guard_of rq); [done| |]; unfold require_write_token, require_config_write_identity; cbn.
    + split; [intros _; exists ""; auto|done].
    + split; [intros [= Hg]; exists ""; by auto|]. intros (e & [= <-] & [->|[[? _]|[_ ?]]]); done.
  - assert (∀ b, b = bool_decide (write_token_from_headers h = expected) || from_gateway h →
      (Ok b = (Ok true : res bool)) ↔ ∃ e, Ok expected = Ok e
        ∧ (from_gateway h = true ∨ (e ≠ "" ∧ presents h e) ∨ (e = "" ∧ guard_of rq = WriteToken))) as Hiff.
    { intros b ->. split.
      - intros [= Hb]. exists expected. split; [done|]. apply orb_true_iff in Hb as [Hb|Hb]; [|by left].
        apply bool_decide_eq_true, write_token_presented in Hb; [|done]. right. by left.
      - intros (e & [= <-] & Hb). f_equal. apply orb_true_iff. destruct Hb as [?|[[_ Hp]|[? _]]]; [by right| |done].
        left. by apply bool_decide_eq_true, write_token_presented. }
    destruct (guard_of rq); [done| |]; apply Hiff; unfold require_write_token, require_config_write_identity.
    + by rewrite decide_False.
    + by rewrite (bool_decide_eq_true_2 (expected ≠ "")).
Qed.

(** The rows of every table a request could change. *)
Definition same_rows (s s' : site) : Prop :=
  site_queue s' = site_queue s ∧ tb_fresh (si_tables s') = tb_fresh (si_tables s) ∧ si_golden s' = si_golden s
  ∧ si_world s' = si_world s.

Lemma rows_same_rows http s s' : rows_same s s' → same_rows s (with_http http s').
Proof. by intros []. Qed.

Lemma authorise_spec h rq s :
  authorise m h rq s = (match admitted m h rq with
                        | Ok true => inr () | Ok false => inl (HttpError 401 "invalid write token") | Raise e => inl (Escaped e)
                        end, s).
Proof. unfold authorise, mbind, web_bind, attempt. by destruct (admitted m h rq) as [[]|]. Qed.

Lemma db_conn_spec s :
  db_conn m s = (match connect_args m, mo_connect m with
                 | Raise e, _ => inl (Escaped e)
                 | Ok _, None => inr ()
                 | Ok _, Some e =>
                     if decide (exn_cls e = OperationalError) then inl (HttpError 503 ("database unavailable: " +:+ exn_str e))
                     else inl (Escaped e)
                 end, s).
Proof.
  unfold db_conn, mbind, web_bind, attempt. destruct (connect_args m) as [kw|e]; [|done]. destruct (mo_connect m); [|done]. by case_decide.
Qed.

(** C5. Every request to the application. Rows change only on the five writing routes, for a
    request that is entitled to it and finds the database; the job table then changes as a
    client of the step relation may change it, the schema only grows, the heartbeats stay.
    Who is not let in gets a 401 before anything else is looked at; on a route that needs
    the database, who finds none gets a 503. Neither leaves a trace but in the metrics, which
    count every request, but those to [GET /metrics], once, under its route, with the status
    it got. *)
Theorem request_guarded h rq s :
  let '(r, s') := serve version m h rq s in
  (same_rows s s' ∨ writes rq = true ∧ entitled h rq ∧ (needs_db rq = true → mo_connect m = None))
  ∧ rtc client_step (site_queue s) (site_queue s')
  ∧ tb_beats (si_tables s') = tb_beats (si_tables s) ∧ schema_le (tb_schema (si_tables s)) (tb_schema (si_tables s'))
  ∧ si_http s' = observe (si_http s) (seen rq r)
  ∧ (admitted m h rq = Ok false → r = inl (HttpError 401 "invalid write token") ∧ s' = with_http (si_http s') s)
  ∧ (admitted m h rq = Ok true → needs_db rq = true →
     ∀ kw e, connect_args m = Ok kw → mo_connect m = Some e →
       exn_cls e = OperationalError →
       r = inl (HttpError 503 ("database unavailable: " +:+ exn_str e)) ∧ s' = with_http (si_http s') s).
Proof.
  destruct (handle version m h rq s) as [r s1] eqn:Hh. rewrite (serve_handle _ _ _ _ _ Hh).
  destruct (handle_clients _ _ _ _ _ Hh) as [Hsteps Hbeats _ Hschema].
  split_and!; try done; revert Hh; unfold handle, mbind, web_bind; rewrite authorise_spec.
  - destruct (admitted m h rq) as [[]|] eqn:Ha; [|intros [= _ <-]; by left..].
    destruct (writes rq) eqn:Hw.
    + apply (admitted_entitled _ _ Hw) in Ha. destruct (needs_db rq) eqn:Hn; [|by right].
      rewrite db_conn_spec. destruct (connect_args m); [|intros [= _ <-]; by left].
      destruct (mo_connect m); [case_decide; intros [= _ <-]; by left|]. by right.
    + intros Hr. left. apply rows_same_rows. revert Hr. destruct (needs_db rq).
      * destruct (db_conn m s) as [[h0|[]] s2] eqn:Hd; apply db_moves in Hd; [by intros [= _ <-]|].
        intros Hr. etrans; [exact Hd|]. by eapply read_moves.
      * apply read_moves, Hw.
  - intros Hh Ha. rewrite Ha in Hh. injection Hh as <- <-. done.
  - intros Hh Ha Hn kw e Hkw Hc He. rewrite Ha, Hn, db_conn_spec, Hkw, Hc, decide_True in Hh by done. injection Hh as <- <-. done.
Qed.
End clients.

(** ** Examples *)

(** Nothing fails; the write token is ["write"]. *)
Definition token_process : Process := {|
  environ := λ name, if decide (name = "FLEX_QUERY_WRITE_TOKEN") then Some "write" else None;
  is_file := λ _, false; yaml_load := λ _, Ok PNone; package_root := "/app" |}.
Definition fine_moment (connect : option exn) : moment :=
  mkMoment token_process connect None None None 0 (λ _, 0) 0 0 0 "2026-09-10" sample_surroundings (λ _, Ok []) no_trail_faults
    (Ok ()) (Ok ()) (Ok None) (Ok None) None (λ _, Ok 0) (λ _ _, Ok None) (Ok (None, 0)) (Ok (None, 0)) None None
    (λ _ _, Ok []) (float_of_Z 0).

(** An empty database, and an API that just started. *)
Definition new_site : site := mkSite (mkTables empty_queue ∅ ∅ ∅) (mkGolden None [] 1) recent_world false reset.

Definition sample_serve (connect : option exn) (h : headers) (rq : request) (s : site) : (halt + body) * site :=
  @serve sample_repr sample_sha sample_zones sample_names sample_type_name sample_collation sample_float_repr sample_reports
    sample_writers sample_faults "v" (fine_moment connect) h rq s.

Fixpoint statuses_of (rqs : list (option exn * headers * request)) (s : site) : list Z :=
  match rqs with
  | [] => []
  | (connect, h, rq) :: rest => let '(r, s') := sample_serve connect h rq s in status_of r :: statuses_of rest s'
  end.

(** The job list fails until a route has made the tables; an enqueue needs the token, which is
    looked at before the database is. *)
Example requests_in_turn :
  let anybody := mkHeaders None None None in
  let refused := Some (Exn OperationalError "connection refused") in
  statuses_of
    [(None, anybody, GetHealth); (None, anybody, GetQueueSummary); (None, anybody, PostEnqueue trades_request);
     (refused, anybody, PostEnqueue trades_request); (refused, by_token, PostEnqueue trades_request);
     (None, by_token, PostEnqueue trades_request); (None, anybody, GetQueueSummary); (None, by_token, PostRunNow 1 false);
     (None, by_token, PostRunNow 2 false)] new_site
  = [200; 500; 401; 401; 503; 200; 200; 200; 404].
Proof. vm_compute. reflexivity. Qed.
