(* ===== verification/Plant.v ===== *)
(** * The whole service

    The worker's life, the API and the slot command over one database. A history is any
    sequence of turns and starts of the worker, requests, restarts of the API, runs of the
    slot command and trims; and the others may also act inside a turn, between any two of the
    worker's statements and before any try of one. What a whole history keeps, what a job it
    shows as done means, and what the worker makes of it once the outages are over. *)
From S2P Require Import Prelude Pytext PyVal Json Retry JobQueue Pytime Ddl FlexClient Handlers ConfigRw Ingest Coverage.
From S2P Require Import Transactions Trades Cron Schedule Diagnose OpsCheck HttpMetrics Config SlotCli Manual Metrics Dashboard Routes RawPeek Worker Progress.
From S2P Require Import Steady Outage Recovery System Life App.

(** What is shared besides the worker's tables: the configuration in the database and the
    world the fetches act on; and the API process's migration flag and metrics. *)
Record rest := mkRest { re_golden : golden; re_world : world; re_migrated : bool; re_http : HttpMetrics }.

(** The service, and what the API finds of it and leaves. *)
Notation plant := (life rest).
Definition site_of (s : tables * rest) : site := mkSite s.1 (re_golden s.2) (re_world s.2) (re_migrated s.2) (re_http s.2).
Definition of_site (x : site) : tables * rest := (si_tables x, mkRest (si_golden x) (si_world x) (si_migrated x) (si_http x)).

(** What the others do. *)
Inductive outside :=
| Request (m : moment) (h : headers) (rq : request)
| ApiRestart
| SlotRun (process : Process) (args : cli_args) (connect : Z → res ()) (migrate commit : option exn) (e : env)
    (today : string) (t : Z)
| Trim (t keep_days keep_max : Z).

(** A turn of the worker, with what the others do at its stages; or one of the others alone. *)
Inductive event :=
| Turn (ks : Z → tick_clock) (o : outages rest) (su : surroundings) (others : stage → Z → list outside)
| Others (ev : outside).

(** The fetches read the configuration of the moment. *)
Definition configured (g : golden) (su : surroundings) : surroundings :=
  mkSurroundings (su_session su) (su_ready su) (su_env su) g (su_today su) (su_db su).
Definition put_world (w : world) (e : rest) : rest := mkRest (re_golden e) w (re_migrated e) (re_http e).

Section plant.
Context `{PyRepr, Sha256, ZoneDb, ZoneNames, ExnNames, Collation, FloatRepr, Reports, CoreWriters, RunContext}.
Context (cfg : worker_config) (on : bool) (pod version : string).
(** What a dispatch that is killed half way leaves of the world. *)
Context (cut : surroundings → claimed → world → world).

(** The dispatch in its surroundings. *)
Definition fetch (su : surroundings) : dispatcher rest :=
  mkDispatcher
    (λ c fresh e, let '(r, w) := run_job (configured (re_golden e) su) c fresh (re_world e) in (r, put_world w e))
    (λ c e, put_world (cut (configured (re_golden e) su) c (re_world e)) e).

(** The slot command, its migrations included: a process of its own. *)
Definition slot_run (process : Process) (args : cli_args) (connect : Z → res ()) (migrate commit : option exn) (e : env)
    (today : string) (t : Z) (tb : tables) : tables :=
  let '(schema, (sc, _)) := match migrate with
                            | Some ex => (Raise ex, (tb_schema tb, false))
                            | None => ensure_op (λ _, commit) 0 (tb_schema tb, false)
                            end in
  let '(_, _, q) := main args connect schema e today t (tb_queue tb) in
  let reached := bool_decide (ca_slot args ∈ SLOT_NAMES) && is_ok (opened args connect).1 in
  set_schema (if reached then sc else tb_schema tb) (set_queue q tb).

Definition befall (s : tables * rest) (ev : outside) : tables * rest :=
  match ev with
  | Request m h rq => of_site (serve version m h rq (site_of s)).2
  | ApiRestart => (s.1, mkRest (re_golden s.2) (re_world s.2) false reset)
  | SlotRun process args connect migrate commit e today t => (slot_run process args connect migrate commit e today t s.1, s.2)
  | Trim t keep_days keep_max =>
      match trim_old_jobs t keep_days keep_max (tb_queue s.1) with
      | Ok (_, q) => (set_queue q s.1, s.2)
      | Raise _ => s
      end
  end.

(** A turn's outages, with the others at work around it. *)
Definition amid (others : stage → Z → list outside) (o : outages rest) : outages rest :=
  mkOutages (o_ensure o) (o_commit o) (o_claim o) (o_reclaim o) (o_catchup o) (o_cut o) (o_mark o) (o_defer o) (o_beat o)
    (λ st i s, foldl befall s (others st i)) (o_kill o).

Definition happen (x : plant) (ev : event) : plant :=
  match ev with
  | Turn ks o su others => live cfg on pod version ks (amid others o) (fetch su) x
  | Others ev => match x with Up p => Up (share (befall (p_shared p) ev) p) | Down s => Down (befall s ev) end
  end.

Definition history (evs : list event) (x : plant) : plant := foldl happen x evs.

(** ** The history is a run of the system *)

Notation idle_ok q := (sys_ok (mkSys q Idle)).

Lemma slot_run_clients process args connect migrate commit e today t tb :
  rtc client_step (tb_queue tb) (tb_queue (slot_run process args connect migrate commit e today t tb)).
Proof.
  unfold slot_run. destruct (match migrate with Some ex => _ | None => _ end) as [schema [sc b]].
  destruct (main _ _ _ _ _ _ _) as [[code pauses] q] eqn:Hm. cbn [set_schema set_queue tb_queue].
  unfold main in Hm. case_decide; [by injection Hm as _ _ <-|]. destruct (opened args connect) as [[scfg|ex] ps]; [|by injection Hm as _ _ <-].
  unfold enqueue_connected in Hm. destruct schema; [|by injection Hm as _ _ <-].
  destruct (resolve_flex_tokens e) as [[[host sec] hs] ss]. case_decide; [by injection Hm as _ _ <-|].
  destruct (enqueue_slot _ _ _ _ _ _) as [[r q']|] eqn:He; injection Hm as _ _ <-; [|done].
  apply enqueue_slot_inv in He as (_ & prio & maxa & Hi & _). apply rtc_once. by eapply client_insert.
Qed.

(** The others leave the job table as clients may leave it. *)
Lemma befall_clients s ev : rtc client_step (tb_queue s.1) (tb_queue (befall s ev).1).
Proof.
  destruct ev as [m h rq| |process args connect migrate commit e today t|t days keep]; cbn [befall].
  - destruct (handle version m h rq (site_of s)) as [r s1] eqn:Hh. rewrite (serve_handle _ _ _ _ _ _ _ Hh).
    exact (client_steps_to _ _ (handle_clients _ _ _ _ _ _ _ Hh)).
  - apply rtc_refl.
  - apply slot_run_clients.
  - destruct (trim_old_jobs t days keep (tb_queue s.1)) as [[n q]|] eqn:Ht; [|apply rtc_refl].
    apply rtc_once. by eapply client_trim.
Qed.

Lemma amid_orderly others o : orderly (amid others o).
Proof.
  intros st i s. cbn [amid o_meanwhile]. revert s. induction (others st i) as [|ev evs IH]; intros s; [apply rtc_refl|].
  etrans; [apply befall_clients|apply IH].
Qed.

Lemma others_shared x ev : shared_in (happen x (Others ev)) = befall (shared_in x) ev.
Proof. by destruct x. Qed.

Lemma happen_steps x ev : rtc (sys_step (wc_policy cfg)) (mkSys (queue_in x) Idle) (mkSys (queue_in (happen x ev)) Idle).
Proof.
  destruct ev as [ks o su others|ev]; [apply live_refines, amid_orderly|].
  unfold queue_in. rewrite others_shared. apply client_steps, befall_clients.
Qed.

Lemma history_snoc evs ev x : history (evs ++ [ev]) x = happen (history evs x) ev.
Proof. unfold history. by rewrite foldl_app. Qed.

Lemma history_app evs evs' x : history (evs ++ evs') x = history evs' (history evs x).
Proof. apply foldl_app. Qed.

Lemma history_ok evs x : idle_ok (queue_in x) → idle_ok (queue_in (history evs x)).
Proof.
  intros Hx. induction evs as [|ev evs IH] using rev_ind; [done|]. rewrite history_snoc.
  exact (rtc_invariant _ _ _ _ (sys_step_ok (wc_policy cfg)) IH (happen_steps _ ev)).
Qed.

(** C4. Whatever happens to the service, turns, outages, kills and starts of the worker, requests
    of any kind by anybody, restarts of the API, runs of the slot command and trims, in any
    order, between the worker's turns and between the statements of one, also where one is
    tried again: to the job table it is a run of the step relation. The budget of attempts,
    the single active job per identity and the life cycle, proved of all its runs, therefore
    hold of the service. *)
Theorem plant_refines_system evs x :
  rtc (sys_step (wc_policy cfg)) (mkSys (queue_in x) Idle) (mkSys (queue_in (history evs x)) Idle).
Proof. induction evs as [|ev evs IH] using rev_ind; [done|]. rewrite history_snoc. etrans; [exact IH|apply happen_steps]. Qed.

(** ** What a job the service shows as done means *)

(** One of the turns ran the fetch of the job in the row to the end: it got every report it
    asks for and landed all their rows, as many as the result says. *)
Definition fetched_in (evs : list event) (x : plant) (j' : job) : Prop :=
  ∃ before ks o su others after c tb e out,
    evs = before ++ Turn ks o su others :: after
    ∧ dispatched ks (amid others o) (history before x) = Some (c, (tb, e))
    ∧ j_kind j' = c_kind c ∧ j_payload j' = c_payload c ∧ j_result j' = Some out
    ∧ landed (configured (re_golden e) su) (strip (c_kind c)) (c_payload c)
        (re_world e) (re_world (di_run (fetch su) c (tb_fresh tb) e).2) out.

Lemma fetched_later evs evs' x j' : fetched_in evs x j' → fetched_in (evs ++ evs') x j'.
Proof.
  intros (before & ks & o & su & others & after & c & tb & e & out & -> & Hrest).
  exists before, ks, o, su, others, (after ++ evs'), c, tb, e, out. split; [|exact Hrest]. by rewrite <-app_assoc.
Qed.

Lemma history_done evs x i j' :
  idle_ok (queue_in x) → errors_named →
  q_rows (queue_in (history evs x)) !! i = Some j' → j_status j' = Done → is_Some (j_hash j') →
  q_rows (queue_in x) !! i = Some j' ∨ fetched_in evs x j'.
Proof.
  intros Hx Hnamed Hj' Hst Hh. induction evs as [|ev evs IH] using rev_ind; [by left|]. rewrite history_snoc in Hj'.
  pose proof (history_ok evs x Hx) as [Hok _ _]. cbn [s_queue] in Hok. set (y := history evs x) in *.
  assert (q_rows (queue_in y) !! i = Some j' ∨ fetched_in (evs ++ [ev]) x j') as [Hold|?]; [|
    by destruct (IH Hold); [left|right; apply fetched_later]|by right].
  destruct ev as [ks o su others|ev].
  - destruct (live_done cfg on pod version ks (amid others o) (amid_orderly _ _) (fetch su) y i j' Hok Hj' Hst Hh)
      as [?|(c & tb & e & out & fresh & e' & Hc & Hrun & Hout & Hk & Hp)]; [by left|right].
    exists evs, ks, o, su, others, [], c, tb, e, out. split_and!; [done..|]. rewrite Hrun. cbn [snd].
    cbn [di_run fetch] in Hrun. destruct (run_job _ _ _ _) as [r1 w'] eqn:Hjob. injection Hrun as -> <-. by eapply run_job_landed.
  - left. unfold queue_in in *. rewrite others_shared in Hj'.
    destruct (clients_moved none_done _ _ (befall_clients (shared_in y) ev) Hok) as [_ _ _ Hd]. by destruct (Hd i j' Hj' Hst Hh).
Qed.

(** C1. A queued job that the service shows as done, it did: it was done from the start, or one
    turn of the worker ran its fetch to the end, with the configuration and the world it
    found: it got every report it asks for and landed all their rows, as many as the result
    says. Nothing else makes a queued job done: no request, manual runs and uploads
    included, no slot command, no outage, kill or restart, whatever their order and wherever
    in a turn of the worker they come. *)
Theorem plant_done_landed evs x i j' :
  idle_ok (queue_in x) → errors_named →
  q_rows (queue_in (history evs x)) !! i = Some j' → j_status j' = Done → is_Some (j_hash j') →
  q_rows (queue_in x) !! i = Some j'
  ∨ ∃ before ks o su others after c tb e out,
      evs = before ++ Turn ks o su others :: after
      ∧ dispatched ks (amid others o) (history before x) = Some (c, (tb, e))
      ∧ j_kind j' = c_kind c ∧ j_payload j' = c_payload c ∧ j_result j' = Some out
      ∧ landed (configured (re_golden e) su) (strip (c_kind c)) (c_payload c)
          (re_world e) (re_world (di_run (fetch su) c (tb_fresh tb) e).2) out.
Proof. apply history_done. Qed.

(** ** After the outages *)

(** Who leaves the jobs alone: reads of any kind, configuration writes, restarts of the API. *)
Definition harmless (ev : outside) : Prop :=
  match ev with Request _ _ rq => guard_of rq ≠ WriteToken | ApiRestart => True | SlotRun _ _ _ _ _ _ _ _ | Trim _ _ _ => False end.

Lemma befall_harmless s ev :
  harmless ev → tb_queue (befall s ev).1 = tb_queue s.1 ∧ schema_le (tb_schema s.1) (tb_schema (befall s ev).1).
Proof.
  destruct ev as [m h rq| |process args connect migrate commit e today t|t days keep]; intros Hh; cbn [befall]; [|done..].
  destruct (handle version m h rq (site_of s)) as [r s1] eqn:Hr. rewrite (serve_handle _ _ _ _ _ _ _ Hr).
  destruct (handle_jobs_kept _ _ _ _ Hh _ _ _ Hr) as [Hq Hs]. by split.
Qed.

(** The first [d] turns without outages, in such company. *)
Definition fine_turns (kss : nat → Z → tick_clock) (srs : nat → surroundings) (others : nat → stage → Z → list outside) (d : nat)
    : list event :=
  map (λ m, Turn (kss m) fine (srs m) (others m)) (seq 0 d).

Lemma amid_fine others :
  (∀ st i, Forall harmless (others st i)) → ∃ mw, gentle mw ∧ amid others fine = in_company mw.
Proof.
  intros Hall. exists (λ st i s, foldl befall s (others st i)). split; [|done]. intros st i s. specialize (Hall st i). revert s.
  induction Hall as [|ev evs Hev _ IH]; intros s; [done|]. cbn [foldl]. destruct (IH (befall s ev)) as [-> Hs].
  destruct (befall_harmless s ev Hev) as [-> Hs0]. split; [done|by etrans].
Qed.

Lemma fine_turns_lives kss srs others d x :
  history (fine_turns kss srs others d) x
  = lives cfg on pod version kss (λ m, amid (others m) fine) (λ m, fetch (srs m)) 0 d x.
Proof.
  induction d as [|d IH]; [done|]. unfold fine_turns. rewrite seq_S, map_app, history_app, lives_snoc.
  unfold fine_turns in IH. by rewrite IH.
Qed.

(** C2. The worker's whole life. Its connections may be lost before, in and after any statement,
    its process killed anywhere and started again, requests, restarts of the API, runs of the
    slot command and trims come in between anywhere, the fetches answer anything, for as long
    as it takes. Once Postgres stays up and nobody else touches the jobs (reads of any kind,
    configuration writes and restarts of the API may go on for ever, in the turns too), time
    goes on, nobody holds a lock and, if the catch-up is on, IB no longer throttles, there
    comes a turn after which the process runs and every job of the table is done or failed;
    and a queued one that is done was so from the start, or in one turn its fetch was run to
    the end. *)
Theorem whole_life evs x kss srs others :
  (∀ m, tk_locked (kss m 0) = ∅) → diverging (λ m, kss m 0) → errors_named → idle_ok (queue_in x) →
  (∀ m st i, Forall harmless (others m st i)) →
  let y := history evs x in
  let turns d := fine_turns kss srs others d in
  on = false ∨ (∀ m c c' tb re e,
    dispatched (kss m) (amid (others m) fine) (history (turns m) y) = Some (c', (tb, re)) →
    (di_run (fetch (srs m)) c (tb_fresh tb) re).1 = Raise e → classify_flex_error (exn_str e) ≠ THROTTLED) →
  ∃ d p, history (evs ++ turns d) x = Up p
    ∧ ∀ i, is_Some (q_rows (queue_in y) !! i) →
        ∃ j', q_rows (tb_queue (p_shared p).1) !! i = Some j' ∧ (j_status j' = Done ∨ j_status j' = Failed)
          ∧ (j_status j' = Done → is_Some (j_hash j') →
             q_rows (queue_in x) !! i = Some j' ∨ fetched_in (evs ++ turns d) x j').
Proof.
  intros Hunlocked Hticks Hnamed Hx Hothers y turns Hcalm. pose proof (history_ok evs x Hx) as Hy. fold y in Hy.
  destruct (outages_recovered cfg on pod version kss (λ m, amid (others m) fine) (λ m, fetch (srs m)) y Hunlocked Hticks 0)
    as (d & p & Hp & Hall); [intros m; apply amid_orderly|by intros m _; apply amid_fine| |exact Hy|].
  - destruct Hcalm as [?|Hcalm]; [by left|right]. intros m c e _. unfold life_answers. rewrite <-fine_turns_lives.
    specialize (Hcalm m c). unfold turns in Hcalm. destruct (dispatched _ _ _) as [[c' [tb re]]|]; [by eapply Hcalm|done].
  - cbn [Nat.add] in Hp. rewrite <-fine_turns_lives in Hp. exists d, p. rewrite history_app. split; [exact Hp|].
    intros i Hi. destruct (Hall i Hi) as (j' & Hj' & Hended). exists j'. split_and!; [done|done|]. intros Hst Hh.
    apply (history_done _ x i); [done|done| |done|done]. rewrite history_app. fold y. unfold turns. by rewrite Hp.
Qed.
End plant.

(** ** Examples *)

Definition old_plant : plant := Down (old_tables, mkRest sample_golden recent_world false reset).

Definition sample_history (evs : list event) : plant :=
  @history sample_repr sample_sha sample_zones sample_names sample_type_name sample_collation sample_float_repr sample_reports
    sample_writers sample_faults sample_config false "pod" "v" (λ _ _ w, w) evs old_plant.

Definition nobody : stage → Z → list outside := λ _ _, [].

(** The operator asks for the second job to run now, just before the end of the first is
    written. *)
Definition impatient (st : stage) (i : Z) : list outside :=
  if decide (st = AtMark) then [Request (fine_moment None) by_token (PostRunNow 2 false)] else [].

(** A start of the worker, a look at the queue, and the turn that runs the trades job. *)
Definition sample_events : list event :=
  [Turn (λ _, hourly 0) fine sample_surroundings nobody;
   Others (Request (fine_moment None) (mkHeaders None None None) GetQueueSummary);
   Turn (λ _, hourly 1) fine sample_surroundings impatient].

(** The rough start of [Recovery], with the samples' fetches and the impatient operator. *)
Definition rough_events : list event :=
  map (λ n, Turn (λ _, hourly n) (rough_start n) sample_surroundings impatient) (seq 0 7).

Definition statuses (x : plant) : list (Z * job_status) :=
  map (λ ij, (ij.1, j_status ij.2)) (map_to_list (q_rows (queue_in x))).

(** What follows them: turns without outages, in which the API is looked at and restarted. *)
Definition watching (st : stage) (i : Z) : list outside :=
  if decide (st = AtMark) then [Request (fine_moment None) (mkHeaders None None None) GetQueueSummary; ApiRestart] else [].
Definition calm_events (d : nat) : list event := fine_turns (λ n _, hourly (7 + n)) (λ _, sample_surroundings) (λ _, watching) d.

Lemma watching_harmless st i : Forall harmless (watching st i).
Proof. unfold watching. case_decide; repeat constructor. discriminate. Qed.

(** The trades job was fetched, but its end could not be written: it is reclaimed and fetched
    again. The cash job is killed in its dispatch. *)
Example rough_history_ends :
  map (λ d, statuses (sample_history (rough_events ++ calm_events d))) [0; 5; 23]%nat
  = [[(2, Running); (1, Running)]; [(2, Running); (1, Done)]; [(2, Done); (1, Done)]].
Proof. vm_compute. reflexivity. Qed.

Lemma later_diverging : diverging (λ n, hourly (7 + n)).
Proof. intros t. destruct (hourly_diverging t) as [n0 Hn0]. exists n0. intros n Hn. apply Hn0. lia. Qed.

Lemma whole_life_witness :
  ∃ d p, sample_history (rough_events ++ calm_events d) = Up p
    ∧ ∀ i, is_Some (q_rows (queue_in (sample_history rough_events)) !! i) →
        ∃ j', q_rows (tb_queue (p_shared p).1) !! i = Some j' ∧ (j_status j' = Done ∨ j_status j' = Failed).
Proof.
  destruct (@whole_life sample_repr sample_sha sample_zones sample_names sample_type_name sample_collation sample_float_repr
              sample_reports sample_writers sample_faults sample_config false "pod" "v" (λ _ _ w, w) rough_events old_plant
              (λ n _, hourly (7 + n)) (λ _, sample_surroundings) (λ _, watching) (λ _, eq_refl) later_diverging sample_named
              two_jobs_idle (λ _, watching_harmless) (or_introl eq_refl)) as (d & p & Hup & Hall).
  exists d, p. split; [exact Hup|]. intros i Hi. destruct (Hall i Hi) as (j' & Hj' & Hst & _). exists j'. exact (conj Hj' Hst).
Defined.

Lemma sample_history_done :
  ∃ j', q_rows (queue_in (sample_history sample_events)) !! 1 = Some j' ∧ j_status j' = Done ∧ is_Some (j_hash j')
    ∧ j_kind j' = "flex-trades".
Proof. eexists. split; [vm_compute; reflexivity|]. split; [reflexivity|]. split; [eexists; reflexivity|reflexivity]. Qed.

Lemma plant_done_landed_witness :
  ∃ j' before ks o su others after c tb e out,
    q_rows (queue_in (sample_history sample_events)) !! 1 = Some j' ∧ j_status j' = Done
    ∧ sample_events = before ++ Turn ks o su others :: after ∧ j_result j' = Some out
    ∧ @landed sample_reports sample_writers sample_zones (configured (re_golden e) su) (strip (c_kind c)) (c_payload c)
        (re_world e)
        (re_world (di_run (@fetch sample_repr sample_zones sample_reports sample_writers sample_faults (λ _ _ w, w) su)
                     c (tb_fresh tb) e).2) out.
Proof.
  destruct sample_history_done as (j' & Hj' & Hst & Hhash & _).
  destruct (@plant_done_landed sample_repr sample_sha sample_zones sample_names sample_type_name sample_collation sample_float_repr
              sample_reports sample_writers sample_faults sample_config false "pod" "v" (λ _ _ w, w) sample_events old_plant 1 j'
              two_jobs_idle sample_named Hj' Hst Hhash)
    as [Hold|(before & ks & o & su & others & after & c & tb & e & out & Hevs & _ & _ & _ & Hout & Hl)].
  - exfalso. revert Hst. vm_compute in Hold. injection Hold as <-. discriminate.
  - exists j', before, ks, o, su, others, after, c, tb, e, out. exact (conj Hj' (conj Hst (conj Hevs (conj Hout Hl)))).
Defined.
